(* ===== verification/_CoqProject ===== *)
-Q . S2P
Prelude.v
Past.v
GoStrings.v
GoEncoding.v
GoTime.v
ApiKeys.v
TurnCreds.v
IntegratorApi.v
Grpc.v
Version.v
Sharding.v
Routing.v
RoutingSteps.v
RoutingProps.v
BePb.v
Store.v
StoreInv.v
Attestation.v
Platform.v
Backend.v
BackendSteps.v
BackendProps.v
RosterPb.v
AdminApi.v
AdminProps.v
AdminRoutes.v
Replies.v
Registry.v
RegistryRefine.v
HubSrv.v
HubProps.v
RouterSpec.v
RouterLive.v
HubRouter.v
HubRouterProps.v
Tenancy.v
HubTenancy.v
StandaloneHub.v
GoPath.v
Metrics.v
Standalone.v
StandaloneProps.v
Lifetime.v
History.v
Concurrent.v
HubMain.v
ServerOptions.v
Program.v
Demo.v
ProgramDemo.v
AdminDemo.v
RegistryDemo.v
HubDemo.v
RouterDemo.v
TenancyDemo.v
StandaloneDemo.v
