(* ===== verification/Prelude.v ===== *)
(** * The Wispers hub, verified

    The repository is a Go program, the hub of a peer-to-peer network. Nodes
    are grouped into connectivity groups; each node keeps a serving stream
    open to the hub, and the hub routes requests of one node to another, hands
    out STUN and TURN configuration, and stores a signed roster per group. The
    hub can run against a hosted backend, or standalone, with its own backend
    and admin API over a sqlite file. This library models the program's own
    logic and proves what each part promises.

    ** The program and the files of the library

    The request path, from the outside in:
    - Program.v: [main] of connect/hub/hub.go and what it starts: the flags,
      the managed and the standalone run, the listeners and servers as
      resources that are opened, served and closed, and [openState], [Serve] and
      [Close] of standalone.go.
    - HubMain.v: the rest of hub.go, hub_flagdefs.go and servertime.go. Run
      modes, the choice of the state's path and of the STUN server, the TURN
      secret, and the chain of interceptors around a unary call: the server time
      outermost, then Metrics.v (metrics.go), then Version.v
      (version.go), then the handler. ServerOptions.v: the options the servers
      are made with, and the same chain around a stream.
    - HubSrv.v, HubProps.v: connect/hub/hubsrv.go, the handlers that nodes
      call. A handler authenticates (rate limiter, then backend) and then calls
      the backend and the router.
    - Routing.v, RoutingSteps.v, RoutingProps.v: connect/hub/routing.go, the
      connectors, futures and connectivity groups. RouterSpec.v: its
      specification, a table of sessions and requests; RouterLive.v: the
      progress of its callers. Sharding.v: connect/hub/sharding.go, the shard
      rule and the shed timer.
    - Backend.v, BackendSteps.v, BackendProps.v: connect/hub/standalone_grpc.go,
      the RPCs of the standalone backend. BePb.v: the messages of
      proto/connect/be.proto.
    - AdminApi.v, AdminProps.v: connect/hub/standalone_rest.go, the handlers of
      the admin API; AdminRoutes.v: its table of routes and their middleware.
      RosterPb.v: the rosters of the client's proto package.
    - Standalone.v, StandaloneProps.v: connect/hub/standalone.go, what is made
      once when a state is opened.
    - Store.v, StoreInv.v: standalone_schema.sql and every SQL statement of the
      three files above. Platform.v: the clock, the random source and the
      database driver they run on. Replies.v: each call of the backend service
      with its answer.
    - Registry.v, RegistryRefine.v: the abstract specification of the backend
      and its admin API, a registry of groups and their nodes, and that they
      implement it. Lifetime.v, History.v: a state's whole life, every opening
      of it and every call in between, and what its answers tell of each other;
      Concurrent.v: the same for calls that interleave. Past.v: the generic part
      of both, what a list of happenings tells of its past.
    - ApiKeys.v, TurnCreds.v, IntegratorApi.v, Attestation.v: the files of the
      same names under connect/shared.
    - GoStrings.v, GoEncoding.v, GoTime.v, GoPath.v, Grpc.v: the part of Go's
      standard library and of gRPC's error values that the code uses.
    - HubRouter.v, HubRouterProps.v: the standalone hub put together, the
      handlers of hubsrv.go over the router of routing.go and the backend of
      standalone_grpc.go, among other goroutines.
    - StandaloneHub.v: the standalone process, node calls and admin requests on
      one state.
    - Tenancy.v, HubTenancy.v: connectivity groups as tenants, of the backend
      and of the whole hub.
    - Demo.v, HubDemo.v, RouterDemo.v, TenancyDemo.v, AdminDemo.v,
      StandaloneDemo.v, ProgramDemo.v, RegistryDemo.v: concrete instances of
      every interface, a small hub, and the theorems' witnesses on it.

    ** How the code is modelled

    A Go [(T, error)] is a [result], a function that may panic gives an
    [outcome], and a handler is a computation [ST S E A]: it threads a state,
    stops early with an error, and keeps the state it reached. Fixed-width
    integers are [Z] with [wrap32] and [wrap64] where the code can overflow,
    byte strings are [string], maps are [gmap].

    _The database._ A table is a map by its primary key, or a list where
    insertion order shows. A SQL statement is a function of the database; the
    driver holds one connection, so a statement is atomic, and so is the
    registration transaction, which is rolled back on every error. Handlers
    are sequences of statements: [Platform.exec] waits for the connection, and
    the class [Platform.Others] is what others do to the database meanwhile
    ([AdminProps.crowd]: any calls, during which others again make calls; by
    default, nothing). The relation [StoreInv.db_step] is the specification of
    the atomic changes the database may undergo. Every RPC and every admin
    request refines it among all others who do ([BackendSteps.serve_steps],
    [AdminProps.calls_refine_steps]), so a theorem about [rtc db_step] holds
    under any interleaving of calls.

    _The registry._ [Registry.Registry] is what callers can know: the live
    groups, their nodes by the hash of the secret, rosters and next numbers.
    [RegistryRefine.abs] forgets the rest of a database. An answered call has an
    [effect] on the registry, which has to have [explained] the answer; [phases]
    says at how many moments a call happens. A [history] is the list of answers
    given in the life of a state, from the empty file on. Of interleaved calls
    the moments are listed ([Concurrent.happens]), those of the calls served
    and those of the calls that others make meanwhile ([Concurrent.Makes]).

    _The world._ [Platform.World] is the database with a counter of the
    questions put to the platform. An answer (time, random bytes, UUID, a
    failure of the driver) may depend on the counter: nothing is assumed of
    two answers together, not even that the clock moves forward. A theorem
    that needs an answer, such as the two clock readings of a registration,
    says so in a hypothesis.

    _The router._ Pointers are indices into the connectors and futures
    allocated so far. Each critical section, channel operation and atomic
    access is one definition of Routing.v, and [RoutingSteps.exec] is one
    action of one goroutine: callers of [routeRequest] move through four
    program points, [connect] is split where it cancels the previous
    connector, and responses are arbitrary. [RoutingSteps.reachable] is any
    interleaving; the invariant [RoutingSteps.inv] holds there, and
    [RouterSpec.table] abstracts it to a table in which [connect] is atomic.

    _The process._ [main] and the run functions give a trace of what they open,
    serve and close, next to the way they end; what is outside (the files, the
    sockets, which server fails first) is the record [Program.Outside].

    _Tenants._ [Tenancy.same_tenant] and [HubTenancy.same_view] relate two
    states that one group cannot tell apart. A computation is followed in two
    runs at once: [HubTenancy.agrees] has a rule per construct, and one walk
    through the handlers serves both halves of isolation, by the choice of the
    relation.

    _Interfaces._ [HubSrv.BackendClient], [HubSrv.RouterClient] and
    [HubSrv.RateLib] state what the node-facing handlers call; the theorems of
    HubProps.v hold for every implementation, and [HubProps.standalone_client]
    makes the standalone backend one; HubRouter.v implements both over the
    interleaved router: wherever a handler waits, the schedule
    [HubRouter.Others] lets the other goroutines do anything to the router and
    the database, and progress is assumed where the code relies on it (locks
    are released, send loops run, contexts end); between the statements of its
    backend calls, [Platform.Others] act. [GoEncoding.Crypto], [Platform.Platform],
    [Attestation.JwtLib], [Standalone.KeyLib], [RosterPb.RosterPb],
    [Routing.RoutingPb], [HubSrv.HubPb], [AdminRoutes.Gin],
    [ServerOptions.GrpcServer] and [Program.Registrar] stand for code outside
    the repository, with the documented laws the theorems need.

    ** What is proved

    - Registration: a minted token registers a node in its group whatever runs
      in between, once, under a number never given before, and the returned
      secret, alone among secrets by hash, authenticates the node until it is
      deleted; a failed registration leaves no trace (AdminProps.v,
      BackendProps.v).
    - The database: it is well formed after any openings and calls (Lifetime.v),
      and deletions, used tokens, counters and secrets are never undone
      (StoreInv.v, AdminProps.v).
    - The registry: the backend and the admin API implement it, and every call
      is linearizable, whatever others do between its statements; only four
      admin requests consist of several moments (RegistryRefine.v). Of a
      state's whole life: who is authenticated follows from the registrations
      and removals answered before, a removal is final, numbers are given out
      without gaps, and a roster is the one stored last (History.v), and all of
      this holds of calls that interleave statement by statement, in one order
      of their moments (Concurrent.v).
    - The router: no interleaving panics; a future is answered once, with a
      response to its own request or an error; disconnecting fails exactly the
      node's pending requests, in whatever order the map is walked; a replaced
      connector is cancelled and marked (RoutingProps.v). Every run of the
      interleaved router is one of the table of sessions (RouterSpec.v), and a
      caller returns after at most five enabled actions (RouterLive.v).
    - The service: a call that fails authentication has no effect, and an
      identity is accepted only after its own limiter and the backend; a roster
      update asks the backend only in the name of the node its last addendum
      names, whether it succeeds or not, under optimistic locking; TURN
      credentials are those of the caller's own group and verify, and only
      without a TURN server or by the group's policy there are none; serving
      streams always disconnect (HubProps.v, BackendProps.v).
    - The whole: after any node calls and admin requests under any schedule no
      goroutine has panicked, in the router or in a handler, and as every
      serving stream has ended nobody is connected, unless others connect
      somebody; the admin API and the nodes are shown the same connections
      (StandaloneHub.v). A
      routed request returns with its own answer or an error, and does get
      through when undisturbed; a serving stream leaves no connector behind; a
      caller that does not authenticate changes nothing (HubRouterProps.v).
    - Tenants: the calls of a group's nodes change nothing of other groups, and
      what they are told depends on their own group only, also while nodes of
      other groups call the backend (HubTenancy.v); each RPC of the backend
      touches one group (Tenancy.v).
    - The admin API: requests pass the key check or change nothing; deletion,
      reset, creation and listing do what they say, and a node is deleted only
      if its group's roster revokes it (AdminProps.v); the first
      key works and opening a state again is idempotent (StandaloneProps.v).
      Whatever path is asked for, only the public key set is served without a
      key; a path without a route gets gin's own 404 or redirect (AdminRoutes.v).
    - The process: what the main goroutine opens is closed in reverse order
      however [main] ends, except for the metrics listener, which nobody closes; a hub is served only with the configuration that flags and
      environment determine, and the trace of a standalone process
      (Program.v).
    - Formats: API keys, TURN credentials, versions and run modes print and
      parse back; one secret has one spelling (ApiKeys.v, TurnCreds.v,
      Version.v, HubMain.v). Metrics count the calls in flight (Metrics.v); the
      interceptors count and tag every call and stream, also the rejected ones
      (HubMain.v, ServerOptions.v).

    Six theorems show behaviour that the code's comments exclude or that its
    users would not expect: [RoutingProps.early_response_lost] (a response that
    arrives before [routeRequest] has registered the future is dropped),
    [RoutingProps.eviction_mark_race] (a replaced handler can see itself as not
    evicted), [AdminProps.delete_group_race] (a node that registers while its
    group is deleted stays live), [StandaloneProps.bootstrap_key_lost] (the
    first API key is lost if its file cannot be written),
    [Program.standalone_run] (when the REST server fails first, nothing closes
    the hub's listener) and [HubProps.identity_not_canonical] (the limiter and
    the router use the group id as the client spells it, the backend its
    canonical form; for this reason HubTenancy.v speaks of the group's id and of
    its spelling).

    ** Fuel and bounds

    Recursion is structural, except that [GoStrings.dec_nat] and
    [GoEncoding.Bytes] peel digits off a number with as much fuel as the number
    has bits ([dec_nat_fuel] and [Bytes_spec] show that this is enough), and
    the two loops that skip white space run on the length of their string,
    which they shorten in every round. The
    base 62 loops run over the width, as in the code, and [generate_total]
    shows that the widths 17 and 43 never make the encoder panic. Where a
    handler succeeds is stated outright (for instance
    [AdminProps.minted_token_registers] gives the successful result), not only
    what holds if it does.

    ** Not modelled

    Sockets, TLS and the transport of streams, which are parameters; log lines;
    the content of the metrics page and the buckets of the latency histogram;
    JSON encoding, the matching of paths and the redirecting of trailing slashes
    (gin is a parameter with its documented laws); [LoadJWKS], which passes a file's bytes on, and [zero],
    which overwrites key bytes that are not read again; generated protobuf code
    and the client library (a submodule). Time is a counter of questions, and
    no theorem bounds how long anything takes. What others do between the
    statements of a call is a function of the world they find. The functional
    theorems of BackendProps.v and AdminProps.v speak of one call at a time, and
    [calls_linearizable] carries over to calls among others what the registry
    knows of them; the theorems on tenants let others act before each call of
    the backend, not between its statements. In
    [hub_confidentiality] other groups' nodes may make any calls but
    registrations, and there are no admin requests: how many questions those put
    to the platform depends on the rows of other groups, and in the model the
    platform's answers depend on the number of questions so far. *)
From stdpp Require Export base tactics option list gmap strings sorting.
From Stdlib Require Export ZArith Lia.
From Stdlib Require Export Ascii.

Set Default Proof Using "Type".

(** ** Results, panics and the state-and-error monad *)

(** A Go function returning [(T, error)]. *)
Inductive result (E A : Type) : Type :=
| Ok (a : A)
| Err (e : E).
Arguments Ok {E A} a.
Arguments Err {E A} e.

(** A Go function that may panic instead of returning. *)
Inductive outcome (A : Type) : Type :=
| Return (a : A)
| Panic (msg : string).
Arguments Return {A} a.
Arguments Panic {A} msg.

(** A handler: it threads a state [S] and stops early with an error [E]. The
    state reached before an early return is kept, as in the code. *)
Definition ST (S E A : Type) : Type := S -> S * result E A.

#[export] Instance result_ret {E} : MRet (result E) := fun A a => Ok a.
#[export] Instance result_bind {E} : MBind (result E) := fun A B f m =>
  match m with
  | Ok a => f a
  | Err e => Err e
  end.

#[export] Instance outcome_ret : MRet outcome := fun A a => Return a.
#[export] Instance outcome_bind : MBind outcome := fun A B f m =>
  match m with
  | Return a => f a
  | Panic s => Panic s
  end.

#[export] Instance ST_ret {S E} : MRet (ST S E) := fun A a s => (s, Ok a).
#[export] Instance ST_bind {S E} : MBind (ST S E) := fun A B f m s =>
  match m s with
  | (s', Ok a) => f a s'
  | (s', Err e) => (s', Err e)
  end.

(** The early return with an error. *)
Definition throw {S E A} (e : E) : ST S E A := fun s => (s, Err e).

(** A statement whose error the caller inspects. *)
Definition attempt {S E E' A} (m : ST S E A) : ST S E' (result E A) :=
  fun s => let '(s', r) := m s in (s', Ok r).

(** A Go pointer to a value that may be nil, read through a getter. *)
Definition or_zero (o : option string) : string := default "" o.

Definition is_ok {E A} (r : result E A) : bool :=
  match r with Ok _ => true | Err _ => false end.

(** A property of the state that every part of a handler keeps is kept by
    the handler. *)
Definition keeps {S E A} (P : S -> Prop) (m : ST S E A) : Prop :=
  forall s, P s -> P (fst (m s)).

(** ** Notations *)
Declare Scope hub_scope.
Delimit Scope hub_scope with hub.
Notation "'ok!' a" := (Return (Ok a)) (at level 10, a at next level) : hub_scope.

(** ** Automation *)
Create HintDb hub.

(** Case analysis on the scrutinee of a match in the goal or a hypothesis,
    keeping the equation. *)
Ltac case_head :=
  match goal with
  | |- context [match ?x with _ => _ end] => destruct x eqn:?
  end.
Ltac case_head_in H :=
  match type of H with
  | context [match ?x with _ => _ end] => destruct x eqn:?
  end.

(** Runs a handler symbolically: unfolds the monad, splits every branch and
    discards the impossible ones. *)
Ltac monad_unfold :=
  unfold mbind, mret, ST_bind, ST_ret, result_bind, result_ret, outcome_bind,
    outcome_ret, throw, attempt in *; simpl in *.
Ltac inv_ok :=
  repeat match goal with
  | H : Ok _ = Ok _ |- _ => injection H as H; subst
  | H : Err _ = Err _ |- _ => injection H as H; subst
  | H : (_, _) = (_, _) |- _ => injection H; clear H; intros; subst
  | H : Ok _ = Err _ |- _ => discriminate H
  | H : Err _ = Ok _ |- _ => discriminate H
  | H : Return _ = Panic _ |- _ => discriminate H
  | H : Panic _ = Return _ |- _ => discriminate H
  | H : Return _ = Return _ |- _ => injection H as H; subst
  end.

(** ** Shared lemmas *)
Section result_lemmas.
Context {E A B : Type}.
Implicit Types (m : result E A) (f : A -> result E B).

Lemma result_bind_Ok m f b :
  mbind f m = Ok b <-> exists a, m = Ok a /\ f a = Ok b.
Proof. destruct m; cbn; naive_solver. Qed.

Lemma result_bind_Err m f e :
  mbind f m = Err e <-> m = Err e \/ exists a, m = Ok a /\ f a = Err e.
Proof. destruct m; cbn; naive_solver. Qed.
End result_lemmas.

Section ST_lemmas.
Context {S E A B : Type}.
Implicit Types (m : ST S E A) (f : A -> ST S E B) (s : S).

Lemma ST_bind_Ok m f s s' b :
  mbind f m s = (s', Ok b) <->
  exists s1 a, m s = (s1, Ok a) /\ f a s1 = (s', Ok b).
Proof.
  unfold mbind, ST_bind. destruct (m s) as [s1 [a|e]]; naive_solver.
Qed.

Lemma ST_bind_Err m f s s' e :
  mbind f m s = (s', Err e) <->
  m s = (s', Err e) \/
  exists s1 a, m s = (s1, Ok a) /\ f a s1 = (s', Err e).
Proof.
  unfold mbind, ST_bind. destruct (m s) as [s1 [a|e']]; naive_solver.
Qed.

Lemma ST_bind_cases m f s s' r :
  mbind f m s = (s', r) ->
  (exists e, m s = (s', Err e) /\ r = Err e) \/
  exists s1 a, m s = (s1, Ok a) /\ f a s1 = (s', r).
Proof.
  unfold mbind, ST_bind. destruct (m s) as [s1 [a|e]]; [by eauto|]. intros [= <- <-]. eauto.
Qed.

Lemma keeps_bind (P : S -> Prop) m f :
  keeps P m -> (forall a, keeps P (f a)) -> keeps P (mbind f m).
Proof.
  intros Hm Hf s Hs. unfold mbind, ST_bind.
  specialize (Hm s Hs). destruct (m s) as [s1 [a|e]]; simpl in *; [|done].
  by apply Hf.
Qed.
End ST_lemmas.

Lemma keeps_ret {S E A} (P : S -> Prop) (a : A) : keeps P (mret a : ST S E A).
Proof. by intros s Hs. Qed.
Lemma keeps_throw {S E A} (P : S -> Prop) (e : E) : keeps P (throw e : ST S E A).
Proof. by intros s Hs. Qed.
Lemma keeps_attempt {S E E' A} (P : S -> Prop) (m : ST S E A) :
  keeps P m -> keeps P (attempt m : ST S E' _).
Proof.
  intros Hm s Hs. specialize (Hm s Hs). unfold attempt.
  destruct (m s) as [s1 r]; done.
Qed.
#[export] Hint Resolve keeps_bind keeps_ret keeps_throw keeps_attempt : hub.

(** Every error a computation stops with satisfies [P]. *)
Definition errs {S E A} (P : E -> Prop) (m : ST S E A) : Prop :=
  forall s s' e, m s = (s', Err e) -> P e.
Lemma errs_ret {S E A} (P : E -> Prop) (a : A) : errs P (mret a : ST S E A).
Proof. by intros s s' e. Qed.
Lemma errs_throw {S E A} (P : E -> Prop) (e : E) : P e -> errs P (throw e : ST S E A).
Proof. by intros He s s' e' [= _ <-]. Qed.
Lemma errs_attempt {S E E' A} (P : E' -> Prop) (m : ST S E A) : errs P (attempt m : ST S E' _).
Proof. intros s s' e. unfold attempt. by destruct (m s). Qed.
Lemma errs_bind {S E A B} (P : E -> Prop) (m : ST S E A) (f : A -> ST S E B) :
  errs P m -> (forall a, errs P (f a)) -> errs P (mbind f m).
Proof. intros Hm Hf s s' e [He|(s1 & a & _ & He)]%ST_bind_Err; [by eapply Hm|by eapply Hf]. Qed.
