(* ===== verification/Past.v ===== *)
(** * What a sequence of happenings tells of its past

    A state moves by happenings; what holds of it now is read off the list of
    what happened before. Generic in the state, which is known up to an
    equivalence, and in the happenings: Registry.v takes the answered calls of
    a conversation, Concurrent.v the moments at which interleaved calls happen. *)
From S2P Require Import Prelude.
Open Scope Z_scope.

(** ** The last of a kind that nothing has undone since *)
Section since.
Context {X : Type}.
Implicit Types (starts ends : X -> Prop) (xs : list X).

Definition since starts ends xs : Prop :=
  exists pre x post, xs = pre ++ x :: post /\ starts x /\ Forall (fun y => ~ ends y) post.
Lemma since_nil starts ends : ~ since starts ends [].
Proof. by intros ([] & ? & ? & ? & _). Qed.
Lemma since_snoc starts ends xs x :
  since starts ends (xs ++ [x]) <-> starts x \/ (since starts ends xs /\ ~ ends x).
Proof.
  split.
  - intros (pre & y & post & Heq & Hs & Hpost). destruct post as [|z post _] using rev_ind.
    + apply app_inj_tail in Heq as [-> ->]. by left.
    + rewrite app_comm_cons, (assoc_L (++)) in Heq. apply app_inj_tail in Heq as [-> ->].
      apply Forall_app in Hpost as [Hpost Hz]. rewrite Forall_singleton in Hz.
      right. split; [|done]. by exists pre, y, post.
  - intros [Hs|[(pre & y & post & -> & Hs & Hpost) Hno]].
    + by exists xs, x, [].
    + exists pre, y, (post ++ [x]). rewrite <-(assoc_L (++)). split; [done|]. split; [done|].
      apply Forall_app. by rewrite Forall_singleton.
Qed.
(** What starts only once and has ended does not hold again. *)
Lemma since_over starts starts' ends xs x ys y :
  (forall pre z mid z' post, xs ++ x :: ys = pre ++ z :: mid ++ z' :: post -> starts z -> ~ starts' z') ->
  (forall z, starts' z -> ~ ends z) ->
  y ∈ xs -> starts y -> ends x -> ~ since starts' ends (xs ++ x :: ys).
Proof.
  intros Honce Hdiff Hin Hy Hx (pre & z & post & Heq & Hz & Hpost).
  apply app_eq_inv in Heq as [(k & -> & Heq)|(k & -> & Heq)].
  - (* it started before the end, which comes after *)
    destruct k as [|z' k]; cbn in Heq; injection Heq as -> ->; [by eapply Hdiff|].
    apply Forall_app in Hpost as [_ Hpost]. by apply Forall_inv in Hpost.
  - (* it started after the end, so twice *)
    apply list_elem_of_split in Hin as (p0 & q0 & ->).
    destruct k as [|x' k]; cbn in Heq; injection Heq as -> ->; [by eapply Hdiff|].
    eapply (Honce p0 y (q0 ++ x' :: k) z post); [|done|done].
    by rewrite <-!(assoc_L (++)).
Qed.

(** How many there were, and the last that was written. *)
Definition count (counts : X -> bool) xs : nat := length (filter (fun x => counts x = true) xs).
Lemma count_app counts xs ys : count counts (xs ++ ys) = (count counts xs + count counts ys)%nat.
Proof. unfold count. by rewrite list.filter_app, length_app. Qed.
Lemma count_one counts x : count counts [x] = if counts x then 1%nat else 0%nat.
Proof. unfold count. cbn. by destruct (counts x). Qed.
Lemma count_elem counts xs x : x ∈ xs -> counts x = true -> (1 <= count counts xs)%nat.
Proof.
  intros (pre & post & ->)%list_elem_of_split Hx. rewrite count_app, (count_app _ [x] post), count_one, Hx. lia.
Qed.
Definition latest {A} (a : A) (writes : X -> option A) xs : A := default a (list.last (omap writes xs)).
Lemma latest_snoc {A} (a : A) writes xs x :
  latest a writes (xs ++ [x]) = default (latest a writes xs) (writes x).
Proof.
  unfold latest. rewrite omap_app. cbn [omap list_omap].
  destruct (writes x); [by rewrite last_snoc|by rewrite app_nil_r].
Qed.
End since.

(** ** Happenings that move a state *)
Section told.
Context {S X : Type} `{Equiv S} `{!Equivalence (≡@{S})} (step : X -> S -> S -> Prop).
Implicit Types (R : S) (xs : list X).

Inductive told : S -> list X -> S -> Prop :=
| told_nil R R' : R ≡ R' -> told R [] R'
| told_cons R x R1 xs R' : step x R R1 -> told R1 xs R' -> told R (x :: xs) R'.

Lemma told_one x R R1 : step x R R1 -> told R [x] R1.
Proof. intros Hx. by eapply told_cons, told_nil. Qed.
Lemma told_app_inv xs ys R R' : told R (xs ++ ys) R' -> exists R1, told R xs R1 /\ told R1 ys R'.
Proof.
  revert R. induction xs as [|x xs IH]; intros R; cbn.
  - intros Hex. exists R. split; [by constructor|done].
  - inversion 1 as [|? ? R1 ? ? Hs Hex]; subst. apply IH in Hex as (R2 & H1' & H2').
    exists R2. split; [by econstructor|done].
Qed.
(** Before a happening. *)
Lemma told_at xs x ys R R' : told R (xs ++ x :: ys) R' -> exists R1 R2, told R xs R1 /\ step x R1 R2.
Proof. intros (R1 & H1' & H2')%told_app_inv. inversion H2'; subst. eauto. Qed.
(** Induction from the start. *)
Lemma told_ind_snoc (P : list X -> S -> Prop) R0 :
  (forall xs R R', R ≡ R' -> P xs R -> P xs R') -> P [] R0 ->
  (forall xs R x R1, P xs R -> step x R R1 -> P (xs ++ [x]) R1) ->
  forall xs R, told R0 xs R -> P xs R.
Proof.
  intros Hproper Hnil Hsnoc.
  assert (forall R xs R', told R xs R' -> forall pre, P pre R -> P (pre ++ xs) R') as Hgen.
  { induction 1 as [R R' Heq|R x R1 xs R' Hx _ IH]; intros pre Hpre.
    - rewrite app_nil_r. by eapply Hproper.
    - rewrite cons_middle, (assoc_L (++)). by eapply IH, Hsnoc. }
  intros xs R Hex. by apply (Hgen _ _ _ Hex []).
Qed.

Context (step_proper : forall x, Proper ((≡) ==> (≡) ==> iff) (step x)).
Lemma told_equiv R1 R2 xs R' : R1 ≡ R2 -> told R1 xs R' -> told R2 xs R'.
Proof.
  intros HR Hex. destruct Hex as [R R' HR'|R x S1 xs R' Hx Hex].
  - constructor. by rewrite <-HR.
  - eapply told_cons; [by apply (step_proper x _ _ HR _ _ (reflexivity S1))|done].
Qed.
Lemma told_app R xs R1 ys R2 : told R xs R1 -> told R1 ys R2 -> told R (xs ++ ys) R2.
Proof.
  intros Hex. induction Hex as [R R' HR|R x S1 xs R' Hx _ IH]; intros H2'; cbn.
  - by eapply told_equiv.
  - eapply told_cons; [done..|by apply IH].
Qed.

(** *** What the past says of the present *)

(** A property that only some happenings start holds because one of them did,
    and no later one ended it for sure. *)
Lemma told_since (P : S -> Prop) (starts ends : X -> Prop) R0 xs R :
  Proper ((≡) ==> iff) P -> ~ P R0 ->
  (forall x R R1, step x R R1 -> P R1 -> starts x \/ (P R /\ ~ ends x)) ->
  told R0 xs R -> P R -> since starts ends xs.
Proof.
  intros Hproper Hnil Hstep. revert xs R. apply (told_ind_snoc (fun xs R => P R -> since starts ends xs)).
  - intros xs R R' Heq. by rewrite Heq.
  - done.
  - intros xs R x R1 IH Hx HP. apply since_snoc. destruct (Hstep _ _ _ Hx HP) as [?|[??]]; auto.
Qed.
(** A property that has started, and that no later happening can have ended,
    holds. *)
Lemma told_holds (P : S -> Prop) (starts ends : X -> Prop) R0 xs R :
  Proper ((≡) ==> iff) P ->
  (forall x R R1, step x R R1 -> starts x -> P R1) ->
  (forall x R R1, step x R R1 -> P R -> ~ ends x -> P R1) ->
  told R0 xs R -> since starts ends xs -> P R.
Proof.
  intros Hproper Hstarts Hkeeps. revert xs R. apply (told_ind_snoc (fun xs R => since starts ends xs -> P R)).
  - intros xs R R' Heq. by rewrite Heq.
  - by intros ?%since_nil.
  - intros xs R x R1 IH Hx [Hs|[Hsince Hno]]%since_snoc; eauto.
Qed.
Lemma told_count (f : S -> Z) (counts : X -> bool) R0 xs R :
  Proper ((≡) ==> (=)) f ->
  (forall x R R1, step x R R1 -> f R1 = f R + (if counts x then 1 else 0)) ->
  told R0 xs R -> f R = f R0 + Z.of_nat (count counts xs).
Proof.
  intros Hproper Hstep. revert xs R. apply (told_ind_snoc (fun xs R => f R = f R0 + Z.of_nat (count counts xs))).
  - intros xs R R' Heq. by rewrite Heq.
  - cbn. lia.
  - intros xs R x R1 IH Hx. rewrite (Hstep _ _ _ Hx), IH, count_app, count_one. destruct (counts x); lia.
Qed.
Lemma told_latest {A} (f : S -> A) (writes : X -> option A) R0 xs R :
  Proper ((≡) ==> (=)) f ->
  (forall x R R1, step x R R1 -> f R1 = default (f R) (writes x)) ->
  told R0 xs R -> f R = latest (f R0) writes xs.
Proof.
  intros Hproper Hstep. revert xs R. apply (told_ind_snoc (fun xs R => f R = latest (f R0) writes xs)).
  - intros xs R R' Heq. by rewrite Heq.
  - done.
  - intros xs R x R1 IH Hx. by rewrite (Hstep _ _ _ Hx), IH, latest_snoc.
Qed.
End told.

(** ** Two sequences in one *)
Section merges.
Context {X : Type}.
Inductive merges : list X -> list X -> list X -> Prop :=
| merges_nil : merges [] [] []
| merges_left x xs ys zs : merges xs ys zs -> merges (x :: xs) ys (x :: zs)
| merges_right y xs ys zs : merges xs ys zs -> merges xs (y :: ys) (y :: zs).
Lemma merges_lefts xs : merges xs [] xs.
Proof. induction xs; by constructor. Qed.
Lemma merges_rights ys : merges [] ys ys.
Proof. induction ys; by constructor. Qed.
Lemma merges_app xs1 ys1 zs1 xs2 ys2 zs2 :
  merges xs1 ys1 zs1 -> merges xs2 ys2 zs2 -> merges (xs1 ++ xs2) (ys1 ++ ys2) (zs1 ++ zs2).
Proof. induction 1; intros; cbn; [done|constructor; auto..]. Qed.
Lemma merges_elem xs ys zs x : merges xs ys zs -> x ∈ zs <-> x ∈ xs \/ x ∈ ys.
Proof. induction 1; set_solver. Qed.
(** The left sequence keeps its order. *)
Lemma merges_sublist xs ys zs : merges xs ys zs -> xs `sublist_of` zs.
Proof. induction 1; by constructor. Qed.
Lemma merges_left_only xs zs : merges xs [] zs -> zs = xs.
Proof. remember [] as ys. induction 1; simplify_eq; f_equal; auto. Qed.
End merges.
