(* ===== verification/GoStrings.v ===== *)
(** * The parts of Go's string library the hub uses

    A Go [string] or [[]byte] is a byte string, here a Rocq [string] (a list
    of 8-bit [ascii] characters). This file models the functions of packages
    [strings], [strconv] and [fmt] that the hub calls: byte search, [Split],
    [Cut], [TrimPrefix], [TrimSpace], the decimal printers and parsers at
    their machine widths, and [Sscanf] with the verb [%d]; and the lemmas the
    round trips of the wire formats rest on. *)
From S2P Require Import Prelude.
Open Scope Z_scope.

(** ** Slicing and searching *)

Definition slen (s : string) : Z := Z.of_nat (String.length s).

(** [s[:n]] and [s[n:]]. *)
Fixpoint str_take (n : nat) (s : string) : string :=
  match n, s with
  | S n, String c s => String c (str_take n s)
  | _, _ => ""
  end.
Fixpoint str_drop (n : nat) (s : string) : string :=
  match n, s with
  | S n, String c s => str_drop n s
  | _, _ => s
  end.

Fixpoint has_byte (c : ascii) (s : string) : bool :=
  match s with
  | "" => false
  | String d s => bool_decide (c = d) || has_byte c s
  end.

Fixpoint index_byte (c : ascii) (s : string) : option nat :=
  match s with
  | "" => None
  | String d s => if decide (c = d) then Some 0%nat else S <$> index_byte c s
  end.

(** [strings.IndexByte]: the first position of a byte, -1 if absent. *)
Definition IndexByte (s : string) (c : ascii) : Z :=
  match index_byte c s with
  | Some n => Z.of_nat n
  | None => -1
  end.

(** [strings.HasPrefix] and [strings.TrimPrefix]. *)
Definition HasPrefix (s prefix : string) : bool :=
  bool_decide (str_take (String.length prefix) s = prefix).
Definition TrimPrefix (s prefix : string) : string :=
  if HasPrefix s prefix then str_drop (String.length prefix) s else s.

(** [strings.Cut] with a one-byte separator: text before, text after, found. *)
Definition Cut (s : string) (sep : ascii) : string * string * bool :=
  match index_byte sep s with
  | Some n => (str_take n s, str_drop (S n) s, true)
  | None => (s, "", false)
  end.

(** [strings.Split] with a one-byte separator. *)
Fixpoint Split (s : string) (sep : ascii) : list string :=
  match s with
  | "" => [""]
  | String c s' =>
      if decide (c = sep) then "" :: Split s' sep
      else match Split s' sep with
           | w :: ws => String c w :: ws
           | [] => [String c ""]
           end
  end.

(** The inverse of [Split]. *)
Fixpoint join (sep : ascii) (ws : list string) : string :=
  match ws with
  | [] => ""
  | [w] => w
  | w :: ws => w +:+ String sep (join sep ws)
  end.

(** ** White space

    [unicode.IsSpace] on the UTF-8 encoding at the head of the string: the
    remaining string if it starts with a space rune, else [None]. *)
Definition byte_at (n : nat) (s : string) : N :=
  match String.get n s with
  | Some c => Ascii.N_of_ascii c
  | None => 256%N
  end.
Definition drop_space_rune (s : string) : option string :=
  let b0 := byte_at 0 s in
  let b1 := byte_at 1 s in
  let b2 := byte_at 2 s in
  if ((9 <=? b0)%N && (b0 <=? 13)%N || (b0 =? 32)%N) then Some (str_drop 1 s)
  else if (b0 =? 0xC2)%N && ((b1 =? 0x85)%N || (b1 =? 0xA0)%N) then Some (str_drop 2 s)
  else if (b0 =? 0xE1)%N && (b1 =? 0x9A)%N && (b2 =? 0x80)%N then Some (str_drop 3 s)
  else if (b0 =? 0xE2)%N && (b1 =? 0x80)%N &&
          ((0x80 <=? b2)%N && (b2 <=? 0x8A)%N || (b2 =? 0xA8)%N || (b2 =? 0xA9)%N || (b2 =? 0xAF)%N)
    then Some (str_drop 3 s)
  else if (b0 =? 0xE2)%N && (b1 =? 0x81)%N && (b2 =? 0x9F)%N then Some (str_drop 3 s)
  else if (b0 =? 0xE3)%N && (b1 =? 0x80)%N && (b2 =? 0x80)%N then Some (str_drop 3 s)
  else None.

(** Fuel: every step drops at least one byte, so [length s] steps suffice. *)
Fixpoint skip_spaces (fuel : nat) (s : string) : string :=
  match fuel with
  | O => s
  | S fuel =>
      match drop_space_rune s with
      | Some s' => skip_spaces fuel s'
      | None => s
      end
  end.

(** [strings.TrimSpace(s) == ""]. *)
Definition TrimSpace_is_empty (s : string) : bool :=
  bool_decide (skip_spaces (String.length s) s = "").

(** [strings.EqualFold(s, t)] for an all-ASCII [t] without the letters k and
    s, the only ASCII letters with a non-ASCII case variant. *)
Definition to_lower (c : ascii) : ascii :=
  let n := Ascii.N_of_ascii c in
  if (65 <=? n)%N && (n <=? 90)%N then Ascii.ascii_of_N (n + 32) else c.
Fixpoint EqualFold (s t : string) : bool :=
  match s, t with
  | "", "" => true
  | String c s, String d t => bool_decide (to_lower c = to_lower d) && EqualFold s t
  | _, _ => false
  end.

(** ** Machine integers *)

Definition int32_ok (n : Z) : bool := (- 2 ^ 31 <=? n) && (n <? 2 ^ 31).
Definition int64_ok (n : Z) : bool := (- 2 ^ 63 <=? n) && (n <? 2 ^ 63).
(** The conversions [int32(n)] and [int64(n)]: two's complement wrap-around. *)
Definition wrap32 (n : Z) : Z := (n + 2 ^ 31) mod 2 ^ 32 - 2 ^ 31.
Definition wrap64 (n : Z) : Z := (n + 2 ^ 63) mod 2 ^ 64 - 2 ^ 63.

(** ** Decimal numbers *)

Definition digit_char (d : Z) : ascii := Ascii.ascii_of_N (Z.to_N (48 + d)).
Definition digit_val (c : ascii) : option Z :=
  let n := Z.of_N (Ascii.N_of_ascii c) in
  if (48 <=? n) && (n <=? 57) then Some (n - 48) else None.

(** Fuel: [log2 n + 1] decimal digits are enough for [n]. *)
Fixpoint dec_digits (fuel : nat) (n : Z) (acc : string) : string :=
  match fuel with
  | O => acc
  | S fuel =>
      let acc := String (digit_char (n mod 10)) acc in
      if n <? 10 then acc else dec_digits fuel (n / 10) acc
  end.
Definition dec_nat (n : Z) : string := dec_digits (Z.to_nat (Z.log2 n) + 1) n "".

(** [strconv.FormatInt(n, 10)] and [fmt.Sprintf("%d", n)]. *)
Definition FormatInt (n : Z) : string :=
  if n <? 0 then String "-"%char (dec_nat (- n)) else dec_nat n.

Fixpoint parse_digits (acc : Z) (s : string) : option Z :=
  match s with
  | "" => Some acc
  | String c s =>
      match digit_val c with
      | Some d => parse_digits (10 * acc + d) s
      | None => None
      end
  end.
Definition parse_nat (s : string) : option Z :=
  match s with
  | "" => None
  | _ => parse_digits 0 s
  end.

(** [strconv.ParseInt(s, 10, bits)]; [None] is any error (syntax or range). *)
Definition ParseInt (s : string) (bits : Z) : option Z :=
  match s with
  | String "-"%char s' =>
      n ← parse_nat s';
      if n <=? 2 ^ (bits - 1) then Some (- n) else None
  | String "+"%char s' =>
      n ← parse_nat s';
      if n <? 2 ^ (bits - 1) then Some n else None
  | _ =>
      n ← parse_nat s;
      if n <? 2 ^ (bits - 1) then Some n else None
  end.

(** [strconv.Atoi] on a 64-bit platform. *)
Definition Atoi (s : string) : option Z := ParseInt s 64.

(** The longest prefix of decimal digits. *)
Fixpoint take_digits (s : string) : string :=
  match s with
  | String c s' =>
      match digit_val c with
      | Some _ => String c (take_digits s')
      | None => ""
      end
  | "" => ""
  end.

(** [fmt.Sscanf(s, "%d", &n)] with [n int32]: blanks are skipped but a newline
    is an error (also after a carriage return), an optional sign and the longest run of digits are read as an int64
    and must fit an int32; whatever follows is left unread. *)
Fixpoint scan_skip_space (fuel : nat) (s : string) : option string :=
  match fuel with
  | O => Some s
  | S fuel =>
      if (byte_at 0 s =? 13)%N && (byte_at 1 s =? 10)%N then scan_skip_space fuel (str_drop 1 s)
      else if (byte_at 0 s =? 10)%N then None
      else match drop_space_rune s with
           | Some s' => scan_skip_space fuel s'
           | None => Some s
           end
  end.
Definition Sscanf_int32 (s : string) : option Z :=
  s ← scan_skip_space (String.length s) s;
  let '(sign, rest) :=
    match s with
    | String "-"%char s' => ("-", s')
    | String "+"%char s' => ("+", s')
    | _ => ("", s)
    end in
  match take_digits rest with
  | "" => None
  | digits =>
      n ← ParseInt (sign +:+ digits) 64;
      if int32_ok n then Some n else None
  end.

(** * Lemmas *)

(** ** Concatenation and slices *)

Lemma str_app_nil_l s : "" +:+ s = s.
Proof. done. Qed.
Lemma str_app_cons c s t : String c s +:+ t = String c (s +:+ t).
Proof. done. Qed.
Lemma str_app_nil_r s : s +:+ "" = s.
Proof. induction s as [|c s IH]; [done|]. by rewrite str_app_cons, IH. Qed.
Lemma str_app_assoc s t u : (s +:+ t) +:+ u = s +:+ t +:+ u.
Proof. induction s as [|c s IH]; [done|]. by rewrite !str_app_cons, IH. Qed.
Lemma str_length_app s t :
  String.length (s +:+ t) = (String.length s + String.length t)%nat.
Proof. induction s as [|c s IH]; [done|]. rewrite str_app_cons. simpl. lia. Qed.
Lemma slen_app s t : slen (s +:+ t) = slen s + slen t.
Proof. unfold slen. rewrite str_length_app. lia. Qed.
Lemma slen_nonneg s : 0 <= slen s.
Proof. unfold slen. lia. Qed.
Lemma slen_pos s : s <> "" -> 0 < slen s.
Proof. unfold slen. destruct s; [done|]. cbn [String.length]. lia. Qed.
Lemma str_app_eq_nil s t : s +:+ t = "" -> s = "" /\ t = "".
Proof. destruct s; [done|]. rewrite str_app_cons. done. Qed.
Lemma str_app_inj_len s s' t t' :
  String.length s = String.length s' -> s +:+ t = s' +:+ t' -> s = s' /\ t = t'.
Proof.
  revert s'. induction s as [|c s IH]; intros [|c' s'] Hl Heq; try done.
  rewrite !str_app_cons in Heq. injection Heq as -> Heq. simpl in Hl.
  destruct (IH s') as [-> ->]; [lia|done|done].
Qed.

Lemma str_take_app s t : str_take (String.length s) (s +:+ t) = s.
Proof. induction s as [|c s IH]; [by destruct t|]. rewrite str_app_cons. simpl. by f_equal. Qed.
Lemma str_drop_app s t : str_drop (String.length s) (s +:+ t) = t.
Proof. induction s as [|c s IH]; [by destruct t|]. by rewrite str_app_cons. Qed.
Lemma str_take_length s : str_take (String.length s) s = s.
Proof. induction s as [|c s IH]; simpl; [done|]. by f_equal. Qed.
Lemma str_take_drop n s : str_take n s +:+ str_drop n s = s.
Proof.
  revert s. induction n as [|n IH]; intros [|c s]; simpl; try done.
  by rewrite str_app_cons, IH.
Qed.
Lemma length_str_take n s : String.length (str_take n s) = (n `min` String.length s)%nat.
Proof. revert s. induction n as [|n IH]; intros [|c s]; simpl; try done. by rewrite IH. Qed.
Lemma length_str_drop n s : String.length (str_drop n s) = (String.length s - n)%nat.
Proof. revert s. induction n as [|n IH]; intros [|c s]; simpl; try done. Qed.

(** ** Search *)

Lemma has_byte_app c s t : has_byte c (s +:+ t) = has_byte c s || has_byte c t.
Proof. induction s as [|d s IH]; [done|]. rewrite str_app_cons. simpl. by rewrite IH, orb_assoc. Qed.
Lemma index_byte_None c s : index_byte c s = None <-> has_byte c s = false.
Proof.
  induction s as [|d s IH]; simpl; [done|]. case_decide; simpl.
  - by rewrite bool_decide_true.
  - rewrite bool_decide_false by done. simpl. rewrite <- IH. by destruct (index_byte c s).
Qed.
Lemma index_byte_Some c s n :
  index_byte c s = Some n <->
  exists a b, s = a +:+ String c b /\ has_byte c a = false /\ String.length a = n.
Proof.
  revert n. induction s as [|d s IH]; intros n; simpl.
  - split; [done|]. intros ([|? ?] & b & H & _); done.
  - case_decide as Hcd.
    + subst d. split.
      * intros [= <-]. by exists "", s.
      * intros ([|x a] & b & H & Ha & <-); [done|].
        rewrite str_app_cons in H. injection H as <- _.
        simpl in Ha. by rewrite bool_decide_true in Ha.
    + rewrite fmap_Some. setoid_rewrite IH. split.
      * intros (m & (a & b & -> & Ha & <-) & ->). exists (String d a), b.
        simpl. rewrite bool_decide_false by done. done.
      * intros ([|x a] & b & H & Ha & <-).
        { rewrite str_app_nil_l in H. congruence. }
        rewrite str_app_cons in H. injection H as <- ->.
        exists (String.length a). split; [|done]. exists a, b. split; [done|].
        simpl in Ha. by apply orb_false_iff in Ha as [_ ->].
Qed.
Lemma index_byte_app c a b :
  has_byte c a = false -> index_byte c (a +:+ String c b) = Some (String.length a).
Proof. intros Ha. apply index_byte_Some. eauto. Qed.

Lemma Cut_app c a b :
  has_byte c a = false -> Cut (a +:+ String c b) c = (a, b, true).
Proof.
  intros Ha. unfold Cut. rewrite index_byte_app by done.
  rewrite str_take_app. f_equal. f_equal.
  replace (a +:+ String c b) with ((a +:+ String c "") +:+ b)
    by (by rewrite str_app_assoc).
  rewrite <- (str_drop_app (a +:+ String c "") b) at 2. f_equal.
  rewrite str_length_app. simpl. lia.
Qed.
Lemma Cut_none c s : has_byte c s = false -> Cut s c = (s, "", false).
Proof. intros Hs%index_byte_None. unfold Cut. by rewrite Hs. Qed.

Lemma HasPrefix_app p s : HasPrefix (p +:+ s) p = true.
Proof. unfold HasPrefix. rewrite str_take_app. by apply bool_decide_true. Qed.
Lemma HasPrefix_true p s : HasPrefix s p = true <-> exists t, s = p +:+ t.
Proof.
  unfold HasPrefix. rewrite bool_decide_eq_true. split.
  - intros Hp. exists (str_drop (String.length p) s).
    rewrite <- (str_take_drop (String.length p) s) at 1. by rewrite Hp.
  - intros [t ->]. apply str_take_app.
Qed.
Lemma TrimPrefix_app p s : TrimPrefix (p +:+ s) p = s.
Proof. unfold TrimPrefix. rewrite HasPrefix_app. apply str_drop_app. Qed.

(** ** Split and join *)

Lemma Split_nonempty c s : Split s c <> [].
Proof. destruct s as [|d s]; simpl; [done|]. case_decide; [done|]. by case_match. Qed.
Lemma Split_no_sep c s : has_byte c s = false -> Split s c = [s].
Proof.
  induction s as [|d s IH]; simpl; [done|]. intros [Hd Hs]%orb_false_iff.
  rewrite bool_decide_eq_false in Hd. rewrite decide_False by done.
  by rewrite IH.
Qed.
Lemma Split_app c a b :
  has_byte c a = false -> Split (a +:+ String c b) c = a :: Split b c.
Proof.
  induction a as [|d a IH]; intros Ha.
  - rewrite str_app_nil_l. simpl. by rewrite decide_True.
  - simpl in Ha. apply orb_false_iff in Ha as [Hd Ha].
    rewrite bool_decide_eq_false in Hd. rewrite str_app_cons. simpl.
    rewrite decide_False by done. by rewrite IH.
Qed.
Lemma join_Split c s : join c (Split s c) = s.
Proof.
  induction s as [|d s IH]; [done|]. simpl. pose proof (Split_nonempty c s) as Hne.
  case_decide as Hd.
  - subst. destruct (Split s c) as [|w ws]; [done|].
    change (String c (join c (w :: ws)) = String c s). by rewrite IH.
  - destruct (Split s c) as [|w [|w' ws]]; [done|simpl in *; by subst|].
    change (String d (join c (w :: w' :: ws)) = String d s). by rewrite IH.
Qed.
Lemma Split_join c ws :
  ws <> [] -> Forall (fun w => has_byte c w = false) ws -> Split (join c ws) c = ws.
Proof.
  intros Hne Hws. induction Hws as [|w [|w' ws] Hw Hws IH]; [done|by apply Split_no_sep|].
  change (join c (w :: w' :: ws)) with (w +:+ String c (join c (w' :: ws))).
  rewrite Split_app by done. f_equal. by apply IH.
Qed.
Lemma Split_parts c s : Forall (fun w => has_byte c w = false) (Split s c).
Proof.
  induction s as [|d s IH]; simpl; [by repeat constructor|]. case_decide as Hd.
  - by constructor.
  - destruct (Split s c) as [|w ws]; [constructor|]; [|constructor|].
    + simpl. by rewrite bool_decide_false.
    + inversion_clear IH. constructor; [|done]. simpl. by rewrite bool_decide_false.
Qed.

(** ** Machine integers *)

Lemma int64_ok_true n : int64_ok n = true <-> - 2 ^ 63 <= n < 2 ^ 63.
Proof. unfold int64_ok. rewrite andb_true_iff, Z.leb_le, Z.ltb_lt. done. Qed.
Lemma int32_ok_true n : int32_ok n = true <-> - 2 ^ 31 <= n < 2 ^ 31.
Proof. unfold int32_ok. rewrite andb_true_iff, Z.leb_le, Z.ltb_lt. done. Qed.
Lemma wrap32_id n : int32_ok n = true -> wrap32 n = n.
Proof. rewrite int32_ok_true. unfold wrap32. intros. rewrite Z.mod_small by lia. lia. Qed.
Lemma wrap64_id n : int64_ok n = true -> wrap64 n = n.
Proof. rewrite int64_ok_true. unfold wrap64. intros. rewrite Z.mod_small by lia. lia. Qed.
Lemma wrap64_range n : int64_ok (wrap64 n) = true.
Proof.
  apply int64_ok_true. unfold wrap64.
  pose proof (Z.mod_pos_bound (n + 2 ^ 63) (2 ^ 64)). lia.
Qed.
Lemma wrap32_range n : int32_ok (wrap32 n) = true.
Proof.
  apply int32_ok_true. unfold wrap32.
  pose proof (Z.mod_pos_bound (n + 2 ^ 31) (2 ^ 32)). lia.
Qed.

(** ** Decimal numbers *)

Lemma digit_val_char d : 0 <= d < 10 -> digit_val (digit_char d) = Some d.
Proof.
  intros Hd. unfold digit_val, digit_char.
  rewrite Ascii.N_ascii_embedding by lia. rewrite Z2N.id by lia.
  replace ((48 <=? 48 + d) && (48 + d <=? 57)) with true by lia. f_equal. lia.
Qed.

Lemma parse_dec_digits fuel n s :
  0 <= n < 10 ^ Z.of_nat fuel -> parse_digits 0 (dec_digits fuel n s) = parse_digits n s.
Proof.
  revert n s. induction fuel as [|fuel IH]; intros n s Hn.
  - simpl in *. by replace n with 0 by lia.
  - pose proof (Z.mod_pos_bound n 10). pose proof (Z_div_mod_eq_full n 10).
    rewrite Nat2Z.inj_succ, Z.pow_succ_r in Hn by lia.
    cbn [dec_digits]. destruct (Z.ltb_spec n 10) as [Hlt|Hge].
    + cbn [parse_digits]. rewrite digit_val_char by lia. by rewrite Z.mod_small by lia.
    + rewrite IH by lia. cbn [parse_digits]. rewrite digit_val_char by lia.
      f_equal. lia.
Qed.
Lemma dec_nat_fuel n : 0 <= n -> n < 10 ^ Z.of_nat (Z.to_nat (Z.log2 n) + 1).
Proof.
  intros Hn. rewrite Nat2Z.inj_add, Z2Nat.id by apply Z.log2_nonneg.
  destruct (Z.eq_dec n 0) as [->|Hne]; [done|].
  destruct (Z.log2_spec n) as [_ Hlt]; [lia|].
  eapply Z.lt_le_trans; [exact Hlt|]. rewrite <- Z.add_1_r.
  apply Z.pow_le_mono_l. lia.
Qed.
Lemma dec_digits_all (P : ascii -> Prop) fuel n s :
  (forall d, 0 <= d < 10 -> P (digit_char d)) -> 0 <= n ->
  Forall P (String.list_ascii_of_string s) ->
  Forall P (String.list_ascii_of_string (dec_digits fuel n s)).
Proof.
  intros HP. revert n s. induction fuel as [|fuel IH]; intros n s Hn Hs; [done|].
  pose proof (Z.mod_pos_bound n 10). simpl.
  assert (Forall P (String.list_ascii_of_string (String (digit_char (n mod 10)) s)))
    by (constructor; [apply HP; lia|done]).
  case_match; [done|]. apply IH; [apply Z.div_pos; lia|done].
Qed.
Lemma dec_digits_suffix fuel n s : exists d, dec_digits fuel n s = d +:+ s.
Proof.
  revert n s. induction fuel as [|fuel IH]; intros n s; simpl; [by exists ""|].
  case_match.
  - by exists (String (digit_char (n mod 10)) "").
  - destruct (IH (n / 10) (String (digit_char (n mod 10)) s)) as [d ->].
    exists (d +:+ String (digit_char (n mod 10)) ""). by rewrite str_app_assoc.
Qed.
Lemma dec_nat_cons n : exists c s, dec_nat n = String c s.
Proof.
  unfold dec_nat. rewrite Nat.add_comm. simpl. case_match; [by eauto|].
  match goal with |- context [dec_digits ?f ?m ?t] => destruct (dec_digits_suffix f m t) as [[|c d] ->] end.
  - by eauto.
  - rewrite str_app_cons. eauto.
Qed.
Lemma parse_dec_nat n : 0 <= n -> parse_nat (dec_nat n) = Some n.
Proof.
  intros Hn. destruct (dec_nat_cons n) as (c & s & Hcs).
  assert (parse_nat (dec_nat n) = parse_digits 0 (dec_nat n)) as -> by by rewrite Hcs.
  unfold dec_nat. rewrite parse_dec_digits by (split; [lia|by apply dec_nat_fuel]).
  done.
Qed.
Lemma dec_nat_head_digit n c s : 0 <= n -> dec_nat n = String c s -> is_Some (digit_val c).
Proof.
  intros Hn Heq.
  assert (Forall (fun c => is_Some (digit_val c)) (String.list_ascii_of_string (dec_nat n))) as Hall.
  { apply dec_digits_all; [|done|constructor]. intros d Hd. rewrite digit_val_char by done. eauto. }
  rewrite Heq in Hall. by inversion Hall.
Qed.

(** The printed form of a number in range reads back as the number. *)
Lemma ParseInt_FormatInt n bits :
  0 < bits -> - 2 ^ (bits - 1) <= n < 2 ^ (bits - 1) ->
  ParseInt (FormatInt n) bits = Some n.
Proof.
  intros Hb Hn. unfold FormatInt. destruct (Z.ltb_spec n 0) as [Hneg|Hpos].
  - cbn. rewrite parse_dec_nat by lia. cbn.
    replace (- n <=? 2 ^ (bits - 1)) with true by lia. f_equal. lia.
  - destruct (dec_nat_cons n) as (c & s & Hcs).
    destruct (dec_nat_head_digit n c s Hpos Hcs) as [d Hd].
    transitivity (n ← parse_nat (dec_nat n); if n <? 2 ^ (bits - 1) then Some n else None).
    { rewrite Hcs. unfold digit_val in Hd.
      destruct c as [[] [] [] [] [] [] [] []]; try done. }
    rewrite parse_dec_nat by done. cbn. by replace (n <? 2 ^ (bits - 1)) with true by lia.
Qed.

(** A byte that is neither a digit nor a minus sign does not occur in a printed
    number. *)
Lemma has_byte_list c s :
  has_byte c s = false <-> Forall (fun d => c <> d) (String.list_ascii_of_string s).
Proof.
  induction s as [|d s IH]; simpl.
  - split; [by constructor|done].
  - rewrite orb_false_iff, bool_decide_eq_false, IH, Forall_cons. done.
Qed.
Lemma FormatInt_no_byte n c :
  digit_val c = None -> c <> "-"%char -> has_byte c (FormatInt n) = false.
Proof.
  intros Hc Hm. unfold FormatInt.
  assert (forall m, 0 <= m -> has_byte c (dec_nat m) = false) as Hdec.
  { intros m Hm'. apply has_byte_list, dec_digits_all; [|done|constructor].
    intros d Hd ->. by rewrite digit_val_char in Hc. }
  destruct (Z.ltb_spec n 0); [|by apply Hdec].
  simpl. rewrite bool_decide_false by done. apply Hdec. lia.
Qed.
Lemma FormatInt_nonempty n : FormatInt n <> "".
Proof.
  unfold FormatInt. case_match; [done|]. destruct (dec_nat_cons n) as (c & s & ->). done.
Qed.
Lemma FormatInt_inj64 n m :
  int64_ok n = true -> int64_ok m = true -> FormatInt n = FormatInt m -> n = m.
Proof.
  rewrite !int64_ok_true. intros Hn Hm Heq.
  assert (Some n = Some m) as [= ->]; [|done].
  rewrite <- (ParseInt_FormatInt n 64), <- (ParseInt_FormatInt m 64) by lia. by rewrite Heq.
Qed.

(** A parsed number fits the width it was parsed at. *)
Lemma parse_digits_nonneg acc s n : 0 <= acc -> parse_digits acc s = Some n -> 0 <= n.
Proof.
  revert acc. induction s as [|c s IH]; intros acc Hacc; simpl; [by intros [= ->]|].
  destruct (digit_val c) as [d|] eqn:Hd; [|done]. unfold digit_val in Hd.
  destruct (_ && _) eqn:Hr; [|done]. apply andb_true_iff in Hr as [Hr%Z.leb_le _].
  injection Hd as <-. apply IH. lia.
Qed.
Lemma parse_nat_nonneg s n : parse_nat s = Some n -> 0 <= n.
Proof. destruct s; [done|]. apply parse_digits_nonneg. done. Qed.
Lemma ParseInt_range s bits n :
  0 < bits -> ParseInt s bits = Some n -> - 2 ^ (bits - 1) <= n < 2 ^ (bits - 1).
Proof.
  intros Hb. assert (0 < 2 ^ (bits - 1)) by (apply Z.pow_pos_nonneg; lia).
  assert (forall t, (n0 ← parse_nat t; if n0 <? 2 ^ (bits - 1) then Some n0 else None) = Some n ->
    - 2 ^ (bits - 1) <= n < 2 ^ (bits - 1)) as Hpos.
  { intros t (m & Hm & Hlt)%bind_Some. apply parse_nat_nonneg in Hm.
    destruct (Z.ltb_spec m (2 ^ (bits - 1))); simplify_eq. lia. }
  destruct s as [|c s]; [by apply (Hpos "")|].
  assert (forall m, parse_nat s = Some m -> m <=? 2 ^ (bits - 1) = true ->
    - 2 ^ (bits - 1) <= - m < 2 ^ (bits - 1)) as Hneg.
  { intros m Hm%parse_nat_nonneg Hle%Z.leb_le. lia. }
  destruct (decide (c = "-"%char)) as [->|].
  { cbn. intros (m & Hm & Hle)%bind_Some. case_match; simplify_eq. by apply Hneg. }
  destruct (decide (c = "+"%char)) as [->|]; [apply Hpos|].
  intros Hs. apply (Hpos (String c s)). destruct c as [[] [] [] [] [] [] [] []]; done.
Qed.
