(* ===== verification/GoEncoding.v ===== *)
(** * Byte encodings and cryptographic primitives of Go's standard library

    Big-endian naturals ([math/big]'s [SetBytes] and [Bytes]), [encoding/hex],
    [encoding/base64] and [crypto/subtle]. The hash functions are an
    interface, the class [Crypto]: the hub relies on their output lengths
    only, and the theorems hold for every instance. *)
From S2P Require Import Prelude GoStrings.
Open Scope Z_scope.

(** ** Bytes *)

Definition byte_of (n : Z) : ascii := Ascii.ascii_of_N (Z.to_N n).
Definition byte_val (c : ascii) : Z := Z.of_N (Ascii.N_of_ascii c).

(** [new(big.Int).SetBytes(s)]. *)
Fixpoint bytes_val_acc (acc : Z) (s : string) : Z :=
  match s with
  | "" => acc
  | String c s => bytes_val_acc (256 * acc + byte_val c) s
  end.
Definition SetBytes (s : string) : Z := bytes_val_acc 0 s.

(** [n.Bytes()]: the shortest big-endian encoding. Fuel: [log2 n + 1] bytes
    are enough. *)
Fixpoint bytes_of (fuel : nat) (n : Z) (acc : string) : string :=
  match fuel with
  | O => acc
  | S fuel =>
      if n =? 0 then acc
      else bytes_of fuel (n / 256) (String (byte_of (n mod 256)) acc)
  end.
Definition Bytes (n : Z) : string := bytes_of (Z.to_nat (Z.log2 n) + 1) n "".

(** [make([]byte, n)]. *)
Fixpoint zero_bytes (n : nat) : string :=
  match n with
  | O => ""
  | S n => String (byte_of 0) (zero_bytes n)
  end.

(** [hex.EncodeToString]. *)
Definition hex_char (n : Z) : ascii :=
  if n <? 10 then byte_of (48 + n) else byte_of (87 + n).
Fixpoint hex_EncodeToString (s : string) : string :=
  match s with
  | "" => ""
  | String c s =>
      String (hex_char (byte_val c / 16)) (String (hex_char (byte_val c mod 16)) (hex_EncodeToString s))
  end.

(** [base64.StdEncoding.EncodeToString]: three bytes give four characters, the
    last group is padded with '='. *)
Definition base64_alphabet : string :=
  "ABCDEFGHIJKLMNOPQRSTUVWXYZabcdefghijklmnopqrstuvwxyz0123456789+/".
Definition base64_char (n : Z) : ascii :=
  default "="%char (String.get (Z.to_nat n) base64_alphabet).
Definition base64_quad (a b c : Z) : Z * Z * Z * Z :=
  (a / 4, (a mod 4) * 16 + b / 16, (b mod 16) * 4 + c / 64, c mod 64).
Fixpoint base64_Std (s : string) : string :=
  match s with
  | "" => ""
  | String a "" =>
      let '(w, x, _, _) := base64_quad (byte_val a) 0 0 in
      String (base64_char w) (String (base64_char x) "==")
  | String a (String b "") =>
      let '(w, x, y, _) := base64_quad (byte_val a) (byte_val b) 0 in
      String (base64_char w) (String (base64_char x) (String (base64_char y) "="))
  | String a (String b (String c s)) =>
      let '(w, x, y, z) := base64_quad (byte_val a) (byte_val b) (byte_val c) in
      String (base64_char w) (String (base64_char x)
        (String (base64_char y) (String (base64_char z) (base64_Std s))))
  end.

(** [subtle.ConstantTimeCompare]: 1 iff the two slices are equal. *)
Definition ConstantTimeCompare (x y : string) : Z := if decide (x = y) then 1 else 0.

(** ** Hash functions *)

Class Crypto := {
  (** [sha256.Sum256] *)
  sha256 : string -> string;
  sha256_length : forall m, String.length (sha256 m) = 32%nat;
  (** [hmac.New(sha1.New, key)] fed with a message, then [Sum(nil)] *)
  hmac_sha1 : string -> string -> string;
  hmac_sha1_length : forall k m, String.length (hmac_sha1 k m) = 20%nat
}.

(** An instance to evaluate definitions with: not a cryptographic hash, but it
    tells short inputs apart. *)
Definition toy_digest (n : nat) (m : string) : string := str_take n (m +:+ zero_bytes n).

(** * Lemmas *)

Lemma byte_val_of n : 0 <= n < 256 -> byte_val (byte_of n) = n.
Proof. intros Hn. unfold byte_val, byte_of. rewrite Ascii.N_ascii_embedding by lia. lia. Qed.
Lemma byte_of_val c : byte_of (byte_val c) = c.
Proof. unfold byte_val, byte_of. rewrite N2Z.id. apply Ascii.ascii_N_embedding. Qed.
Lemma byte_val_range c : 0 <= byte_val c < 256.
Proof. unfold byte_val. pose proof (Ascii.N_ascii_bounded c). lia. Qed.
Lemma byte_val_inj c d : byte_val c = byte_val d -> c = d.
Proof. intros H. by rewrite <- (byte_of_val c), <- (byte_of_val d), H. Qed.

Lemma pow256_S n : 256 ^ Z.of_nat (S n) = 256 * 256 ^ Z.of_nat n.
Proof. rewrite Nat2Z.inj_succ. apply Z.pow_succ_r. lia. Qed.
Lemma pow256_pos n : 0 < 256 ^ Z.of_nat n.
Proof. apply Z.pow_pos_nonneg; lia. Qed.

Lemma bytes_val_acc_eq acc s :
  bytes_val_acc acc s = acc * 256 ^ Z.of_nat (String.length s) + SetBytes s.
Proof.
  unfold SetBytes. revert acc. induction s as [|c s IH]; intros acc; [simpl; lia|].
  cbn [bytes_val_acc String.length]. rewrite IH, (IH (256 * 0 + byte_val c)), pow256_S. lia.
Qed.
Lemma SetBytes_cons c s :
  SetBytes (String c s) = byte_val c * 256 ^ Z.of_nat (String.length s) + SetBytes s.
Proof. unfold SetBytes at 1. cbn [bytes_val_acc]. rewrite bytes_val_acc_eq. lia. Qed.
Lemma SetBytes_range s : 0 <= SetBytes s < 256 ^ Z.of_nat (String.length s).
Proof.
  induction s as [|c s IH]; [done|]. rewrite SetBytes_cons. cbn [String.length].
  rewrite pow256_S. pose proof (byte_val_range c). nia.
Qed.
Lemma SetBytes_inj s t :
  String.length s = String.length t -> SetBytes s = SetBytes t -> s = t.
Proof.
  revert t. induction s as [|c s IH]; intros [|d t] Hl Hv; try done.
  simpl in Hl. injection Hl as Hl. rewrite !SetBytes_cons, Hl in Hv.
  pose proof (SetBytes_range s) as Hs. pose proof (SetBytes_range t). rewrite Hl in Hs.
  assert (byte_val c = byte_val d) as Hcd by nia.
  rewrite Hcd in Hv. apply byte_val_inj in Hcd as ->. f_equal. apply IH; [done|lia].
Qed.
Lemma SetBytes_zeros n s : SetBytes (zero_bytes n +:+ s) = SetBytes s.
Proof.
  induction n as [|n IH]; [done|]. cbn [zero_bytes]. rewrite str_app_cons, SetBytes_cons, IH.
  by rewrite byte_val_of by lia.
Qed.
Lemma length_zero_bytes n : String.length (zero_bytes n) = n.
Proof. induction n; simpl; congruence. Qed.

Lemma bytes_of_spec fuel n s :
  0 <= n < 256 ^ Z.of_nat fuel ->
  exists b, bytes_of fuel n s = b +:+ s /\ SetBytes b = n /\
    (n < 256 ^ Z.of_nat (String.length b)) /\
    (b <> "" -> 256 ^ Z.of_nat (pred (String.length b)) <= n).
Proof.
  revert n s. induction fuel as [|fuel IH]; intros n s Hn.
  - simpl in Hn. exists "". replace n with 0 by lia. done.
  - rewrite pow256_S in Hn. cbn [bytes_of]. destruct (Z.eqb_spec n 0) as [->|Hne].
    { exists "". done. }
    pose proof (Z.mod_pos_bound n 256). pose proof (Z_div_mod_eq_full n 256).
    destruct (IH (n / 256) (String (byte_of (n mod 256)) s)) as (b & Hb & Hv & Hlt & Hmin); [lia|].
    assert (SetBytes (b +:+ String (byte_of (n mod 256)) "") = n) as Hval.
    { clear -Hv H H0. unfold SetBytes.
      assert (forall a acc, bytes_val_acc acc (a +:+ String (byte_of (n mod 256)) "") =
        256 * bytes_val_acc acc a + n mod 256) as ->; [|fold (SetBytes b); lia].
      induction a as [|c a IHa]; intros acc; [|by rewrite str_app_cons; cbn [bytes_val_acc]].
      rewrite str_app_nil_l. cbn [bytes_val_acc]. by rewrite byte_val_of by lia. }
    exists (b +:+ String (byte_of (n mod 256)) "").
    rewrite str_app_assoc, str_length_app, Nat.add_comm. cbn [String.length Nat.add pred].
    split_and!; [done|done|rewrite pow256_S; lia|]. intros _.
    destruct b as [|c b]; [cbn; lia|]. cbn [String.length pred] in *.
    rewrite pow256_S. specialize (Hmin ltac:(done)). lia.
Qed.
Lemma Bytes_spec n :
  0 <= n -> SetBytes (Bytes n) = n /\
    forall k, (String.length (Bytes n) <= k)%nat <-> n < 256 ^ Z.of_nat k.
Proof.
  intros Hn. unfold Bytes.
  destruct (bytes_of_spec (Z.to_nat (Z.log2 n) + 1) n "") as (b & Hb & Hv & Hlt & Hmin).
  { split; [done|]. eapply Z.lt_le_trans; [by apply dec_nat_fuel|].
    apply Z.pow_le_mono_l. lia. }
  rewrite str_app_nil_r in Hb. rewrite Hb. split; [done|]. intros k. split; intros Hk.
  - eapply Z.lt_le_trans; [done|]. apply Z.pow_le_mono_r; lia.
  - destruct b as [|c b]; [simpl; lia|]. specialize (Hmin ltac:(done)).
    destruct (decide (String.length (String c b) <= k)%nat) as [|Hnle]; [done|exfalso].
    assert (256 ^ Z.of_nat k <= 256 ^ Z.of_nat (pred (String.length (String c b)))); [|lia].
    apply Z.pow_le_mono_r; simpl in *; lia.
Qed.

(** ** Hex *)

Lemma length_hex s : String.length (hex_EncodeToString s) = (2 * String.length s)%nat.
Proof. induction s as [|c s IH]; simpl in *; lia. Qed.
Lemma hex_char_inj n m : 0 <= n < 16 -> 0 <= m < 16 -> hex_char n = hex_char m -> n = m.
Proof.
  intros Hn Hm Heq%(f_equal byte_val). unfold hex_char in Heq.
  destruct (Z.ltb_spec n 10), (Z.ltb_spec m 10); rewrite !byte_val_of in Heq by lia; lia.
Qed.
Lemma hex_inj s t : hex_EncodeToString s = hex_EncodeToString t -> s = t.
Proof.
  revert t. induction s as [|c s IH]; intros [|d t] Heq; simpl in Heq; try done.
  injection Heq as Hhi Hlo Heq. f_equal; [|by apply IH].
  pose proof (byte_val_range c). pose proof (byte_val_range d).
  pose proof (Z_div_mod_eq_full (byte_val c) 16). pose proof (Z_div_mod_eq_full (byte_val d) 16).
  pose proof (Z.mod_pos_bound (byte_val c) 16). pose proof (Z.mod_pos_bound (byte_val d) 16).
  apply hex_char_inj in Hhi; [|lia..]. apply hex_char_inj in Hlo; [|lia..].
  apply byte_val_inj. lia.
Qed.

(** ** Comparison *)

Lemma ConstantTimeCompare_1 x y : ConstantTimeCompare x y = 1 <-> x = y.
Proof. unfold ConstantTimeCompare. by case_decide. Qed.

Lemma length_toy_digest n m : String.length (toy_digest n m) = n.
Proof. unfold toy_digest. rewrite length_str_take, str_length_app, length_zero_bytes. lia. Qed.
Definition toy_crypto : Crypto := {|
  sha256 := toy_digest 32;
  sha256_length := length_toy_digest 32;
  hmac_sha1 k m := toy_digest 20 (k +:+ m);
  hmac_sha1_length k m := length_toy_digest 20 (k +:+ m)
|}.

(** ** Base 64 *)

Lemma base64_char_inj n m : 0 <= n < 64 -> 0 <= m < 64 -> base64_char n = base64_char m -> n = m.
Proof.
  intros Hn Hm.
  assert (forallb (fun i => forallb (fun j =>
    negb (Ascii.eqb (base64_char (Z.of_nat i)) (base64_char (Z.of_nat j))) || Nat.eqb i j)
    (seq 0 64)) (seq 0 64) = true) as Hall by (vm_compute; reflexivity).
  rewrite forallb_forall in Hall. specialize (Hall (Z.to_nat n)).
  rewrite in_seq, forallb_forall in Hall. specialize (Hall ltac:(lia) (Z.to_nat m)).
  rewrite in_seq, !Z2Nat.id in Hall by lia. specialize (Hall ltac:(lia)).
  intros Heq. rewrite Heq, Ascii.eqb_refl in Hall. apply Nat.eqb_eq in Hall. lia.
Qed.
Lemma base64_char_pad n : 0 <= n < 64 -> base64_char n <> "="%char.
Proof.
  intros Hn Heq.
  assert (forallb (fun i => negb (Ascii.eqb (base64_char (Z.of_nat i)) "=")) (seq 0 64) = true)
    as Hall by (vm_compute; reflexivity).
  rewrite forallb_forall in Hall. specialize (Hall (Z.to_nat n)).
  rewrite in_seq, Z2Nat.id, Heq in Hall by lia. specialize (Hall ltac:(lia)). done.
Qed.
(** The four sextets of three bytes are in range and determine the bytes. *)
Lemma base64_sextets a b c :
  0 <= a < 256 -> 0 <= b < 256 -> 0 <= c < 256 ->
  0 <= a / 4 < 64 /\ 0 <= a mod 4 * 16 + b / 16 < 64 /\
  0 <= b mod 16 * 4 + c / 64 < 64 /\ 0 <= c mod 64 < 64.
Proof. intros. split_and!; Z.to_euclidean_division_equations; lia. Qed.
Lemma base64_sextets_inj a b c a' b' c' :
  0 <= a < 256 -> 0 <= b < 256 -> 0 <= c < 256 ->
  0 <= a' < 256 -> 0 <= b' < 256 -> 0 <= c' < 256 ->
  a / 4 = a' / 4 -> a mod 4 * 16 + b / 16 = a' mod 4 * 16 + b' / 16 ->
  a = a' /\ (b mod 16 * 4 + c / 64 = b' mod 16 * 4 + c' / 64 ->
    b = b' /\ (c mod 64 = c' mod 64 -> c = c')).
Proof. intros. split_and!; intros; split_and?; Z.to_euclidean_division_equations; lia. Qed.

Lemma base64_chars_inj a b c a' b' c' :
  0 <= a < 256 -> 0 <= b < 256 -> 0 <= c < 256 ->
  0 <= a' < 256 -> 0 <= b' < 256 -> 0 <= c' < 256 ->
  base64_char (a / 4) = base64_char (a' / 4) ->
  base64_char (a mod 4 * 16 + b / 16) = base64_char (a' mod 4 * 16 + b' / 16) ->
  a = a' /\ (base64_char (b mod 16 * 4 + c / 64) = base64_char (b' mod 16 * 4 + c' / 64) ->
    b = b' /\ (base64_char (c mod 64) = base64_char (c' mod 64) -> c = c')).
Proof.
  intros Ha Hb Hc Ha' Hb' Hc' H1 H2.
  destruct (base64_sextets a b c) as (?&?&?&?); [done..|].
  destruct (base64_sextets a' b' c') as (?&?&?&?); [done..|].
  apply base64_char_inj in H1; [|done..]. apply base64_char_inj in H2; [|done..].
  destruct (base64_sextets_inj a b c a' b' c') as [? Hrest]; [done..|].
  split; [done|]. intros Hq3%base64_char_inj; [|done..]. destruct (Hrest Hq3) as [? Hrest'].
  split; [done|]. intros Hq4%base64_char_inj; [|done..]. auto.
Qed.

(** A data character is never the padding character. *)
Lemma base64_third_pad b c : "="%char <> base64_char (byte_val b mod 16 * 4 + byte_val c / 64).
Proof.
  intros Heq. symmetry in Heq. revert Heq. apply base64_char_pad.
  by apply (base64_sextets 0 (byte_val b) (byte_val c)); try apply byte_val_range.
Qed.
Lemma base64_third_pad0 b : "="%char <> base64_char (byte_val b mod 16 * 4 + 0 / 64).
Proof.
  intros Heq. symmetry in Heq. revert Heq. apply base64_char_pad.
  by apply (base64_sextets 0 (byte_val b) 0); try apply byte_val_range.
Qed.
Lemma base64_fourth_pad c : "="%char <> base64_char (byte_val c mod 64).
Proof.
  intros Heq. symmetry in Heq. revert Heq. apply base64_char_pad.
  pose proof (Z.mod_pos_bound (byte_val c) 64). lia.
Qed.

Lemma base64_Std_inj s t : base64_Std s = base64_Std t -> s = t.
Proof.
  remember (String.length s) as n eqn:Hn. revert s t Hn.
  induction (lt_wf n) as [n _ IH]. intros s t Hn Heq.
  assert (forall c, 0 <= byte_val c < 256) as R by apply byte_val_range.
  destruct s as [|a [|b [|c s]]], t as [|a' [|b' [|c' t]]]; try done;
    cbn [base64_Std base64_quad] in Heq; injection Heq; intros; clear Heq;
    try match goal with
    | H : "="%char = base64_char _ |- _ =>
        by apply base64_third_pad in H || apply base64_third_pad0 in H || apply base64_fourth_pad in H
    | H : base64_char _ = "="%char |- _ =>
        symmetry in H;
        by apply base64_third_pad in H || apply base64_third_pad0 in H || apply base64_fourth_pad in H
    end.
  - destruct (base64_chars_inj (byte_val a) 0 0 (byte_val a') 0 0) as [->%byte_val_inj _]; auto; lia.
  - destruct (base64_chars_inj (byte_val a) (byte_val b) 0 (byte_val a') (byte_val b') 0)
      as [->%byte_val_inj Hb]; auto; try lia. by destruct Hb as [->%byte_val_inj _].
  - destruct (base64_chars_inj (byte_val a) (byte_val b) (byte_val c)
      (byte_val a') (byte_val b') (byte_val c')) as [->%byte_val_inj Hb]; auto.
    destruct Hb as [->%byte_val_inj Hc]; [done|]. rewrite (byte_val_inj _ _ (Hc ltac:(done))).
    do 3 f_equal. eapply (IH (String.length s)); [|done|done]. subst n. simpl. lia.
Qed.
