(* ===== verification/GoTime.v ===== *)
(** * Go's [time] package, as far as the hub uses it

    A [time.Time] is its 64-bit count of seconds since January 1 of year 1 and
    its nanoseconds (the monotonic reading, which no comparison here uses, is
    left out); a [time.Duration] is a number of nanoseconds. *)
From S2P Require Import Prelude GoStrings.
Open Scope Z_scope.

Record Time := { ext : Z; nsec : Z }.

Definition Second : Z := 10 ^ 9.
Definition Minute : Z := 60 * Second.
Definition Hour : Z := 60 * Minute.

(** Seconds from year 1 to the Unix epoch. *)
Definition unixToInternal : Z := 62135596800.

(** [time.Unix(sec, 0)] and [t.Unix()], on int64. *)
Definition time_Unix (sec : Z) : Time := {| ext := wrap64 (sec + unixToInternal); nsec := 0 |}.
Definition Unix (t : Time) : Z := wrap64 (ext t - unixToInternal).
(** [t.UnixMilli()]. *)
Definition UnixMilli (t : Time) : Z :=
  wrap64 ((ext t - unixToInternal) * 1000 + nsec t / 10 ^ 6).
(** [time.UnixMilli(ms)]. *)
Definition time_UnixMilli (ms : Z) : Time :=
  {| ext := wrap64 (ms / 1000 + unixToInternal); nsec := (ms mod 1000) * 10 ^ 6 |}.
(** [t.Add(d)]: the seconds saturate at the ends of int64. *)
Definition time_Add (t : Time) (d : Z) : Time :=
  let n := nsec t + d in
  {| ext := Z.max (- (2 ^ 63 - 1)) (Z.min (2 ^ 63 - 1) (ext t + n / Second));
     nsec := n mod Second |}.
(** [t.Truncate(time.Second)]. *)
Definition Truncate_Second (t : Time) : Time := {| ext := ext t; nsec := 0 |}.
(** [t.After(u)]. *)
Definition After (t u : Time) : bool :=
  (ext u <? ext t) || (ext t =? ext u) && (nsec u <? nsec t).

(** ** RFC 3339

    [time.UnixMilli(ms).UTC().Format(time.RFC3339)]. The calendar date of a day
    count is computed in 400-year eras of 146097 days starting on March 1. *)
Definition civil_of_days (days : Z) : Z * Z * Z :=
  let z := days + 719468 in
  let era := z / 146097 in
  let doe := z mod 146097 in
  let yoe := (doe - doe / 1460 + doe / 36524 - doe / 146096) / 365 in
  let doy := doe - (365 * yoe + yoe / 4 - yoe / 100) in
  let mp := (5 * doy + 2) / 153 in
  let d := doy - (153 * mp + 2) / 5 + 1 in
  let m := if mp <? 10 then mp + 3 else mp - 9 in
  let y := yoe + era * 400 + (if m <=? 2 then 1 else 0) in
  (y, m, d).

Fixpoint pad_zeros (n : nat) (s : string) : string :=
  match n with
  | O => s
  | S n => String "0"%char (pad_zeros n s)
  end.
(** [appendInt(b, x, width)]. *)
Definition fixed_width (x : Z) (width : nat) : string :=
  let digits := FormatInt (Z.abs x) in
  (if x <? 0 then "-" else "") +:+ pad_zeros (width - String.length digits) digits.

Definition rfc3339 (ms : Z) : string :=
  let sec := ms / 1000 in
  let days := sec / 86400 in
  let s := sec mod 86400 in
  let '(y, m, d) := civil_of_days days in
  fixed_width y 4 +:+ "-" +:+ fixed_width m 2 +:+ "-" +:+ fixed_width d 2 +:+ "T" +:+
  fixed_width (s / 3600) 2 +:+ ":" +:+ fixed_width (s / 60 mod 60) 2 +:+ ":" +:+
  fixed_width (s mod 60) 2 +:+ "Z".

(** * Lemmas *)

(** The internal form of a wall-clock reading. *)
Definition time_ok (t : Time) : Prop := int64_ok (ext t) = true /\ 0 <= nsec t < Second.

Lemma wrap64_add_mod a k : wrap64 (a + k * 2 ^ 64) = wrap64 a.
Proof. unfold wrap64. by rewrite <- (Z.mod_add (a + 2 ^ 63) k) by lia; do 2 f_equal; lia. Qed.
Lemma wrap64_ex a : exists k, wrap64 a = a + k * 2 ^ 64.
Proof.
  unfold wrap64. exists (- ((a + 2 ^ 63) / 2 ^ 64)).
  pose proof (Z_div_mod_eq_full (a + 2 ^ 63) (2 ^ 64)). lia.
Qed.
Lemma wrap64_wrap_add a b : wrap64 (wrap64 a + b) = wrap64 (a + b).
Proof.
  destruct (wrap64_ex a) as [k ->].
  replace (a + k * 2 ^ 64 + b) with (a + b + k * 2 ^ 64) by lia. apply wrap64_add_mod.
Qed.

Lemma Unix_time_Unix ts : int64_ok ts = true -> Unix (time_Unix ts) = ts.
Proof.
  intros Hts. unfold Unix, time_Unix. cbn [ext].
  change (wrap64 (ts + unixToInternal) - unixToInternal)
    with (wrap64 (ts + unixToInternal) + - unixToInternal).
  rewrite wrap64_wrap_add. rewrite Z.add_opp_r, Z.add_simpl_r. by apply wrap64_id.
Qed.
Lemma time_Unix_Unix t : time_ok t -> time_Unix (Unix t) = Truncate_Second t.
Proof.
  intros [Hext _]. unfold Unix, time_Unix, Truncate_Second. f_equal.
  rewrite wrap64_wrap_add, Z.sub_add. by apply wrap64_id.
Qed.
Lemma After_irrefl t : After t t = false.
Proof. unfold After. rewrite !Z.ltb_irrefl, andb_false_r. done. Qed.
