(* ===== verification/ApiKeys.v ===== *)
(** * API keys: connect/shared/apikeys.go

    An API key reads [wc_<env>_<id>.<secret>] with a 17-character id and a
    43-character secret, both in a fixed-width base 62. [Generate] draws 12 and
    32 random bytes; [Parse] cuts a key up and derives the hash of its secret;
    [FromAuthHeader] finds the key in an HTTP Authorization header. The header
    is a byte string, the random source is the byte string it still holds. *)
From S2P Require Import Prelude GoStrings GoEncoding.
Open Scope Z_scope.

Definition keyPrefix : string := "wc".
Definition idBytesLen : nat := 12.
Definition idEncodedLen : nat := 17.
Definition secretBytesLen : nat := 32.
Definition secretEncodedLen : nat := 43.

Definition base62Alphabet : list ascii :=
  String.list_ascii_of_string "0123456789ABCDEFGHIJKLMNOPQRSTUVWXYZabcdefghijklmnopqrstuvwxyz".
Definition base62Base : Z := 62.

(** The [error] values of the package. *)
Inductive keyError :=
| errEmptyEnv
| errInvalidFormat
| errReadID
| errReadSecret
| errDecodeSecret (e : keyError)
| errEmptyBase62
| errBadCharacter (c : ascii)
| errTooLong (size : nat)
| ErrNoAuthHeader
| ErrBadAuthHeader
| ErrInvalidKey.

(** The public messages of the errors [FromAuthHeader] returns. *)
Definition authErrorMessage (e : keyError) : string :=
  match e with
  | ErrNoAuthHeader => "Authorization header is required"
  | ErrBadAuthHeader => "Authorization header must be in the format 'Bearer <token>"
  | ErrInvalidKey => "Invalid API key format"
  | _ => ""
  end.

Record APIKey := {
  ID : string;
  Env : string;
  Encoded : string;
  SecretHash : string
}.

(** ** Base 62 *)

(** The lookup table: 0xFF marks a byte outside the alphabet. *)
Definition initBase62Indices : list Z :=
  foldl (fun table '(i, ch) => <[N.to_nat (Ascii.N_of_ascii ch) := Z.of_nat i]> table)
    (replicate 256 255) (imap pair base62Alphabet).
Definition base62Indices : list Z := Eval vm_compute in initBase62Indices.
Definition base62_index (c : ascii) : Z :=
  default 255 (base62Indices !! N.to_nat (Ascii.N_of_ascii c)).
Definition base62_char (n : Z) : ascii :=
  default "0"%char (base62Alphabet !! Z.to_nat n).

(** The loop [for i := maxLen - 1; i >= 0; i--] with its early [break]; [i]
    counts the positions left. *)
Fixpoint encode_loop (i : nat) (num : Z) (buf : list ascii) : Z * list ascii :=
  match i with
  | O => (num, buf)
  | S i =>
      if num =? 0 then (num, buf)
      else encode_loop i (num / base62Base) (<[i := base62_char (num mod base62Base)]> buf)
  end.
Definition encodeBase62 (src : string) (maxLen : nat) : outcome string :=
  let '(num, buf) := encode_loop maxLen (SetBytes src) (replicate maxLen (base62_char 0)) in
  if 0 <? num then Panic "apikeys: maxLen too small for source bytes"
  else Return (String.string_of_list_ascii buf).

Fixpoint decode_loop (num : Z) (s : string) : result keyError Z :=
  match s with
  | "" => Ok num
  | String c s =>
      let val := base62_index c in
      if val =? 255 then Err (errBadCharacter c)
      else decode_loop (num * base62Base + val) s
  end.
Definition decodeBase62 (s : string) (size : nat) : result keyError string :=
  if decide (s = "") then Err errEmptyBase62
  else
    num ← decode_loop 0 s;
    let bytes := Bytes num in
    if decide (size < String.length bytes)%nat then Err (errTooLong size)
    else if decide (String.length bytes < size)%nat then
      Ok (zero_bytes (size - String.length bytes) +:+ bytes)
    else Ok bytes.

(** ** Keys *)

Definition split (raw : string) : result keyError (string * string * string) :=
  if decide (raw = "") then Err errInvalidFormat
  else if negb (HasPrefix raw (keyPrefix +:+ "_")) then Err errInvalidFormat
  else
    let trimmed := TrimPrefix raw (keyPrefix +:+ "_") in
    let envSep := IndexByte trimmed "_"%char in
    if envSep <=? 0 then Err errInvalidFormat
    else
      let env := str_take (Z.to_nat envSep) trimmed in
      let remainder := str_drop (Z.to_nat (envSep + 1)) trimmed in
      let dot := IndexByte remainder "."%char in
      if (dot <=? 0) || (dot =? slen remainder - 1) then Err errInvalidFormat
      else
        let idPart := str_take (Z.to_nat dot) remainder in
        let secretPart := str_drop (Z.to_nat (dot + 1)) remainder in
        if bool_decide (env = "")
           || negb (bool_decide (String.length idPart = idEncodedLen))
           || negb (bool_decide (String.length secretPart = secretEncodedLen))
        then Err errInvalidFormat
        else Ok (env, idPart, secretPart).

(** [fmt.Sprintf("%s_%s_%s.%s", keyPrefix, env, idPart, secretPart)]. *)
Definition encodedKey (env idPart secretPart : string) : string :=
  keyPrefix +:+ "_" +:+ env +:+ "_" +:+ idPart +:+ "." +:+ secretPart.

(** [io.ReadFull(r, buf)] on a reader that still holds the bytes [r]. *)
Definition ReadFull (n : nat) (r : string) : option (string * string) :=
  if decide (n <= String.length r)%nat then Some (str_take n r, str_drop n r) else None.

Section keys.
Context `{Crypto}.

Definition generateWithReader (env : string) (r : string) : outcome (result keyError APIKey) :=
  if TrimSpace_is_empty env then Return (Err errEmptyEnv)
  else
    match ReadFull idBytesLen r with
    | None => Return (Err errReadID)
    | Some (idBytes, r) =>
        match ReadFull secretBytesLen r with
        | None => Return (Err errReadSecret)
        | Some (secretBytes, _) =>
            idPart ← encodeBase62 idBytes idEncodedLen;
            secretPart ← encodeBase62 secretBytes secretEncodedLen;
            Return (Ok {|
              Encoded := encodedKey env idPart secretPart;
              Env := env;
              ID := idPart;
              SecretHash := sha256 secretBytes
            |})
        end
    end.

Definition Parse (raw : string) : result keyError APIKey :=
  '(env, idPart, secretPart) ← split raw;
  match decodeBase62 secretPart secretBytesLen with
  | Err e => Err (errDecodeSecret e)
  | Ok secretBytes =>
      Ok {| ID := idPart; Env := env; Encoded := raw; SecretHash := sha256 secretBytes |}
  end.

Definition FromAuthHeader (header : string) : result keyError APIKey :=
  if decide (header = "") then Err ErrNoAuthHeader
  else
    match Split header " "%char with
    | [scheme; token] =>
        if EqualFold scheme "bearer" then
          match Parse token with
          | Ok key => Ok key
          | Err _ => Err ErrInvalidKey
          end
        else Err ErrBadAuthHeader
    | _ => Err ErrBadAuthHeader
    end.
End keys.

(** ** Reference definitions *)

(** The big-endian base-62 digits of [num mod 62 ^ n], at width [n]. *)
Fixpoint base62_digits (n : nat) (num : Z) : list ascii :=
  match n with
  | O => []
  | S n => base62_digits n (num / 62) ++ [base62_char (num mod 62)]
  end.

(** * Lemmas *)

(** ** The alphabet and its table *)

(** The table computed at compile time is the one [init] builds. *)
Lemma base62Indices_eq : base62Indices = initBase62Indices.
Proof. reflexivity. Qed.

Lemma base62_index_char n : 0 <= n < 62 -> base62_index (base62_char n) = n.
Proof.
  intros Hn.
  assert (forallb (fun k => base62_index (base62_char (Z.of_nat k)) =? Z.of_nat k) (seq 0 62) = true)
    as Hall by reflexivity.
  rewrite forallb_forall in Hall. specialize (Hall (Z.to_nat n)).
  rewrite Z2Nat.id in Hall by lia. apply Z.eqb_eq, Hall, in_seq. lia.
Qed.
(** A byte outside the table is not in the alphabet; the others are. *)
Lemma base62_index_cases c :
  base62_index c = 255 \/ (0 <= base62_index c < 62 /\ base62_char (base62_index c) = c).
Proof.
  assert (forall c, (base62_index c =? 255) ||
    ((0 <=? base62_index c) && (base62_index c <? 62) &&
     bool_decide (base62_char (base62_index c) = c)) = true) as Hall.
  { intros [[] [] [] [] [] [] [] []]; vm_compute; reflexivity. }
  specialize (Hall c). apply orb_true_iff in Hall as [->%Z.eqb_eq|Hc]; [by left|right].
  rewrite !andb_true_iff, bool_decide_eq_true in Hc. destruct Hc as [? Hc]. split; [lia|done].
Qed.
Lemma base62_char_no_byte n c : base62_index c = 255 -> 0 <= n < 62 -> base62_char n <> c.
Proof. intros Hc Hn <-. rewrite base62_index_char in Hc; lia. Qed.

(** ** The encoder writes the fixed-width digits *)

Lemma length_base62_digits n num : length (base62_digits n num) = n.
Proof. revert num. induction n as [|n IH]; intros num; simpl; [done|]. rewrite length_app, IH. simpl. lia. Qed.
Lemma base62_digits_0 n : base62_digits n 0 = replicate n (base62_char 0).
Proof.
  induction n as [|n IH]; [done|]. cbn [base62_digits]. rewrite Z.div_0_l, Z.mod_0_l by lia.
  rewrite IH. by rewrite <- replicate_S_end.
Qed.
Lemma encode_loop_eq i num suf :
  encode_loop i num (replicate i (base62_char 0) ++ suf) =
  (if num =? 0 then 0 else num / 62 ^ Z.of_nat i, base62_digits i num ++ suf).
Proof.
  revert num suf. induction i as [|i IH]; intros num suf.
  - simpl. case_match eqn:Hn; [by apply Z.eqb_eq in Hn as ->|]. by rewrite Z.div_1_r.
  - cbn [encode_loop]. case_match eqn:Hn.
    { apply Z.eqb_eq in Hn as ->. by rewrite base62_digits_0. }
    rewrite replicate_S_end, <- app_assoc.
    rewrite insert_app_r_alt by (rewrite length_replicate; lia).
    rewrite length_replicate, Nat.sub_diag. cbn [app list_insert insert].
    change (base62_char (num mod base62Base) :: suf) with ([base62_char (num mod 62)] ++ suf).
    rewrite IH. unfold base62Base. cbn [base62_digits]. rewrite <- app_assoc. f_equal.
    rewrite Nat2Z.inj_succ, Z.pow_succ_r, <- Z.div_div by lia.
    case_match eqn:Hd; [|done]. apply Z.eqb_eq in Hd as ->. done.
Qed.
Lemma pow62_S n : 62 ^ Z.of_nat (S n) = 62 * 62 ^ Z.of_nat n.
Proof. rewrite Nat2Z.inj_succ. apply Z.pow_succ_r. lia. Qed.

(** The encoder panics exactly when the value needs more than [maxLen]
    digits; otherwise it gives the reference digits. *)
Lemma encodeBase62_eq src maxLen :
  encodeBase62 src maxLen =
  if decide (SetBytes src < 62 ^ Z.of_nat maxLen)
  then Return (String.string_of_list_ascii (base62_digits maxLen (SetBytes src)))
  else Panic "apikeys: maxLen too small for source bytes".
Proof.
  unfold encodeBase62. pose proof (SetBytes_range src) as [H0 _].
  rewrite <- (app_nil_r (replicate _ _)), encode_loop_eq, app_nil_r.
  assert (0 < 62 ^ Z.of_nat maxLen) by (apply Z.pow_pos_nonneg; lia).
  case_decide as Hlt.
  - rewrite Z.div_small by lia. by destruct (SetBytes src =? 0).
  - assert (1 <= SetBytes src / 62 ^ Z.of_nat maxLen) by (apply Z.div_le_lower_bound; lia).
    destruct (Z.eqb_spec (SetBytes src) 0); [lia|].
    by replace (0 <? SetBytes src / 62 ^ Z.of_nat maxLen) with true by lia.
Qed.
Lemma length_string_of_list l : String.length (String.string_of_list_ascii l) = length l.
Proof. induction l; simpl; congruence. Qed.

(** ** The decoder reads them back *)

Lemma decode_loop_app acc l s :
  decode_loop acc (String.string_of_list_ascii l +:+ s) =
  (acc' ← decode_loop acc (String.string_of_list_ascii l); decode_loop acc' s).
Proof.
  revert acc. induction l as [|c l IH]; intros acc; [done|].
  cbn [String.string_of_list_ascii]. rewrite str_app_cons. cbn [decode_loop].
  case_match; [done|]. by rewrite IH.
Qed.
Lemma string_of_list_app l k :
  String.string_of_list_ascii (l ++ k) =
  String.string_of_list_ascii l +:+ String.string_of_list_ascii k.
Proof. induction l as [|c l IH]; [done|]. simpl. by rewrite IH. Qed.
Lemma decode_loop_digits n num acc :
  0 <= num ->
  decode_loop acc (String.string_of_list_ascii (base62_digits n num)) =
  Ok (acc * 62 ^ Z.of_nat n + num mod 62 ^ Z.of_nat n).
Proof.
  revert num acc. induction n as [|n IH]; intros num acc Hnum.
  - simpl. by rewrite Z.mod_1_r, Z.mul_1_r, Z.add_0_r.
  - cbn [base62_digits]. rewrite string_of_list_app, decode_loop_app.
    rewrite IH by (apply Z.div_pos; lia). cbn [mbind result_bind String.string_of_list_ascii decode_loop].
    pose proof (Z.mod_pos_bound num 62). rewrite base62_index_char by lia.
    replace (num mod 62 =? 255) with false by lia. unfold base62Base.
    rewrite pow62_S. f_equal. rewrite Z.rem_mul_r by lia. lia.
Qed.
Lemma decode_loop_canonical acc s num :
  0 <= acc -> decode_loop acc s = Ok num ->
  num / 62 ^ slen s = acc /\ 0 <= num /\
  String.string_of_list_ascii (base62_digits (String.length s) num) = s.
Proof.
  revert acc num.
  assert (forall l acc num, 0 <= acc -> decode_loop acc (String.string_of_list_ascii l) = Ok num ->
    num / 62 ^ Z.of_nat (length l) = acc /\ 0 <= num /\ base62_digits (length l) num = l) as Hl.
  { induction l as [|c l IH] using rev_ind; intros acc num Hacc.
    - simpl. intros [= <-]. by rewrite Z.div_1_r.
    - rewrite string_of_list_app, decode_loop_app, result_bind_Ok.
      intros (m & Hm & Hc). apply IH in Hm as (Hdiv & Hm & Hdig); [|done].
      cbn [String.string_of_list_ascii decode_loop] in Hc.
      destruct (base62_index_cases c) as [Hi|[Hr Hch]]; [by rewrite Hi in Hc|].
      replace (base62_index c =? 255) with false in Hc by lia.
      injection Hc as <-. unfold base62Base.
      rewrite length_app, Nat.add_comm. cbn [length Nat.add base62_digits].
      rewrite pow62_S, <- Z.div_div, Z.div_add_l, (Z.div_small (base62_index c)), Z.add_0_r by lia.
      rewrite Z.add_comm, Z.mod_add, Z.mod_small, Hch, Hdig by lia.
      split_and!; [done|lia|done]. }
  intros acc num Hacc Hd. rewrite <- (String.string_of_list_ascii_of_string s) in Hd |- *.
  unfold slen. rewrite length_string_of_list.
  destruct (Hl _ _ _ Hacc Hd) as (? & ? & ->). done.
Qed.
Lemma decode_loop_bad_byte acc s c :
  has_byte c s = true -> base62_index c = 255 -> is_ok (decode_loop acc s) = false.
Proof.
  revert acc. induction s as [|d s IH]; intros acc Hb Hc; [done|]. simpl in *.
  case_match eqn:Hd; [done|]. apply orb_true_iff in Hb as [->%bool_decide_eq_true|Hb].
  - by rewrite Hc in Hd.
  - by apply IH.
Qed.

Lemma base62_digits_no_byte n num c :
  base62_index c = 255 ->
  has_byte c (String.string_of_list_ascii (base62_digits n num)) = false.
Proof.
  intros Hc. revert num. induction n as [|n IH]; intros num; [done|].
  cbn [base62_digits]. rewrite string_of_list_app, has_byte_app, IH. simpl.
  pose proof (Z.mod_pos_bound num 62).
  rewrite bool_decide_false; [done|].
  intros Heq. eapply base62_char_no_byte; [done| |by symmetry]; lia.
Qed.

(** Padding the shortest encoding back to [size] bytes. *)
Lemma pad_Bytes size num :
  0 <= num < 256 ^ Z.of_nat size ->
  let b := Bytes num in
  (String.length b <= size)%nat /\
  SetBytes (zero_bytes (size - String.length b) +:+ b) = num /\
  String.length (zero_bytes (size - String.length b) +:+ b) = size.
Proof.
  intros [H0 Hlt] b. destruct (Bytes_spec num H0) as [Hv Hlen]. apply Hlen in Hlt.
  rewrite SetBytes_zeros, str_length_app, length_zero_bytes. split_and!; [done|done|].
  fold b in Hlt. lia.
Qed.
(** What the decoder returns: the [size] bytes whose value the digits denote. *)
Lemma decodeBase62_Ok s size b :
  decodeBase62 s size = Ok b <->
  s <> "" /\ String.length b = size /\ decode_loop 0 s = Ok (SetBytes b).
Proof.
  unfold decodeBase62. case_decide as Hs; [naive_solver|].
  rewrite result_bind_Ok. split.
  - intros (num & Hnum & Hb). split; [done|].
    destruct (decode_loop_canonical 0 s num) as (_ & H0 & _); [lia|done|].
    destruct (Bytes_spec num H0) as [Hv Hlen]. case_decide as Hsz; [done|].
    assert (num < 256 ^ Z.of_nat size) as Hlt by (apply Hlen; lia).
    destruct (pad_Bytes size num) as (_ & Hpv & Hpl); [done|].
    case_decide as Hpad; injection Hb as <-; [split; [done|by rewrite Hpv]|].
    split; [|by rewrite Hv]. apply Hlen in Hlt. lia.
  - intros (_ & <- & Hd). exists (SetBytes b). split; [done|].
    pose proof (SetBytes_range b) as Hr. destruct (pad_Bytes (String.length b) (SetBytes b)) as (Hle & Hv & Hl); [done|].
    rewrite decide_False by lia.
    apply SetBytes_inj in Hv; [|done]. case_decide as Hpad; [by rewrite Hv|].
    assert (String.length (Bytes (SetBytes b)) = String.length b) as Heq by lia.
    rewrite Heq, Nat.sub_diag in Hv. by rewrite <- Hv at 2.
Qed.

(** ** Cutting a key up *)

Lemma encodedKey_prefix env i s :
  encodedKey env i s = (keyPrefix +:+ "_") +:+ env +:+ String "_" (i +:+ String "." s).
Proof. unfold encodedKey. by rewrite !str_app_assoc. Qed.
Lemma length_encodedKey env i s :
  String.length (encodedKey env i s) =
  (5 + String.length env + String.length i + String.length s)%nat.
Proof. unfold encodedKey. rewrite !str_length_app. simpl. lia. Qed.
Lemma str_drop_app_cons a c b : str_drop (S (String.length a)) (a +:+ String c b) = b.
Proof.
  replace (a +:+ String c b) with ((a +:+ String c "") +:+ b) by (by rewrite str_app_assoc).
  rewrite <- (str_drop_app (a +:+ String c "") b) at 2. f_equal. rewrite str_length_app. simpl. lia.
Qed.
(** [IndexByte] gives a positive position exactly for a separator that follows
    a non-empty text. *)
Lemma IndexByte_pos s c :
  (IndexByte s c <=? 0) = false <->
  exists a b, s = a +:+ String c b /\ a <> "" /\ has_byte c a = false /\
    IndexByte s c = slen a.
Proof.
  unfold IndexByte, slen. rewrite Z.leb_gt. split.
  - destruct (index_byte c s) as [n|] eqn:Hi; [|lia].
    apply index_byte_Some in Hi as (a & b & -> & Ha & <-). intros Hpos.
    exists a, b. split_and!; [done| |done|done]. by intros ->.
  - intros (a & b & -> & Ha & Hc & Heq). rewrite Heq. destruct a; [done|]. simpl. lia.
Qed.
Lemma slice_at a c b :
  str_take (Z.to_nat (slen a)) (a +:+ String c b) = a /\
  str_drop (Z.to_nat (slen a + 1)) (a +:+ String c b) = b.
Proof.
  unfold slen. rewrite Nat2Z.id, str_take_app.
  replace (Z.to_nat (Z.of_nat (String.length a) + 1)) with (S (String.length a)) by lia.
  by rewrite str_drop_app_cons.
Qed.

(** A key with the shape [wc_<env>_<id>.<secret>]: no '_' in the environment, no
    '.' in the id, and the two fixed lengths. *)
Lemma split_Ok raw env i s :
  split raw = Ok (env, i, s) <->
  raw = encodedKey env i s /\ env <> "" /\ has_byte "_" env = false /\
  has_byte "." i = false /\ String.length i = idEncodedLen /\ String.length s = secretEncodedLen.
Proof.
  unfold split. split.
  - case_decide as Hraw; [done|].
    destruct (HasPrefix raw _) eqn:Hp; [|done]. apply HasPrefix_true in Hp as [t ->].
    cbn [negb]. rewrite TrimPrefix_app.
    destruct (IndexByte t "_" <=? 0) eqn:He; [done|].
    apply IndexByte_pos in He as (e & rem & -> & Hne & Hb & ->).
    destruct (slice_at e "_" rem) as [-> ->].
    destruct (IndexByte rem "." <=? 0) eqn:Hd; [done|]. cbn [orb].
    apply IndexByte_pos in Hd as (a & b & -> & Hane & Hab & ->).
    destruct (slice_at a "." b) as [-> ->].
    destruct (_ =? _); [done|]. case_match eqn:Hlen; [done|].
    rewrite !orb_false_iff, !negb_false_iff, !bool_decide_eq_true in Hlen.
    intros [= -> -> ->]. rewrite encodedKey_prefix. split_and!; try done; tauto.
  - intros (-> & Hne & Hb & Hd & Hi & Hs). rewrite encodedKey_prefix, decide_False by done.
    rewrite HasPrefix_app, TrimPrefix_app. cbn [negb].
    assert (IndexByte (env +:+ String "_" (i +:+ String "." s)) "_" = slen env) as ->.
    { unfold IndexByte. by rewrite index_byte_app. }
    destruct (slice_at env "_" (i +:+ String "." s)) as [-> ->].
    rewrite (proj2 (Z.leb_gt (slen env) 0)) by (by apply slen_pos).
    assert (IndexByte (i +:+ String "." s) "." = slen i) as ->.
    { unfold IndexByte. by rewrite index_byte_app. }
    destruct (slice_at i "." s) as [-> ->].
    rewrite slen_app. unfold slen at 1 2 3 4. cbn [String.length]. rewrite Hi, Hs.
    cbn [orb]. rewrite (bool_decide_false (env = "")), !bool_decide_true by done. done.
Qed.

(** ** Generating and parsing *)
Section key_lemmas.
Context `{Crypto}.

(** The widths are large enough for any random bytes. *)
Lemma encode_id b :
  String.length b = idBytesLen ->
  encodeBase62 b idEncodedLen =
  Return (String.string_of_list_ascii (base62_digits idEncodedLen (SetBytes b))).
Proof.
  intros Hl. rewrite encodeBase62_eq. pose proof (SetBytes_range b) as [_ Hr].
  rewrite Hl in Hr. rewrite decide_True; [done|]. eapply Z.lt_trans; [exact Hr|]. done.
Qed.
Lemma encode_secret b :
  String.length b = secretBytesLen ->
  encodeBase62 b secretEncodedLen =
  Return (String.string_of_list_ascii (base62_digits secretEncodedLen (SetBytes b))).
Proof.
  intros Hl. rewrite encodeBase62_eq. pose proof (SetBytes_range b) as [_ Hr].
  rewrite Hl in Hr. rewrite decide_True; [done|]. eapply Z.lt_trans; [exact Hr|]. done.
Qed.
Lemma decode_secret b :
  String.length b = secretBytesLen ->
  decodeBase62 (String.string_of_list_ascii (base62_digits secretEncodedLen (SetBytes b)))
    secretBytesLen = Ok b.
Proof.
  intros Hl. pose proof (SetBytes_range b) as Hr. rewrite Hl in Hr.
  apply decodeBase62_Ok. split_and!; [|done|].
  - intros Heq%(f_equal String.length). by rewrite length_string_of_list, length_base62_digits in Heq.
  - rewrite decode_loop_digits by lia. f_equal. rewrite Z.mod_small; [lia|].
    split; [lia|]. eapply Z.lt_trans; [apply Hr|]. done.
Qed.

(** The key made from given id bytes and secret bytes. *)
Definition keyOf (env idBytes secretBytes : string) : APIKey :=
  let i := String.string_of_list_ascii (base62_digits idEncodedLen (SetBytes idBytes)) in
  let s := String.string_of_list_ascii (base62_digits secretEncodedLen (SetBytes secretBytes)) in
  {| Encoded := encodedKey env i s; Env := env; ID := i; SecretHash := sha256 secretBytes |}.

Lemma generate_eq env r :
  generateWithReader env r =
  Return (if TrimSpace_is_empty env then Err errEmptyEnv
          else if decide (String.length r < 12)%nat then Err errReadID
          else if decide (String.length r < 44)%nat then Err errReadSecret
          else Ok (keyOf env (str_take 12 r) (str_take 32 (str_drop 12 r)))).
Proof.
  unfold generateWithReader, ReadFull. case_match; [done|].
  destruct (decide (String.length r < 12)%nat).
  { by rewrite decide_False by (unfold idBytesLen; lia). }
  rewrite decide_True by (unfold idBytesLen; lia). rewrite length_str_drop.
  destruct (decide (String.length r < 44)%nat).
  { by rewrite decide_False by (unfold idBytesLen, secretBytesLen; lia). }
  rewrite decide_True by (unfold idBytesLen, secretBytesLen; lia).
  rewrite encode_id by (rewrite length_str_take; unfold idBytesLen; lia).
  cbn [mbind outcome_bind].
  rewrite encode_secret
    by (rewrite length_str_take, length_str_drop; unfold idBytesLen, secretBytesLen; lia).
  done.
Qed.
Lemma generate_keyOf env r k :
  generateWithReader env r = Return (Ok k) ->
  env <> "" /\ exists i s, String.length i = idBytesLen /\
    String.length s = secretBytesLen /\ k = keyOf env i s.
Proof.
  rewrite generate_eq. destruct (TrimSpace_is_empty env) eqn:He; [done|].
  repeat case_decide; try done. intros [= <-]. split; [by intros ->|].
  exists (str_take 12 r), (str_take 32 (str_drop 12 r)).
  rewrite !length_str_take, !length_str_drop. unfold idBytesLen, secretBytesLen.
  split_and!; [lia|lia|done].
Qed.
Lemma split_keyOf env i s :
  env <> "" -> has_byte "_" env = false ->
  split (Encoded (keyOf env i s)) =
  Ok (env, ID (keyOf env i s),
      String.string_of_list_ascii (base62_digits secretEncodedLen (SetBytes s))).
Proof.
  intros Hne Hb. apply split_Ok. cbn [keyOf Encoded ID].
  rewrite !length_string_of_list, !length_base62_digits. split_and!; try done.
  by apply base62_digits_no_byte.
Qed.
Lemma Parse_keyOf env i s :
  env <> "" -> has_byte "_" env = false -> String.length s = secretBytesLen ->
  Parse (Encoded (keyOf env i s)) = Ok (keyOf env i s).
Proof.
  intros Hne Hb Hs. unfold Parse. rewrite split_keyOf by done. cbn [mbind result_bind].
  by rewrite decode_secret.
Qed.
Lemma encoded_no_space env i s :
  has_byte " " env = false -> has_byte " " (Encoded (keyOf env i s)) = false.
Proof.
  intros He. cbn [keyOf Encoded]. unfold encodedKey. rewrite !has_byte_app, He.
  rewrite !base62_digits_no_byte by reflexivity. reflexivity.
Qed.
Lemma bearer_keyOf env i s :
  env <> "" -> has_byte "_" env = false -> has_byte " " env = false ->
  String.length s = secretBytesLen ->
  FromAuthHeader ("Bearer " +:+ Encoded (keyOf env i s)) = Ok (keyOf env i s).
Proof.
  intros Hne Hb Hsp Hs. unfold FromAuthHeader. rewrite decide_False by discriminate.
  change ("Bearer " +:+ Encoded (keyOf env i s)) with ("Bearer" +:+ String " " (Encoded (keyOf env i s))).
  rewrite Split_app, (Split_no_sep " ") by (first [reflexivity|by apply encoded_no_space]).
  cbn [EqualFold]. by rewrite Parse_keyOf.
Qed.
End key_lemmas.

(** * Properties *)

(** Round trip of the base-62 code: bytes whose value fits the width encode
    to exactly [maxLen] characters, without panic, and decode to themselves at
    their own length. *)
Theorem base62_roundtrip src maxLen :
  (0 < maxLen)%nat -> SetBytes src < 62 ^ Z.of_nat maxLen ->
  exists s, encodeBase62 src maxLen = Return s /\ String.length s = maxLen /\
    decodeBase62 s (String.length src) = Ok src.
Proof.
  intros Hm Hlt. rewrite encodeBase62_eq, decide_True by done. eexists. split; [done|].
  rewrite length_string_of_list, length_base62_digits. split; [done|].
  pose proof (SetBytes_range src). apply decodeBase62_Ok. split_and!; [|done|].
  - intros Heq%(f_equal String.length).
    rewrite length_string_of_list, length_base62_digits in Heq. simpl in Heq. lia.
  - rewrite decode_loop_digits by lia. rewrite Z.mod_small by lia. f_equal; lia.
Qed.
Lemma base62_roundtrip_witness :
  exists s, encodeBase62 "hub" 5 = Return s /\ String.length s = 5%nat /\
    decodeBase62 s 3 = Ok "hub".
Proof. apply (base62_roundtrip "hub" 5); [lia|reflexivity]. Defined.

(** Exact shape of a key: [split] accepts [raw] with parts [env], [i] and
    [s] iff [raw] is [wc_<env>_<i>.<s>] with a non-empty environment without
    '_', a 17-character id without '.' and a 43-character secret. *)
Theorem split_spec raw env i s :
  split raw = Ok (env, i, s) <->
  raw = encodedKey env i s /\ env <> "" /\ has_byte "_" env = false /\
  has_byte "." i = false /\ String.length i = idEncodedLen /\ String.length s = secretEncodedLen.
Proof. apply split_Ok. Qed.

Section properties.
Context `{Crypto}.

(** Generation never panics: the two widths hold any 12 and 32 random
    bytes, so [Generate] returns an error for a blank environment or a short
    random source, and a key otherwise. *)
Theorem generate_total env r :
  exists res, generateWithReader env r = Return res /\
    (is_ok res = true <->
      TrimSpace_is_empty env = false /\ (idBytesLen + secretBytesLen <= String.length r)%nat).
Proof.
  rewrite generate_eq. eexists. split; [done|]. unfold idBytesLen, secretBytesLen.
  destruct (TrimSpace_is_empty env); [naive_solver|].
  repeat case_decide; simpl; naive_solver lia.
Qed.

(** C37. Round trip of a generated key: it parses back to the very same key
    (environment, id, secret hash) iff the environment has no underscore; a
    key generated for an environment with an underscore never parses. *)
Theorem generate_parse env r k :
  generateWithReader env r = Return (Ok k) ->
  if has_byte "_" env then is_ok (Parse (Encoded k)) = false
  else Parse (Encoded k) = Ok k.
Proof.
  intros (Hne & i & s & Hi & Hs & ->)%generate_keyOf.
  destruct (has_byte "_" env) eqn:Hb; unfold Parse.
  - destruct (split _) as [[[env' i'] s']|e] eqn:Hsplit; [exfalso|done].
    apply split_Ok in Hsplit as (Heq & _ & Hb' & _ & Hi' & Hs').
    cbn [keyOf Encoded] in Heq.
    assert (String.length env = String.length env') as Hlen.
    { apply (f_equal String.length) in Heq. rewrite !length_encodedKey in Heq.
      rewrite Hi', Hs', !length_string_of_list, !length_base62_digits in Heq. lia. }
    rewrite !encodedKey_prefix in Heq. apply String.app_inj in Heq.
    apply str_app_inj_len in Heq as [-> _]; [|done]. congruence.
  - by apply Parse_keyOf.
Qed.

(** A parsed key is canonical: its secret part is the encoding of the 32
    bytes whose hash it carries, so one secret has one spelling. *)
Theorem parse_canonical raw k :
  Parse raw = Ok k ->
  Encoded k = raw /\ exists secret s, String.length secret = secretBytesLen /\
    SecretHash k = sha256 secret /\
    encodeBase62 secret secretEncodedLen = Return s /\
    raw = encodedKey (Env k) (ID k) s.
Proof.
  unfold Parse. rewrite result_bind_Ok. intros ([[env i] s] & Hsplit & Hk).
  apply split_Ok in Hsplit as (-> & _ & _ & _ & _ & Hs).
  destruct (decodeBase62 s secretBytesLen) as [secret|] eqn:Hdec; [|done].
  injection Hk as <-. split; [done|]. cbn [Env ID SecretHash].
  apply decodeBase62_Ok in Hdec as (_ & Hl & Hd).
  apply decode_loop_canonical in Hd as (_ & _ & Hdig); [|lia].
  exists secret, s. split_and!; [done|done| |done].
  rewrite encode_secret by done. by rewrite <- Hs, Hdig.
Qed.

(** The Authorization header. It gives a key iff it is one word that is
    [bearer] in some case, one space, and one word that parses to that key;
    the three public errors partition the other headers: an empty header, a
    bearer header whose key does not parse, and everything else. *)
Theorem FromAuthHeader_spec header :
  match FromAuthHeader header with
  | Ok k => exists scheme token, header = scheme +:+ String " " token /\
      has_byte " " scheme = false /\ has_byte " " token = false /\
      EqualFold scheme "bearer" = true /\ Parse token = Ok k
  | Err ErrNoAuthHeader => header = ""
  | Err ErrInvalidKey => exists scheme token, header = scheme +:+ String " " token /\
      has_byte " " scheme = false /\ has_byte " " token = false /\
      EqualFold scheme "bearer" = true /\ is_ok (Parse token) = false
  | Err ErrBadAuthHeader => header <> "" /\ forall scheme token,
      header = scheme +:+ String " " token -> has_byte " " scheme = false ->
      has_byte " " token = false -> EqualFold scheme "bearer" = false
  | Err _ => False
  end.
Proof.
  unfold FromAuthHeader. destruct (decide (header = "")) as [|Hne]; [done|].
  assert (forall scheme token, header = scheme +:+ String " " token ->
    has_byte " " scheme = false -> has_byte " " token = false ->
    Split header " " = [scheme; token]) as Hsplit.
  { intros ? ? -> Hs Ht. by rewrite Split_app, (Split_no_sep " " token). }
  pose proof (join_Split " " header) as Hj. pose proof (Split_parts " " header) as Hp.
  destruct (Split header " ") as [|w [|t [|u ws]]] eqn:Hs.
  1,2,4: by split; [done|]; intros ? ? Hh H1 H2; specialize (Hsplit _ _ Hh H1 H2).
  rewrite !Forall_cons in Hp. destruct Hp as (Hw & Ht & _).
  destruct (EqualFold w "bearer") eqn:Hf.
  - destruct (Parse t) eqn:Hparse; exists w, t; by rewrite Hparse.
  - split; [done|]. intros ? ? Hh H1 H2. specialize (Hsplit _ _ Hh H1 H2). by simplify_eq.
Qed.
End properties.

(** A concrete key to apply the properties at. *)
Definition demo_key : APIKey :=
  keyOf (H := toy_crypto) "standalone" "node-id-12by" "0123456789abcdef0123456789abcdef".

Lemma generate_parse_witness :
  generateWithReader (H := toy_crypto) "standalone"
    "node-id-12by0123456789abcdef0123456789abcdef" = Return (Ok demo_key) /\
  Parse (H := toy_crypto) (Encoded demo_key) = Ok demo_key.
Proof.
  assert (generateWithReader (H := toy_crypto) "standalone"
    "node-id-12by0123456789abcdef0123456789abcdef" = Return (Ok demo_key)) as Hg
    by (vm_compute; reflexivity).
  split; [exact Hg|].
  exact (generate_parse (H := toy_crypto) "standalone" _ demo_key Hg).
Defined.

Lemma parse_canonical_witness :
  exists secret s, String.length secret = secretBytesLen /\
    SecretHash demo_key = sha256 (Crypto := toy_crypto) secret /\
    encodeBase62 secret secretEncodedLen = Return s /\
    Encoded demo_key = encodedKey (Env demo_key) (ID demo_key) s.
Proof.
  apply (parse_canonical (H := toy_crypto) (Encoded demo_key) demo_key).
  vm_compute; reflexivity.
Defined.
