(* ===== verification/TurnCreds.v ===== *)
(** * TURN credentials: connect/shared/turncreds.go

    A credential is a username [<expiry>:<subject>[:<floor>:<ceil>]] and the
    password [base64(hmac-sha1(secret, username))]. [Mint] makes the pair,
    [Verify] checks the password and parses the policy back. *)
From S2P Require Import Prelude GoStrings GoEncoding GoTime.
Open Scope Z_scope.

Record Credential := {
  Subject : string;
  FloorBps : Z;
  CeilBps : Z;
  Expiry : Time
}.

Inductive turnError :=
| errBadSignature
| errBadFloor
| errBadCeil
| errInvalidRates (floor ceil : Z)
| errSegments (n : nat)
| errBadExpiry
| errEmptySubject.

(** [c.Expired(now)]. *)
Definition Expired (c : Credential) (now : Time) : bool := After now (Expiry c).

(** The two forms of [fmt.Sprintf] in [Mint]. *)
Definition ratedUsername (expiry : Z) (subject : string) (floorBps ceilBps : Z) : string :=
  FormatInt expiry +:+ ":" +:+ subject +:+ ":" +:+ FormatInt floorBps +:+ ":" +:+ FormatInt ceilBps.
Definition plainUsername (expiry : Z) (subject : string) : string :=
  FormatInt expiry +:+ ":" +:+ subject.

(** [Parse(username)]. *)
Definition Parse (username : string) : result turnError Credential :=
  let parts := Split username ":"%char in
  '(floor, ceil, ts, subject) ←
    match parts with
    | [ts; subject; floorS; ceilS] =>
        match ParseInt floorS 64 with
        | None => Err errBadFloor
        | Some floor =>
            match ParseInt ceilS 64 with
            | None => Err errBadCeil
            | Some ceil =>
                if (floor <? 0) || (negb (ceil =? 0) && (ceil <? floor))
                then Err (errInvalidRates floor ceil)
                else Ok (floor, ceil, ts, subject)
            end
        end
    | [ts; subject] => Ok (0, 0, ts, subject)
    | _ => Err (errSegments (length parts))
    end;
  match ParseInt ts 64 with
  | None => Err errBadExpiry
  | Some ts =>
      if decide (subject = "") then Err errEmptySubject
      else Ok {| Subject := subject; FloorBps := floor; CeilBps := ceil; Expiry := time_Unix ts |}
  end.

Section turncreds.
Context `{Crypto}.

Definition Sign (secret username : string) : string := base64_Std (hmac_sha1 secret username).

Definition Mint (secret subject : string) (floorBps ceilBps : Z) (expiry : Time) :
    outcome (string * string) :=
  if bool_decide (subject = "") || has_byte ":" subject
  then Panic "turncreds: invalid subject"
  else
    let username :=
      if (0 <? floorBps) || (0 <? ceilBps)
      then ratedUsername (Unix expiry) subject floorBps ceilBps
      else plainUsername (Unix expiry) subject in
    Return (username, Sign secret username).

Definition Verify (secret username password : string) : result turnError Credential :=
  let want := Sign secret username in
  if negb (ConstantTimeCompare want password =? 1) then Err errBadSignature
  else Parse username.
End turncreds.

(** ** The contract

    What a verifier must recover from a minted credential: the subject, the
    expiry to the second, and the rates, which [0/0] stands for when neither
    is positive. Rates with a negative floor or a ceiling below the floor are
    refused. *)
Definition credentialSpec (subject : string) (floorBps ceilBps : Z) (expiry : Time) :
    result turnError Credential :=
  if (0 <? floorBps) || (0 <? ceilBps) then
    if (floorBps <? 0) || (negb (ceilBps =? 0) && (ceilBps <? floorBps))
    then Err (errInvalidRates floorBps ceilBps)
    else Ok {| Subject := subject; FloorBps := floorBps; CeilBps := ceilBps;
               Expiry := Truncate_Second expiry |}
  else Ok {| Subject := subject; FloorBps := 0; CeilBps := 0;
             Expiry := Truncate_Second expiry |}.

(** * Lemmas *)

Lemma FormatInt_no_colon n : has_byte ":" (FormatInt n) = false.
Proof. by apply FormatInt_no_byte. Qed.
#[export] Hint Resolve FormatInt_no_colon : hub.

Lemma ParseInt64_FormatInt n : int64_ok n = true -> ParseInt (FormatInt n) 64 = Some n.
Proof. intros Hn%int64_ok_true. apply ParseInt_FormatInt; simpl; lia. Qed.

Lemma Split_ratedUsername expiry subject f c :
  has_byte ":" subject = false ->
  Split (ratedUsername expiry subject f c) ":" =
  [FormatInt expiry; subject; FormatInt f; FormatInt c].
Proof.
  intros Hs.
  change (ratedUsername expiry subject f c) with
    (join ":" [FormatInt expiry; subject; FormatInt f; FormatInt c]).
  apply Split_join; [done|]. repeat constructor; auto with hub.
Qed.
Lemma Split_plainUsername expiry subject :
  has_byte ":" subject = false ->
  Split (plainUsername expiry subject) ":" = [FormatInt expiry; subject].
Proof.
  intros Hs. change (plainUsername expiry subject) with (join ":" [FormatInt expiry; subject]).
  apply Split_join; [done|]. repeat constructor; auto with hub.
Qed.
Lemma Unix_int64 t : int64_ok (Unix t) = true.
Proof. apply wrap64_range. Qed.

Lemma Parse_rated subject f c expiry :
  subject <> "" -> has_byte ":" subject = false ->
  int64_ok f = true -> int64_ok c = true -> time_ok expiry ->
  Parse (ratedUsername (Unix expiry) subject f c) =
  if (f <? 0) || (negb (c =? 0) && (c <? f)) then Err (errInvalidRates f c)
  else Ok {| Subject := subject; FloorBps := f; CeilBps := c; Expiry := Truncate_Second expiry |}.
Proof.
  intros Hne Hs Hf Hc He. unfold Parse. rewrite Split_ratedUsername by done.
  rewrite !ParseInt64_FormatInt by (done || apply Unix_int64).
  case_match; [done|]. cbn [mbind result_bind].
  rewrite ParseInt64_FormatInt by apply Unix_int64.
  by rewrite decide_False, time_Unix_Unix.
Qed.
Lemma Parse_plain subject expiry :
  subject <> "" -> has_byte ":" subject = false -> time_ok expiry ->
  Parse (plainUsername (Unix expiry) subject) =
  Ok {| Subject := subject; FloorBps := 0; CeilBps := 0; Expiry := Truncate_Second expiry |}.
Proof.
  intros Hne Hs He. unfold Parse. rewrite Split_plainUsername by done.
  cbn [mbind result_bind]. rewrite ParseInt64_FormatInt by apply Unix_int64.
  by rewrite decide_False, time_Unix_Unix.
Qed.

(** ** Minted credentials *)
Section minting.
Context `{Crypto}.

Lemma Mint_Verify secret subject floorBps ceilBps expiry :
  int64_ok floorBps = true -> int64_ok ceilBps = true -> time_ok expiry ->
  match Mint secret subject floorBps ceilBps expiry with
  | Panic _ => subject = "" \/ has_byte ":" subject = true
  | Return (username, password) =>
      subject <> "" /\ has_byte ":" subject = false /\
      Verify secret username password = credentialSpec subject floorBps ceilBps expiry
  end.
Proof.
  intros Hf Hc He. unfold Mint.
  destruct (bool_decide_reflect (subject = "")) as [->|Hne]; [by left|].
  destruct (has_byte ":" subject) eqn:Hs; [by right|]. cbn [orb].
  split; [done|]. split; [done|]. unfold Verify, credentialSpec.
  rewrite (proj2 (ConstantTimeCompare_1 _ _)) by done. cbn [Z.eqb Pos.eqb negb].
  case_match; [by apply Parse_rated|by apply Parse_plain].
Qed.
End minting.

(** * Properties *)
Section properties.
Context `{Crypto}.

(** C38. Round trip of a credential, for every int64 rate and every expiry:
    minting panics exactly for an empty subject or one with a colon; otherwise
    verifying the minted pair under the same secret gives what [credentialSpec]
    says: the subject, the expiry without its sub-second part, and the minted
    rates if one of them is positive, 0/0 if neither is. When one rate is
    positive and the other negative, or the ceiling is positive and below the
    floor, the pair is minted but verifying it is an error. *)
Theorem mint_verify secret subject floorBps ceilBps expiry :
  int64_ok floorBps = true -> int64_ok ceilBps = true -> time_ok expiry ->
  match Mint secret subject floorBps ceilBps expiry with
  | Panic _ => subject = "" \/ has_byte ":" subject = true
  | Return (username, password) =>
      subject <> "" /\ has_byte ":" subject = false /\
      Verify secret username password = credentialSpec subject floorBps ceilBps expiry
  end.
Proof. apply Mint_Verify. Qed.

(** Tampering: a password minted for one username verifies for another
    username only if HMAC-SHA1 collides on the two under the secret. *)
Theorem tampered_username secret subject floorBps ceilBps expiry username password other c :
  Mint secret subject floorBps ceilBps expiry = Return (username, password) ->
  Verify secret other password = Ok c ->
  hmac_sha1 secret other = hmac_sha1 secret username.
Proof.
  unfold Mint, Verify. case_match; [done|]. intros [= <- <-].
  destruct (ConstantTimeCompare _ _ =? 1) eqn:Heq; [|done]. intros _.
  apply Z.eqb_eq, ConstantTimeCompare_1 in Heq. by apply base64_Std_inj in Heq.
Qed.

(** A username never carries a policy outside its format: what [Parse]
    accepts has a subject that is not empty and holds no colon, int64 rates
    with [0 <= floor] and a ceiling that is 0 or at least the floor. *)
Theorem parse_policy username c :
  Parse username = Ok c ->
  Subject c <> "" /\ has_byte ":" (Subject c) = false /\
  0 <= FloorBps c < 2 ^ 63 /\ (CeilBps c = 0 \/ FloorBps c <= CeilBps c < 2 ^ 63) /\
  nsec (Expiry c) = 0.
Proof.
  unfold Parse. rewrite result_bind_Ok. intros ([[[f cl] ts] subj] & Hparts & Hc).
  pose proof (Split_parts ":" username) as Hp.
  assert (has_byte ":" subj = false /\ 0 <= f < 2 ^ 63 /\ (cl = 0 \/ f <= cl < 2 ^ 63))
    as (Hs & Hf & Hcl).
  { destruct (Split username ":") as [|w1 [|w2 [|w3 [|w4 [|]]]]]; try done.
    - injection Hparts as <- <- <- <-. inversion_clear Hp as [|? ? ? Hp']. inversion Hp'. naive_solver lia.
    - destruct (ParseInt w3 64) as [f'|] eqn:H3; [|done].
      destruct (ParseInt w4 64) as [c'|] eqn:H4; [|done].
      destruct (_ || _) eqn:Hr; [done|]. injection Hparts as <- <- <- <-.
      apply ParseInt_range in H3; [|lia]. apply ParseInt_range in H4; [|lia].
      inversion_clear Hp as [|? ? ? Hp']. inversion Hp'. split; [done|]. simpl in *. lia. }
  destruct (ParseInt ts 64); [|done]. case_decide; [done|]. injection Hc as <-.
  cbn [Subject FloorBps CeilBps Expiry time_Unix nsec]. done.
Qed.
End properties.

Definition demo_expiry : Time := time_Unix 1770000000.
Lemma demo_expiry_ok : time_ok demo_expiry.
Proof. repeat split; vm_compute; congruence. Qed.

Lemma mint_verify_witness :
  exists username password,
    Mint (H := toy_crypto) "s" "org-42" 10000000 50000000 demo_expiry = Return (username, password) /\
    username = "1770000000:org-42:10000000:50000000" /\
    Verify (H := toy_crypto) "s" username password =
      credentialSpec "org-42" 10000000 50000000 demo_expiry.
Proof.
  pose proof (mint_verify (H := toy_crypto) "s" "org-42" 10000000 50000000 demo_expiry
    eq_refl eq_refl demo_expiry_ok) as Hm.
  do 2 eexists. split; [reflexivity|]. split; [reflexivity|]. apply Hm.
Defined.

(** The toy digest does collide on these two usernames. *)
Lemma tampered_username_witness :
  hmac_sha1 (Crypto := toy_crypto) "s" "1770000000:org-42:10:500" =
  hmac_sha1 (Crypto := toy_crypto) "s" "1770000000:org-42:10:50".
Proof.
  apply (tampered_username (H := toy_crypto) "s" "org-42" 10 50 demo_expiry
    "1770000000:org-42:10:50" (Sign (H := toy_crypto) "s" "1770000000:org-42:10:50")
    "1770000000:org-42:10:500"
    {| Subject := "org-42"; FloorBps := 10; CeilBps := 500; Expiry := demo_expiry |});
    vm_compute; reflexivity.
Defined.

Lemma parse_policy_witness :
  exists c, Parse "1:s:10:0" = Ok c /\ 0 <= FloorBps c < 2 ^ 63.
Proof.
  eexists. split; [vm_compute; reflexivity|].
  apply (parse_policy "1:s:10:0"). vm_compute. reflexivity.
Defined.
