(* ===== verification/IntegratorApi.v ===== *)
(** * Integrator REST API: connect/shared/integratorapi.go

    The request and response bodies of the admin API, and the minting of
    registration tokens. A [*T] field is an [option]; JSON itself is left to
    the HTTP framework. *)
From S2P Require Import Prelude GoStrings GoEncoding GoTime.
Open Scope Z_scope.

(** ** Requests *)

Record CreateConnectivityGroupRequest := {
  cg_Name : option string;
  cg_AssociationKey : option string
}.
Record CreateRegistrationTokenRequest := {
  rt_NodeName : option string;
  rt_NodeMetadata : option string;
  rt_Codehalf : option string;
  rt_TTLProfile : option string
}.
Record PatchNodeRequest := { pn_Name : option string }.

(** ** Responses *)

Record GroupSummary := { gs_ID : string; gs_Name : option string }.
Record GroupCreated := { gc_ID : string; gc_CreatedAt : string; gc_Name : option string }.
Record NodeQuota := { nq_Limit : option Z; nq_Current : Z }.
Record Node := {
  n_NodeNumber : Z;
  n_CreatedAt : string;
  n_Name : option string;
  n_LastSeenAt : option string;
  n_Metadata : option string;
  n_IsOnline : option bool
}.
Record ActivityStats := { as_SuccessfulConnections7d : Z }.
Record GroupDetail := {
  gd_ID : string;
  gd_CreatedAt : string;
  gd_Name : option string;
  gd_Nodes : list Node;
  gd_ActivityStats : ActivityStats;
  gd_NodeQuota : NodeQuota
}.
Record RegistrationTokenCreated := { rc_Token : string; rc_ExpiresAt : string }.
Record RegistrationTokenInfo := {
  ri_NodeName : option string;
  ri_NodeMetadata : option string;
  ri_CreatedAt : string;
  ri_ExpiresAt : string;
  ri_UsedAt : option string
}.
Record GroupsStats := { st_Count : Z; st_Max : option Z }.

(** A [time.Duration]: seven days. *)
Definition RegistrationTokenListWindow : Z := 7 * 24 * Hour.

(** ** Minting registration tokens *)

Inductive mintError :=
| ValidationError (msg : string)
| errRandRead.

Record registrationTTLProfile := { tokenBytes : nat; profile_ttl : Z }.
Definition registrationTTLProfiles : gmap string registrationTTLProfile :=
  {[ "interactive" := {| tokenBytes := 4; profile_ttl := 5 * Minute |};
     "asynchronous" := {| tokenBytes := 8; profile_ttl := 24 * Hour |} ]}.
Definition defaultRegistrationTTLProfile : string := "interactive".

Record MintedRegistrationToken := {
  Token : string;
  TokenHash : string;
  ExpiresAt : Time
}.

(** A test on a pointer field: false for nil, else the test on its target. *)
Definition given (x : option string) (cond : string -> bool) : bool :=
  match x with
  | Some s => cond s
  | None => false
  end.

(** A word between double quotes. *)
Definition quoted (s : string) : string :=
  String (byte_of 34) (s +:+ String (byte_of 34) "").

Section mint.
Context `{Crypto}.

(** [rand n] is what [rand.Read] fills an n-byte slice with ([None]: it
    failed); [now] is [time.Now()]. *)
Definition MintRegistrationToken (rand : nat -> option string) (now : Time)
    (req : CreateRegistrationTokenRequest) : result mintError MintedRegistrationToken :=
  if given (rt_NodeName req) (fun s => 256 <? slen s) then
    Err (ValidationError "nodeName exceeds 256 characters")
  else if given (rt_NodeMetadata req) (fun s => 256 <? slen s) then
    Err (ValidationError "nodeMetadata exceeds 256 characters")
  else if given (rt_Codehalf req) (fun s => (slen s <? 16) || (256 <? slen s)) then
    Err (ValidationError "codehalf must be 16-256 characters")
  else
    let profileName := default defaultRegistrationTTLProfile (rt_TTLProfile req) in
    match registrationTTLProfiles !! profileName with
    | None =>
        Err (ValidationError
          ("ttlProfile must be " +:+ quoted "interactive" +:+ " or " +:+ quoted "asynchronous"))
    | Some profile =>
        match rand (tokenBytes profile) with
        | None => Err errRandRead
        | Some bytes =>
            let token := hex_EncodeToString bytes in
            let hashInput :=
              match rt_Codehalf req with
              | Some codehalf => codehalf +:+ token
              | None => token
              end in
            Ok {| Token := token;
                  TokenHash := hex_EncodeToString (sha256 hashInput);
                  ExpiresAt := time_Add now (profile_ttl profile) |}
        end
    end.

(** What the client submits to finish a registration: the token, prefixed
    with the codehalf when one was given. *)
Definition submission (req : CreateRegistrationTokenRequest) (token : string) : string :=
  or_zero (rt_Codehalf req) +:+ token.

(** A request the API accepts. *)
Definition mint_valid (req : CreateRegistrationTokenRequest) : Prop :=
  (forall s, rt_NodeName req = Some s -> slen s <= 256) /\
  (forall s, rt_NodeMetadata req = Some s -> slen s <= 256) /\
  (forall s, rt_Codehalf req = Some s -> 16 <= slen s <= 256) /\
  (forall s, rt_TTLProfile req = Some s -> s = "interactive" \/ s = "asynchronous").

Lemma given_spec x cond : given x cond = true <-> exists s, x = Some s /\ cond s = true.
Proof. destruct x; naive_solver. Qed.
Lemma given_false x cond : given x cond = false <-> forall s, x = Some s -> cond s = false.
Proof. destruct x; naive_solver. Qed.

Lemma profiles_lookup p :
  registrationTTLProfiles !! p =
  if decide (p = "interactive") then Some {| tokenBytes := 4; profile_ttl := 5 * Minute |}
  else if decide (p = "asynchronous") then Some {| tokenBytes := 8; profile_ttl := 24 * Hour |}
  else None.
Proof.
  unfold registrationTTLProfiles. repeat case_decide; subst; simplify_map_eq; done.
Qed.

(** The one branch on which a token is minted. *)
Lemma mint_Ok rand now req minted :
  MintRegistrationToken rand now req = Ok minted <->
  mint_valid req /\ exists p bytes,
    registrationTTLProfiles !! default "interactive" (rt_TTLProfile req) = Some p /\
    rand (tokenBytes p) = Some bytes /\
    minted = {| Token := hex_EncodeToString bytes;
                TokenHash := hex_EncodeToString (sha256 (submission req (hex_EncodeToString bytes)));
                ExpiresAt := time_Add now (profile_ttl p) |}.
Proof.
  unfold MintRegistrationToken, mint_valid, submission, defaultRegistrationTTLProfile.
  assert (forall p, registrationTTLProfiles !! default "interactive" (rt_TTLProfile req) = Some p ->
    forall s, rt_TTLProfile req = Some s -> s = "interactive" \/ s = "asynchronous") as Hprof.
  { intros p Hp s Hs. rewrite Hs, profiles_lookup in Hp. simpl in Hp.
    repeat case_decide; naive_solver. }
  split.
  - destruct (given (rt_NodeName req) _) eqn:H1; [done|].
    destruct (given (rt_NodeMetadata req) _) eqn:H2; [done|].
    destruct (given (rt_Codehalf req) _) eqn:H3; [done|].
    rewrite given_false in H1, H2, H3.
    destruct (registrationTTLProfiles !! _) as [p|] eqn:Hp; [|done].
    destruct (rand (tokenBytes p)) as [bytes|] eqn:Hr; [|done]. intros [= <-].
    split; [split_and!|].
    + intros s Hs. specialize (H1 s Hs). simpl in H1. lia.
    + intros s Hs. specialize (H2 s Hs). simpl in H2. lia.
    + intros s Hs. specialize (H3 s Hs). simpl in H3. lia.
    + by apply (Hprof p).
    + exists p, bytes. split_and!; [done..|]. by destruct (rt_Codehalf req).
  - intros ((H1 & H2 & H3 & _) & p & bytes & Hp & Hr & ->).
    rewrite (proj2 (given_false (rt_NodeName req) _)) by (intros s Hs; specialize (H1 s Hs); lia).
    rewrite (proj2 (given_false (rt_NodeMetadata req) _)) by (intros s Hs; specialize (H2 s Hs); lia).
    rewrite (proj2 (given_false (rt_Codehalf req) _)) by (intros s Hs; specialize (H3 s Hs); lia).
    rewrite Hp, Hr. by destruct (rt_Codehalf req).
Qed.
End mint.

(** * Properties *)
Section properties.
Context `{Crypto}.

(** Minting, on every branch: it succeeds only for a request within the
    limits, and then the token is twice [tokenBytes] hex characters (8 or 16),
    the stored hash is that of exactly what the client will submit (codehalf
    and token), and the expiry is now plus the profile's TTL. A validation
    error means the request is outside the limits; the only other error is a
    failed random read. *)
Theorem mint_spec rand now req :
  (forall n b, rand n = Some b -> String.length b = n) ->
  match MintRegistrationToken rand now req with
  | Ok m => mint_valid req /\ exists p,
      registrationTTLProfiles !! default "interactive" (rt_TTLProfile req) = Some p /\
      String.length (Token m) = (2 * tokenBytes p)%nat /\
      TokenHash m = hex_EncodeToString (sha256 (submission req (Token m))) /\
      ExpiresAt m = time_Add now (profile_ttl p)
  | Err (ValidationError _) => ~ mint_valid req
  | Err errRandRead => mint_valid req /\ exists n, rand n = None
  end.
Proof.
  intros Hlen. destruct (MintRegistrationToken rand now req) as [m|e] eqn:Hm.
  - apply mint_Ok in Hm as (Hv & p & bytes & Hp & Hr & ->). split; [done|].
    exists p. cbn [Token TokenHash ExpiresAt]. rewrite length_hex, (Hlen _ _ Hr). done.
  - unfold MintRegistrationToken in Hm. unfold mint_valid.
    destruct (given (rt_NodeName req) _) eqn:H1.
    { injection Hm as <-. apply given_spec in H1 as (s & Hs & H1). intros (Hn & _).
      specialize (Hn s Hs). lia. }
    destruct (given (rt_NodeMetadata req) _) eqn:H2.
    { injection Hm as <-. apply given_spec in H2 as (s & Hs & H2). intros (_ & Hn & _).
      specialize (Hn s Hs). lia. }
    destruct (given (rt_Codehalf req) _) eqn:H3.
    { injection Hm as <-. apply given_spec in H3 as (s & Hs & H3). intros (_ & _ & Hn & _).
      specialize (Hn s Hs). lia. }
    rewrite given_false in H1, H2, H3. unfold defaultRegistrationTTLProfile in Hm.
    destruct (registrationTTLProfiles !! _) as [p|] eqn:Hp.
    + destruct (rand (tokenBytes p)) eqn:Hr; [done|]. injection Hm as <-.
      split; [|by eauto]. split_and!; intros s Hs.
      * specialize (H1 s Hs). simpl in H1. lia.
      * specialize (H2 s Hs). simpl in H2. lia.
      * specialize (H3 s Hs). simpl in H3. lia.
      * rewrite Hs, profiles_lookup in Hp. simpl in Hp. repeat case_decide; naive_solver.
    + injection Hm as <-. intros (_ & _ & _ & Hprof). rewrite profiles_lookup in Hp.
      destruct (rt_TTLProfile req) as [s|]; [|done]. simpl in Hp.
      destruct (Hprof s eq_refl) as [-> | ->]; done.
Qed.
End properties.

(** A request bound to a codehalf, to apply the property at. *)
Definition demo_token_request : CreateRegistrationTokenRequest :=
  {| rt_NodeName := Some "laptop"; rt_NodeMetadata := None;
     rt_Codehalf := Some "0123456789abcdef"; rt_TTLProfile := Some "asynchronous" |}.
Lemma mint_spec_witness :
  exists m, MintRegistrationToken (H := toy_crypto) (fun n => Some (zero_bytes n)) (time_Unix 0)
    demo_token_request = Ok m /\ String.length (Token m) = 16%nat.
Proof.
  pose proof (mint_spec (H := toy_crypto) (fun n => Some (zero_bytes n)) (time_Unix 0)
    demo_token_request) as Hm.
  assert (forall n b, Some (zero_bytes n) = Some b -> String.length b = n) as Hlen
    by (intros n b [= <-]; apply length_zero_bytes).
  specialize (Hm Hlen). destruct (MintRegistrationToken _ _ demo_token_request) as [m|e] eqn:E.
  - exists m. split; [reflexivity|]. destruct Hm as (_ & p & Hp & Hl & _).
    rewrite profiles_lookup in Hp. injection Hp as <-. exact Hl.
  - vm_compute in E. discriminate E.
Defined.
