(* ===== verification/Grpc.v ===== *)
(** * gRPC status errors and request metadata

    The part of google.golang.org/grpc that the hub's handlers speak in: the
    status codes they return, the error value [status.Error(code, msg)], and
    the incoming metadata, a map from lower-case header names to their values. *)
From S2P Require Import Prelude.

Inductive code :=
| OK
| Canceled
| Unknown
| InvalidArgument
| DeadlineExceeded
| NotFound
| AlreadyExists
| PermissionDenied
| ResourceExhausted
| FailedPrecondition
| Aborted
| OutOfRange
| Unimplemented
| Internal
| Unavailable
| DataLoss
| Unauthenticated.
#[export] Instance code_eq_dec : EqDecision code.
Proof. solve_decision. Defined.

Record status := { status_code : code; status_msg : string }.
#[export] Instance status_eq_dec : EqDecision status.
Proof. solve_decision. Defined.

Definition Errorf (c : code) (msg : string) : status :=
  {| status_code := c; status_msg := msg |}.

(** [metadata.FromIncomingContext(ctx)] gives the map, if there is one. *)
Definition metadata : Type := gmap string (list string).
Definition md_Get (md : option metadata) (key : string) : list string :=
  default [] (md ≫= (fun m => m !! key)).
