(* ===== verification/Version.v ===== *)
(** * Client version gate: connect/hub/version.go

    Every call reports the client's version in a header. The hub rejects the
    versions it cannot parse and those below its floor, before the handler
    runs, and puts its own version in the response headers either way. *)
From S2P Require Import Prelude GoStrings Grpc.
Open Scope Z_scope.

(** [[3]int] *)
Definition version : Type := Z * Z * Z.

Definition Version : string := "0.5.0".
Definition MinClientVersion : string := "0.0.0".
Definition versionRejectionPrefix : string := "incompatible client version".
Definition clientVersionKey : string := "wispers-client-version".
Definition hubVersionKey : string := "wispers-hub-version".

Inductive versionError :=
| errWantMajorMinorPatch
| errBadComponent (p : string).

(** The two rejections of [checkClientVersion]. *)
Inductive rejection :=
| malformedVersion (value : string) (e : versionError)
| incompatibleVersion (reported floor : version).

Definition formatVersion (v : version) : string :=
  let '(a, b, c) := v in FormatInt a +:+ "." +:+ FormatInt b +:+ "." +:+ FormatInt c.

(** The loop over the three components, unrolled. *)
Definition versionLess (a b : version) : bool :=
  let '(a0, a1, a2) := a in
  let '(b0, b1, b2) := b in
  if negb (a0 =? b0) then a0 <? b0
  else if negb (a1 =? b1) then a1 <? b1
  else if negb (a2 =? b2) then a2 <? b2
  else false.

(** One round of the loop of [parseVersion]. *)
Definition parseComponent (p : string) : result versionError Z :=
  match Atoi p with
  | Some n => if n <? 0 then Err (errBadComponent p) else Ok n
  | None => Err (errBadComponent p)
  end.
Definition parseVersion (s : string) : result versionError version :=
  let '(base, _, _) := Cut s "-"%char in
  match Split base "."%char with
  | [p0; p1; p2] =>
      v0 ← parseComponent p0;
      v1 ← parseComponent p1;
      v2 ← parseComponent p2;
      Ok (v0, v1, v2)
  | _ => Err errWantMajorMinorPatch
  end.

Definition mustParseVersion (s : string) : outcome version :=
  match parseVersion s with
  | Ok v => Return v
  | Err _ => Panic "bad version constant"
  end.

(** The package variables, computed at start-up. *)
Definition minClientParsed : outcome version := mustParseVersion MinClientVersion.
Definition minShedClientVersion : outcome version := mustParseVersion "0.14.0".

Definition extractClientVersion (ctx : option metadata) : result rejection version :=
  match md_Get ctx clientVersionKey with
  | [] => Ok (0, 0, 0)
  | value :: _ =>
      match parseVersion value with
      | Ok v => Ok v
      | Err e => Err (malformedVersion value e)
      end
  end.

(** [checkClientVersion]; the floor is the variable [minClientParsed]. *)
Definition checkClientVersion (floor : version) (ctx : option metadata) : result rejection unit :=
  reported ← extractClientVersion ctx;
  if versionLess reported floor then Err (incompatibleVersion reported floor) else Ok tt.

Definition rejection_code (r : rejection) : code :=
  match r with
  | malformedVersion _ _ => InvalidArgument
  | incompatibleVersion _ _ => FailedPrecondition
  end.
(** The message of a floor rejection, which clients match on. *)
Definition floorMessage (reported floor : version) : string :=
  versionRejectionPrefix +:+ ": this hub (v" +:+ Version +:+ ") requires wispers-client v" +:+
  formatVersion floor +:+ " or newer, got v" +:+ formatVersion reported +:+
  "; please upgrade the client".

(** [clientIsShedSafe] with the value of [minShedClientVersion]. *)
Definition clientIsShedSafe (minShed : version) (ctx : option metadata) : bool :=
  match extractClientVersion ctx with
  | Ok v => negb (versionLess v minShed)
  | Err _ => false
  end.

(** The interceptors: they set the hub's version header and call the handler,
    a computation on the server state [S], only for an acceptable client. The
    unary and the stream interceptor do the same. *)
Definition versionInterceptor {S R} (floor : version) (ctx : option metadata)
    (handler : S -> S * R) (s : S) : list (string * string) * S * result rejection R :=
  let headers := [(hubVersionKey, Version)] in
  match checkClientVersion floor ctx with
  | Err e => (headers, s, Err e)
  | Ok _ => let '(s', r) := handler s in (headers, s', Ok r)
  end.

(** * Lemmas *)

Definition version_ok (v : version) : Prop :=
  let '(a, b, c) := v in 0 <= a < 2 ^ 63 /\ 0 <= b < 2 ^ 63 /\ 0 <= c < 2 ^ 63.

(** Lexicographic order, as a relation. *)
Definition version_lt (a b : version) : Prop :=
  let '(a0, a1, a2) := a in
  let '(b0, b1, b2) := b in
  a0 < b0 \/ a0 = b0 /\ (a1 < b1 \/ a1 = b1 /\ a2 < b2).

Lemma versionLess_lt a b : versionLess a b = true <-> version_lt a b.
Proof.
  destruct a as [[a0 a1] a2], b as [[b0 b1] b2]. unfold versionLess, version_lt.
  destruct (Z.eqb_spec a0 b0), (Z.eqb_spec a1 b1), (Z.eqb_spec a2 b2); cbn [negb];
    rewrite ?Z.ltb_lt; lia.
Qed.
#[export] Instance version_lt_dec : RelDecision version_lt.
Proof.
  intros a b. destruct (versionLess a b) eqn:E; [left|right]; rewrite <- versionLess_lt; congruence.
Defined.
#[export] Instance version_lt_strict : StrictOrder version_lt.
Proof.
  split.
  - intros [[a0 a1] a2]. unfold complement, version_lt. lia.
  - intros [[a0 a1] a2] [[b0 b1] b2] [[c0 c1] c2]. unfold version_lt. lia.
Qed.

Lemma parseComponent_FormatInt n : 0 <= n < 2 ^ 63 -> parseComponent (FormatInt n) = Ok n.
Proof.
  intros Hn. unfold parseComponent, Atoi. rewrite ParseInt_FormatInt by (simpl; lia).
  by replace (n <? 0) with false by lia.
Qed.
Lemma parseComponent_range p n : parseComponent p = Ok n -> 0 <= n < 2 ^ 63.
Proof.
  unfold parseComponent, Atoi. destruct (ParseInt p 64) eqn:Hp; [|done].
  apply ParseInt_range in Hp; [|lia]. case_match eqn:Hlt; [done|]. intros [= <-]. simpl in *. lia.
Qed.
Lemma parseVersion_Ok s v :
  parseVersion s = Ok v -> version_ok v.
Proof.
  unfold parseVersion. destruct (Cut s "-") as [[base ?] ?].
  repeat (case_match; try done). rewrite !result_bind_Ok.
  intros (x & Hx & (y & Hy & (z & Hz & [= <-])%result_bind_Ok)%result_bind_Ok).
  by repeat split; eapply parseComponent_range.
Qed.
Lemma formatVersion_join a b c :
  formatVersion (a, b, c) = join "." [FormatInt a; FormatInt b; FormatInt c].
Proof. done. Qed.
Lemma FormatInt_no_dot n : has_byte "." (FormatInt n) = false.
Proof. by apply FormatInt_no_byte. Qed.
Lemma FormatInt_no_dash n : 0 <= n -> has_byte "-" (FormatInt n) = false.
Proof.
  intros Hn. unfold FormatInt. replace (n <? 0) with false by lia.
  apply has_byte_list, dec_digits_all; [|done|constructor].
  intros d Hd Heq. apply (f_equal digit_val) in Heq. by rewrite digit_val_char in Heq.
Qed.
Lemma formatVersion_no_dash v : version_ok v -> has_byte "-" (formatVersion v) = false.
Proof.
  destruct v as [[a b] c]. intros (? & ? & ?). unfold formatVersion.
  rewrite !has_byte_app, !FormatInt_no_dash by lia. done.
Qed.
Lemma parse_base v :
  version_ok v ->
  match Split (formatVersion v) "." with
  | [p0; p1; p2] =>
      v0 ← parseComponent p0; v1 ← parseComponent p1; v2 ← parseComponent p2; Ok (v0, v1, v2)
  | _ => Err errWantMajorMinorPatch
  end = Ok v.
Proof.
  destruct v as [[a b] c]. intros (Ha & Hb & Hc). rewrite formatVersion_join, Split_join.
  - by rewrite !parseComponent_FormatInt.
  - done.
  - repeat constructor; apply FormatInt_no_dot.
Qed.

(** * Properties *)

(** [versionLess] is a strict total order on versions: the lexicographic
    order of the three components. *)
Theorem versionLess_total_order :
  (forall a b, versionLess a b = true <-> version_lt a b) /\
  (forall a, versionLess a a = false) /\
  (forall a b c, versionLess a b = true -> versionLess b c = true -> versionLess a c = true) /\
  (forall a b, versionLess a b = true \/ a = b \/ versionLess b a = true).
Proof.
  setoid_rewrite versionLess_lt. split_and!.
  - done.
  - intros [[a0 a1] a2]. unfold versionLess. by rewrite !Z.eqb_refl.
  - intros a b c. apply transitivity.
  - intros [[a0 a1] a2] [[b0 b1] b2]. unfold version_lt.
    destruct (decide ((a0, a1, a2) = (b0, b1, b2))) as [|Hne]; [auto|].
    assert (a0 <> b0 \/ a1 <> b1 \/ a2 <> b2) by
      (destruct (decide (a0 = b0)), (decide (a1 = b1)), (decide (a2 = b2)); simplify_eq; auto).
    lia.
Qed.

(** Round trip: a version with int components prints to a string that
    parses back to it, and so does that string with any pre-release suffix
    after a dash; and parsing gives only versions with int components. *)
Theorem parse_formatVersion v suffix :
  version_ok v ->
  parseVersion (formatVersion v) = Ok v /\
  parseVersion (formatVersion v +:+ String "-" suffix) = Ok v.
Proof.
  intros Hv. pose proof (formatVersion_no_dash v Hv) as Hd. unfold parseVersion.
  rewrite Cut_none, Cut_app by done. split; by apply parse_base.
Qed.
Lemma parse_formatVersion_witness :
  parseVersion "0.13.2" = Ok (0, 13, 2) /\ parseVersion "0.13.2-rc1" = Ok (0, 13, 2).
Proof. apply (parse_formatVersion (0, 13, 2) "rc1"). cbn. lia. Defined.

(** The gate, for any floor: without a header the client counts as 0.0.0;
    with one, its first value decides: unparsable values are InvalidArgument,
    versions below the floor are FailedPrecondition, all others pass. A
    rejected call leaves the server state alone (the handler does not run), and
    every response carries the hub's version. *)
Theorem versionInterceptor_spec {S R} floor ctx (handler : S -> S * R) s :
  let '(headers, s', res) := versionInterceptor floor ctx handler s in
  headers = [(hubVersionKey, Version)] /\
  match res with
  | Ok r => handler s = (s', r) /\ exists v, ~ version_lt v floor /\
      (md_Get ctx clientVersionKey = [] /\ v = (0, 0, 0) \/
       exists value rest, md_Get ctx clientVersionKey = value :: rest /\ parseVersion value = Ok v)
  | Err rej => s' = s /\
      match rej with
      | malformedVersion value e => rejection_code rej = InvalidArgument /\
          exists rest, md_Get ctx clientVersionKey = value :: rest /\ parseVersion value = Err e
      | incompatibleVersion v fl => rejection_code rej = FailedPrecondition /\
          fl = floor /\ version_lt v floor /\
          (md_Get ctx clientVersionKey = [] /\ v = (0, 0, 0) \/
           exists value rest, md_Get ctx clientVersionKey = value :: rest /\ parseVersion value = Ok v)
      end
  end.
Proof.
  unfold versionInterceptor, checkClientVersion, extractClientVersion.
  destruct (md_Get ctx clientVersionKey) as [|value rest].
  - cbn [mbind result_bind]. destruct (versionLess (0, 0, 0) floor) eqn:Hl.
    + apply versionLess_lt in Hl. naive_solver.
    + destruct (handler s) as [s' r]. split; [done|]. split; [done|].
      exists (0, 0, 0). rewrite <- versionLess_lt, Hl. auto.
  - destruct (parseVersion value) as [v|e] eqn:Hp; cbn [mbind result_bind].
    + destruct (versionLess v floor) eqn:Hl.
      * apply versionLess_lt in Hl. naive_solver.
      * destruct (handler s) as [s' r]. split; [done|]. split; [done|].
        exists v. rewrite <- versionLess_lt, Hl. naive_solver.
    + naive_solver.
Qed.

(** The floor of this release is disarmed: [minClientParsed] is 0.0.0, so a
    call is rejected only for a header that does not parse. *)
Theorem floor_disarmed ctx :
  exists floor, minClientParsed = Return floor /\
    (is_ok (checkClientVersion floor ctx) = is_ok (extractClientVersion ctx)).
Proof.
  exists (0, 0, 0). split; [reflexivity|]. unfold checkClientVersion, extractClientVersion.
  destruct (md_Get ctx clientVersionKey) as [|value rest]; [reflexivity|].
  destruct (parseVersion value) as [[[a b] c]|e] eqn:Hp; [|done].
  apply parseVersion_Ok in Hp. cbn in Hp. cbn [mbind result_bind].
  destruct (versionLess (a, b, c) (0, 0, 0)) eqn:Hl; [|done].
  apply versionLess_lt in Hl. cbn in Hl. lia.
Qed.
