(* ===== verification/Sharding.v ===== *)
(** * Sharding and load shedding: connect/hub/sharding.go

    [GetShard] maps a connectivity group to one of two shards by the first
    character of its id. A stream served for another shard is shed after a
    random TTL: a timer sets the [fired] flag and then closes the connection. *)
From S2P Require Import Prelude GoStrings GoEncoding GoTime.
Open Scope Z_scope.

Definition GetShard (cgID : string) : Z :=
  match cgID with
  | "" => 2
  | String c _ =>
      let n := byte_val c in
      if ((byte_val "0" <=? n) && (n <=? byte_val "9")) ||
         ((byte_val "a" <=? n) && (n <=? byte_val "c"))
      then 1 else 2
  end.

Definition TTLMin : Z := 2 * Minute.
Definition TTLMax : Z := 5 * Minute.

(** [ttl()]. [draw n] is what [rand.N(n)] returns; it panics for [n <= 0]. *)
Definition ttl (draw : Z -> Z) : outcome Z :=
  if TTLMax - TTLMin <=? 0 then Panic "invalid argument to N"
  else Return (TTLMin + draw (TTLMax - TTLMin)).

(** ** The shed timer

    [pending]: armed and not yet expired. The timer's function runs on its own
    goroutine, in two steps; [stop] only prevents a function that has not
    started. *)
Inductive timerPhase := pending | stopped | running | done_.
Record shedTimer := {
  phase : timerPhase;
  fired : bool;
  closed : bool
}.

(** [ShedAfterTTL]: a fresh flag and an armed timer. *)
Definition ShedAfterTTL : shedTimer := {| phase := pending; fired := false; closed := false |}.

Inductive timerStep : shedTimer -> shedTimer -> Prop :=
| timer_expires t :
    phase t = pending ->
    (* fired.Store(true) *)
    timerStep t {| phase := running; fired := true; closed := closed t |}
| timer_closes t :
    phase t = running ->
    (* closeConn() *)
    timerStep t {| phase := done_; fired := fired t; closed := true |}
| timer_stop t :
    (* stop() *)
    timerStep t {| phase := match phase t with pending => stopped | p => p end;
                   fired := fired t; closed := closed t |}.

(** * Properties *)

(** [GetShard] is the frontend's rule on the sixteen hex digits: [0-9a-c]
    (13 of them) are shard 1, [d-f] shard 2; every other id, the empty one and
    upper-case ones included, is shard 2. *)
Theorem GetShard_spec cgID :
  (GetShard cgID = 1 <->
    exists c rest, cgID = String c rest /\ has_byte c "0123456789abc" = true) /\
  (GetShard cgID = 1 \/ GetShard cgID = 2).
Proof.
  destruct cgID as [|c rest]; [split; [|by right]; split; [done|naive_solver]|].
  assert (forall c, GetShard (String c "") = (if has_byte c "0123456789abc" then 1 else 2)) as Hc.
  { intros [[] [] [] [] [] [] [] []]; vm_compute; reflexivity. }
  change (GetShard (String c rest)) with (GetShard (String c "")). rewrite Hc.
  destruct (has_byte c _) eqn:Hb; (split; [|auto]).
  - split; eauto.
  - split; [done|]. intros (? & ? & [= <- <-] & ?). congruence.
Qed.

(** The TTL of a shed stream lies in [[TTLMin, TTLMax)] and the draw never
    panics, whatever [rand.N] returns within its documented range. *)
Theorem ttl_bounds (draw : Z -> Z) :
  (forall n, 0 < n -> 0 <= draw n < n) ->
  exists d, ttl draw = Return d /\ TTLMin <= d < TTLMax.
Proof.
  intros Hdraw. unfold ttl. specialize (Hdraw (TTLMax - TTLMin)).
  change (TTLMax - TTLMin <=? 0) with false. eexists. split; [reflexivity|].
  assert (0 < TTLMax - TTLMin) as Hpos by reflexivity. specialize (Hdraw Hpos). lia.
Qed.
Lemma ttl_bounds_witness :
  exists d, ttl (fun n => n - 1) = Return d /\ TTLMin <= d < TTLMax.
Proof. apply (ttl_bounds (fun n => n - 1)). intros n Hn. lia. Defined.

(** Shedding is visible in time: whenever the timer has closed the
    connection its flag is already set, so the handler that the close wakes up
    reads [shed == true]; and a timer stopped while pending never fires nor
    closes. *)
Theorem shed_flag_before_close t :
  rtc timerStep ShedAfterTTL t ->
  (closed t = true -> fired t = true) /\
  (phase t = stopped -> fired t = false /\ closed t = false).
Proof.
  assert (forall t t', timerStep t t' ->
    (fired t = match phase t with pending | stopped => false | _ => true end) ->
    (closed t = match phase t with done_ => true | _ => false end) ->
    (fired t' = match phase t' with pending | stopped => false | _ => true end) /\
    (closed t' = match phase t' with done_ => true | _ => false end)) as Hstep.
  { intros ? ? [? Hp|? Hp|s]; cbn; try rewrite Hp; [naive_solver..|].
    destruct (phase s); naive_solver. }
  intros Hrtc.
  assert ((fired t = match phase t with pending | stopped => false | _ => true end) /\
    (closed t = match phase t with done_ => true | _ => false end)) as [-> ->].
  { revert t Hrtc. apply rtc_ind_r; [done|]. intros t1 t2 _ Ht [H1 H2]. by apply (Hstep t1 t2). }
  destruct (phase t); naive_solver.
Qed.
Lemma shed_flag_before_close_witness :
  let t := {| phase := done_; fired := true; closed := true |} in
  (closed t = true -> fired t = true) /\ (phase t = stopped -> fired t = false /\ closed t = false).
Proof.
  intros t. apply (shed_flag_before_close t).
  eapply rtc_l; [apply timer_expires; reflexivity|].
  eapply rtc_l; [apply timer_closes; reflexivity|]. apply rtc_refl.
Defined.
