(* ===== verification/Routing.v ===== *)
(** * Request routing: connect/hub/routing.go

    The data and operations of the router: connectors (one per serving
    stream), the connectivity group that maps node numbers to connectors and
    request ids to futures, and the futures themselves. Each definition is one
    critical section or one atomic operation of the code; RoutingSteps.v lets
    goroutines interleave them.

    Pointers are indices: a group carries the connectors and futures allocated
    in it so far, in order of allocation, and its maps hold their indices. The
    message types come from the client's proto package; the class [RoutingPb]
    lists the accessors the router uses. *)
From S2P Require Import Prelude GoStrings Grpc.
Open Scope Z_scope.

Class RoutingPb := {
  ServingRequest : Type;
  GetDestNodeNumber : ServingRequest -> Z;
  GetRequestId : ServingRequest -> Z;
  (** [req.RequestId = id] *)
  set_RequestId : Z -> ServingRequest -> ServingRequest;
  GetRequestId_set : forall id req, GetRequestId (set_RequestId id req) = id;
  GetDestNodeNumber_set : forall id req,
    GetDestNodeNumber (set_RequestId id req) = GetDestNodeNumber req;
  ServingResponse : Type;
  resp_GetRequestId : ServingResponse -> Z;
  (** [resp.GetKind().(type)] is [*hubpb.ServingResponse_CheckIn] *)
  is_CheckIn : ServingResponse -> bool
}.

Section routing.
Context `{RoutingPb}.

(** ** Data *)

(** Where the goroutine [sendLoop] of a connector is: not started, at its
    [select], inside [stream.Send], or returned. *)
Inductive senderState :=
| notStarted
| selecting
| sending (req : ServingRequest)
| exited.

(** [ctx.Done()] is closed iff [cancelled]. *)
Record Connector := {
  c_nodeNum : Z;
  cancelled : bool;
  evicted : bool;
  sender : senderState
}.

(** [doneCH] is closed iff [done]. *)
Record FutureResponse := {
  f_nodeNum : Z;
  f_resp : option ServingResponse;
  f_err : option status;
  f_done : bool
}.

Record connectivityGroup := {
  g_id : string;
  connectors : gmap Z nat;
  msgCounter : Z;
  futures : gmap Z nat;
  connStore : list Connector;
  futStore : list FutureResponse
}.

Definition newConnectivityGroup (id : string) : connectivityGroup :=
  {| g_id := id; connectors := ∅; msgCounter := 0; futures := ∅;
     connStore := []; futStore := [] |}.

(** Field updates. *)
Definition with_connectors (m : gmap Z nat) (g : connectivityGroup) : connectivityGroup :=
  {| g_id := g_id g; connectors := m; msgCounter := msgCounter g; futures := futures g;
     connStore := connStore g; futStore := futStore g |}.
Definition with_msgCounter (n : Z) (g : connectivityGroup) : connectivityGroup :=
  {| g_id := g_id g; connectors := connectors g; msgCounter := n; futures := futures g;
     connStore := connStore g; futStore := futStore g |}.
Definition with_futures (m : gmap Z nat) (g : connectivityGroup) : connectivityGroup :=
  {| g_id := g_id g; connectors := connectors g; msgCounter := msgCounter g; futures := m;
     connStore := connStore g; futStore := futStore g |}.
Definition with_connStore (l : list Connector) (g : connectivityGroup) : connectivityGroup :=
  {| g_id := g_id g; connectors := connectors g; msgCounter := msgCounter g; futures := futures g;
     connStore := l; futStore := futStore g |}.
Definition with_futStore (l : list FutureResponse) (g : connectivityGroup) : connectivityGroup :=
  {| g_id := g_id g; connectors := connectors g; msgCounter := msgCounter g; futures := futures g;
     connStore := connStore g; futStore := l |}.

(** ** Connectors *)

Definition newConnector (nodeNum : Z) (g : connectivityGroup) : nat * connectivityGroup :=
  (length (connStore g),
   with_connStore (connStore g ++
     [{| c_nodeNum := nodeNum; cancelled := false; evicted := false; sender := notStarted |}]) g).

Definition update_conn (f : Connector -> Connector) (c : nat) (g : connectivityGroup) :
    connectivityGroup :=
  with_connStore (alter f c (connStore g)) g.

(** [c.cancel()], also what [Close] does; cancelling twice is harmless. *)
Definition cancel : nat -> connectivityGroup -> connectivityGroup :=
  update_conn (fun c => {| c_nodeNum := c_nodeNum c; cancelled := true;
                           evicted := evicted c; sender := sender c |}).
(** [c.evicted.Store(true)] *)
Definition storeEvicted : nat -> connectivityGroup -> connectivityGroup :=
  update_conn (fun c => {| c_nodeNum := c_nodeNum c; cancelled := cancelled c;
                           evicted := true; sender := sender c |}).
Definition set_sender (s : senderState) : nat -> connectivityGroup -> connectivityGroup :=
  update_conn (fun c => {| c_nodeNum := c_nodeNum c; cancelled := cancelled c;
                           evicted := evicted c; sender := s |}).

(** [c.Evicted()] *)
Definition Evicted (c : nat) (g : connectivityGroup) : bool :=
  match connStore g !! c with
  | Some c => evicted c
  | None => false
  end.

(** ** Futures *)

Definition newFutureResponse (nodeNum : Z) (g : connectivityGroup) : nat * connectivityGroup :=
  (length (futStore g),
   with_futStore (futStore g ++
     [{| f_nodeNum := nodeNum; f_resp := None; f_err := None; f_done := false |}]) g).

(** Closing a channel that is already closed panics. *)
Definition complete (f : nat) (upd : FutureResponse -> FutureResponse) (g : connectivityGroup) :
    outcome connectivityGroup :=
  match futStore g !! f with
  | None => Panic "invalid memory address or nil pointer dereference"
  | Some fr =>
      if f_done fr then Panic "close of closed channel"
      else Return (with_futStore (<[f := upd fr]> (futStore g)) g)
  end.
Definition resolve (f : nat) (resp : ServingResponse) : connectivityGroup -> outcome connectivityGroup :=
  complete f (fun fr => {| f_nodeNum := f_nodeNum fr; f_resp := Some resp;
                           f_err := f_err fr; f_done := true |}).
Definition fail (f : nat) (err : status) : connectivityGroup -> outcome connectivityGroup :=
  complete f (fun fr => {| f_nodeNum := f_nodeNum fr; f_resp := f_resp fr;
                           f_err := Some err; f_done := true |}).

(** [Await]: the future's result once it is done, or the context's error once
    the context is done; [preferCtx] is the [select]'s pick when both are. [None]: it blocks. *)
Definition Await (fr : FutureResponse) (ctxErr : option status) (preferCtx : bool) :
    option (option ServingResponse * option status) :=
  match f_done fr, ctxErr with
  | true, None => Some (f_resp fr, f_err fr)
  | true, Some e => if preferCtx then Some (None, Some e) else Some (f_resp fr, f_err fr)
  | false, Some e => Some (None, Some e)
  | false, None => None
  end.

(** ** The group's critical sections *)

Definition nodeMessage (what : string) (nodeNum : Z) : status :=
  Errorf Unavailable ("node " +:+ FormatInt nodeNum +:+ " " +:+ what).

(** The body of the loop of [clearFutures]; the map iteration order is that of
    [map_to_list], which the result does not depend on. *)
Definition clearFuture (nodeNum : Z) (entry : Z * nat) (g : connectivityGroup) :
    outcome connectivityGroup :=
  let '(reqID, f) := entry in
  match futStore g !! f with
  | None => Panic "invalid memory address or nil pointer dereference"
  | Some fr =>
      if f_nodeNum fr =? nodeNum
      then fail f (nodeMessage "disconnected" nodeNum) (with_futures (delete reqID (futures g)) g)
      else Return g
  end.
Fixpoint clearFutures_loop (nodeNum : Z) (entries : list (Z * nat)) (g : connectivityGroup) :
    outcome connectivityGroup :=
  match entries with
  | [] => Return g
  | e :: entries => g ← clearFuture nodeNum e g; clearFutures_loop nodeNum entries g
  end.
Definition clearFutures (nodeNum : Z) (g : connectivityGroup) : outcome connectivityGroup :=
  clearFutures_loop nodeNum (map_to_list (futures g)) g.

(** [connect] up to and including [previous.cancel()], and the rest of it. The
    lock is held in between; the two parts are told apart because the cancelled
    handler can run as soon as its context is done. *)
Definition connect_begin (nodeNum : Z) (g : connectivityGroup) :
    outcome (nat * option nat * connectivityGroup) :=
  let '(c, g) := newConnector nodeNum g in
  match connectors g !! nodeNum with
  | None => Return (c, None, g)
  | Some previous =>
      match connStore g !! previous with
      | None => Panic "invalid memory address or nil pointer dereference"
      | Some p =>
          g ← clearFutures (c_nodeNum p) g;
          Return (c, Some previous, cancel previous g)
      end
  end.
Definition connect_end (nodeNum : Z) (c : nat) (previous : option nat) (g : connectivityGroup) :
    connectivityGroup :=
  let g := match previous with Some p => storeEvicted p g | None => g end in
  with_connectors (<[nodeNum := c]> (connectors g)) g.
Definition connect (nodeNum : Z) (g : connectivityGroup) : outcome (nat * connectivityGroup) :=
  '(c, previous, g) ← connect_begin nodeNum g;
  Return (c, connect_end nodeNum c previous g).

Definition disconnect (c : nat) (g : connectivityGroup) : outcome connectivityGroup :=
  match connStore g !! c with
  | None => Panic "invalid memory address or nil pointer dereference"
  | Some conn =>
      let nodeNum := c_nodeNum conn in
      if decide (connectors g !! nodeNum <> Some c) then Return g
      else clearFutures nodeNum (with_connectors (delete nodeNum (connectors g)) g)
  end.

(** [routeRequest], in the order of its actions: number the request, look the
    connector up and make the future, send, register the future. *)
Definition routeRequest_number (req : ServingRequest) (g : connectivityGroup) :
    ServingRequest * connectivityGroup :=
  let id := wrap64 (msgCounter g + 1) in
  (set_RequestId id req, with_msgCounter id g).
Definition routeRequest_lookup (req : ServingRequest) (g : connectivityGroup) :
    outcome (nat * option nat * connectivityGroup) :=
  let nodeNum := GetDestNodeNumber req in
  let found := connectors g !! nodeNum in
  let '(f, g) := newFutureResponse nodeNum g in
  match found with
  | None => g ← fail f (nodeMessage "is not connected" nodeNum) g; Return (f, None, g)
  | Some c => Return (f, Some c, g)
  end.
Definition routeRequest_register (req : ServingRequest) (f : nat) (g : connectivityGroup) :
    connectivityGroup :=
  with_futures (<[GetRequestId req := f]> (futures g)) g.

(** [c.send(req)]: it can hand the request to a [sendLoop] at its [select], or
    give up once the context is done. *)
Inductive sendBranch := handOver | contextDone.
Definition send (branch : sendBranch) (c : nat) (req : ServingRequest) (g : connectivityGroup) :
    option (option status * connectivityGroup) :=
  conn ← connStore g !! c;
  match branch, sender conn with
  | handOver, selecting => Some (None, set_sender (sending req) c g)
  | contextDone, _ =>
      if cancelled conn then Some (Some (nodeMessage "disconnected" (c_nodeNum conn)), g) else None
  | handOver, _ => None
  end.

Definition isCheckInMsg (resp : ServingResponse) : bool := is_CheckIn resp.

Definition processResponse (resp : ServingResponse) (g : connectivityGroup) :
    outcome connectivityGroup :=
  if isCheckInMsg resp then Return g
  else
    let reqID := resp_GetRequestId resp in
    match futures g !! reqID with
    | Some f => resolve f resp (with_futures (delete reqID (futures g)) g)
    | None => Return g
    end.

(** ** The router *)

Definition Router : Type := gmap string connectivityGroup.
Definition NewRouter : Router := ∅.

Definition findOrCreateGroup (cgID : string) (r : Router) : connectivityGroup * Router :=
  match r !! cgID with
  | Some g => (g, r)
  | None => let g := newConnectivityGroup cgID in (g, <[cgID := g]> r)
  end.
(** An action of the group [cgID], creating the group first if needed. *)
Definition on_group {A} (cgID : string) (act : connectivityGroup -> outcome (A * connectivityGroup))
    (r : Router) : outcome (A * Router) :=
  let '(g, r) := findOrCreateGroup cgID r in
  '(a, g) ← act g;
  Return (a, <[cgID := g]> r).
Definition Connect (cgID : string) (nodeNum : Z) : Router -> outcome (nat * Router) :=
  on_group cgID (connect nodeNum).

Definition IsNodeConnected (cgID : string) (nodeNum : Z) (r : Router) : bool :=
  match r !! cgID with
  | None => false
  | Some g => bool_decide (is_Some (connectors g !! nodeNum))
  end.
Definition ConnectedNodes (cgID : string) (r : Router) : list Z :=
  match r !! cgID with
  | None => []
  | Some g => (map_to_list (connectors g)).*1
  end.
End routing.

(** * Lemmas *)

Section lemmas.
Context `{RoutingPb}.

(** ** Reference definition of [clearFutures]

    All at once: the node's entries leave the map, and the futures they named
    are failed. *)
Definition failed (nodeNum : Z) (fr : FutureResponse) : FutureResponse :=
  {| f_nodeNum := f_nodeNum fr; f_resp := f_resp fr;
     f_err := Some (nodeMessage "disconnected" nodeNum); f_done := true |}.
Definition node_of (g : connectivityGroup) (f : nat) : option Z :=
  f_nodeNum <$> futStore g !! f.
Definition cleared_map (nodeNum : Z) (l : list (Z * nat)) (g : connectivityGroup) : gmap Z nat :=
  filter (fun e => ~ (e ∈ l /\ node_of g e.2 = Some nodeNum)) (futures g).
Definition cleared_store (nodeNum : Z) (l : list (Z * nat)) (g : connectivityGroup) :
    list FutureResponse :=
  imap (fun f fr => if decide (f ∈ l.*2 /\ f_nodeNum fr = nodeNum) then failed nodeNum fr else fr)
    (futStore g).
Definition cleared (nodeNum : Z) (l : list (Z * nat)) (g : connectivityGroup) : connectivityGroup :=
  with_futStore (cleared_store nodeNum l g) (with_futures (cleared_map nodeNum l g) g).

(** The futures of the map are open and each is registered once. *)
Record wf_futures (g : connectivityGroup) : Prop := {
  wf_open k f : futures g !! k = Some f ->
    exists fr, futStore g !! f = Some fr /\ f_done fr = false;
  wf_inj k1 k2 f : futures g !! k1 = Some f -> futures g !! k2 = Some f -> k1 = k2
}.

Lemma group_eq (g1 g2 : connectivityGroup) :
  g_id g1 = g_id g2 -> connectors g1 = connectors g2 -> msgCounter g1 = msgCounter g2 ->
  futures g1 = futures g2 -> connStore g1 = connStore g2 -> futStore g1 = futStore g2 -> g1 = g2.
Proof. destruct g1, g2; simpl; congruence. Qed.

Lemma cleared_map_lookup nodeNum l g k f :
  cleared_map nodeNum l g !! k = Some f <->
  futures g !! k = Some f /\ ~ ((k, f) ∈ l /\ node_of g f = Some nodeNum).
Proof. unfold cleared_map. rewrite map_lookup_filter_Some. done. Qed.
Lemma cleared_store_lookup nodeNum l g f :
  cleared_store nodeNum l g !! f =
  (fun fr => if decide (f ∈ l.*2 /\ f_nodeNum fr = nodeNum) then failed nodeNum fr else fr)
    <$> futStore g !! f.
Proof. unfold cleared_store. by rewrite list_lookup_imap. Qed.
Lemma node_of_cleared nodeNum l g f : node_of (cleared nodeNum l g) f = node_of g f.
Proof.
  unfold node_of, cleared. cbn [with_futStore futStore]. rewrite cleared_store_lookup.
  destruct (futStore g !! f) as [fr|]; [|done]. simpl. by case_decide.
Qed.

(** One round of the loop. *)
Lemma clearFuture_eq nodeNum k f g fr :
  futStore g !! f = Some fr -> f_done fr = false ->
  clearFuture nodeNum (k, f) g =
  Return (if decide (f_nodeNum fr = nodeNum)
          then with_futStore (<[f := failed nodeNum fr]> (futStore g))
                 (with_futures (delete k (futures g)) g)
          else g).
Proof.
  intros Hf Hd. unfold clearFuture. rewrite Hf.
  destruct (Z.eqb_spec (f_nodeNum fr) nodeNum); [|by rewrite decide_False].
  rewrite decide_True by done. unfold fail, complete. cbn [with_futures futStore].
  by rewrite Hf, Hd.
Qed.

Lemma clearFutures_loop_eq nodeNum l g :
  NoDup l.*1 -> NoDup l.*2 ->
  (forall k f, (k, f) ∈ l -> futures g !! k = Some f /\
    exists fr, futStore g !! f = Some fr /\ f_done fr = false) ->
  clearFutures_loop nodeNum l g = Return (cleared nodeNum l g).
Proof.
  revert g. induction l as [|[k f] l IH]; intros g Hk Hf Hl.
  - simpl. f_equal. apply group_eq; try done; cbn [cleared with_futStore with_futures futures futStore].
    + apply map_eq. intros i. apply option_eq. intros j. rewrite cleared_map_lookup. set_solver.
    + apply list_eq. intros i. rewrite cleared_store_lookup. destruct (futStore g !! i); [|done].
      done.
  - rewrite fmap_cons, NoDup_cons in Hk. rewrite fmap_cons, NoDup_cons in Hf.
    cbn [fst snd] in Hk, Hf. destruct Hk as [Hk HNk], Hf as [Hf HNf].
    destruct (Hl k f) as (Hkf & fr & Hfr & Hd); [set_solver|].
    cbn [clearFutures_loop]. erewrite clearFuture_eq by done. cbn [mbind outcome_bind].
    case_decide as Hn; (rewrite IH; [f_equal|done|done|]).
    + apply group_eq; try done; cbn [cleared with_futStore with_futures futures futStore].
      * apply map_eq. intros i. apply option_eq. intros j. rewrite !cleared_map_lookup.
        cbn [with_futStore with_futures futures]. rewrite lookup_delete_Some, elem_of_cons.
        assert (forall x, node_of (with_futStore (<[f:=failed nodeNum fr]> (futStore g))
          (with_futures (delete k (futures g)) g)) x = node_of g x) as ->.
        { intros x. unfold node_of. cbn [with_futStore futStore].
          destruct (decide (f = x)) as [<-|]; [|by rewrite list_lookup_insert_ne].
          rewrite list_lookup_insert_eq by by eapply lookup_lt_Some. by rewrite Hfr. }
        split.
        -- intros [[Hki Hij] Hnot]. split; [done|]. intros [[[= -> ->]|Hin] Hnode]; naive_solver.
        -- intros [Hij Hnot]. split; [split; [|done]|naive_solver].
           intros <-. simplify_eq. apply Hnot. unfold node_of. rewrite Hfr. naive_solver.
      * apply list_eq. intros i. rewrite !cleared_store_lookup. cbn [with_futStore futStore].
        destruct (decide (f = i)) as [<-|Hfi].
        -- rewrite list_lookup_insert_eq by by eapply lookup_lt_Some. rewrite Hfr. simpl.
           rewrite decide_False by naive_solver. rewrite decide_True; [done|]. set_solver.
        -- rewrite list_lookup_insert_ne by done. destruct (futStore g !! i) as [fr'|]; [|done].
           simpl. f_equal. do 2 case_decide; set_solver.
    + intros k' f' Hin. destruct (Hl k' f') as (Hk'f' & fr' & Hfr' & Hd'); [set_solver|].
      cbn [with_futStore with_futures futures futStore].
      assert (k <> k') by (intros ->; apply Hk, list_elem_of_fmap; by exists (k', f')).
      assert (f <> f') by (intros ->; apply Hf, list_elem_of_fmap; by exists (k', f')).
      rewrite lookup_delete_ne, list_lookup_insert_ne by done. eauto.
    + apply group_eq; try done; cbn [cleared with_futStore with_futures futures futStore].
      * apply map_eq. intros i. apply option_eq. intros j. rewrite !cleared_map_lookup, elem_of_cons.
        split; [|naive_solver]. intros [Hij Hnot]. split; [done|].
        intros [[[= -> ->]|Hin] Hnode]; [|naive_solver]. unfold node_of in Hnode.
        rewrite Hfr in Hnode. naive_solver.
      * apply list_eq. intros i. rewrite !cleared_store_lookup.
        destruct (futStore g !! i) as [fr'|] eqn:Hi; [|done]. simpl. f_equal.
        do 2 case_decide; set_solver.
    + intros k' f' Hin. apply Hl. set_solver.
Qed.

(** ** The whole of [clearFutures] *)

(** What [clearFutures nodeNum] leaves. *)
Definition clear (nodeNum : Z) (g : connectivityGroup) : connectivityGroup :=
  cleared nodeNum (map_to_list (futures g)) g.

Lemma clearFutures_clear nodeNum g :
  wf_futures g -> clearFutures nodeNum g = Return (clear nodeNum g).
Proof.
  intros [Hopen Hinj]. apply clearFutures_loop_eq.
  - apply NoDup_fst_map_to_list.
  - apply NoDup_fmap_2_strong; [|apply NoDup_map_to_list].
    intros [k1 f1] [k2 f2] H1%elem_of_map_to_list H2%elem_of_map_to_list Heq.
    simpl in Heq. subst. f_equal. by eapply Hinj.
  - intros k f Hkf%elem_of_map_to_list. split; [done|]. by eapply Hopen.
Qed.

Lemma clear_futures nodeNum g k f :
  futures (clear nodeNum g) !! k = Some f <->
  futures g !! k = Some f /\ node_of g f <> Some nodeNum.
Proof.
  unfold clear, cleared. cbn [with_futStore with_futures futures].
  rewrite cleared_map_lookup, elem_of_map_to_list. naive_solver.
Qed.
Lemma clear_futures_fresh nodeNum g k :
  futures g !! k = None -> futures (clear nodeNum g) !! k = None.
Proof.
  intros Hk. apply eq_None_not_Some. intros [f Hf]. apply clear_futures in Hf. naive_solver.
Qed.
(** A future registered for the node is failed. *)
Lemma clear_store_hit nodeNum g k f fr :
  futures g !! k = Some f -> futStore g !! f = Some fr -> f_nodeNum fr = nodeNum ->
  futStore (clear nodeNum g) !! f = Some (failed nodeNum fr).
Proof.
  intros Hk Hf Hn. unfold clear, cleared. cbn [with_futStore futStore].
  rewrite cleared_store_lookup, Hf. simpl. rewrite decide_True; [done|]. split; [|done].
  apply list_elem_of_fmap. exists (k, f). split; [done|]. by apply elem_of_map_to_list.
Qed.
(** Every other future is left alone. *)
Lemma clear_store_miss nodeNum g f :
  (forall k, futures g !! k = Some f -> node_of g f <> Some nodeNum) ->
  futStore (clear nodeNum g) !! f = futStore g !! f.
Proof.
  intros Hmiss. unfold clear, cleared. cbn [with_futStore futStore].
  rewrite cleared_store_lookup. destruct (futStore g !! f) as [fr|] eqn:Hf; [|done].
  simpl. rewrite decide_False; [done|]. intros [Hin Hn].
  apply list_elem_of_fmap in Hin as ([k f'] & -> & Hin%elem_of_map_to_list).
  simpl in *. apply (Hmiss k Hin). unfold node_of. rewrite Hf. simpl. by rewrite Hn.
Qed.
Lemma node_of_clear nodeNum g f : node_of (clear nodeNum g) f = node_of g f.
Proof. apply node_of_cleared. Qed.
Lemma length_clear_futStore nodeNum g :
  length (futStore (clear nodeNum g)) = length (futStore g).
Proof. unfold clear, cleared. cbn [with_futStore futStore]. apply length_imap. Qed.
Lemma wf_clear nodeNum g : wf_futures g -> wf_futures (clear nodeNum g).
Proof.
  intros [Hopen Hinj]. split.
  - intros k f [Hkf Hn]%clear_futures. destruct (Hopen k f Hkf) as (fr & Hfr & Hd).
    exists fr. split; [|done]. by rewrite clear_store_miss.
  - intros k1 k2 f [? _]%clear_futures [? _]%clear_futures. by eapply Hinj.
Qed.
End lemmas.

#[export] Hint Resolve wf_clear : hub.
