(* ===== verification/RoutingSteps.v ===== *)
(** * Interleaved routing: the goroutines of connect/hub/routing.go

    A connectivity group with the goroutines that act on it: callers of
    [routeRequest], [connect] and [disconnect] calls, the receive loops that
    deliver responses, and the send loops. [exec] runs one atomic action; the
    mutex is free except between the two halves of [connect]. The responses
    that arrive are arbitrary, as the peers are not trusted. *)
From S2P Require Import Prelude GoStrings Grpc Routing.
Open Scope Z_scope.

Section steps.
Context `{RoutingPb}.

(** ** Goroutines *)

(** Where a caller of [routeRequest] is; [Returned] callers hold the future
    they were given. *)
Inductive routePC :=
| Numbered (req : ServingRequest)
| Found (req : ServingRequest) (f c : nat)
| Sent (req : ServingRequest) (f : nat)
| Returned (req : ServingRequest) (f : nat).

(** [connecting]: the [connect] call that holds the mutex after having
    cancelled the previous connector (node, new connector, previous one). *)
Record Sys := {
  grp : connectivityGroup;
  callers : list routePC;
  connecting : option (Z * nat * option nat)
}.
Definition init (id : string) : Sys :=
  {| grp := newConnectivityGroup id; callers := []; connecting := None |}.

Definition with_grp (g : connectivityGroup) (s : Sys) : Sys :=
  {| grp := g; callers := callers s; connecting := connecting s |}.
Definition set_caller (t : nat) (pc : routePC) (g : connectivityGroup) (s : Sys) : Sys :=
  {| grp := g; callers := <[t := pc]> (callers s); connecting := connecting s |}.

Inductive action :=
| ANumber (req : ServingRequest)
| ALookup (t : nat)
| ASend (t : nat) (branch : sendBranch)
| ARegister (t : nat)
| AConnect (nodeNum : Z)
| AConnected
| ADisconnect (c : nat)
| AResponse (resp : ServingResponse)
| ACancel (c : nat)
| ARun (c : nat)
| ASendReturns (c : nat) (ok : bool)
| ASenderDone (c : nat).

(** A critical section: enabled when no [connect] holds the mutex. *)
Definition locked (s : Sys) (m : outcome Sys) : option (outcome Sys) :=
  match connecting s with
  | None => Some m
  | Some _ => None
  end.

(** [None]: the action is not enabled. *)
Definition exec (a : action) (s : Sys) : option (outcome Sys) :=
  let g := grp s in
  match a with
  | ANumber req =>
      let '(req, g) := routeRequest_number req g in
      Some (Return {| grp := g; callers := callers s ++ [Numbered req];
                      connecting := connecting s |})
  | ALookup t =>
      match callers s !! t with
      | Some (Numbered req) =>
          locked s ('(f, found, g) ← routeRequest_lookup req g;
                    match found with
                    | Some c => Return (set_caller t (Found req f c) g s)
                    | None => Return (set_caller t (Returned req f) g s)
                    end)
      | _ => None
      end
  | ASend t branch =>
      match callers s !! t with
      | Some (Found req f c) =>
          '(err, g) ← send branch c req g;
          match err with
          | None => Some (Return (set_caller t (Sent req f) g s))
          | Some e => Some (g ← fail f e g; Return (set_caller t (Returned req f) g s))
          end
      | _ => None
      end
  | ARegister t =>
      match callers s !! t with
      | Some (Sent req f) =>
          locked s (Return (set_caller t (Returned req f) (routeRequest_register req f g) s))
      | _ => None
      end
  | AConnect nodeNum =>
      locked s ('(c, previous, g) ← connect_begin nodeNum g;
                Return {| grp := g; callers := callers s;
                          connecting := Some (nodeNum, c, previous) |})
  | AConnected =>
      '(nodeNum, c, previous) ← connecting s;
      Some (Return {| grp := connect_end nodeNum c previous g; callers := callers s;
                      connecting := None |})
  | ADisconnect c =>
      _ ← connStore g !! c;
      locked s (g ← disconnect c g; Return (with_grp g s))
  | AResponse resp => locked s (g ← processResponse resp g; Return (with_grp g s))
  | ACancel c =>
      _ ← connStore g !! c;
      Some (Return (with_grp (cancel c g) s))
  | ARun c =>
      conn ← connStore g !! c;
      match sender conn with
      | notStarted => Some (Return (with_grp (set_sender selecting c g) s))
      | _ => None
      end
  | ASendReturns c ok =>
      conn ← connStore g !! c;
      match sender conn with
      | sending _ =>
          Some (Return (with_grp (if ok : bool then set_sender selecting c g
                                  else set_sender exited c (cancel c g)) s))
      | _ => None
      end
  | ASenderDone c =>
      conn ← connStore g !! c;
      match sender conn with
      | selecting =>
          if cancelled conn then Some (Return (with_grp (set_sender exited c g) s)) else None
      | _ => None
      end
  end.

Definition step (s s' : Sys) : Prop := exists a, exec a s = Some (Return s').
Definition reachable (id : string) (s : Sys) : Prop := rtc step (init id) s.

(** A concrete schedule. *)
Fixpoint run (acts : list action) (s : Sys) : option Sys :=
  match acts with
  | [] => Some s
  | a :: acts =>
      match exec a s with
      | Some (Return s') => run acts s'
      | _ => None
      end
  end.

(** ** The invariant *)

Definition pc_future (pc : routePC) : option nat :=
  match pc with
  | Numbered _ => None
  | Found _ f _ | Sent _ f | Returned _ f => Some f
  end.
Definition pc_req (pc : routePC) : ServingRequest :=
  match pc with
  | Numbered req | Found req _ _ | Sent req _ | Returned req _ => req
  end.

(** An open future holds nothing, a done one holds a response or an error. *)
Definition future_ok (fr : FutureResponse) : Prop :=
  if f_done fr
  then (is_Some (f_resp fr) /\ f_err fr = None) \/ (f_resp fr = None /\ is_Some (f_err fr))
  else f_resp fr = None /\ f_err fr = None.

(** Futures: [m] is the map, [st] the futures allocated, [th] the callers. *)
Record fut_inv (m : gmap Z nat) (st : list FutureResponse) (th : list routePC) : Prop := {
  (** a caller that has not returned owns an open future nobody else knows *)
  fi_private t pc f : th !! t = Some pc -> pc_future pc = Some f ->
    exists fr, st !! f = Some fr /\ f_nodeNum fr = GetDestNodeNumber (pc_req pc) /\
      match pc with
      | Returned _ _ => True
      | _ => f_done fr = false /\ forall k, m !! k <> Some f
      end;
  fi_own t1 t2 pc1 pc2 f : th !! t1 = Some pc1 -> th !! t2 = Some pc2 ->
    pc_future pc1 = Some f -> pc_future pc2 = Some f -> t1 = t2;
  (** a registered future is open, and registered under its request's id *)
  fi_registered k f : m !! k = Some f ->
    (exists fr, st !! f = Some fr /\ f_done fr = false) /\
    exists t req, th !! t = Some (Returned req f) /\ GetRequestId req = k;
  fi_ok f fr : st !! f = Some fr -> future_ok fr;
  (** a response is the answer to the future's own request *)
  fi_answer f fr r : st !! f = Some fr -> f_resp fr = Some r ->
    is_CheckIn r = false /\
    exists t req, th !! t = Some (Returned req f) /\ GetRequestId req = resp_GetRequestId r
}.

(** Connectors: [m] is the map, [st] the connectors allocated. *)
Record conn_inv (m : gmap Z nat) (st : list Connector) (conning : option (Z * nat * option nat)) :
    Prop := {
  ci_current n c : m !! n = Some c ->
    exists conn, st !! c = Some conn /\ c_nodeNum conn = n /\ evicted conn = false;
  ci_cancelled c conn : st !! c = Some conn ->
    evicted conn = true \/ sender conn = exited -> cancelled conn = true;
  ci_connecting n c previous : conning = Some (n, c, previous) ->
    previous = m !! n /\ (forall n', m !! n' <> Some c) /\
    (exists conn, st !! c = Some conn /\ c_nodeNum conn = n /\ evicted conn = false) /\
    (forall p, previous = Some p -> exists conn, st !! p = Some conn /\ cancelled conn = true)
}.

Record inv (s : Sys) : Prop := {
  inv_fut : fut_inv (futures (grp s)) (futStore (grp s)) (callers s);
  inv_conn : conn_inv (connectors (grp s)) (connStore (grp s)) (connecting s);
  inv_found t req f c : callers s !! t = Some (Found req f c) ->
    is_Some (connStore (grp s) !! c)
}.
End steps.

(** * Lemmas *)

Section invariant_lemmas.
Context `{RoutingPb}.
Implicit Types (m : gmap Z nat) (st : list FutureResponse) (th : list routePC).

Lemma snoc_lookup {A} (l : list A) x i y :
  (l ++ [x]) !! i = Some y <-> l !! i = Some y \/ (i = length l /\ y = x).
Proof.
  rewrite lookup_app_Some, list_lookup_singleton_Some. split.
  - intros [?|(? & ? & ?)]; [by left|right]. split; [lia|done].
  - intros [?|[-> ->]]; [by left|right]. split; [done|]. split; [lia|done].
Qed.

(** A registered future is open and registered once. *)
Lemma fut_inv_wf g th : fut_inv (futures g) (futStore g) th -> wf_futures g.
Proof.
  intros Hi. split.
  - intros k f Hkf. by destruct (fi_registered _ _ _ Hi _ _ Hkf).
  - intros k1 k2 f H1 H2.
    destruct (fi_registered _ _ _ Hi _ _ H1) as (_ & t1 & r1 & Ht1 & <-).
    destruct (fi_registered _ _ _ Hi _ _ H2) as (_ & t2 & r2 & Ht2 & <-).
    assert (t1 = t2) as <- by by eapply (fi_own _ _ _ Hi). congruence.
Qed.
Lemma fut_inv_fresh m st th :
  fut_inv m st th ->
  (forall k, m !! k <> Some (length st)) /\
  (forall t pc, th !! t = Some pc -> pc_future pc <> Some (length st)).
Proof.
  intros Hi. split.
  - intros k Hk. destruct (fi_registered _ _ _ Hi _ _ Hk) as ((fr & Hfr & _) & _).
    apply lookup_lt_Some in Hfr. lia.
  - intros t pc Ht Hpc. destruct (fi_private _ _ _ Hi _ _ _ Ht Hpc) as (fr & Hfr & _).
    apply lookup_lt_Some in Hfr. lia.
Qed.

(** A caller enters. *)
Lemma fut_inv_number m st th req : fut_inv m st th -> fut_inv m st (th ++ [Numbered req]).
Proof.
  intros [Hp Ho Hr Hok Ha].
  assert (forall t f req', th !! t = Some (Returned req' f) ->
    (th ++ [Numbered req]) !! t = Some (Returned req' f)) as Hret.
  { intros. apply snoc_lookup. by left. }
  split.
  - intros t pc f [Ht|[_ ->]]%snoc_lookup; [by apply (Hp t pc f)|done].
  - intros t1 t2 pc1 pc2 f [H1|[-> ->]]%snoc_lookup [H2|[-> ->]]%snoc_lookup; try done.
    by eapply Ho.
  - intros k f Hk. destruct (Hr k f Hk) as (? & t & req' & ? & ?). eauto 10.
  - done.
  - intros f fr r Hf Hresp. destruct (Ha f fr r Hf Hresp) as (? & t & req' & ? & ?). eauto 10.
Qed.

(** A caller looks its destination up and gets a new future. *)
Lemma fut_inv_lookup m st th t req pc fr :
  fut_inv m st th -> th !! t = Some (Numbered req) ->
  pc_future pc = Some (length st) -> pc_req pc = req ->
  f_nodeNum fr = GetDestNodeNumber req -> future_ok fr -> f_resp fr = None ->
  match pc with Returned _ _ => True | _ => f_done fr = false end ->
  fut_inv m (st ++ [fr]) (<[t := pc]> th).
Proof.
  intros Hi Ht Hpc Hreq Hn Hfok Hresp Hdone.
  destruct (fut_inv_fresh _ _ _ Hi) as [Hfm Hft]. destruct Hi as [Hp Ho Hr Hok Ha].
  assert (forall t' f req', th !! t' = Some (Returned req' f) ->
    <[t := pc]> th !! t' = Some (Returned req' f)) as Hret.
  { intros t' f req' Ht'. rewrite list_lookup_insert_ne; [done|]. intros ->. congruence. }
  split.
  - intros t' pc' f [(<- & <- & _)|[Hne Ht']]%list_lookup_insert_Some Hf.
    + rewrite Hpc in Hf. injection Hf as <-. exists fr. rewrite snoc_lookup, Hreq.
      split; [by right|]. split; [done|]. destruct pc; naive_solver.
    + destruct (Hp t' pc' f Ht' Hf) as (fr' & Hfr' & ?). exists fr'. rewrite snoc_lookup. auto.
  - intros t1 t2 pc1 pc2 f [(<- & <- & _)|[Hne1 H1]]%list_lookup_insert_Some
      [(<- & <- & _)|[Hne2 H2]]%list_lookup_insert_Some Hf1 Hf2; [done| | |by eapply Ho].
    + exfalso. eapply Hft; [exact H2|congruence].
    + exfalso. eapply Hft; [exact H1|congruence].
  - intros k f Hk. destruct (Hr k f Hk) as ((fr' & Hfr' & ?) & t' & req' & ? & ?).
    split; [exists fr'; rewrite snoc_lookup; auto|]. eauto 10.
  - intros f fr' [?|[_ ->]]%snoc_lookup; [by eapply Hok|done].
  - intros f fr' r [Hf|[_ ->]]%snoc_lookup Hr'; [|congruence].
    destruct (Ha f fr' r Hf Hr') as (? & t' & req' & ? & ?). eauto 10.
Qed.

(** A caller hands its request over. *)
Lemma fut_inv_sent m st th t req f c :
  fut_inv m st th -> th !! t = Some (Found req f c) -> fut_inv m st (<[t := Sent req f]> th).
Proof.
  intros [Hp Ho Hr Hok Ha] Ht.
  assert (forall t' f' req', th !! t' = Some (Returned req' f') ->
    <[t := Sent req f]> th !! t' = Some (Returned req' f')) as Hret.
  { intros t' f' req' Ht'. rewrite list_lookup_insert_ne; [done|]. intros ->. congruence. }
  split.
  - intros t' pc' f' [(<- & <- & _)|[Hne Ht']]%list_lookup_insert_Some Hf'.
    + by apply (Hp _ _ _ Ht).
    + by eapply Hp.
  - intros t1 t2 pc1 pc2 f' [(<- & <- & _)|[Hne1 H1]]%list_lookup_insert_Some
      [(<- & <- & _)|[Hne2 H2]]%list_lookup_insert_Some Hf1 Hf2; simplify_eq/=; [done| | |by eapply Ho].
    + by apply (Ho t t2 _ _ f' Ht H2).
    + by apply (Ho t1 t _ _ f' H1 Ht).
  - intros k f' Hk. destruct (Hr k f' Hk) as (? & t' & req' & ? & ?). eauto 10.
  - done.
  - intros f' fr r Hf Hresp. destruct (Ha f' fr r Hf Hresp) as (? & t' & req' & ? & ?). eauto 10.
Qed.

(** A caller whose connector is gone fails its future. *)
Lemma fut_inv_send_fails m st th t req f c fr e :
  fut_inv m st th -> th !! t = Some (Found req f c) -> st !! f = Some fr ->
  fut_inv m (<[f := {| f_nodeNum := f_nodeNum fr; f_resp := f_resp fr;
                       f_err := Some e; f_done := true |}]> st)
    (<[t := Returned req f]> th).
Proof.
  intros [Hp Ho Hr Hok Ha] Ht Hfr.
  destruct (Hp _ _ _ Ht eq_refl) as (fr0 & Hfr0 & Hn & Hopen & Hun). simplify_eq.
  pose proof (Hok _ _ Hfr) as Hfok. unfold future_ok in Hfok. rewrite Hopen in Hfok.
  destruct Hfok as [Hnr Hne].
  assert (forall t' f' req', th !! t' = Some (Returned req' f') ->
    <[t := Returned req f]> th !! t' = Some (Returned req' f')) as Hret.
  { intros t' f' req' Ht'. rewrite list_lookup_insert_ne; [done|]. intros ->. congruence. }
  assert (f < length st)%nat by by eapply lookup_lt_Some.
  split.
  - intros t' pc' f' [(<- & <- & _)|[Hne' Ht']]%list_lookup_insert_Some Hf'.
    + simpl in Hf'. injection Hf' as <-. rewrite list_lookup_insert_eq by done. eauto.
    + rewrite list_lookup_insert_ne; [by eapply Hp|]. intros ->.
      apply Hne'. by apply (Ho t t' _ _ f' Ht Ht').
  - intros t1 t2 pc1 pc2 f' [(<- & <- & _)|[Hne1 H1]]%list_lookup_insert_Some
      [(<- & <- & _)|[Hne2 H2]]%list_lookup_insert_Some Hf1 Hf2; simplify_eq/=; [done| | |by eapply Ho].
    + by apply (Ho t t2 _ _ f' Ht H2).
    + by apply (Ho t1 t _ _ f' H1 Ht).
  - intros k f' Hk. destruct (Hr k f' Hk) as ((fr' & ? & ?) & t' & req' & ? & ?).
    rewrite list_lookup_insert_ne by (intros ->; by apply (Hun k)). eauto 10.
  - intros f' fr' [(<- & <- & _)|[_ Hf']]%list_lookup_insert_Some; [|by eapply Hok].
    unfold future_ok. cbn. right. eauto.
  - intros f' fr' r [(<- & <- & _)|[_ Hf']]%list_lookup_insert_Some Hresp; [simpl in Hresp; congruence|].
    destruct (Ha f' fr' r Hf' Hresp) as (? & t' & req' & ? & ?). eauto 10.
Qed.

(** A caller registers its future. *)
Lemma fut_inv_register m st th t req f :
  fut_inv m st th -> th !! t = Some (Sent req f) ->
  fut_inv (<[GetRequestId req := f]> m) st (<[t := Returned req f]> th).
Proof.
  intros [Hp Ho Hr Hok Ha] Ht.
  destruct (Hp _ _ _ Ht eq_refl) as (fr & Hfr & Hn & Hopen & Hun).
  assert (t < length th)%nat by by eapply lookup_lt_Some.
  assert (forall t' f' req', th !! t' = Some (Returned req' f') ->
    <[t := Returned req f]> th !! t' = Some (Returned req' f')) as Hret.
  { intros t' f' req' Ht'. rewrite list_lookup_insert_ne; [done|]. intros ->. congruence. }
  split.
  - intros t' pc' f' [(<- & <- & _)|[Hne' Ht']]%list_lookup_insert_Some Hf'.
    + simpl in Hf'. injection Hf' as <-. eauto.
    + destruct (Hp t' pc' f' Ht' Hf') as (fr' & Hfr' & Hn' & Hpc'). exists fr'.
      split; [done|]. split; [done|].
      assert (f <> f') by (intros <-; apply Hne'; by apply (Ho t t' _ _ f Ht Ht')).
      destruct pc'; try done; (split; [apply Hpc'|]); intros k;
        rewrite lookup_insert_Some; intros [[_ ?]|[_ ?]]; naive_solver.
  - intros t1 t2 pc1 pc2 f' [(<- & <- & _)|[Hne1 H1]]%list_lookup_insert_Some
      [(<- & <- & _)|[Hne2 H2]]%list_lookup_insert_Some Hf1 Hf2; simplify_eq/=; [done| | |by eapply Ho].
    + by apply (Ho t t2 _ _ f' Ht H2).
    + by apply (Ho t1 t _ _ f' H1 Ht).
  - intros k f' [[<- <-]|[Hk Hm]]%lookup_insert_Some.
    + split; [by eauto|]. exists t, req. by rewrite list_lookup_insert_eq.
    + destruct (Hr k f' Hm) as (? & t' & req' & ? & ?). eauto 10.
  - done.
  - intros f' fr' r Hf' Hresp. destruct (Ha f' fr' r Hf' Hresp) as (? & t' & req' & ? & ?). eauto 10.
Qed.

(** A response for a registered request arrives. *)
Lemma fut_inv_resolve m st th f fr resp :
  fut_inv m st th -> m !! resp_GetRequestId resp = Some f -> st !! f = Some fr ->
  is_CheckIn resp = false ->
  fut_inv (delete (resp_GetRequestId resp) m)
    (<[f := {| f_nodeNum := f_nodeNum fr; f_resp := Some resp;
               f_err := f_err fr; f_done := true |}]> st) th.
Proof.
  intros [Hp Ho Hr Hok Ha] Hk Hfr Hci. set (k := resp_GetRequestId resp) in *.
  destruct (Hr k f Hk) as ((fr0 & Hfr0 & Hopen) & t & req & Ht & Hid). simplify_eq.
  pose proof (Hok _ _ Hfr) as Hfok. unfold future_ok in Hfok. rewrite Hopen in Hfok.
  destruct Hfok as [Hnr Hne].
  assert (f < length st)%nat by by eapply lookup_lt_Some.
  split.
  - intros t' pc' f' Ht' Hf'. destruct (Hp t' pc' f' Ht' Hf') as (fr' & Hfr' & Hn' & Hpc').
    destruct (decide (f = f')) as [<-|Hff'].
    + assert (t = t') as <- by (by apply (Ho t t' _ _ f Ht Ht')). simplify_eq.
      rewrite list_lookup_insert_eq by done. eauto.
    + rewrite list_lookup_insert_ne by done. exists fr'. split; [done|]. split; [done|].
      destruct pc'; try done; (split; [apply Hpc'|]); intros k'; rewrite lookup_delete_Some; naive_solver.
  - done.
  - intros k' f' [Hkk' Hm]%lookup_delete_Some.
    destruct (Hr k' f' Hm) as ((fr' & ? & ?) & t' & req' & Ht' & Hid').
    rewrite list_lookup_insert_ne; [by eauto 10|]. intros <-.
    assert (t = t') as <- by (by apply (Ho t t' _ _ f Ht Ht')). congruence.
  - intros f' fr' [(<- & <- & _)|[_ Hf']]%list_lookup_insert_Some; [|by eapply Hok].
    unfold future_ok. cbn. left. eauto.
  - intros f' fr' r [(<- & <- & _)|[_ Hf']]%list_lookup_insert_Some Hresp; [|by eapply Ha].
    simpl in Hresp. injection Hresp as <-. eauto.
Qed.

(** A node's futures are cleared. *)
Lemma fut_inv_clear nodeNum g th :
  fut_inv (futures g) (futStore g) th ->
  fut_inv (futures (clear nodeNum g)) (futStore (clear nodeNum g)) th.
Proof.
  intros Hi. pose proof (wf_clear nodeNum g (fut_inv_wf _ _ Hi)) as [Hopen' _].
  destruct Hi as [Hp Ho Hr Hok Ha].
  assert (forall f fr, futStore g !! f = Some fr -> futStore (clear nodeNum g) !! f = Some fr \/
    (exists k, futures g !! k = Some f) /\ futStore (clear nodeNum g) !! f = Some (failed nodeNum fr))
    as Hst.
  { intros f fr Hfr. unfold clear, cleared. cbn [with_futStore futStore].
    rewrite cleared_store_lookup, Hfr. simpl. case_decide as Hd; [right|by left].
    split; [|done]. destruct Hd as [([k f'] & -> & Hin%elem_of_map_to_list)%list_elem_of_fmap _]. eauto. }
  assert (forall f fr', futStore (clear nodeNum g) !! f = Some fr' -> exists fr, futStore g !! f = Some fr)
    as Hst'.
  { intros f fr' Hf. apply lookup_lt_Some in Hf. rewrite length_clear_futStore in Hf.
    by apply lookup_lt_is_Some in Hf as [fr ?]; exists fr. }
  split.
  - intros t pc f Ht Hf. destruct (Hp t pc f Ht Hf) as (fr & Hfr & Hn & Hpc).
    destruct (Hst f fr Hfr) as [Hsame|[[k Hk] Hfail]].
    + exists fr. split; [done|]. split; [done|]. destruct pc; try done;
        (split; [apply Hpc|]); intros k [Hk _]%clear_futures; destruct Hpc as [_ Hpc]; by apply (Hpc k).
    + exists (failed nodeNum fr). split; [done|]. split; [done|].
      destruct pc; try done; exfalso; destruct Hpc as [_ Hpc]; by apply (Hpc k).
  - done.
  - intros k f Hk. split; [by eapply Hopen'|]. apply clear_futures in Hk as [Hk _]. by apply Hr.
  - intros f fr' Hf. destruct (Hst' f fr' Hf) as [fr Hfr].
    destruct (Hst f fr Hfr) as [Hsame|[[k Hk] Hfail]]; [naive_solver|].
    assert (fr' = failed nodeNum fr) as -> by congruence.
    destruct (Hr k f Hk) as ((fr0 & Hfr0 & Hd) & _). simplify_eq.
    pose proof (Hok f fr Hfr) as Hfok. unfold future_ok in *. rewrite Hd in Hfok. simpl.
    right. naive_solver.
  - intros f fr' r Hf Hresp. destruct (Hst' f fr' Hf) as [fr Hfr].
    destruct (Hst f fr Hfr) as [Hsame|[[k Hk] Hfail]].
    + simplify_eq. by eapply Ha.
    + assert (fr' = failed nodeNum fr) as -> by congruence. by apply (Ha f fr r).
Qed.
End invariant_lemmas.

Section connector_lemmas.
Context `{RoutingPb}.
Implicit Types (m : gmap Z nat) (st : list Connector).

Lemma alter_lookup_Some {A} (f : A -> A) (l : list A) c i y :
  alter f c l !! i = Some y <->
  (i = c /\ exists x, l !! c = Some x /\ y = f x) \/ (i <> c /\ l !! i = Some y).
Proof.
  destruct (decide (i = c)) as [->|Hne].
  - rewrite list_lookup_alter_eq, fmap_Some. naive_solver.
  - rewrite list_lookup_alter_ne by done. naive_solver.
Qed.

(** A change of one connector that keeps its node and eviction flag. *)
Lemma conn_inv_update m st cn f c :
  conn_inv m st cn ->
  (forall x, c_nodeNum (f x) = c_nodeNum x /\ evicted (f x) = evicted x /\
    (cancelled x = true -> cancelled (f x) = true)) ->
  (forall x, st !! c = Some x -> sender (f x) = exited -> cancelled (f x) = true) ->
  conn_inv m (alter f c st) cn.
Proof.
  intros [Hc Hx Hn] Hf Hex.
  assert (forall i x, st !! i = Some x -> exists y, alter f c st !! i = Some y /\
    c_nodeNum y = c_nodeNum x /\ evicted y = evicted x /\ (cancelled x = true -> cancelled y = true))
    as Hlook.
  { intros i x Hi. destruct (decide (i = c)) as [->|].
    - exists (f x). split; [apply alter_lookup_Some; left; eauto|apply Hf].
    - exists x. split; [apply alter_lookup_Some; right; eauto|done]. }
  split.
  - intros n i Hi. destruct (Hc n i Hi) as (x & Hx' & <- & Hev).
    destruct (Hlook i x Hx') as (y & ? & ? & ? & _). exists y. naive_solver congruence.
  - intros i y [[-> (x & Hi & ->)]|[Hne Hi]]%alter_lookup_Some; [|by eapply Hx].
    destruct (Hf x) as (_ & Hev & Hcan). rewrite Hev. intros [He|He]; [|by eapply Hex].
    apply Hcan. eapply Hx; eauto.
  - intros n i previous Hcn. destruct (Hn n i previous Hcn) as (-> & Hnew & (x & Hi & Hxn & Hxe) & Hp).
    split_and!; [done|done| |].
    + destruct (Hlook i x Hi) as (y & ? & ? & ? & _). exists y. naive_solver congruence.
    + intros p Hmp. destruct (Hp p Hmp) as (z & Hz & Hzc).
      destruct (Hlook p z Hz) as (y & ? & _ & _ & Hy). eauto.
Qed.

Lemma conn_inv_fresh m st cn : conn_inv m st cn -> forall n, m !! n <> Some (length st).
Proof. intros Hi n Hn. destruct (ci_current _ _ _ Hi n _ Hn) as (x & Hx%lookup_lt_Some & _). lia. Qed.

(** [connect] has locked the mutex and cancelled the previous connector. *)
Lemma conn_inv_begin m st nodeNum st' :
  conn_inv m st None ->
  (let new := {| c_nodeNum := nodeNum; cancelled := false; evicted := false; sender := notStarted |} in
   st' = match m !! nodeNum with
         | Some p => alter (fun c => {| c_nodeNum := c_nodeNum c; cancelled := true;
                                        evicted := evicted c; sender := sender c |}) p (st ++ [new])
         | None => st ++ [new]
         end) ->
  conn_inv m st' (Some (nodeNum, length st, m !! nodeNum)).
Proof.
  intros Hi ->. set (new := {| c_nodeNum := nodeNum |}).
  assert (conn_inv m (st ++ [new]) None) as Hi'.
  { destruct Hi as [Hc Hx _]. split; [| |done].
    - intros n c Hn. destruct (Hc n c Hn) as (x & Hxc & ?). exists x. split; [|done].
      apply snoc_lookup. by left.
    - intros c x [Hcx|[_ ->]]%snoc_lookup; [by eapply Hx|]. by intros [?|?]. }
  pose proof (conn_inv_fresh _ _ _ Hi nodeNum) as Hfresh.
  assert ((st ++ [new]) !! length st = Some new) as Hnew by (apply snoc_lookup; by right).
  destruct (m !! nodeNum) as [p|] eqn:Hp.
  - match goal with |- conn_inv _ ?l _ =>
      assert (conn_inv m l None) as [Hc Hx _] by (apply conn_inv_update; [done|by intros x|done])
    end.
    split; [exact Hc|exact Hx|]. intros n c previous [= <- <- <-]. split_and!.
    + done.
    + intros n' Hn'. by apply (conn_inv_fresh _ _ _ Hi n').
    + exists new. split; [|done]. apply alter_lookup_Some. right. split; [congruence|done].
    + intros p' [= <-]. destruct (ci_current _ _ _ Hi' _ _ Hp) as (x & Hxp & _).
      eexists. split; [apply alter_lookup_Some; left; eauto|done].
  - destruct Hi' as [Hc Hx _]. split; [exact Hc|exact Hx|].
    intros n c previous [= <- <- <-]. split_and!; [done| |by exists new|done].
    intros n' Hn'. by apply (conn_inv_fresh _ _ _ Hi n').
Qed.

(** [connect] marks the previous connector evicted and installs the new one. *)
Lemma conn_inv_end m st n c previous :
  conn_inv m st (Some (n, c, previous)) ->
  conn_inv (<[n := c]> m)
    (match previous with
     | Some p => alter (fun c => {| c_nodeNum := c_nodeNum c; cancelled := cancelled c;
                                    evicted := true; sender := sender c |}) p st
     | None => st
     end) None.
Proof.
  intros [Hc Hx Hn]. destruct (Hn n c previous eq_refl) as (-> & Hnew & (x & Hxc & Hxn & Hxe) & Hp).
  destruct (m !! n) as [p|] eqn:Hmn.
  - destruct (Hc n p Hmn) as (y & Hyp & Hyn & Hye). split; [| |done].
    + intros n' c' [[<- <-]|[Hne Hn']]%lookup_insert_Some.
      * exists x. split; [|done]. apply alter_lookup_Some. right. split; [congruence|done].
      * destruct (Hc n' c' Hn') as (z & Hz & Hzn & Hze). exists z. split; [|done].
        apply alter_lookup_Some. right. split; [|done]. intros ->. congruence.
    + intros c' z [[-> (w & Hw & ->)]|[Hne Hz]]%alter_lookup_Some; [|by eapply Hx].
      intros _. simpl. destruct (Hp p eq_refl) as (w' & Hw' & Hcan). congruence.
  - split; [|exact Hx|done]. intros n' c' [[<- <-]|[Hne Hn']]%lookup_insert_Some; eauto.
Qed.

Lemma conn_inv_delete m st n : conn_inv m st None -> conn_inv (delete n m) st None.
Proof.
  intros [Hc Hx _]. split; [|done|done].
  intros n' c [_ Hn']%lookup_delete_Some. by apply Hc.
Qed.
End connector_lemmas.

Section preservation.
Context `{RoutingPb}.
Implicit Types (s : Sys).

(** An action that is enabled returns, in a state that satisfies the invariant. *)
Definition safe (o : option (outcome Sys)) : Prop :=
  match o with
  | None => True
  | Some (Return s') => inv s'
  | Some (Panic _) => False
  end.
Lemma safe_locked s o : (connecting s = None -> safe (Some o)) -> safe (locked s o).
Proof. unfold locked. destruct (connecting s); [done|]. auto. Qed.

(** Changes of one connector that keep the invariant: the callers and the
    futures are not touched. *)
Lemma inv_update_conn s f c :
  inv s ->
  (forall x, c_nodeNum (f x) = c_nodeNum x /\ evicted (f x) = evicted x /\
    (cancelled x = true -> cancelled (f x) = true)) ->
  (forall x, connStore (grp s) !! c = Some x -> sender (f x) = exited -> cancelled (f x) = true) ->
  inv (with_grp (update_conn f c (grp s)) s).
Proof.
  intros [Hf Hc Hfound] Hpres Hex. split; cbn.
  - done.
  - by apply conn_inv_update.
  - intros t req fu c' Ht. destruct (Hfound t req fu c' Ht) as [x Hx].
    rewrite list_lookup_alter. case_decide; subst; rewrite ?Hx; eauto.
Qed.

Lemma safe_number s req : inv s -> safe (exec (ANumber req) s).
Proof.
  intros [Hf Hc Hfound]. cbn. split; cbn.
  - by apply fut_inv_number.
  - done.
  - intros t req' f c [Ht|[_ ?]]%snoc_lookup; [by eapply Hfound|done].
Qed.

Lemma safe_lookup s t : inv s -> safe (exec (ALookup t) s).
Proof.
  intros [Hf Hc Hfound]. cbn [exec].
  destruct (callers s !! t) as [[req|? ? ?|? ?|? ?]|] eqn:Ht; try done.
  apply safe_locked. intros _. unfold routeRequest_lookup, newFutureResponse.
  destruct (connectors (grp s) !! GetDestNodeNumber req) as [c|] eqn:Hconn.
  - cbn. split; cbn.
    + by apply (fut_inv_lookup _ _ _ t req).
    + done.
    + intros t' req' f' c' [(_ & [= <- <- <-] & _)|[_ Ht']]%list_lookup_insert_Some;
        [|by eapply Hfound].
      destruct (ci_current _ _ _ Hc _ _ Hconn) as (x & ? & _). eauto.
  - unfold fail, complete. cbn [with_futStore futStore].
    rewrite (proj2 (snoc_lookup (futStore (grp s)) _ (length (futStore (grp s))) _))
      by (right; split; reflexivity).
    cbn. split; cbn.
    + rewrite insert_app_r_alt, Nat.sub_diag by lia. cbn.
      apply (fut_inv_lookup _ _ _ t req); try done. right. eauto.
    + done.
    + intros t' req' f' c' [(_ & ? & _)|[_ Ht']]%list_lookup_insert_Some; [done|by eapply Hfound].
Qed.

Lemma safe_send s t branch : inv s -> safe (exec (ASend t branch) s).
Proof.
  intros Hinv. pose proof Hinv as [Hf Hc Hfound]. cbn [exec].
  destruct (callers s !! t) as [[?|req f c|? ?|? ?]|] eqn:Ht; try done.
  unfold send. destruct (connStore (grp s) !! c) as [conn|] eqn:Hconn; [|done].
  cbn [mbind option_bind]. destruct branch.
  - destruct (sender conn) eqn:Hs; try done. cbn.
    destruct (inv_update_conn s (fun x => {| c_nodeNum := c_nodeNum x; cancelled := cancelled x;
      evicted := evicted x; sender := sending req |}) c Hinv) as [_ Hc' Hfound']; [done|done|].
    cbn in Hc', Hfound'. split; cbn.
    + by eapply fut_inv_sent.
    + done.
    + intros t' req' f' c' [(_ & ? & _)|[_ Ht']]%list_lookup_insert_Some; [done|by eapply Hfound'].
  - destruct (cancelled conn); [|done]. cbn.
    destruct (fi_private _ _ _ Hf _ _ _ Ht eq_refl) as (fr & Hfr & _ & Hopen & _).
    unfold fail, complete. rewrite Hfr, Hopen. cbn. split; cbn.
    + by eapply fut_inv_send_fails.
    + done.
    + intros t' req' f' c' [(_ & ? & _)|[_ Ht']]%list_lookup_insert_Some; [done|by eapply Hfound].
Qed.

Lemma safe_register s t : inv s -> safe (exec (ARegister t) s).
Proof.
  intros [Hf Hc Hfound]. cbn [exec].
  destruct (callers s !! t) as [[?|? ? ?|req f|? ?]|] eqn:Ht; try done.
  apply safe_locked. intros _. cbn. split; cbn.
  - by apply fut_inv_register.
  - done.
  - intros t' req' f' c' [(_ & ? & _)|[_ Ht']]%list_lookup_insert_Some; [done|by eapply Hfound].
Qed.

Lemma safe_connect s nodeNum : inv s -> safe (exec (AConnect nodeNum) s).
Proof.
  intros [Hf Hc Hfound]. apply safe_locked. intros Hlock. rewrite Hlock in Hc.
  unfold connect_begin, newConnector.
  set (g1 := with_connStore _ (grp s)). cbn [mbind outcome_bind].
  pose proof (conn_inv_begin _ _ nodeNum _ Hc eq_refl) as Hc'. cbn zeta in Hc'.
  assert (forall t req f c, callers s !! t = Some (Found req f c) ->
    is_Some (connStore g1 !! c)) as Hfound1.
  { intros t req f c Ht. destruct (Hfound t req f c Ht) as [x Hx]. exists x.
    apply snoc_lookup. by left. }
  change (connectors g1) with (connectors (grp s)).
  destruct (connectors (grp s) !! nodeNum) as [p|] eqn:Hp; [|by cbn; split].
  destruct (ci_current _ _ _ Hc _ _ Hp) as (x & Hx & Hxn & _).
  assert (connStore g1 !! p = Some x) as -> by (apply snoc_lookup; by left).
  rewrite (clearFutures_clear _ g1) by (by eapply fut_inv_wf). cbn. split; cbn.
  - by apply (fut_inv_clear _ g1).
  - done.
  - intros t req f c Ht. destruct (Hfound1 t req f c Ht) as [y Hy].
    rewrite list_lookup_alter. cbn in Hy. case_decide; subst; rewrite ?Hy; eauto.
Qed.

Lemma safe_connected s : inv s -> safe (exec AConnected s).
Proof.
  intros [Hf Hc Hfound]. cbn [exec].
  destruct (connecting s) as [[[n c] previous]|] eqn:Hcn; [|done]. cbn.
  pose proof (conn_inv_end _ _ _ _ _ Hc) as Hc'. unfold connect_end. split; cbn.
  - by destruct previous.
  - by destruct previous.
  - intros t req f c' Ht. destruct (Hfound t req f c' Ht) as [x Hx].
    destruct previous; cbn; [|by eauto].
    rewrite list_lookup_alter. case_decide; subst; rewrite ?Hx; eauto.
Qed.

Lemma safe_disconnect s c : inv s -> safe (exec (ADisconnect c) s).
Proof.
  intros Hinv. pose proof Hinv as [Hf Hc Hfound]. cbn [exec].
  destruct (connStore (grp s) !! c) as [conn|] eqn:Hconn; [|done]. cbn [mbind option_bind].
  apply safe_locked. intros Hlock. unfold disconnect. rewrite Hconn. case_decide.
  - cbn. by destruct s.
  - rewrite clearFutures_clear by (by eapply fut_inv_wf). cbn. rewrite Hlock in Hc. split; cbn.
    + by apply (fut_inv_clear (c_nodeNum conn)
        (with_connectors (delete (c_nodeNum conn) (connectors (grp s))) (grp s))).
    + rewrite Hlock. by apply conn_inv_delete.
    + done.
Qed.

Lemma safe_response s resp : inv s -> safe (exec (AResponse resp) s).
Proof.
  intros Hinv. pose proof Hinv as [Hf Hc Hfound]. cbn [exec].
  apply safe_locked. intros _. unfold processResponse, isCheckInMsg.
  destruct (is_CheckIn resp) eqn:Hci; [by destruct s|].
  destruct (futures (grp s) !! resp_GetRequestId resp) as [f|] eqn:Hm; [|by destruct s].
  destruct (fi_registered _ _ _ Hf _ _ Hm) as ((fr & Hfr & Hopen) & _).
  unfold resolve, complete. cbn [with_futures futStore]. rewrite Hfr, Hopen. cbn. split; cbn.
  - by apply fut_inv_resolve.
  - done.
  - done.
Qed.

Lemma safe_exec a s : inv s -> safe (exec a s).
Proof.
  intros Hinv. destruct a.
  - by apply safe_number.
  - by apply safe_lookup.
  - by apply safe_send.
  - by apply safe_register.
  - by apply safe_connect.
  - by apply safe_connected.
  - by apply safe_disconnect.
  - by apply safe_response.
  - cbn [exec]. destruct (_ !! c); [|done]. by apply inv_update_conn.
  - cbn [exec]. destruct (_ !! c); [|done]. cbn [mbind option_bind].
    destruct (sender _); try done. by apply inv_update_conn.
  - cbn [exec]. destruct (_ !! c) as [conn|] eqn:Hconn; [|done]. cbn [mbind option_bind].
    destruct (sender conn); try done. destruct ok; [by apply inv_update_conn|].
    cbn [safe]. change (inv (with_grp (set_sender exited c
      (grp (with_grp (cancel c (grp s)) s))) (with_grp (cancel c (grp s)) s))).
    apply inv_update_conn; [by apply inv_update_conn|done|].
    intros x [[_ (y & _ & ->)]|[? _]]%alter_lookup_Some; [done|done].
  - cbn [exec]. destruct (_ !! c) as [conn|] eqn:Hconn; [|done]. cbn [mbind option_bind].
    destruct (sender conn); try done. destruct (cancelled conn) eqn:Hcan; [|done].
    apply inv_update_conn; [done|done|]. intros x Hx _. cbn. congruence.
Qed.

Lemma inv_init id : inv (init id).
Proof.
  split; [split|split|]; cbn; try done; intros *; by rewrite ?lookup_nil, ?lookup_empty.
Qed.

(** The invariant holds in every reachable state. *)
Lemma inv_reachable id s : reachable id s -> inv s.
Proof.
  unfold reachable. revert s. apply rtc_ind_r; [apply inv_init|].
  intros s1 s2 _ [a Ha] Hinv. pose proof (safe_exec a s1 Hinv) as Hs. by rewrite Ha in Hs.
Qed.
Lemma run_reachable id acts s s' : reachable id s -> run acts s = Some s' -> reachable id s'.
Proof.
  revert s. induction acts as [|a acts IH]; intros s Hs; simpl; [by intros [= <-]|].
  destruct (exec a s) as [[s1|]|] eqn:Ha; try done. apply IH.
  eapply rtc_r; [exact Hs|]. by exists a.
Qed.
End preservation.
#[export] Hint Resolve inv_reachable : hub.
