(* ===== verification/RoutingProps.v ===== *)
(** * Correctness of the router: connect/hub/routing.go

    What holds in every reachable state of a connectivity group, whatever the
    interleaving and the responses the peers send, and the two interleavings
    in which the code does not do what its comments say. *)
From S2P Require Import Prelude GoStrings Grpc Routing RoutingSteps.
Open Scope Z_scope.

(** Messages for the witnesses: a request is its destination and id, a
    response is an id and whether it is a check-in. *)
#[local] Instance toy_pb : RoutingPb := {
  ServingRequest := Z * Z;
  GetDestNodeNumber := fst;
  GetRequestId := snd;
  set_RequestId := fun id req => (fst req, id);
  GetRequestId_set := fun id req => eq_refl;
  GetDestNodeNumber_set := fun id req => eq_refl;
  ServingResponse := bool * Z;
  resp_GetRequestId := snd;
  is_CheckIn := fst
}.

(** Node 7 connects and its send loop waits; a caller sends it request 1 and
    registers. *)
Definition toy_resp : ServingResponse := (false, 1).
Definition toy_req : ServingRequest := (7, 1).
Definition toy_schedule : list action :=
  [AConnect 7; AConnected; ARun 0; ANumber (7, 0); ALookup 0; ASend 0 handOver;
   ASendReturns 0 true; ARegister 0].
Definition toy_sys : Sys :=
  match run toy_schedule (init "g") with Some s => s | None => init "g" end.

Section aux.
Context `{RoutingPb}.
Implicit Types (s : Sys).

(** ** Request ids *)

(** The counter counts the callers, and caller [t] was given number [t + 1]. *)
Definition numbered (s : Sys) : Prop :=
  msgCounter (grp s) = wrap64 (Z.of_nat (length (callers s))) /\
  forall t pc, callers s !! t = Some pc ->
    GetRequestId (pc_req pc) = wrap64 (Z.of_nat t + 1).

Lemma wrap64_succ n : wrap64 (wrap64 n + 1) = wrap64 (n + 1).
Proof.
  unfold wrap64. f_equal.
  replace ((n + 2 ^ 63) mod 2 ^ 64 - 2 ^ 63 + 1 + 2 ^ 63)
    with ((n + 2 ^ 63) mod 2 ^ 64 + 1) by lia.
  rewrite Zplus_mod_idemp_l. f_equal. lia.
Qed.
Lemma wrap64_inj a b : wrap64 a = wrap64 b -> Z.abs (a - b) < 2 ^ 64 -> a = b.
Proof.
  unfold wrap64. intros Heq Hlt.
  assert ((a + 2 ^ 63) mod 2 ^ 64 = (b + 2 ^ 63) mod 2 ^ 64) as Hm by lia.
  assert ((a - b) mod 2 ^ 64 = 0) as Hz.
  { replace (a - b) with ((a + 2 ^ 63) - (b + 2 ^ 63)) by lia.
    rewrite Zminus_mod, Hm, Z.sub_diag. done. }
  apply Z.mod_divide in Hz as [q Hq]; [|lia]. assert (q = 0) by nia. lia.
Qed.

Lemma numbered_insert s s' t pc pc' :
  numbered s -> callers s !! t = Some pc ->
  msgCounter (grp s') = msgCounter (grp s) -> callers s' = <[t := pc']> (callers s) ->
  pc_req pc' = pc_req pc -> numbered s'.
Proof.
  intros [Hm Hr] Ht Hc Hcs Hreq. unfold numbered. rewrite Hc, Hcs, length_insert.
  split; [done|]. intros t' x [(<- & <- & _)|[_ Hx]]%list_lookup_insert_Some;
    [rewrite Hreq|]; eauto.
Qed.
Lemma numbered_same s s' :
  numbered s -> msgCounter (grp s') = msgCounter (grp s) -> callers s' = callers s -> numbered s'.
Proof. intros [Hm Hr] Hc Hcs. unfold numbered. rewrite Hc, Hcs. done. Qed.

(** Completing a future touches only the futures. *)
Lemma complete_frame f upd g g' :
  complete f upd g = Return g' ->
  msgCounter g' = msgCounter g /\ connectors g' = connectors g /\ connStore g' = connStore g.
Proof.
  unfold complete. destruct (futStore g !! f) as [fr|]; [|done].
  destruct (f_done fr); [done|]. by intros [= <-].
Qed.
Lemma clearFutures_counter n g g' :
  clearFutures n g = Return g' -> msgCounter g' = msgCounter g /\ connStore g' = connStore g.
Proof.
  unfold clearFutures. generalize (map_to_list (futures g)) as l. intros l. revert g.
  induction l as [|[k f] l IH]; intros g; cbn [clearFutures_loop]; [by intros [= <-]|].
  destruct (clearFuture n (k, f) g) as [g1|] eqn:H1; cbn [mbind outcome_bind]; [|done].
  intros [H2 H3]%IH. rewrite H2, H3. unfold clearFuture in H1.
  destruct (futStore g !! f) as [fr|]; [|done].
  destruct (f_nodeNum fr =? n); [|by injection H1 as <-].
  by apply complete_frame in H1 as (-> & _ & ->).
Qed.

Lemma clearFutures_connectors n g g' : clearFutures n g = Return g' -> connectors g' = connectors g.
Proof.
  unfold clearFutures. generalize (map_to_list (futures g)) as l. intros l. revert g.
  induction l as [|[k f] l IH]; intros g; cbn [clearFutures_loop]; [by intros [= <-]|].
  destruct (clearFuture n (k, f) g) as [g1|] eqn:H1; cbn [mbind outcome_bind]; [|done].
  intros ->%IH. unfold clearFuture in H1. destruct (futStore g !! f) as [fr|]; [|done].
  destruct (f_nodeNum fr =? n); [|by injection H1 as <-].
  by apply complete_frame in H1 as (_ & -> & _).
Qed.

(** How far a caller has come. *)
Definition pc_rank (pc : routePC) : nat :=
  match pc with Numbered _ => 0 | Found _ _ _ => 1 | Sent _ _ => 2 | Returned _ _ => 3 end.

(** What an action does to the counter and to the callers. *)
Lemma exec_callers a s s' :
  exec a s = Some (Return s') ->
  (exists req, a = ANumber req /\ msgCounter (grp s') = wrap64 (msgCounter (grp s) + 1) /\
     callers s' = callers s ++ [Numbered (set_RequestId (msgCounter (grp s')) req)]) \/
  (msgCounter (grp s') = msgCounter (grp s) /\ callers s' = callers s) \/
  (msgCounter (grp s') = msgCounter (grp s) /\
   exists t pc pc', callers s !! t = Some pc /\ callers s' = <[t := pc']> (callers s) /\
     pc_req pc' = pc_req pc /\ (pc_rank pc < pc_rank pc')%nat).
Proof.
  destruct a; cbn [exec]; unfold locked.
  - intros [= <-]. left. by exists req.
  - destruct (callers s !! t) as [[req|? ? ?|? ?|? ?]|] eqn:Ht; try done.
    destruct (connecting s); [done|].
    intros [= Hx]. right; right. revert Hx. unfold routeRequest_lookup, newFutureResponse.
    destruct (connectors (grp s) !! _).
    + cbn. intros [= <-]. cbn. split; [done|]. eexists _, _, _. split_and!; [done|done|done|cbn; lia].
    + destruct (fail _ _ _) as [g1|] eqn:Hf; cbn; [|done]. intros [= <-]. cbn.
      apply complete_frame in Hf as [-> _]. split; [done|]. eexists _, _, _. split_and!; [done|done|done|cbn; lia].
  - destruct (callers s !! t) as [[?|req f c|? ?|? ?]|] eqn:Ht; try done.
    unfold send. destruct (_ !! c); [|done]. cbn. intros Hx. right; right. revert Hx.
    destruct branch.
    + destruct (sender _); try done. cbn. intros [= <-]. cbn. split; [done|]. eexists _, _, _. split_and!; [done|done|done|cbn; lia].
    + destruct (cancelled _); [|done]. cbn. destruct (fail _ _ _) as [g1|] eqn:Hf; cbn; [|done].
      intros [= <-]. cbn. apply complete_frame in Hf as [-> _]. split; [done|]. eexists _, _, _. split_and!; [done|done|done|cbn; lia].
  - destruct (callers s !! t) as [[?|? ? ?|req f|? ?]|] eqn:Ht; try done.
    destruct (connecting s); [done|]. intros [= <-]. right; right. cbn. split; [done|].
    eexists _, _, _. split_and!; [done|done|done|cbn; lia].
  - destruct (connecting s); [done|]. intros [= Hx]. right; left. revert Hx.
    unfold connect_begin, newConnector. cbn [mbind outcome_bind].
    repeat case_head; cbn; try done; [|by intros [= <-]].
    destruct (clearFutures _ _) as [g1|] eqn:Hc; cbn; [|done]. intros [= <-]. cbn.
    by apply clearFutures_counter in Hc as [? _].
  - destruct (connecting s) as [[[? ?] [?|]]|]; [| |done]; intros [= <-]; by right; left.
  - destruct (_ !! c); [|done]. cbn. destruct (connecting s); [done|]. intros [= Hx].
    right; left. revert Hx. unfold disconnect. destruct (_ !! c); [|done].
    case_decide; [by intros [= <-]|].
    destruct (clearFutures _ _) as [g1|] eqn:Hc; cbn; [|done]. intros [= <-]. cbn.
    by apply clearFutures_counter in Hc as [? _].
  - destruct (connecting s); [done|]. intros [= Hx]. right; left. revert Hx.
    unfold processResponse. destruct (isCheckInMsg resp); [by intros [= <-]|].
    destruct (_ !! _); [|by intros [= <-]].
    destruct (resolve _ _ _) as [g1|] eqn:Hf; cbn; [|done]. intros [= <-]. cbn.
    by apply complete_frame in Hf as [-> _].
  - destruct (_ !! c); [|done]. intros [= <-]. by right; left.
  - destruct (_ !! c); [|done]. cbn. destruct (sender _); try done. intros [= <-]. by right; left.
  - destruct (_ !! c); [|done]. cbn. destruct (sender _); try done. destruct ok; intros [= <-]; by right; left.
  - destruct (_ !! c); [|done]. cbn. destruct (sender _); try done. destruct (cancelled _); [|done].
    intros [= <-]. by right; left.
Qed.

(** Connectors are never removed or renumbered. *)
Definition keeps_conns (l l' : list Connector) : Prop :=
  forall c conn, l !! c = Some conn -> exists conn', l' !! c = Some conn' /\ c_nodeNum conn' = c_nodeNum conn.
Lemma keeps_conns_refl l : keeps_conns l l.
Proof. intros c conn. eauto. Qed.
Lemma keeps_conns_alter f c l l' :
  (forall conn, c_nodeNum (f conn) = c_nodeNum conn) -> keeps_conns l l' -> keeps_conns l (alter f c l').
Proof.
  intros Hf Hl i conn Hi. destruct (Hl _ _ Hi) as (conn' & Hi' & Hn).
  rewrite list_lookup_alter. case_decide; subst; [|eauto]. rewrite Hi'. cbn. rewrite <-Hn. eauto.
Qed.
Lemma exec_conns a s s' :
  exec a s = Some (Return s') -> keeps_conns (connStore (grp s)) (connStore (grp s')).
Proof.
  destruct a; cbn [exec]; unfold locked.
  - intros [= <-]. apply keeps_conns_refl.
  - destruct (callers s !! t) as [[req|? ? ?|? ?|? ?]|]; try done. destruct (connecting s); [done|].
    intros [= Hx]. revert Hx. unfold routeRequest_lookup, newFutureResponse.
    destruct (connectors (grp s) !! _); cbn; [intros [= <-]; apply keeps_conns_refl|].
    destruct (fail _ _ _) as [g1|] eqn:Hf; cbn; [|done]. intros [= <-]. cbn.
    apply complete_frame in Hf as (_ & _ & ->). apply keeps_conns_refl.
  - destruct (callers s !! t) as [[?|req f c|? ?|? ?]|]; try done.
    unfold send. destruct (_ !! c); [|done]. cbn. destruct branch.
    + destruct (sender _); try done. cbn. intros [= <-]. cbn. by apply keeps_conns_alter, keeps_conns_refl.
    + destruct (cancelled _); [|done]. cbn. destruct (fail _ _ _) as [g1|] eqn:Hf; cbn; [|done].
      intros [= <-]. cbn. apply complete_frame in Hf as (_ & _ & ->). apply keeps_conns_refl.
  - destruct (callers s !! t) as [[?|? ? ?|req f|? ?]|]; try done.
    destruct (connecting s); [done|]. intros [= <-]. apply keeps_conns_refl.
  - destruct (connecting s); [done|]. intros [= Hx]. revert Hx.
    unfold connect_begin, newConnector. cbn [mbind outcome_bind]. set (g1 := with_connStore _ _).
    assert (keeps_conns (connStore (grp s)) (connStore g1)) as Hk.
    { intros c conn Hc. exists conn. split; [|done]. apply snoc_lookup. by left. }
    repeat case_head; cbn; try done; [|by intros [= <-]].
    destruct (clearFutures _ _) as [g2|] eqn:Hc; cbn; [|done]. intros [= <-]. cbn.
    apply clearFutures_counter in Hc as [_ Hc]. rewrite Hc. by apply keeps_conns_alter.
  - destruct (connecting s) as [[[? ?] [?|]]|]; [| |done]; intros [= <-]; cbn;
      [by apply keeps_conns_alter, keeps_conns_refl|apply keeps_conns_refl].
  - destruct (_ !! c); [|done]. cbn. destruct (connecting s); [done|]. intros [= Hx].
    revert Hx. unfold disconnect. destruct (_ !! c); [|done].
    case_decide; [intros [= <-]; apply keeps_conns_refl|].
    destruct (clearFutures _ _) as [g1|] eqn:Hc; cbn; [|done]. intros [= <-]. cbn.
    apply clearFutures_counter in Hc as [_ ->]. apply keeps_conns_refl.
  - destruct (connecting s); [done|]. intros [= Hx]. revert Hx.
    unfold processResponse. destruct (isCheckInMsg resp); [intros [= <-]; apply keeps_conns_refl|].
    destruct (_ !! _); [|intros [= <-]; apply keeps_conns_refl].
    destruct (resolve _ _ _) as [g1|] eqn:Hf; cbn; [|done]. intros [= <-]. cbn.
    apply complete_frame in Hf as (_ & _ & ->). apply keeps_conns_refl.
  - destruct (_ !! c); [|done]. cbn. intros [= <-]. by apply keeps_conns_alter, keeps_conns_refl.
  - destruct (_ !! c) as [conn|]; [|done]. cbn. destruct (sender conn); try done. intros [= <-].
    by apply keeps_conns_alter, keeps_conns_refl.
  - destruct (_ !! c) as [conn|]; [|done]. cbn. destruct (sender conn); try done. intros [= <-].
    destruct ok; [by apply keeps_conns_alter, keeps_conns_refl|].
    by apply keeps_conns_alter, keeps_conns_alter, keeps_conns_refl.
  - destruct (_ !! c) as [conn|]; [|done]. cbn. destruct (sender conn); try done.
    destruct (cancelled conn); [|done]. intros [= <-]. by apply keeps_conns_alter, keeps_conns_refl.
Qed.
(** A connect makes a connector for its node. *)
Lemma connect_made n s s' :
  exec (AConnect n) s = Some (Return s') ->
  exists conn, connStore (grp s') !! length (connStore (grp s)) = Some conn /\ c_nodeNum conn = n.
Proof.
  cbn [exec]. unfold locked. destruct (connecting s); [done|]. intros [= Hx]. revert Hx.
  unfold connect_begin, newConnector. cbn [mbind outcome_bind]. set (g1 := with_connStore _ _).
  assert (exists conn, connStore g1 !! length (connStore (grp s)) = Some conn /\ c_nodeNum conn = n)
    as (conn & Hc & Hn) by (eexists; split; [apply snoc_lookup; by right|done]).
  repeat case_head; cbn; try done; [|intros [= <-]; by exists conn].
  destruct (clearFutures _ _) as [g2|] eqn:Hclear; cbn; [|done]. intros [= <-]. cbn.
  apply clearFutures_counter in Hclear as [_ Hclear]. rewrite Hclear.
  destruct (keeps_conns_alter (fun c => {| c_nodeNum := c_nodeNum c; cancelled := true;
    evicted := evicted c; sender := sender c |}) n0 _ _ (fun _ => eq_refl)
    (keeps_conns_refl (connStore g1)) _ _ Hc) as (conn' & ? & ?).
  exists conn'. split; [done|congruence].
Qed.

(** A connector that is its node's, or is about to be. *)
Definition holds (s : Sys) (n : Z) (c : nat) : Prop :=
  connectors (grp s) !! n = Some c \/ exists p, connecting s = Some (n, c, p).
Definition not_connect (a : action) : Prop :=
  match a with AConnect _ => False | _ => True end.
Lemma holds_same (s s' : Sys) n c :
  connectors (grp s') = connectors (grp s) -> connecting s' = connecting s -> holds s' n c -> holds s n c.
Proof. unfold holds. by intros -> ->. Qed.
(** Without [connect] no connector comes into the map. *)
Lemma exec_holds a s s' n c :
  not_connect a -> exec a s = Some (Return s') -> holds s' n c -> holds s n c.
Proof.
  intros Ha He. destruct a; cbn [exec] in He; unfold locked in He; try done.
  - injection He as <-. by apply holds_same.
  - destruct (callers s !! t) as [[req|? ? ?|? ?|? ?]|]; try done. destruct (connecting s) eqn:Hl; [done|].
    injection He as He. revert He. unfold routeRequest_lookup, newFutureResponse.
    destruct (connectors (grp s) !! _); cbn; [intros [= <-]; by apply holds_same|].
    destruct (fail _ _ _) as [g1|] eqn:Hf; cbn; [|done]. intros [= <-]. cbn.
    apply complete_frame in Hf as (_ & Hc & _). by apply holds_same.
  - destruct (callers s !! t) as [[?|req f k|? ?|? ?]|]; try done.
    unfold send in He. destruct (_ !! k); [|done]. cbn in He. destruct branch.
    + destruct (sender _); try done. injection He as <-. by apply holds_same.
    + destruct (cancelled _); [|done]. cbn in He. destruct (fail _ _ _) as [g1|] eqn:Hf; cbn in He; [|done].
      injection He as <-. apply complete_frame in Hf as (_ & Hc & _). by apply holds_same.
  - destruct (callers s !! t) as [[?|? ? ?|req f|? ?]|]; try done.
    destruct (connecting s) eqn:Hl; [done|]. injection He as <-. by apply holds_same.
  - destruct (connecting s) as [[[n' c'] p]|] eqn:Hl; [|done]. injection He as <-.
    intros [Hm|[? [=]]]. cbn in Hm. apply lookup_insert_Some in Hm as [[<- <-]|[_ Hm]].
    + right. by exists p.
    + left. by destruct p.
  - destruct (connStore (grp s) !! c0) as [conn|] eqn:Hc; [|done]. cbn in He.
    destruct (connecting s) eqn:Hl; [done|]. injection He as He. revert He. unfold disconnect. rewrite Hc.
    case_decide; cbn; [intros [= <-]; by apply holds_same|].
    destruct (clearFutures _ _) as [g1|] eqn:Hcl; cbn; [|done]. intros [= <-].
    apply clearFutures_connectors in Hcl. intros [Hm|[p Hp]]; cbn in *; [|congruence].
    rewrite Hcl in Hm. cbn in Hm. apply lookup_delete_Some in Hm as [_ Hm]. by left.
  - destruct (connecting s) eqn:Hl; [done|]. injection He as He. revert He. unfold processResponse.
    case_match; cbn; [intros [= <-]; by apply holds_same|].
    case_match; cbn; [|intros [= <-]; by apply holds_same].
    unfold resolve. destruct (complete _ _ _) as [g1|] eqn:Hcl; cbn; [|done]. intros [= <-].
    apply complete_frame in Hcl as (_ & Hc & _). by apply holds_same.
  - destruct (connStore (grp s) !! c0); [|done]. injection He as <-. by apply holds_same.
  - destruct (connStore (grp s) !! c0) as [conn|]; [|done]. cbn in He. destruct (sender conn); try done.
    injection He as <-. by apply holds_same.
  - destruct (connStore (grp s) !! c0) as [conn|]; [|done]. cbn in He. destruct (sender conn); try done.
    injection He as <-. destruct ok; by apply holds_same.
  - destruct (connStore (grp s) !! c0) as [conn|]; [|done]. cbn in He. destruct (sender conn); try done.
    destruct (cancelled conn); [|done]. injection He as <-. by apply holds_same.
Qed.

Lemma connect_holds n s s' n' c :
  exec (AConnect n) s = Some (Return s') -> holds s' n' c ->
  holds s n' c \/ c = length (connStore (grp s)).
Proof.
  cbn [exec]. unfold locked. destruct (connecting s); [done|]. intros [= Hx]. revert Hx.
  unfold connect_begin, newConnector. cbn [mbind outcome_bind].
  assert (forall g1 p, connectors g1 = connectors (grp s) ->
    holds {| grp := g1; callers := callers s; connecting := Some (n, length (connStore (grp s)), p) |} n' c ->
    holds s n' c \/ c = length (connStore (grp s))) as Hg.
  { intros g1 p Hg1 [Hm|[p' [= <- <- <-]]]; [|by right]. left; left. cbn in Hm. by rewrite Hg1 in Hm. }
  repeat case_head; cbn; try done; [|intros [= <-]; by apply Hg].
  destruct (clearFutures _ _) as [g2|] eqn:Hclear; cbn; [|done]. intros [= <-]. cbn.
  apply Hg. by apply clearFutures_connectors in Hclear.
Qed.

Lemma numbered_reachable id s : reachable id s -> numbered s.
Proof.
  unfold reachable. revert s. apply rtc_ind_r; [by split|].
  intros s1 s2 _ [a Ha] Hn.
  destruct (exec_callers _ _ _ Ha) as [(req & -> & Hm & Hc)|[[Hm Hc]|(Hm & t & pc & pc' & ? & ? & ? & _)]].
  - destruct Hn as [Hn1 Hn2]. unfold numbered. rewrite Hc, length_app. simpl.
    assert (msgCounter (grp s2) = wrap64 (Z.of_nat (length (callers s1)) + 1)) as Hid.
    { by rewrite Hm, Hn1, wrap64_succ. }
    split; [rewrite Hid; f_equal; lia|].
    intros t pc [Ht|[-> ->]]%snoc_lookup; [by apply Hn2|]. simpl. by rewrite GetRequestId_set.
  - by eapply numbered_same.
  - by eapply numbered_insert.
Qed.
End aux.

Lemma toy_reachable : reachable "g" toy_sys.
Proof. apply (run_reachable "g" toy_schedule (init "g")); [apply rtc_refl|reflexivity]. Qed.

Section clears.
Context `{RoutingPb}.

(** From [g] to [g'] the pending requests of node [n], and only those, failed. *)
Record clears (n : Z) (g g' : connectivityGroup) : Prop := {
  clears_pending k f : futures g' !! k = Some f <->
    futures g !! k = Some f /\ node_of g f <> Some n;
  clears_failed k f fr : futures g !! k = Some f -> futStore g !! f = Some fr ->
    futStore g' !! f = Some (if f_nodeNum fr =? n then failed n fr else fr);
  clears_others f : (forall k, futures g !! k <> Some f) -> futStore g' !! f = futStore g !! f
}.

Lemma clear_clears n g : wf_futures g -> clears n g (clear n g).
Proof.
  intros [_ Hinj]. split.
  - intros k f. apply clear_futures.
  - intros k f fr Hk Hf. destruct (Z.eqb_spec (f_nodeNum fr) n) as [Hn|Hn].
    + by eapply clear_store_hit.
    + rewrite clear_store_miss; [done|]. intros k' _. unfold node_of. rewrite Hf. cbn. congruence.
  - intros f Hf. apply clear_store_miss. intros k Hk. by destruct (Hf k).
Qed.
(** Clearing reads the futures only. *)
Lemma clears_ext n g1 g2 g1' g2' :
  futures g1 = futures g2 -> futStore g1 = futStore g2 ->
  futures g1' = futures g2' -> futStore g1' = futStore g2' ->
  clears n g1 g1' -> clears n g2 g2'.
Proof.
  intros Hf Hs Hf' Hs' [Hp Hfa Ho]. split.
  - intros k f. rewrite <-Hf, <-Hf'. unfold node_of. rewrite <-Hs. apply Hp.
  - intros k f fr. rewrite <-Hf, <-Hs, <-Hs'. apply Hfa.
  - intros f. rewrite <-Hf, <-Hs, <-Hs'. apply Ho.
Qed.
(** Clearing depends on which entries are visited, not on their order. *)
Lemma cleared_same n l l' g : (forall e, e ∈ l <-> e ∈ l') -> cleared n l g = cleared n l' g.
Proof.
  intros Hin. unfold cleared. f_equal; [|f_equal].
  - apply list_eq. intros f. rewrite !cleared_store_lookup. destruct (futStore g !! f) as [fr|]; [|done].
    cbn. f_equal. assert (f ∈ l.*2 <-> f ∈ l'.*2) as Hf.
    { rewrite !list_elem_of_fmap. by setoid_rewrite Hin. }
    destruct (decide (f ∈ l.*2 /\ _)); destruct (decide (f ∈ l'.*2 /\ _)); tauto.
  - apply map_eq. intros k. apply option_eq. intros f. rewrite !cleared_map_lookup. by rewrite Hin.
Qed.
End clears.

(** * Properties *)
Section properties.
Context `{RoutingPb}.

(** C14. Whatever the interleaving of calls, connections, disconnections, send
    loops and incoming responses, no goroutine panics: no future's channel is
    closed twice and no pointer of the group is dangling. *)
Theorem no_panic id s a : reachable id s ->
  match exec a s with Some (Panic _) => False | _ => True end.
Proof.
  intros Hr%inv_reachable. pose proof (safe_exec a s Hr) as Hs.
  by destruct (exec a s) as [[|]|].
Qed.

(** C17. Go iterates over a map in no fixed order, and clearFutures deletes from
    the map it iterates over; in every reachable state each order gives the
    same result without a panic: the node's pending requests, and no others,
    leave the map and fail. *)
Theorem clear_any_order id s n l :
  reachable id s -> l ≡ₚ map_to_list (futures (grp s)) ->
  clearFutures_loop n l (grp s) = Return (clear n (grp s)) /\ clears n (grp s) (clear n (grp s)).
Proof.
  intros [Hf _ _]%inv_reachable Hl. pose proof (fut_inv_wf _ _ Hf) as Hwf.
  split; [|by apply clear_clears]. destruct Hwf as [Hopen Hinj].
  assert (forall e, e ∈ l <-> e ∈ map_to_list (futures (grp s))) as Hin by (intros e; by rewrite Hl).
  rewrite clearFutures_loop_eq.
  - f_equal. unfold clear. by apply cleared_same.
  - rewrite Hl. apply NoDup_fst_map_to_list.
  - rewrite Hl. apply NoDup_fmap_2_strong; [|apply NoDup_map_to_list].
    intros [k1 f1] [k2 f2] H1%elem_of_map_to_list H2%elem_of_map_to_list Heq.
    simpl in Heq. subst. f_equal. by eapply Hinj.
  - intros k f Hkf%Hin%elem_of_map_to_list. split; [done|]. by eapply Hopen.
Qed.

(** A caller of RouteRequest that gets past Await holds either its
    context's error, or exactly one of a response and an error; a response is
    never a check-in and carries the id the caller's own request was given. *)
Theorem await_answer id s t req f fr ctxErr prefer resp err :
  reachable id s -> callers s !! t = Some (Returned req f) ->
  futStore (grp s) !! f = Some fr ->
  Await fr ctxErr prefer = Some (resp, err) ->
  (resp = None /\ is_Some err) \/
  (err = None /\ exists r, resp = Some r /\ is_CheckIn r = false /\
     resp_GetRequestId r = GetRequestId req).
Proof.
  intros [Hf _ _]%inv_reachable Ht Hfr Hawait.
  pose proof (fi_ok _ _ _ Hf _ _ Hfr) as Hok. unfold future_ok in Hok.
  unfold Await in Hawait. destruct (f_done fr).
  - assert ((resp = None /\ is_Some err) \/ (resp = f_resp fr /\ err = f_err fr)) as [?|[-> ->]].
    { destruct ctxErr as [e|]; [destruct prefer|]; simplify_eq; eauto. }
    { by left. }
    destruct Hok as [[[r Hr] ->]|[-> ?]]; [|by left].
    right. split; [done|]. exists r. split; [done|].
    destruct (fi_answer _ _ _ Hf _ _ _ Hfr Hr) as (Hc & t' & req' & Ht' & Hid).
    split; [done|]. assert (t' = t) as -> by by eapply (fi_own _ _ _ Hf).
    rewrite Ht in Ht'. by injection Ht' as <-.
  - destruct ctxErr; simplify_eq. left. eauto.
Qed.

(** A response that is not a check-in completes the request registered
    under its id with exactly that response, takes it out of the map, and
    touches no other future; a response with an unknown id, and a check-in,
    change nothing. *)
Theorem response_completes id s resp :
  reachable id s -> connecting s = None ->
  exists s', exec (AResponse resp) s = Some (Return s') /\
  match futures (grp s) !! resp_GetRequestId resp with
  | Some f =>
      if is_CheckIn resp then s' = s else
      futures (grp s') = delete (resp_GetRequestId resp) (futures (grp s)) /\
      (exists fr', futStore (grp s') !! f = Some fr' /\
         Await fr' None true = Some (Some resp, None)) /\
      (forall f', f' <> f -> futStore (grp s') !! f' = futStore (grp s) !! f') /\
      callers s' = callers s /\ connectors (grp s') = connectors (grp s) /\
      connStore (grp s') = connStore (grp s)
  | None => s' = s
  end.
Proof.
  intros [Hf _ _]%inv_reachable Hlock. cbn [exec]. unfold locked, processResponse, isCheckInMsg.
  rewrite Hlock.
  destruct (is_CheckIn resp).
  { exists s. split; [by destruct s|]. by destruct (futures (grp s) !! _). }
  destruct (futures (grp s) !! _) as [f|] eqn:Hm; [|exists s; split; [by destruct s|done]].
  destruct (fi_registered _ _ _ Hf _ _ Hm) as ((fr & Hfr & Hopen) & _).
  pose proof (fi_ok _ _ _ Hf _ _ Hfr) as Hok. unfold future_ok in Hok. rewrite Hopen in Hok.
  unfold resolve, complete. cbn [with_futures futStore]. rewrite Hfr, Hopen.
  eexists. split; [reflexivity|]. cbn. split_and!; try done.
  - rewrite list_lookup_insert_eq by by eapply lookup_lt_Some. eexists. split; [done|].
    unfold Await. cbn. by destruct Hok as [_ ->].
  - intros f' Hne. by rewrite list_lookup_insert_ne.
Qed.

(** Disconnecting the current connector of a node takes the node offline
    and fails exactly its pending requests; disconnecting a connector that has
    been replaced, or twice, changes nothing at all. *)
Theorem disconnect_spec id s c conn :
  reachable id s -> connecting s = None -> connStore (grp s) !! c = Some conn ->
  exists s', exec (ADisconnect c) s = Some (Return s') /\
  if decide (connectors (grp s) !! c_nodeNum conn = Some c)
  then connectors (grp s') = delete (c_nodeNum conn) (connectors (grp s)) /\
       clears (c_nodeNum conn) (grp s) (grp s') /\
       connStore (grp s') = connStore (grp s) /\ callers s' = callers s
  else s' = s.
Proof.
  intros [Hf _ _]%inv_reachable Hlock Hc. cbn [exec]. rewrite Hc. cbn [mbind option_bind].
  unfold locked, disconnect. rewrite Hlock, Hc.
  destruct (decide (connectors (grp s) !! c_nodeNum conn = Some c)) as [Hcur|Hcur];
    [rewrite decide_False by tauto|rewrite decide_True by done; exists s; by destruct s].
  rewrite clearFutures_clear by by eapply fut_inv_wf.
  eexists. split; [reflexivity|]. cbn. split_and!; try done.
  eapply (clears_ext _ (with_connectors (delete (c_nodeNum conn) (connectors (grp s))) (grp s)));
    [..|apply clear_clears; by eapply fut_inv_wf]; done.
Qed.

(** A connect installs a fresh connector as the node's only one. The
    connector it replaces, if any, ends cancelled and marked as evicted, and
    the requests pending at the node fail; other nodes are not touched. *)
Theorem connect_spec id s n :
  reachable id s -> connecting s = None ->
  exists s1 s2 c, exec (AConnect n) s = Some (Return s1) /\
  exec AConnected s1 = Some (Return s2) /\
  connectors (grp s2) = <[n := c]> (connectors (grp s)) /\
  connStore (grp s) !! c = None /\
  connStore (grp s2) !! c =
    Some {| c_nodeNum := n; cancelled := false; evicted := false; sender := notStarted |} /\
  (forall c', connectors (grp s) !! n <> Some c' -> c' <> c ->
     connStore (grp s2) !! c' = connStore (grp s) !! c') /\
  match connectors (grp s) !! n with
  | Some p => clears n (grp s) (grp s2) /\
      exists old, connStore (grp s2) !! p = Some old /\ cancelled old = true /\ evicted old = true
  | None => futures (grp s2) = futures (grp s) /\ futStore (grp s2) = futStore (grp s)
  end.
Proof.
  intros [Hf Hci _]%inv_reachable Hlock. cbn [exec]. unfold locked, connect_begin, newConnector.
  rewrite Hlock in *. cbn [mbind outcome_bind]. set (g1 := with_connStore _ (grp s)).
  change (connectors g1) with (connectors (grp s)).
  assert (forall i, i <> length (connStore (grp s)) -> connStore g1 !! i = connStore (grp s) !! i) as Hg1.
  { intros i Hi. cbn. apply option_eq. intros x. rewrite snoc_lookup. naive_solver. }
  assert (connStore g1 !! length (connStore (grp s)) = Some _) as Hnew
    by (apply snoc_lookup; right; split; reflexivity).
  assert (connStore (grp s) !! length (connStore (grp s)) = None) as Hout by by apply lookup_ge_None.
  destruct (connectors (grp s) !! n) as [p|] eqn:Hp.
  - destruct (ci_current _ _ _ Hci _ _ Hp) as (x & Hx & Hxn & _).
    assert (p <> length (connStore (grp s))) as Hne by (intros ->; congruence).
    rewrite (Hg1 p Hne), Hx, Hxn.
    rewrite clearFutures_clear by (eapply (fut_inv_wf g1); exact Hf).
    eexists _, _, _. split_and!; [reflexivity|reflexivity|done|exact Hout| | | |]; cbn.
    + rewrite !list_lookup_alter_ne by done. exact Hnew.
    + intros c' Hc' Hne'. rewrite !list_lookup_alter_ne by congruence. by apply Hg1.
    + eapply (clears_ext _ g1); [..|apply clear_clears; eapply (fut_inv_wf g1); exact Hf]; done.
    + eexists. rewrite !list_lookup_alter, !decide_True by done.
      change (connStore (grp s) ++ _) with (connStore g1). rewrite (Hg1 p Hne), Hx. done.
  - eexists _, _, _. split_and!; [reflexivity|reflexivity|done|exact Hout|exact Hnew| |done|done].
    intros c' _ Hne'. by apply Hg1.
Qed.

(** At any time outside a connect call, every node of the map has its own
    live connector: made for that node, never marked as evicted, and in the
    map for no other node; and a connector marked as evicted is cancelled. *)
Theorem current_connectors id s n c :
  reachable id s -> connectors (grp s) !! n = Some c ->
  Evicted c (grp s) = false /\
  (exists conn, connStore (grp s) !! c = Some conn /\ c_nodeNum conn = n) /\
  (forall n', connectors (grp s) !! n' = Some c -> n' = n) /\
  (forall p conn, connStore (grp s) !! p = Some conn -> evicted conn = true ->
     cancelled conn = true /\ forall n', connectors (grp s) !! n' <> Some p).
Proof.
  intros [_ Hci _]%inv_reachable Hn. destruct (ci_current _ _ _ Hci _ _ Hn) as (x & Hx & Hxn & He).
  split_and!.
  - unfold Evicted. by rewrite Hx.
  - eauto.
  - intros n' Hn'. destruct (ci_current _ _ _ Hci _ _ Hn') as (y & Hy & <- & _). congruence.
  - intros p conn Hp Hev. split; [eapply ci_cancelled; eauto|].
    intros n' Hn'. destruct (ci_current _ _ _ Hci _ _ Hn') as (y & ? & ? & ?). congruence.
Qed.

(** C18. Two callers are never given the same request id unless 2^64 requests
    lie between them: the 64-bit counter may wrap, but it does not repeat
    before that. *)
Theorem request_ids_unique id s t1 t2 pc1 pc2 :
  reachable id s -> callers s !! t1 = Some pc1 -> callers s !! t2 = Some pc2 ->
  Z.of_nat (length (callers s)) <= 2 ^ 64 ->
  GetRequestId (pc_req pc1) = GetRequestId (pc_req pc2) -> t1 = t2.
Proof.
  intros [_ Hn]%numbered_reachable H1 H2 Hlen. rewrite (Hn _ _ H1), (Hn _ _ H2).
  apply lookup_lt_Some in H1, H2. intros Heq%wrap64_inj; lia.
Qed.
End properties.

(** * Two interleavings that the code does not exclude *)
Section races.
Context `{RoutingPb}.

(** A request is registered only after it has been handed to the sender,
    outside the lock: when the node answers, or disconnects, in between, the
    answer or the failure is dropped and the caller's future stays open. *)
Theorem early_response_lost id req resp :
  resp_GetRequestId resp = 1 -> is_CheckIn resp = false ->
  let n := GetDestNodeNumber req in
  let sent := [AConnect n; AConnected; ARun 0; ANumber req; ALookup 0; ASend 0 handOver;
               ASendReturns 0 true] in
  let caller := Returned (set_RequestId 1 req) 0 in
  let pending := {| f_nodeNum := n; f_resp := None; f_err := None; f_done := false |} in
  (exists s, run (sent ++ [AResponse resp; ARegister 0]) (init id) = Some s /\
     callers s !! 0%nat = Some caller /\ futStore (grp s) !! 0%nat = Some pending) /\
  (exists s, run (sent ++ [ADisconnect 0; ARegister 0]) (init id) = Some s /\
     callers s !! 0%nat = Some caller /\ futStore (grp s) !! 0%nat = Some pending /\
     connectors (grp s) = ∅).
Proof.
  intros Hid Hci n sent caller pending.
  set (g0 := connect_end n 0 None (snd (newConnector n (newConnectivityGroup id)))).
  assert (forall acts, run (sent ++ acts) (init id) =
    run acts {| grp := with_futStore [pending] (with_msgCounter 1 (set_sender selecting 0 g0));
                callers := [Sent (set_RequestId 1 req) 0]; connecting := None |}) as Hsent.
  { intros acts. subst sent. cbn [app run exec init grp callers connecting locked].
    unfold connect_begin, newConnector, routeRequest_number, routeRequest_lookup.
    cbn. rewrite lookup_empty. cbn. rewrite GetDestNodeNumber_set. cbn. fold n. rewrite lookup_insert_eq. cbn. done. }
  rewrite !Hsent. split.
  - eexists. split; [|split].
    + cbn [run exec locked connecting]. unfold processResponse, isCheckInMsg. rewrite Hci, Hid.
      cbn. rewrite lookup_empty. cbn. reflexivity.
    + done.
    + done.
  - eexists. split; [|split_and!].
    + cbn [run exec locked connecting]. unfold disconnect. cbn.
      rewrite lookup_insert_eq, decide_False by tauto. cbn. reflexivity.
    + done.
    + done.
    + cbn. by rewrite delete_insert_eq.
Qed.

(** A node that reconnects can see its old stream end without the mark:
    the context is cancelled before the mark is stored, and the old handler
    may read the mark in between. *)
Theorem eviction_mark_race id n :
  exists s, run [AConnect n; AConnected; AConnect n] (init id) = Some s /\
  Evicted 0 (grp s) = false /\
  (exists old, connStore (grp s) !! 0%nat = Some old /\ cancelled old = true) /\
  (exists s', run [AConnected] s = Some s' /\ Evicted 0 (grp s') = true).
Proof.
  eexists. split_and!.
  - cbn. rewrite lookup_empty. cbn. rewrite lookup_insert_eq. cbn. reflexivity.
  - done.
  - by eexists.
  - eexists. split; [reflexivity|done].
Qed.
End races.

(** * The router *)
Section router.
Context `{RoutingPb}.

(** ConnectedNodes lists every node for which IsNodeConnected holds, once
    each. *)
Theorem connected_nodes_spec cgID (r : Router) :
  NoDup (ConnectedNodes cgID r) /\
  forall n, n ∈ ConnectedNodes cgID r <-> IsNodeConnected cgID n r = true.
Proof.
  unfold ConnectedNodes, IsNodeConnected. destruct (r !! cgID) as [g|].
  - split; [apply NoDup_fst_map_to_list|]. intros n.
    rewrite bool_decide_eq_true, list_elem_of_fmap. split.
    + intros [[n' c] [-> Hin%elem_of_map_to_list]]. by exists c.
    + intros [c Hc]. exists (n, c). split; [done|]. by apply elem_of_map_to_list.
  - split; [constructor|]. intros n. split; [by intros ?%not_elem_of_nil|done].
Qed.

(** Connecting a node in one group makes that node connected there, and
    changes the connectedness of no other node and no other group; it never
    panics on groups whose pending futures are open. *)
Theorem router_connect_online cgID n (r : Router) :
  (forall cg g, r !! cg = Some g -> wf_futures g /\
     forall n' c, connectors g !! n' = Some c -> exists x, connStore g !! c = Some x) ->
  exists c r', Connect cgID n r = Return (c, r') /\
  forall cg n', IsNodeConnected cg n' r' =
    IsNodeConnected cg n' r || (bool_decide (cg = cgID) && bool_decide (n' = n)).
Proof.
  unfold Router in *. intros Hwf.
  assert (wf_futures (fst (findOrCreateGroup cgID r)) /\
    (forall n' c, connectors (fst (findOrCreateGroup cgID r)) !! n' = Some c ->
       exists x, connStore (fst (findOrCreateGroup cgID r)) !! c = Some x) /\
    (forall n', IsNodeConnected cgID n' r =
       bool_decide (is_Some (connectors (fst (findOrCreateGroup cgID r)) !! n'))) /\
    (forall cg, cg <> cgID -> snd (findOrCreateGroup cgID r) !! cg = r !! cg)) as (Hw & Hc & Hi & Ho).
  { unfold findOrCreateGroup, IsNodeConnected, Router. destruct (r !! cgID) as [g|] eqn:Hg; cbn.
    - destruct (Hwf cgID g Hg). by split_and!.
    - split_and!; [by split; cbn; intros *; rewrite lookup_empty|by intros *; rewrite lookup_empty| |].
      + intros n'. by rewrite lookup_empty.
      + intros cg Hne. by rewrite lookup_insert_ne. }
  unfold Connect, on_group. destruct (findOrCreateGroup cgID r) as [g r1]. cbn [fst snd] in *.
  assert (exists c g', connect n g = Return (c, g') /\ connectors g' = <[n := c]> (connectors g))
    as (c & g' & -> & Hg').
  { unfold connect, connect_begin, newConnector. set (g1 := with_connStore _ g).
    change (connectors g1) with (connectors g). destruct (connectors g !! n) as [p|] eqn:Hp.
    - destruct (Hc n p Hp) as [x Hx]. assert (connStore g1 !! p = Some x) as ->
        by (apply snoc_lookup; by left).
      rewrite clearFutures_clear by (destruct Hw; by split). by eexists _, _.
    - by eexists _, _. }
  cbn. eexists _, _. split; [reflexivity|]. intros cg n'.
  destruct (decide (cg = cgID)) as [->|Hne].
  - rewrite Hi. unfold IsNodeConnected, Router. rewrite lookup_insert_eq, Hg', (bool_decide_true (cgID = _)) by done.
    destruct (decide (n' = n)) as [->|Hnn].
    + rewrite lookup_insert_eq, (bool_decide_true (n = n)), orb_true_r by done. by apply bool_decide_true.
    + by rewrite lookup_insert_ne, (bool_decide_false (n' = n)), orb_false_r by done.
  - unfold IsNodeConnected, Router. rewrite lookup_insert_ne, Ho by done.
    by rewrite (bool_decide_false (cg = _)), orb_false_r by done.
Qed.
End router.

(** * Witnesses *)

Lemma no_panic_witness :
  match exec (AResponse toy_resp) toy_sys with Some (Panic _) => False | _ => True end.
Proof. apply (no_panic "g" toy_sys (AResponse toy_resp)), toy_reachable. Defined.

Lemma clear_any_order_witness :
  clearFutures_loop 7 [(1, 0%nat)] (grp toy_sys) = Return (clear 7 (grp toy_sys)).
Proof. apply (clear_any_order "g" toy_sys 7 [(1, 0%nat)] toy_reachable). vm_compute. reflexivity. Defined.

Definition toy_answered : Sys :=
  match run [AResponse toy_resp] toy_sys with Some s => s | None => toy_sys end.
Lemma toy_answered_reachable : reachable "g" toy_answered.
Proof. apply (run_reachable "g" [AResponse toy_resp] toy_sys); [apply toy_reachable|reflexivity]. Qed.

Lemma await_answer_witness :
  let fr := {| f_nodeNum := 7; f_resp := Some toy_resp; f_err := None; f_done := true |} in
  futStore (grp toy_answered) !! 0%nat = Some fr /\
  ((Some toy_resp = None /\ is_Some (None : option status)) \/
   ((None : option status) = None /\ exists r, Some toy_resp = Some r /\ is_CheckIn r = false /\
     resp_GetRequestId r = GetRequestId toy_req)).
Proof.
  intros fr. split; [reflexivity|].
  apply (await_answer "g" toy_answered 0 toy_req 0 fr None true (Some toy_resp) None);
    [apply toy_answered_reachable|reflexivity|reflexivity|reflexivity].
Defined.

Lemma response_completes_witness :
  exists s', exec (AResponse toy_resp) toy_sys = Some (Return s') /\ futures (grp s') = ∅.
Proof.
  destruct (response_completes "g" toy_sys toy_resp toy_reachable eq_refl) as (s' & Hs' & Hm).
  exists s'. split; [exact Hs'|]. vm_compute in Hs'. injection Hs' as <-. reflexivity.
Defined.

Lemma disconnect_spec_witness :
  exists s', exec (ADisconnect 0) toy_sys = Some (Return s') /\ connectors (grp s') = ∅.
Proof.
  destruct (disconnect_spec "g" toy_sys 0
    {| c_nodeNum := 7; cancelled := false; evicted := false; sender := selecting |}
    toy_reachable eq_refl eq_refl) as (s' & Hs' & Hm).
  exists s'. split; [exact Hs'|]. vm_compute in Hs'. injection Hs' as <-. reflexivity.
Defined.

Lemma connect_spec_witness :
  exists s1 s2 c, exec (AConnect 7) toy_sys = Some (Return s1) /\
  exec AConnected s1 = Some (Return s2) /\ connectors (grp s2) = <[7 := c]> (connectors (grp toy_sys)).
Proof.
  destruct (connect_spec "g" toy_sys 7 toy_reachable eq_refl) as (s1 & s2 & c & H1 & H2 & H3 & _).
  by exists s1, s2, c.
Defined.

Lemma current_connectors_witness :
  connectors (grp toy_sys) !! 7 = Some 0%nat /\ Evicted 0 (grp toy_sys) = false.
Proof.
  split; [reflexivity|].
  apply (current_connectors "g" toy_sys 7 0 toy_reachable eq_refl).
Defined.

Lemma request_ids_unique_witness :
  GetRequestId (pc_req (Returned toy_req 0)) = 1 /\ (0 = 0)%nat.
Proof.
  split; [reflexivity|].
  apply (request_ids_unique "g" toy_sys 0 0 (Returned toy_req 0) (Returned toy_req 0));
    [apply toy_reachable|reflexivity|reflexivity|vm_compute; discriminate|reflexivity].
Defined.

Lemma early_response_lost_witness :
  exists s, run [AConnect 7; AConnected; ARun 0; ANumber (7, 0); ALookup 0; ASend 0 handOver;
                 ASendReturns 0 true; AResponse toy_resp; ARegister 0] (init "g") = Some s /\
  callers s !! 0%nat = Some (Returned toy_req 0).
Proof.
  destruct (early_response_lost (H := toy_pb) "g" (7, 0) toy_resp eq_refl eq_refl) as [(s & Hs & Hc & _) _].
  exists s. split; [exact Hs|exact Hc].
Defined.

Lemma router_connect_online_witness :
  exists c r', Connect "g" 7 NewRouter = Return (c, r') /\ IsNodeConnected "g" 7 r' = true.
Proof.
  destruct (router_connect_online "g" 7 NewRouter) as (c & r' & Hc & Hi).
  { unfold NewRouter, Router. intros cg g Hg. by rewrite lookup_empty in Hg. }
  exists c, r'. split; [exact Hc|]. rewrite Hi. reflexivity.
Defined.
