(* ===== verification/BePb.v ===== *)
(** * Messages of the backend service: proto/connect/be.proto

    A field that is not set reads as its zero value; [GetX] on a nil message
    too. The wire format is the protobuf library's: [Marshal] is a parameter of
    the definitions that store an event. *)
From S2P Require Import Prelude.
Open Scope Z_scope.

Inductive EventKind :=
| Connect_
| Disconnect_
| Register_
| Deregister_
| Activate_ (endorser_node_number : Z)
| Connection_ (transport : string) (peer_node_number : Z)
| RosterUpdate_ (kind : string).
Record EventDetails := { error_message : string; event_kind : EventKind }.
Definition event (k : EventKind) : EventDetails := {| error_message := ""; event_kind := k |}.

Record CompleteNodeRegistrationResponse := {
  cr_ConnectivityGroupId : string;
  cr_NodeNumber : Z;
  cr_AuthToken : string;
  cr_AttestationJwt : string
}.
(** Also the claim a node makes of itself. *)
Record AuthenticateNodeRequest := {
  an_ConnectivityGroupId : string;
  an_NodeNumber : Z;
  an_AuthToken : string
}.
Record BeNode := {
  bn_NodeNumber : Z;
  bn_Name : string;
  bn_LastSeenAtMillis : Z;
  bn_Metadata : string
}.
Record GetRosterResponse := { gr_Roster : string; gr_Version : Z }.
Record GetGroupMetadataResponse := {
  gm_DomainId : string;
  gm_CreatedAtMillis : Z;
  gm_Name : string;
  gm_AssociationKey : string
}.
Record UpdateRosterRequest := {
  ur_ConnectivityGroupId : string;
  ur_Roster : string;
  ur_NewVersion : Z;
  ur_ExpectedVersion : Z
}.
Record LogActivityRequest := {
  la_ConnectivityGroupId : string;
  la_NodeNumber : Z;
  la_EventType : string;
  la_Success : bool;
  la_Details : option EventDetails
}.
Record GetTurnPolicyResponse := {
  tp_Enabled : bool;
  tp_FloorBps : Z;
  tp_CeilBps : Z;
  tp_OrganisationId : string
}.
