(* ===== verification/Store.v ===== *)
(** * The standalone hub's database: connect/hub/standalone_schema.sql

    The tables as maps and lists of rows, and one definition per SQL statement
    of standalone_grpc.go, standalone_rest.go and standalone.go, a function of
    the database that gives its new state and its result, or an error. The
    driver holds a single connection, so a statement is atomic; a handler is a
    sequence of statements, between which other handlers run. *)
From S2P Require Import Prelude GoStrings.
Open Scope Z_scope.

(** ** Tables *)

Record ApiKeyRow := {
  ak_secret_hash : string;
  ak_name : option string;
  ak_created_at_millis : Z;
  ak_revoked_at_millis : option Z
}.
(** [roster] NULL and an empty roster read the same. *)
Record GroupRow := {
  g_name : option string;
  g_association_key : option string;
  g_next_node_number : Z;
  g_roster : string;
  g_roster_version : Z;
  g_created_at_millis : Z;
  g_deleted_at_millis : option Z
}.
Record NodeRow := {
  nd_name : option string;
  nd_auth_token_hash : string;
  nd_metadata : option string;
  nd_last_seen_at_millis : option Z;
  nd_created_at_millis : Z;
  nd_deleted_at_millis : option Z
}.
Record TokenRow := {
  tk_id : string;
  tk_group : string;
  tk_token_hash : string;
  tk_node_name : option string;
  tk_node_metadata : option string;
  tk_created_at_millis : Z;
  tk_expires_at_millis : Z;
  tk_used_at_millis : option Z
}.
Record ActivityRow := {
  al_group : string;
  al_node_number : Z;
  al_event_type : string;
  al_success : bool;
  al_details : option string;
  al_created_at_millis : Z
}.
(** Tokens and activity are in order of insertion. *)
Record DB := {
  meta : gmap string string;
  api_keys : gmap string ApiKeyRow;
  groups : gmap string GroupRow;
  nodes : gmap (string * Z) NodeRow;
  tokens : list TokenRow;
  activity : list ActivityRow
}.
Definition emptyDB : DB :=
  {| meta := ∅; api_keys := ∅; groups := ∅; nodes := ∅; tokens := []; activity := [] |}.

Definition with_meta (m : gmap string string) (d : DB) : DB :=
  {| meta := m; api_keys := api_keys d; groups := groups d; nodes := nodes d;
     tokens := tokens d; activity := activity d |}.
Definition with_api_keys (m : gmap string ApiKeyRow) (d : DB) : DB :=
  {| meta := meta d; api_keys := m; groups := groups d; nodes := nodes d;
     tokens := tokens d; activity := activity d |}.
Definition with_groups (m : gmap string GroupRow) (d : DB) : DB :=
  {| meta := meta d; api_keys := api_keys d; groups := m; nodes := nodes d;
     tokens := tokens d; activity := activity d |}.
Definition with_nodes (m : gmap (string * Z) NodeRow) (d : DB) : DB :=
  {| meta := meta d; api_keys := api_keys d; groups := groups d; nodes := m;
     tokens := tokens d; activity := activity d |}.
Definition with_tokens (l : list TokenRow) (d : DB) : DB :=
  {| meta := meta d; api_keys := api_keys d; groups := groups d; nodes := nodes d;
     tokens := l; activity := activity d |}.
Definition with_activity (l : list ActivityRow) (d : DB) : DB :=
  {| meta := meta d; api_keys := api_keys d; groups := groups d; nodes := nodes d;
     tokens := tokens d; activity := l |}.

(** ** Row updates *)

Definition group_roster (roster : string) (version : Z) (g : GroupRow) : GroupRow :=
  {| g_name := g_name g; g_association_key := g_association_key g;
     g_next_node_number := g_next_node_number g; g_roster := roster;
     g_roster_version := version; g_created_at_millis := g_created_at_millis g;
     g_deleted_at_millis := g_deleted_at_millis g |}.
Definition group_next (n : Z) (g : GroupRow) : GroupRow :=
  {| g_name := g_name g; g_association_key := g_association_key g;
     g_next_node_number := n; g_roster := g_roster g;
     g_roster_version := g_roster_version g; g_created_at_millis := g_created_at_millis g;
     g_deleted_at_millis := g_deleted_at_millis g |}.
Definition group_deleted (t : Z) (g : GroupRow) : GroupRow :=
  {| g_name := g_name g; g_association_key := g_association_key g;
     g_next_node_number := g_next_node_number g; g_roster := g_roster g;
     g_roster_version := g_roster_version g; g_created_at_millis := g_created_at_millis g;
     g_deleted_at_millis := Some t |}.
Definition node_deleted (t : Z) (n : NodeRow) : NodeRow :=
  {| nd_name := nd_name n; nd_auth_token_hash := nd_auth_token_hash n;
     nd_metadata := nd_metadata n; nd_last_seen_at_millis := nd_last_seen_at_millis n;
     nd_created_at_millis := nd_created_at_millis n; nd_deleted_at_millis := Some t |}.
Definition node_last_seen (t : Z) (n : NodeRow) : NodeRow :=
  {| nd_name := nd_name n; nd_auth_token_hash := nd_auth_token_hash n;
     nd_metadata := nd_metadata n; nd_last_seen_at_millis := Some t;
     nd_created_at_millis := nd_created_at_millis n;
     nd_deleted_at_millis := nd_deleted_at_millis n |}.
Definition node_name (s : string) (n : NodeRow) : NodeRow :=
  {| nd_name := Some s; nd_auth_token_hash := nd_auth_token_hash n;
     nd_metadata := nd_metadata n; nd_last_seen_at_millis := nd_last_seen_at_millis n;
     nd_created_at_millis := nd_created_at_millis n;
     nd_deleted_at_millis := nd_deleted_at_millis n |}.
Definition token_used (t : Z) (k : TokenRow) : TokenRow :=
  {| tk_id := tk_id k; tk_group := tk_group k; tk_token_hash := tk_token_hash k;
     tk_node_name := tk_node_name k; tk_node_metadata := tk_node_metadata k;
     tk_created_at_millis := tk_created_at_millis k;
     tk_expires_at_millis := tk_expires_at_millis k; tk_used_at_millis := Some t |}.

(** A row that is not soft-deleted. *)
Definition g_live (g : GroupRow) : bool := bool_decide (g_deleted_at_millis g = None).
Definition nd_live (n : NodeRow) : bool := bool_decide (nd_deleted_at_millis n = None).

(** ** Statements *)

(** What a statement or the scan of its row can report. *)
Inductive dbError :=
| ErrNoRows
| ConstraintUnique
| ConstraintPrimaryKey
| ConstraintForeignKey
| ScanOutOfRange
| DriverError.
#[export] Instance dbError_eq_dec : EqDecision dbError.
Proof. solve_decision. Defined.

Definition stmt (A : Type) : Type := DB -> result dbError (DB * A).

(** A SELECT of one row. *)
Definition query_row {A} (f : DB -> option A) : stmt A := fun d =>
  match f d with
  | Some a => Ok (d, a)
  | None => Err ErrNoRows
  end.
(** A SELECT of many rows. *)
Definition query {A} (f : DB -> A) : stmt A := fun d => Ok (d, f d).
(** A SELECT of a count, scanned into an int32. *)
Definition query_count (f : DB -> nat) : stmt Z := fun d =>
  let n := Z.of_nat (f d) in
  if int32_ok n then Ok (d, n) else Err ScanOutOfRange.

(** *** Groups *)

(** The group, unless it is deleted. *)
Definition live_group (cgID : string) (d : DB) : option GroupRow :=
  g ← groups d !! cgID;
  if g_live g then Some g else None.

Definition sel_group (cgID : string) : stmt GroupRow := query_row (live_group cgID).

Definition upd_roster (cgID roster : string) (newVersion expectedVersion : Z) : stmt Z := fun d =>
  match live_group cgID d with
  | Some g =>
      if g_roster_version g =? expectedVersion
      then Ok (with_groups (<[cgID := group_roster roster newVersion g]> (groups d)) d, 1)
      else Ok (d, 0)
  | None => Ok (d, 0)
  end.
Definition upd_group_reset (cgID : string) : stmt unit := fun d =>
  match live_group cgID d with
  | Some g => Ok (with_groups (<[cgID := group_roster "" 0 g]> (groups d)) d, ())
  | None => Ok (d, ())
  end.
Definition upd_group_deleted (cgID : string) (t : Z) : stmt unit := fun d =>
  match live_group cgID d with
  | Some g => Ok (with_groups (<[cgID := group_deleted t g]> (groups d)) d, ())
  | None => Ok (d, ())
  end.

(** [SET next_node_number = next_node_number + 1 ... RETURNING
    next_node_number - 1], scanned into an int32. *)
Definition upd_assign_number (cgID : string) : stmt Z := fun d =>
  match groups d !! cgID with
  | Some g =>
      let n := g_next_node_number g in
      if int32_ok n
      then Ok (with_groups (<[cgID := group_next (n + 1) g]> (groups d)) d, n)
      else Err ScanOutOfRange
  | None => Err ErrNoRows
  end.

(** The unique index covers the live groups that have an association key. *)
Definition association_taken (key : string) (d : DB) : bool :=
  bool_decide (map_Exists (fun _ g => g_live g = true /\ g_association_key g = Some key) (groups d)).
Definition ins_group (id : string) (name assoc : option string) (createdAt : Z) : stmt unit := fun d =>
  if decide (is_Some (groups d !! id)) then Err ConstraintPrimaryKey
  else if (match assoc with Some key => association_taken key d | None => false end)
  then Err ConstraintUnique
  else Ok (with_groups (<[id := {| g_name := name; g_association_key := assoc;
             g_next_node_number := 1; g_roster := ""; g_roster_version := 0;
             g_created_at_millis := createdAt; g_deleted_at_millis := None |}]> (groups d)) d, ()).

Definition count_groups : stmt Z :=
  query_count (fun d => size (filter (fun e => g_live e.2 = true) (groups d))).
(** [ORDER BY created_at_millis]; groups of one millisecond in any order. *)
Definition created_before (a b : string * GroupRow) : Prop :=
  g_created_at_millis a.2 <= g_created_at_millis b.2.
#[export] Instance created_before_dec : RelDecision created_before.
Proof. intros a b. unfold created_before. apply _. Defined.
Definition sel_groups (assoc : option string) : stmt (list (string * GroupRow)) :=
  query (fun d =>
    let live := map_to_list (filter (fun e => g_live e.2 = true) (groups d)) in
    match assoc with
    | Some key => filter (fun e => g_association_key e.2 = Some key) live
    | None => merge_sort created_before live
    end).

(** *** Nodes *)

Definition live_node (cgID : string) (n : Z) (d : DB) : option NodeRow :=
  row ← nodes d !! (cgID, n);
  if nd_live row then Some row else None.
Definition sel_node (cgID : string) (n : Z) : stmt NodeRow := query_row (live_node cgID n).

Definition number_before (a b : Z * NodeRow) : Prop := a.1 <= b.1.
#[export] Instance number_before_dec : RelDecision number_before.
Proof. intros a b. unfold number_before. apply _. Defined.
Definition live_nodes (cgID : string) (d : DB) : list (Z * NodeRow) :=
  merge_sort number_before
    (omap (fun e => if bool_decide (e.1.1 = cgID) && nd_live e.2 then Some (e.1.2, e.2) else None)
       (map_to_list (nodes d))).
(** The node numbers are scanned into int32s. *)
Definition sel_nodes (cgID : string) : stmt (list (Z * NodeRow)) := fun d =>
  if forallb (fun e => int32_ok e.1) (live_nodes cgID d) then Ok (d, live_nodes cgID d)
  else Err ScanOutOfRange.

Definition ins_node (cgID : string) (n : Z) (row : NodeRow) : stmt unit := fun d =>
  if decide (is_Some (nodes d !! (cgID, n))) then Err ConstraintPrimaryKey
  else if decide (groups d !! cgID = None) then Err ConstraintForeignKey
  else Ok (with_nodes (<[(cgID, n) := row]> (nodes d)) d, ()).

(** [UPDATE nodes SET ... WHERE connectivity_group_id = ? AND node_number = ?] *)
Definition upd_node (cgID : string) (n : Z) (f : NodeRow -> NodeRow) : stmt unit := fun d =>
  Ok (with_nodes (alter f (cgID, n) (nodes d)) d, ()).
(** The same with [AND deleted_at_millis IS NULL]; the number of rows affected. *)
Definition upd_live_node (cgID : string) (n : Z) (f : NodeRow -> NodeRow) : stmt Z := fun d =>
  match live_node cgID n d with
  | Some row => Ok (with_nodes (<[(cgID, n) := f row]> (nodes d)) d, 1)
  | None => Ok (d, 0)
  end.
(** [SET deleted_at_millis = ?] for all live nodes of a group. *)
Definition upd_nodes_deleted (cgID : string) (t : Z) : stmt unit := fun d =>
  Ok (with_nodes (map_imap (fun key row =>
    Some (if bool_decide (key.1 = cgID) && nd_live row then node_deleted t row else row)) (nodes d)) d,
    ()).

(** *** Registration tokens *)

(** The join with the group, which must not be deleted. *)
Definition token_valid (d : DB) (hash : string) (nowMillis : Z) (k : TokenRow) : Prop :=
  tk_token_hash k = hash /\ tk_used_at_millis k = None /\ nowMillis < tk_expires_at_millis k /\
  is_Some (live_group (tk_group k) d).
#[export] Instance token_valid_dec d hash now k : Decision (token_valid d hash now k).
Proof. unfold token_valid. apply _. Defined.
Definition sel_token (hash : string) (nowMillis : Z) : stmt TokenRow :=
  query_row (fun d => snd <$> list_find (token_valid d hash nowMillis) (tokens d)).
Definition upd_token_used (id : string) (t : Z) : stmt unit := fun d =>
  Ok (with_tokens ((fun k => if decide (tk_id k = id) then token_used t k else k) <$> tokens d) d, ()).
Definition ins_token (k : TokenRow) : stmt unit := fun d =>
  if decide (tk_id k ∈ tk_id <$> tokens d) then Err ConstraintPrimaryKey
  else if decide (groups d !! tk_group k = None) then Err ConstraintForeignKey
  else Ok (with_tokens (tokens d ++ [k]) d, ()).

Definition token_pending (nowMillis : Z) (k : TokenRow) : bool :=
  bool_decide (tk_used_at_millis k = None) && (nowMillis <? tk_expires_at_millis k).
Definition count_pending (cgID : string) (nowMillis : Z) : stmt Z :=
  query_count (fun d => length (filter (fun k =>
    tk_group k = cgID /\ token_pending nowMillis k = true) (tokens d))).
Definition newer (a b : TokenRow) : Prop := tk_created_at_millis b <= tk_created_at_millis a.
#[export] Instance newer_dec : RelDecision newer.
Proof. intros a b. unfold newer. apply _. Defined.
Definition sel_tokens (cgID : string) (nowMillis since : Z) : stmt (list TokenRow) :=
  query (fun d => merge_sort newer (filter (fun k => tk_group k = cgID /\
    (token_pending nowMillis k = true \/ since <= tk_created_at_millis k)) (tokens d))).

(** *** Activity *)

Definition ins_activity (row : ActivityRow) : stmt unit := fun d =>
  Ok (with_activity (activity d ++ [row]) d, ()).
Definition count_activity (cgID : string) (since : Z) : stmt Z :=
  query_count (fun d => length (filter (fun a =>
    al_group a = cgID /\ al_event_type a = "start-connection" /\ al_success a = true /\
    since <= al_created_at_millis a) (activity d))).

(** *** API keys and the hub's own state *)

Definition sel_api_key (id : string) : stmt ApiKeyRow := query_row (fun d => api_keys d !! id).
Definition count_api_keys : stmt Z :=
  query (fun d => Z.of_nat (size (filter (fun e => ak_revoked_at_millis e.2 = None) (api_keys d)))).
Definition ins_api_key (id : string) (row : ApiKeyRow) : stmt unit := fun d =>
  if decide (is_Some (api_keys d !! id)) then Err ConstraintPrimaryKey
  else Ok (with_api_keys (<[id := row]> (api_keys d)) d, ()).
Definition sel_meta (key : string) : stmt string := query_row (fun d => meta d !! key).
Definition ins_meta (key value : string) : stmt unit := fun d =>
  if decide (is_Some (meta d !! key)) then Err ConstraintPrimaryKey
  else Ok (with_meta (<[key := value]> (meta d)) d, ()).
