(* ===== verification/StoreInv.v ===== *)
(** * Invariants of the database

    [db_step] is one atomic change of the database: a statement, or the
    registration transaction. Every handler is a sequence of them (see
    Backend.v and AdminApi.v), and any interleaving of handlers is one too, so
    what is shown here of [rtc db_step] holds whatever runs concurrently. *)
From S2P Require Import Prelude GoStrings Store.
Open Scope Z_scope.

Section store_inv.
(** The form of the ids that groups are created with. *)
Context (canonical : string -> Prop).

Definition new_node (k : TokenRow) (authHash : string) (t : Z) : NodeRow :=
  {| nd_name := tk_node_name k; nd_auth_token_hash := authHash;
     nd_metadata := tk_node_metadata k; nd_last_seen_at_millis := None;
     nd_created_at_millis := t; nd_deleted_at_millis := None |}.

(** ** Atomic changes *)

(** The statements of CompleteNodeRegistration between BEGIN and COMMIT. *)
Definition registers (d : DB) (hash : string) (nowMillis : Z) (authHash : string)
    (k : TokenRow) (n : Z) (d' : DB) : Prop :=
  exists t1 t2 d1 d2,
    sel_token hash nowMillis d = Ok (d, k) /\
    upd_assign_number (tk_group k) d = Ok (d1, n) /\
    ins_node (tk_group k) n (new_node k authHash t1) d1 = Ok (d2, tt) /\
    upd_token_used (tk_id k) t2 d2 = Ok (d', tt).

Inductive db_step : DB -> DB -> Prop :=
| step_register hash now authHash k n d d' :
    registers d hash now authHash k n d' -> db_step d d'
| step_roster cg roster newV expV r d d' :
    expV < newV -> upd_roster cg roster newV expV d = Ok (d', r) -> db_step d d'
| step_last_seen cg n t d d' :
    upd_node cg n (node_last_seen t) d = Ok (d', tt) -> db_step d d'
| step_node_deleted cg n t d d' :
    upd_node cg n (node_deleted t) d = Ok (d', tt) -> db_step d d'
| step_live_node_deleted cg n t r d d' :
    upd_live_node cg n (node_deleted t) d = Ok (d', r) -> db_step d d'
| step_node_name cg n s r d d' :
    upd_live_node cg n (node_name s) d = Ok (d', r) -> db_step d d'
| step_nodes_deleted cg t d d' :
    upd_nodes_deleted cg t d = Ok (d', tt) -> db_step d d'
| step_group_deleted cg t d d' :
    upd_group_deleted cg t d = Ok (d', tt) -> db_step d d'
| step_group_reset cg d d' :
    upd_group_reset cg d = Ok (d', tt) -> db_step d d'
| step_group id name assoc t d d' :
    canonical id -> ins_group id name assoc t d = Ok (d', tt) -> db_step d d'
| step_token k d d' :
    tk_used_at_millis k = None -> ins_token k d = Ok (d', tt) -> db_step d d'
| step_activity row d d' :
    ins_activity row d = Ok (d', tt) -> db_step d d'
| step_api_key id row d d' :
    ins_api_key id row d = Ok (d', tt) -> db_step d d'
| step_meta key value d d' :
    ins_meta key value d = Ok (d', tt) -> db_step d d'.

(** ** The state invariant *)

Record wf_db (d : DB) : Prop := {
  wf_groups cg g : groups d !! cg = Some g ->
    canonical cg /\ 1 <= g_next_node_number g <= 2 ^ 31 /\ 0 <= g_roster_version g;
  (** numbers above the counter are free *)
  wf_nodes cg n row : nodes d !! (cg, n) = Some row ->
    exists g, groups d !! cg = Some g /\ 1 <= n < g_next_node_number g;
  wf_tokens k : k ∈ tokens d -> is_Some (groups d !! tk_group k);
  wf_token_ids : NoDup (tk_id <$> tokens d);
  (** association keys are unique among live groups *)
  wf_association cg1 cg2 g1 g2 key :
    live_group cg1 d = Some g1 -> live_group cg2 d = Some g2 ->
    g_association_key g1 = Some key -> g_association_key g2 = Some key -> cg1 = cg2
}.

(** ** What no change undoes *)

Definition group_evolves (g g' : GroupRow) : Prop :=
  g_association_key g' = g_association_key g /\ g_name g' = g_name g /\
  g_created_at_millis g' = g_created_at_millis g /\
  g_next_node_number g <= g_next_node_number g' /\
  (is_Some (g_deleted_at_millis g) -> g_deleted_at_millis g' = g_deleted_at_millis g).
Definition node_evolves (n n' : NodeRow) : Prop :=
  nd_auth_token_hash n' = nd_auth_token_hash n /\ nd_metadata n' = nd_metadata n /\
  nd_created_at_millis n' = nd_created_at_millis n /\
  (is_Some (nd_deleted_at_millis n) -> is_Some (nd_deleted_at_millis n')).
Definition token_evolves (k k' : TokenRow) : Prop :=
  tk_id k' = tk_id k /\ tk_group k' = tk_group k /\ tk_token_hash k' = tk_token_hash k /\
  tk_node_name k' = tk_node_name k /\ tk_node_metadata k' = tk_node_metadata k /\
  tk_created_at_millis k' = tk_created_at_millis k /\
  tk_expires_at_millis k' = tk_expires_at_millis k /\
  (is_Some (tk_used_at_millis k) -> is_Some (tk_used_at_millis k')).

Record evolves (d d' : DB) : Prop := {
  ev_groups cg g : groups d !! cg = Some g ->
    exists g', groups d' !! cg = Some g' /\ group_evolves g g';
  ev_nodes key n : nodes d !! key = Some n ->
    exists n', nodes d' !! key = Some n' /\ node_evolves n n';
  ev_tokens i k : tokens d !! i = Some k ->
    exists k', tokens d' !! i = Some k' /\ token_evolves k k';
  ev_activity i a : activity d !! i = Some a -> activity d' !! i = Some a;
  ev_api_keys id row : api_keys d !! id = Some row -> api_keys d' !! id = Some row;
  ev_meta key v : meta d !! key = Some v -> meta d' !! key = Some v
}.
End store_inv.

(** * Lemmas *)

Section rows.
Lemma g_live_true g : g_live g = true <-> g_deleted_at_millis g = None.
Proof. apply bool_decide_eq_true. Qed.
Lemma nd_live_true n : nd_live n = true <-> nd_deleted_at_millis n = None.
Proof. apply bool_decide_eq_true. Qed.
Lemma live_group_Some cg d g :
  live_group cg d = Some g <-> groups d !! cg = Some g /\ g_deleted_at_millis g = None.
Proof.
  unfold live_group. rewrite bind_Some. setoid_rewrite <-g_live_true. split.
  - intros (g' & Hg & Hl). destruct (g_live g') eqn:?; naive_solver.
  - intros [Hg Hl]. exists g. by rewrite Hl.
Qed.
Lemma live_node_Some cg n d row :
  live_node cg n d = Some row <-> nodes d !! (cg, n) = Some row /\ nd_deleted_at_millis row = None.
Proof.
  unfold live_node. rewrite bind_Some. setoid_rewrite <-nd_live_true. split.
  - intros (r & Hr & Hl). destruct (nd_live r) eqn:?; naive_solver.
  - intros [Hr Hl]. exists row. by rewrite Hl.
Qed.
(** The token a valid submission selects. *)
Lemma sel_token_Ok hash now d d' k :
  sel_token hash now d = Ok (d', k) -> d' = d /\ k ∈ tokens d /\ token_valid d hash now k.
Proof.
  unfold sel_token, query_row. destruct (list_find _ (tokens d)) as [[i k']|] eqn:Hf; [|done].
  cbn. intros [= <- <-]. apply list_find_Some in Hf as (Hi & Hv & _).
  split; [done|]. split; [|done]. by eapply list_elem_of_lookup_2.
Qed.
Lemma sel_token_none hash now d :
  sel_token hash now d = Err ErrNoRows <-> forall k, k ∈ tokens d -> ~ token_valid d hash now k.
Proof.
  unfold sel_token, query_row. destruct (list_find _ (tokens d)) as [[i k']|] eqn:Hf; cbn.
  - split; [done|]. intros Hno. apply list_find_Some in Hf as (Hi & Hv & _).
    destruct (Hno k'); [by eapply list_elem_of_lookup_2|done].
  - split; [|done]. intros _. apply list_find_None in Hf. by rewrite Forall_forall in Hf.
Qed.

#[export] Instance group_evolves_pre : PreOrder group_evolves.
Proof.
  split.
  - intros g. unfold group_evolves. split_and!; try done; lia.
  - intros a b c (?&?&?&?&E1) (?&?&?&?&E2). unfold group_evolves. split_and!; try congruence; try lia.
    intros Hd. rewrite E2; auto. by rewrite E1.
Qed.
#[export] Instance node_evolves_pre : PreOrder node_evolves.
Proof.
  split.
  - intros n. by unfold node_evolves.
  - intros a b c (?&?&?&?) (?&?&?&?). unfold node_evolves. split_and!; try congruence. auto.
Qed.
#[export] Instance token_evolves_pre : PreOrder token_evolves.
Proof.
  split.
  - intros n. by unfold token_evolves.
  - intros a b c (?&?&?&?&?&?&?&?) (?&?&?&?&?&?&?&?). unfold token_evolves.
    split_and!; try congruence. auto.
Qed.
#[export] Instance evolves_pre : PreOrder evolves.
Proof.
  split.
  - intros d. split; try done; intros; eexists; (split; [done|reflexivity]).
  - intros a b c [G1 N1 T1 A1 K1 M1] [G2 N2 T2 A2 K2 M2]. split; auto.
    + intros cg g (g1 & Hg1 & E1)%G1. destruct (G2 _ _ Hg1) as (g2 & ? & ?). exists g2. by split; [|etrans].
    + intros k n (n1 & Hn1 & E1)%N1. destruct (N2 _ _ Hn1) as (n2 & ? & ?). exists n2. by split; [|etrans].
    + intros i k (k1 & Hk1 & E1)%T1. destruct (T2 _ _ Hk1) as (k2 & ? & ?). exists k2. by split; [|etrans].
Qed.

(** Changes of one table. *)
Lemma evolves_group d cg g g' :
  groups d !! cg = Some g -> group_evolves g g' ->
  evolves d (with_groups (<[cg := g']> (groups d)) d).
Proof.
  intros Hg He. split; cbn; try done; try (intros; eexists; (split; [done|reflexivity])).
  intros cg1 g1 Hg1. destruct (decide (cg1 = cg)) as [->|].
  - rewrite lookup_insert_eq. simplify_eq. eauto.
  - rewrite lookup_insert_ne by done. eexists. by split; [|reflexivity].
Qed.
Lemma evolves_new_group d cg g' :
  groups d !! cg = None -> evolves d (with_groups (<[cg := g']> (groups d)) d).
Proof.
  intros Hg. split; cbn; try done; try (intros; eexists; (split; [done|reflexivity])).
  intros cg1 g1 Hg1. rewrite lookup_insert_ne by congruence. eexists. by split; [|reflexivity].
Qed.
Lemma evolves_nodes d m :
  (forall key n, nodes d !! key = Some n -> exists n', m !! key = Some n' /\ node_evolves n n') ->
  evolves d (with_nodes m d).
Proof. intros Hm. split; cbn; try done; intros; eexists; (split; [done|reflexivity]). Qed.
Lemma evolves_tokens d l :
  (forall i k, tokens d !! i = Some k -> exists k', l !! i = Some k' /\ token_evolves k k') ->
  evolves d (with_tokens l d).
Proof. intros Hm. split; cbn; try done; intros; eexists; (split; [done|reflexivity]). Qed.

Lemma node_deleted_evolves t n : node_evolves n (node_deleted t n).
Proof. by unfold node_evolves. Qed.
Lemma node_last_seen_evolves t n : node_evolves n (node_last_seen t n).
Proof. by unfold node_evolves. Qed.
Lemma node_name_evolves s n : node_evolves n (node_name s n).
Proof. by unfold node_evolves. Qed.
Lemma token_used_evolves t k : token_evolves k (token_used t k).
Proof. by unfold token_evolves. Qed.
End rows.
#[export] Hint Resolve node_deleted_evolves node_last_seen_evolves node_name_evolves
  token_used_evolves : hub.

Section preservation.
Context (canonical : string -> Prop).
Notation wf := (wf_db canonical).

(** ** The state invariant after a change of one table *)

Lemma wf_group_update d cg g g' :
  wf d -> groups d !! cg = Some g -> group_evolves g g' ->
  g_next_node_number g' <= 2 ^ 31 -> 0 <= g_roster_version g' ->
  wf (with_groups (<[cg := g']> (groups d)) d).
Proof.
  intros [Hg Hn Ht Hi Ha] Hcg (Eas & _ & _ & Enext & Edel) Hmax Hver.
  destruct (Hg cg g Hcg) as (Hcan & Hnext & _).
  assert (forall cg1 g1, live_group cg1 (with_groups (<[cg := g']> (groups d)) d) = Some g1 ->
    exists g0, live_group cg1 d = Some g0 /\ g_association_key g0 = g_association_key g1) as Hlive.
  { intros cg1 g1 [H1 Hl1]%live_group_Some. cbn in H1.
    apply lookup_insert_Some in H1 as [[<- <-]|[Hne H1]].
    - exists g. split; [|done]. apply live_group_Some. split; [done|].
      destruct (g_deleted_at_millis g) eqn:Hd; [|done]. rewrite Edel in Hl1; [congruence|by eexists].
    - exists g1. split; [|done]. by apply live_group_Some. }
  split; cbn.
  - intros cg1 g1 [[<- <-]|[_ H1]]%lookup_insert_Some; [|by apply Hg]. split_and!; [done|lia..].
  - intros cg1 n row Hrow. destruct (Hn _ _ _ Hrow) as (g1 & Hg1 & Hr).
    destruct (decide (cg1 = cg)) as [->|].
    + rewrite lookup_insert_eq. exists g'. split; [done|]. simplify_eq. lia.
    + rewrite lookup_insert_ne by done. eauto.
  - intros k Hk. destruct (Ht k Hk) as [x Hx]. destruct (decide (tk_group k = cg)) as [->|].
    + rewrite lookup_insert_eq. eauto.
    + rewrite lookup_insert_ne by done. eauto.
  - done.
  - intros cg1 cg2 g1 g2 key (h1 & H1 & K1)%Hlive (h2 & H2 & K2)%Hlive ? ?.
    apply (Ha cg1 cg2 h1 h2 key); congruence.
Qed.
Lemma wf_nodes_update d m :
  wf d -> (forall cg n row, m !! (cg, n) = Some row -> is_Some (nodes d !! (cg, n)) \/
    exists g, groups d !! cg = Some g /\ 1 <= n < g_next_node_number g) ->
  wf (with_nodes m d).
Proof.
  intros [Hg Hn Ht Hi Ha] Hm. split; cbn; try done.
  intros cg n row Hrow. destruct (Hm _ _ _ Hrow) as [[r Hr]|?]; eauto.
Qed.
Lemma wf_tokens_update d l :
  wf d -> tk_id <$> l = tk_id <$> tokens d -> tk_group <$> l = tk_group <$> tokens d ->
  wf (with_tokens l d).
Proof.
  intros [Hg Hn Ht Hi Ha] Hids Hgs. split; cbn; try done.
  - intros k Hk. assert (tk_group k ∈ tk_group <$> tokens d) as Hin.
    { rewrite <-Hgs. apply list_elem_of_fmap. eauto. }
    apply list_elem_of_fmap in Hin as (k' & -> & Hk'). auto.
  - congruence.
Qed.
End preservation.

Section steps.
Context (canonical : string -> Prop).
Notation wf := (wf_db canonical).
(** A change that keeps the invariant and undoes nothing. *)
Notation good d d' := (wf d -> wf d' /\ evolves d d').

Lemma good_group_update d cg g g' :
  groups d !! cg = Some g -> group_evolves g g' ->
  g_next_node_number g' <= 2 ^ 31 -> 0 <= g_roster_version g' ->
  good d (with_groups (<[cg := g']> (groups d)) d).
Proof. intros. split; [by eapply wf_group_update|by eapply evolves_group]. Qed.

(** Statements that rewrite existing nodes. *)
Lemma good_nodes_update d m :
  (forall key, is_Some (m !! key) -> is_Some (nodes d !! key)) ->
  (forall key n, nodes d !! key = Some n -> exists n', m !! key = Some n' /\ node_evolves n n') ->
  good d (with_nodes m d).
Proof.
  intros Hdom Hev Hwf. split; [|by apply evolves_nodes].
  apply wf_nodes_update; [done|]. intros cg n row Hrow. left. apply Hdom. eauto.
Qed.
Lemma good_upd_node cg n f d d' :
  (forall r, node_evolves r (f r)) -> upd_node cg n f d = Ok (d', tt) -> good d d'.
Proof.
  intros Hf [= <-]. apply good_nodes_update.
  - intros key [x Hx]. destruct (decide (key = (cg, n))) as [->|].
    + rewrite lookup_alter_eq in Hx. by destruct (nodes d !! (cg, n)).
    + rewrite lookup_alter_ne in Hx by done. eauto.
  - intros key r Hr. destruct (decide (key = (cg, n))) as [->|].
    + rewrite lookup_alter_eq, Hr. cbn. eauto.
    + rewrite lookup_alter_ne by done. eexists. by split; [|reflexivity].
Qed.
Lemma good_upd_live_node cg n f r d d' :
  (forall r, node_evolves r (f r)) -> upd_live_node cg n f d = Ok (d', r) -> good d d'.
Proof.
  intros Hf. unfold upd_live_node. destruct (live_node cg n d) as [row|] eqn:Hl; intros [= <- <-]; [|done].
  apply live_node_Some in Hl as [Hrow _]. apply good_nodes_update.
  - intros key [x Hx]. destruct (decide (key = (cg, n))) as [->|]; [eauto|].
    rewrite lookup_insert_ne in Hx by done. eauto.
  - intros key r Hr. destruct (decide (key = (cg, n))) as [->|].
    + rewrite lookup_insert_eq. simplify_eq. eauto.
    + rewrite lookup_insert_ne by done. eexists. by split; [|reflexivity].
Qed.
Lemma good_nodes_deleted cg t d d' : upd_nodes_deleted cg t d = Ok (d', tt) -> good d d'.
Proof.
  intros [= <-]. apply good_nodes_update.
  - intros key [x Hx]. rewrite map_lookup_imap in Hx. by destruct (nodes d !! key).
  - intros key r Hr. rewrite map_lookup_imap, Hr. cbn. eexists. split; [done|].
    destruct (_ && _); [apply node_deleted_evolves|reflexivity].
Qed.

Lemma good_roster cg roster newV expV r d d' :
  expV < newV -> upd_roster cg roster newV expV d = Ok (d', r) -> good d d'.
Proof.
  intros Hlt. unfold upd_roster. destruct (live_group cg d) as [g|] eqn:Hl; [|by intros [= <- <-]].
  destruct (Z.eqb_spec (g_roster_version g) expV) as [Hv|]; intros [= <- <-]; [|done].
  intros Hwf. apply live_group_Some in Hl as [Hg _].
  destruct (wf_groups _ _ Hwf _ _ Hg) as (_ & ? & ?).
  eapply good_group_update; [done| | | |done]; cbn; [split_and!; by try lia|lia..].
Qed.
Lemma good_group_reset cg d d' : upd_group_reset cg d = Ok (d', tt) -> good d d'.
Proof.
  unfold upd_group_reset. destruct (live_group cg d) as [g|] eqn:Hl; intros [= <-]; [|done].
  intros Hwf. apply live_group_Some in Hl as [Hg _].
  destruct (wf_groups _ _ Hwf _ _ Hg) as (_ & ? & ?).
  eapply good_group_update; [done| | | |done]; cbn; [split_and!; by try lia|lia..].
Qed.
Lemma good_group_deleted cg t d d' : upd_group_deleted cg t d = Ok (d', tt) -> good d d'.
Proof.
  unfold upd_group_deleted. destruct (live_group cg d) as [g|] eqn:Hl; intros [= <-]; [|done].
  intros Hwf. apply live_group_Some in Hl as [Hg Hd].
  destruct (wf_groups _ _ Hwf _ _ Hg) as (_ & ? & ?).
  eapply good_group_update; [done| | | |done]; cbn; [|lia..].
  split_and!; cbn; try done. rewrite Hd. by intros [? ?].
Qed.

Lemma good_ins_group id name assoc t d d' :
  canonical id -> ins_group id name assoc t d = Ok (d', tt) -> good d d'.
Proof.
  intros Hcan. unfold ins_group. case_decide as Hex; [done|].
  destruct (match assoc with Some _ => _ | None => _ end) eqn:Htaken; [done|].
  intros [= <-] [Hg Hn Ht Hi Ha].
  assert (groups d !! id = None) as Hnone by by apply eq_None_not_Some.
  split; [|by apply evolves_new_group].
  set (d' := with_groups _ d).
  assert (forall cg g key, live_group cg d' = Some g -> g_association_key g = Some key ->
    (cg = id /\ assoc = Some key) \/ live_group cg d = Some g) as Hlive.
  { intros cg g key [H1 Hl]%live_group_Some Hkey. cbn in H1.
    apply lookup_insert_Some in H1 as [[<- <-]|[_ H1]]; [by left|]. right. by apply live_group_Some. }
  assert (forall cg g key, live_group cg d = Some g -> g_association_key g = Some key ->
    assoc <> Some key) as Hfree.
  { intros cg g key [H1 Hl]%live_group_Some Hkey ->.
    apply bool_decide_eq_false in Htaken. apply Htaken. exists cg, g.
    split; [done|]. split; [by apply g_live_true|done]. }
  split; cbn.
  - intros cg g [[<- <-]|[_ H1]]%lookup_insert_Some; [|by apply Hg]. split_and!; [done|cbn; lia..].
  - intros cg n row Hrow. destruct (Hn _ _ _ Hrow) as (g & Hg' & ?). exists g.
    by rewrite lookup_insert_ne by congruence.
  - intros k Hk. destruct (Ht k Hk) as [x Hx]. exists x. by rewrite lookup_insert_ne by congruence.
  - done.
  - intros cg1 cg2 g1 g2 key H1 H2 K1 K2.
    destruct (Hlive _ _ _ H1 K1) as [[-> Hk1]|L1], (Hlive _ _ _ H2 K2) as [[-> Hk2]|L2];
      [done|by destruct (Hfree _ _ _ L2 K2)|by destruct (Hfree _ _ _ L1 K1)|by eapply Ha].
Qed.
Lemma good_ins_token k d d' : ins_token k d = Ok (d', tt) -> good d d'.
Proof.
  unfold ins_token. case_decide as Hid; [done|]. case_decide as Hg; [done|].
  intros [= <-] Hwf. split.
  - destruct Hwf as [Hgs Hn Ht Hi Ha]. split; cbn; try done.
    + intros k' [Hk'| ->%list_elem_of_singleton]%elem_of_app; [by apply Ht|].
      by apply not_eq_None_Some.
    + rewrite fmap_app. apply NoDup_app. split_and!; [done| |apply NoDup_singleton].
      intros x Hx ->%list_elem_of_singleton. done.
  - apply evolves_tokens. intros i k' Hk'. exists k'. split; [|reflexivity]. by apply lookup_app_l_Some.
Qed.
Lemma good_ins_activity row d d' : ins_activity row d = Ok (d', tt) -> good d d'.
Proof.
  intros [= <-] [? ? ? ? ?]. split; [done|]. split; cbn; try done;
    try (intros; eexists; (split; [done|reflexivity])).
  intros. by apply lookup_app_l_Some.
Qed.
Lemma good_ins_api_key id row d d' : ins_api_key id row d = Ok (d', tt) -> good d d'.
Proof.
  unfold ins_api_key. case_decide as Hid; [done|]. intros [= <-] [? ? ? ? ?]. split; [done|].
  split; cbn; try done; try (intros; eexists; (split; [done|reflexivity])).
  intros id' r Hr. rewrite lookup_insert_ne; [done|]. intros ->. apply Hid. eauto.
Qed.
Lemma good_ins_meta key v d d' : ins_meta key v d = Ok (d', tt) -> good d d'.
Proof.
  unfold ins_meta. case_decide as Hid; [done|]. intros [= <-] [? ? ? ? ?]. split; [done|].
  split; cbn; try done; try (intros; eexists; (split; [done|reflexivity])).
  intros id' r Hr. rewrite lookup_insert_ne; [done|]. intros ->. apply Hid. eauto.
Qed.
End steps.

Section registration.
Context (canonical : string -> Prop).
Notation wf := (wf_db canonical).

(** What the registration transaction did. *)
Record registered (d : DB) (hash : string) (now : Z) (authHash : string) (k : TokenRow) (n : Z)
    (d' : DB) : Prop := {
  rg_token : k ∈ tokens d /\ token_valid d hash now k;
  rg_number : exists g, live_group (tk_group k) d = Some g /\ n = g_next_node_number g /\
    groups d' = <[tk_group k := group_next (n + 1) g]> (groups d);
  rg_int32 : int32_ok n = true;
  rg_free : nodes d !! (tk_group k, n) = None;
  rg_node : exists t, nodes d' = <[(tk_group k, n) := new_node k authHash t]> (nodes d);
  rg_used : exists t, tokens d' =
    (fun k' => if decide (tk_id k' = tk_id k) then token_used t k' else k') <$> tokens d;
  rg_rest : meta d' = meta d /\ api_keys d' = api_keys d /\ activity d' = activity d
}.

Lemma registers_registered d hash now authHash k n d' :
  registers d hash now authHash k n d' -> registered d hash now authHash k n d'.
Proof.
  intros (t1 & t2 & d1 & d2 & (_ & Hin & Hv)%sel_token_Ok & Hnum & Hins & Hused).
  destruct Hv as (Hh & Hu & Hexp & [g Hg]). pose proof Hg as [Hgrow _]%live_group_Some.
  unfold upd_assign_number in Hnum. rewrite Hgrow in Hnum.
  destruct (int32_ok _) eqn:H32; [|done]. injection Hnum as <- <-.
  unfold ins_node in Hins. cbn [nodes groups with_groups] in Hins.
  case_decide as Hfree; [done|]. case_decide; [done|]. injection Hins as <-.
  injection Hused as <-. split; cbn.
  - split; [done|]. split_and!; [done..|eauto].
  - by exists g.
  - done.
  - by apply eq_None_not_Some.
  - by exists t1.
  - by exists t2.
  - done.
Qed.

Lemma good_registers d hash now authHash k n d' :
  registers d hash now authHash k n d' -> wf d -> wf d' /\ evolves d d'.
Proof.
  intros [[Hk Hv] (g & Hl & Hn & Hgs) H32 Hfree [t1 Hns] [t2 Hts] (Hm & Ha & Hac)]%registers_registered Hwf.
  apply live_group_Some in Hl as [Hg _]. destruct (wf_groups _ _ Hwf _ _ Hg) as (_ & Hnext & Hver).
  unfold int32_ok in H32.
  set (d1 := with_groups (<[tk_group k := group_next (n + 1) g]> (groups d)) d).
  set (d2 := with_nodes (<[(tk_group k, n) := new_node k authHash t1]> (nodes d1)) d1).
  set (l := (fun k' => if decide (tk_id k' = tk_id k) then token_used t2 k' else k') <$> tokens d).
  assert (d' = with_tokens l d2) as ->.
  { destruct d'. cbn in *. subst. done. }
  destruct (good_group_update canonical d (tk_group k) g (group_next (n + 1) g)) as [Hwf1 Hev1];
    [done| |cbn; lia|cbn; lia|done|].
  { unfold group_evolves. split_and!; cbn; try done; lia. }
  assert (wf d2) as Hwf2.
  { apply wf_nodes_update; [done|]. intros cg m row [[[= <- <-] _]|[_ ?]]%lookup_insert_Some; [|left; eauto].
    right. eexists. split; [apply lookup_insert_eq|]. cbn. lia. }
  assert (evolves d1 d2) as Hev2.
  { apply evolves_nodes. intros key r Hr. exists r. split; [|reflexivity].
    rewrite lookup_insert_ne; [done|]. intros <-. cbn in Hr. congruence. }
  split.
  - apply wf_tokens_update; [done| |]; cbn; unfold l; rewrite <-list_fmap_compose; apply list_fmap_ext;
      intros; cbn; by case_decide.
  - etrans; [exact Hev1|]. etrans; [exact Hev2|]. apply evolves_tokens. intros i x Hx.
    cbn in Hx. unfold l. rewrite list_lookup_fmap, Hx. cbn. eexists. split; [done|].
    case_decide; [apply token_used_evolves|reflexivity].
Qed.

(** ** Every change is good *)

Lemma step_good d d' : db_step canonical d d' -> wf d -> wf d' /\ evolves d d'.
Proof.
  destruct 1; eauto using good_registers, good_roster, good_upd_node, good_upd_live_node,
    good_nodes_deleted, good_group_deleted, good_group_reset, good_ins_group, good_ins_token,
    good_ins_activity, good_ins_api_key, good_ins_meta, node_deleted_evolves,
    node_last_seen_evolves, node_name_evolves.
Qed.
Lemma steps_good d d' : rtc (db_step canonical) d d' -> wf d -> wf d' /\ evolves d d'.
Proof.
  induction 1 as [d|d d1 d2 Hs _ IH]; intros Hwf; [by split|].
  destruct (step_good _ _ Hs Hwf) as [Hwf1 Hev1]. destruct (IH Hwf1) as [Hwf2 Hev2].
  split; [done|]. by etrans.
Qed.
Lemma wf_emptyDB : wf emptyDB.
Proof.
  split; cbn; try (intros *; by rewrite lookup_empty).
  - intros k []%not_elem_of_nil.
  - constructor.
  - intros cg1 cg2 g1 g2 key [H1 _]%live_group_Some. cbn in H1. by rewrite lookup_empty in H1.
Qed.
End registration.
#[export] Hint Resolve wf_emptyDB : hub.
