(* ===== verification/Attestation.v ===== *)
(** * Attestation tokens: connect/shared/attestation.go

    The claims of the JWT that attests a node's group and number. Signing
    itself, PEM and PKCS#8 are libraries, listed in the class [JwtLib]. *)
From S2P Require Import Prelude GoStrings GoTime.
Open Scope Z_scope.

(** A private key is known by what the libraries do with it. *)
Record claims := { iss : string; sub : string; node_number : Z; iat : Z }.
Class JwtLib := {
  PrivateKey : Type;
  (** a parsed key that is not an Ed25519 one, by the name of its type *)
  pem_Decode : string -> option string;
  ParsePKCS8PrivateKey : string -> result string (PrivateKey + string);
  (** [jwt.NewWithClaims(EdDSA, claims)] with the header [kid], signed *)
  SignedString : PrivateKey -> string -> claims -> result string string
}.

Section attestation.
Context `{JwtLib}.

Record Signer := { s_key : PrivateKey; s_kid : string; s_issuer : string }.
Definition NewSigner (key : PrivateKey) (kid issuer : string) : Signer :=
  {| s_key := key; s_kid := kid; s_issuer := issuer |}.

Inductive signerError :=
| errReadPrivateKey (msg : string)
| errNoPEMBlock
| errParsePrivateKey (msg : string)
| errNotEd25519 (keyType : string).

(** What follows the reading of a key, in [LoadSigner] and in the hub's state. *)
Definition keyOfPEM (data : string) : result signerError PrivateKey :=
  match pem_Decode data with
  | None => Err errNoPEMBlock
  | Some block =>
      match ParsePKCS8PrivateKey block with
      | Err e => Err (errParsePrivateKey e)
      | Ok (inr keyType) => Err (errNotEd25519 keyType)
      | Ok (inl key) => Ok key
      end
  end.
(** [readFile] is [os.ReadFile(privateKeyPath)]. *)
Definition LoadSigner (readFile : result string string) (kid issuer : string) :
    result signerError Signer :=
  match readFile with
  | Err e => Err (errReadPrivateKey e)
  | Ok data => key ← keyOfPEM data; Ok (NewSigner key kid issuer)
  end.

(** [now] is [time.Now()]. *)
Definition Sign (s : Signer) (now : Time) (cgID : string) (nodeNumber : Z) : result string string :=
  SignedString (s_key s) (s_kid s)
    {| iss := s_issuer s; sub := cgID; node_number := nodeNumber; iat := Unix now |}.
End attestation.
