(* ===== verification/Platform.v ===== *)
(** * The world of the standalone hub

    What its handlers ask of the operating system and the libraries they call
    (clock, random bytes, UUIDs, the database driver, protobuf), and the
    state they run on: the database and a counter of the questions asked so
    far. Every answer may depend on that counter, so no two readings are
    assumed to agree. *)
From S2P Require Import Prelude GoStrings GoEncoding GoTime Grpc BePb Store StoreInv.
Open Scope Z_scope.

Class Platform := {
  (** [time.Now()] *)
  now : nat -> Time;
  (** [rand.Read] on a slice of the given length; [None]: it fails *)
  rand_Read : nat -> nat -> option string;
  rand_Read_length : forall tick n s, rand_Read tick n = Some s -> String.length s = n;
  (** [uuid.Parse(s)] and the [String()] of its result *)
  uuid_Parse : string -> option string;
  uuid_Parse_canonical : forall s id, uuid_Parse s = Some id -> uuid_Parse id = Some id;
  (** [uuid.NewString()] *)
  uuid_NewString : nat -> string;
  uuid_NewString_canonical : forall tick,
    uuid_Parse (uuid_NewString tick) = Some (uuid_NewString tick);
  (** a statement the driver fails, for a reason other than the data *)
  driver_fails : nat -> bool;
  (** the text of a database error *)
  dbErrorText : dbError -> string;
  (** the text of a failure of [rand.Read] *)
  randErrorText : string;
  (** [regLimiter.Allow()] *)
  regLimiter_Allow : nat -> bool;
  (** [proto.Marshal] of the details of an event *)
  Marshal_EventDetails : EventDetails -> option string
}.

Record World := { db : DB; tick : nat }.

(** What the other goroutines do while one waits for the database. *)
Class Others := meanwhile : World -> World.
#[export] Instance alone : Others := fun w => w.

Section platform.
Context `{Platform}.

Definition canonical_id (id : string) : Prop := uuid_Parse id = Some id.

(** Asking the platform. *)
Definition ask {E A} (q : nat -> A) : ST World E A :=
  fun w => ({| db := db w; tick := S (tick w) |}, Ok (q (tick w))).
Definition nowMillis {E} : ST World E Z := ask (fun t => UnixMilli (now t)).

(** Running a statement: it may fail by the driver's fault, without effect. *)
Definition tx_exec {A} (s : stmt A) : ST World dbError A := fun w =>
  let w' d := {| db := d; tick := S (tick w) |} in
  if driver_fails (tick w) then (w' (db w), Err DriverError)
  else match s (db w) with
       | Ok (d, a) => (w' d, Ok a)
       | Err e => (w' (db w), Err e)
       end.
(** The driver has one connection: a statement waits for it, and others use it
    meanwhile. A transaction keeps it. *)
Definition exec `{Others} {A} (s : stmt A) : ST World dbError A := fun w => tx_exec s (meanwhile w).

(** An error of the inner computation turned into one of the handler. *)
Definition on_error {S E E' A} (f : E -> E') (m : ST S E A) : ST S E' A := fun s =>
  match m s with
  | (s', Ok a) => (s', Ok a)
  | (s', Err e) => (s', Err (f e))
  end.

(** A body ending in [COMMIT], with the deferred [Rollback]. *)
Definition in_transaction {E A} (body : ST World E A) : ST World E A := fun w =>
  match body w with
  | (w', Ok a) => (w', Ok a)
  | (w', Err e) => ({| db := db w; tick := tick w' |}, Err e)
  end.
(** [BeginTx] takes the connection, and [Commit] gives it back. *)
Definition begin_tx `{Others} : ST World dbError unit := exec (fun d => Ok (d, tt)).
Definition commit_tx : ST World dbError unit := tx_exec (fun d => Ok (d, tt)).

(** ** Handlers change the database by atomic steps *)

(** So do the others, whatever they run. *)
Class Lawful (O : Others) := meanwhile_steps :
  forall w, rtc (db_step canonical_id) (db w) (db (meanwhile w)).
#[export] Instance alone_lawful : Lawful alone.
Proof. intros w. apply rtc_refl. Qed.

Definition steps {E A} (m : ST World E A) : Prop :=
  forall w, rtc (db_step canonical_id) (db w) (db (fst (m w))).
Lemma steps_ret {E A} (a : A) : steps (mret a : ST World E A).
Proof. intros w. apply rtc_refl. Qed.
Lemma steps_throw {E A} (e : E) : steps (throw e : ST World E A).
Proof. intros w. apply rtc_refl. Qed.
Lemma steps_bind {E A B} (m : ST World E A) (f : A -> ST World E B) :
  steps m -> (forall a, steps (f a)) -> steps (mbind f m).
Proof.
  intros Hm Hf w. unfold mbind, ST_bind. specialize (Hm w).
  destruct (m w) as [w1 [a|e]]; cbn in *; [|done]. etrans; [exact Hm|apply Hf].
Qed.
Lemma steps_attempt {E E' A} (m : ST World E A) : steps m -> steps (attempt m : ST World E' _).
Proof. intros Hm w. specialize (Hm w). unfold attempt. by destruct (m w). Qed.
Lemma steps_on_error {E E' A} (f : E -> E') (m : ST World E A) : steps m -> steps (on_error f m).
Proof. intros Hm w. specialize (Hm w). unfold on_error. by destruct (m w) as [? [|]]. Qed.
Lemma steps_ask {E A} (q : nat -> A) : steps (ask q : ST World E A).
Proof. intros w. apply rtc_refl. Qed.
Lemma steps_tx_exec {A} (s : stmt A) :
  (forall d d' a, s d = Ok (d', a) -> rtc (db_step canonical_id) d d') -> steps (tx_exec s).
Proof.
  intros Hs w. unfold tx_exec. destruct (driver_fails _); [apply rtc_refl|].
  destruct (s (db w)) as [[d a]|e] eqn:Hw; [|apply rtc_refl]. by eapply Hs.
Qed.

Section lawful.
Context `{O : Others} `{!Lawful O}.
Lemma steps_exec {A} (s : stmt A) :
  (forall d d' a, s d = Ok (d', a) -> rtc (db_step canonical_id) d d') -> steps (exec s).
Proof. intros Hs w. etrans; [apply meanwhile_steps|by apply steps_tx_exec]. Qed.
Lemma steps_query {A} (f : DB -> A) : steps (exec (query f)).
Proof. apply steps_exec. intros d d' a [= <- _]. apply rtc_refl. Qed.
Lemma steps_query_row {A} (f : DB -> option A) : steps (exec (query_row f)).
Proof. apply steps_exec. intros d d' a. unfold query_row. destruct (f d); [intros [= <- _]; apply rtc_refl|done]. Qed.
Lemma steps_query_count f : steps (exec (query_count f)).
Proof. apply steps_exec. intros d d' a. unfold query_count. destruct (int32_ok _); [intros [= <- _]; apply rtc_refl|done]. Qed.
Lemma steps_sel_nodes cg : steps (exec (sel_nodes cg)).
Proof. apply steps_exec. intros d d' a. unfold sel_nodes. destruct (forallb _ _); [intros [= <- _]; apply rtc_refl|done]. Qed.
End lawful.

(** A statement succeeds iff neither the driver nor the data is against it. *)
Lemma tx_exec_Ok {A} (s : stmt A) w w' a :
  tx_exec s w = (w', Ok a) <->
  driver_fails (tick w) = false /\ s (db w) = Ok (db w', a) /\ tick w' = S (tick w).
Proof.
  unfold tx_exec. destruct (driver_fails (tick w)); [naive_solver|].
  destruct (s (db w)) as [[d b]|e]; [|naive_solver]. split.
  - intros [= <- <-]. done.
  - intros (_ & [= -> ->] & Ht). destruct w'. cbn in *. by subst.
Qed.
Lemma exec_Ok {A} (s : stmt A) w w' a :
  exec s w = (w', Ok a) <->
  driver_fails (tick w) = false /\ s (db w) = Ok (db w', a) /\ tick w' = S (tick w).
Proof. apply tx_exec_Ok. Qed.
Lemma on_error_Ok {S E E' A} (f : E -> E') (m : ST S E A) s s' a :
  on_error f m s = (s', Ok a) <-> m s = (s', Ok a).
Proof. unfold on_error. destruct (m s) as [s1 [b|e]]; naive_solver. Qed.
Lemma errs_on_error {E E' A} (P : E' -> Prop) (f : E -> E') (m : ST World E A) :
  (forall e, P (f e)) -> errs P (on_error f m).
Proof. intros Hf w w' e. unfold on_error. destruct (m w) as [? [|]]; [done|]. by intros [= _ <-]. Qed.
Lemma errs_ask {E A} (P : E -> Prop) (q : nat -> A) : errs P (ask q : ST World E A).
Proof. by intros w w' e. Qed.
Lemma in_transaction_Ok {E A} (m : ST World E A) w w' a :
  in_transaction m w = (w', Ok a) -> m w = (w', Ok a).
Proof. unfold in_transaction. by destruct (m w) as [? [|]]. Qed.
Lemma in_transaction_Err {E A} (m : ST World E A) w w' e :
  in_transaction m w = (w', Err e) -> db w' = db w.
Proof. unfold in_transaction. destruct (m w) as [? [|]]; [done|]. by intros [= <- _]. Qed.
End platform.
#[export] Hint Resolve steps_ret steps_throw steps_bind steps_attempt steps_on_error steps_ask
  steps_query steps_query_row steps_query_count steps_sel_nodes
  errs_ret errs_throw errs_attempt errs_bind errs_on_error errs_ask : hub.
