(* ===== verification/Backend.v ===== *)
(** * The standalone backend: connect/hub/standalone_grpc.go

    One definition per RPC, a computation on the hub's world that may stop
    with a gRPC status. *)
From S2P Require Import Prelude GoStrings GoEncoding GoTime Grpc BePb Attestation Store StoreInv.
From S2P Require Import Platform.
Open Scope Z_scope.

Section backend.
Context `{Platform} `{Others} `{Crypto} `{JwtLib}.

(** The [Backend] struct, next to its database and limiter. *)
Record Backend := { instanceID : string; signer : option Signer }.

Definition internal (e : dbError) : status := Errorf Internal "internal error".
Definition internalError : status := Errorf Internal "internal error".
Definition hashToken (token : string) : string := hex_EncodeToString (sha256 token).

Definition parseGroupID (raw : string) : ST World status string :=
  match uuid_Parse raw with
  | None => throw (Errorf InvalidArgument "invalid connectivity_group_id")
  | Some cgID => mret cgID
  end.

(** A SELECT of one row: [sql.ErrNoRows] is reported as [absent]. *)
Definition absent_or_internal (absent : status) (e : dbError) : status :=
  if decide (e = ErrNoRows) then absent else internal e.
Definition row_or {A} (absent : status) (s : stmt A) : ST World status A :=
  on_error (absent_or_internal absent) (exec s).

(** Errors are logged and dropped. *)
Definition insertActivityLog (cgID : string) (nodeNumber : Z) (eventType : string)
    (success : bool) (details : option EventDetails) : ST World status unit :=
  match details ≫= (fun d => Some (Marshal_EventDetails d)) with
  | Some None => mret ()
  | bytes =>
      createdAt ← nowMillis;
      _ ← attempt (exec (ins_activity
        {| al_group := cgID; al_node_number := nodeNumber; al_event_type := eventType;
           al_success := success; al_details := mjoin bytes; al_created_at_millis := createdAt |}));
      mret ()
  end.

(** After BEGIN, up to COMMIT: the group, the number and the token of the new
    node. *)
Definition registration_body (submittedHash : string) : ST World status (string * Z * string) :=
  t ← nowMillis;
  tok ← on_error (absent_or_internal (Errorf NotFound "invalid or expired token"))
          (tx_exec (sel_token submittedHash t));
  let cgID := tk_group tok in
  bytes ← ask (fun tick => rand_Read tick 32);
  match bytes with
  | None => throw internalError
  | Some authTokenBytes =>
      let authToken := hex_EncodeToString authTokenBytes in
      nodeNumber ← on_error internal (tx_exec (upd_assign_number cgID));
      createdAt ← nowMillis;
      _ ← on_error internal
            (tx_exec (ins_node cgID nodeNumber (new_node tok (hashToken authToken) createdAt)));
      usedAt ← nowMillis;
      _ ← on_error internal (tx_exec (upd_token_used (tk_id tok) usedAt));
      _ ← on_error internal commit_tx;
      mret (cgID, nodeNumber, authToken)
  end.
Definition registration (submittedHash : string) : ST World status (string * Z * string) :=
  _ ← on_error internal begin_tx;
  in_transaction (registration_body submittedHash).

Definition CompleteNodeRegistration (b : Backend) (token : string) :
    ST World status CompleteNodeRegistrationResponse :=
  allowed ← ask regLimiter_Allow;
  if negb allowed then
    throw (Errorf ResourceExhausted "registration rate limit exceeded, try again shortly")
  else
    '(cgID, nodeNumber, authToken) ← registration (hashToken token);
    _ ← insertActivityLog cgID nodeNumber "register" true (Some (event Register_));
    attestationJwt ←
      match signer b with
      | None => mret ""
      | Some s =>
          jwt ← ask (fun tick => Sign s (now tick) cgID nodeNumber);
          mret (match jwt with Ok jwt => jwt | Err _ => "" end)
      end;
    mret {| cr_ConnectivityGroupId := cgID; cr_NodeNumber := nodeNumber;
            cr_AuthToken := authToken; cr_AttestationJwt := attestationJwt |}.

Definition invalidCredentials : status := Errorf Unauthenticated "invalid credentials".
Definition AuthenticateNode (req : AuthenticateNodeRequest) : ST World status unit :=
  cgID ← parseGroupID (an_ConnectivityGroupId req);
  row ← row_or invalidCredentials (sel_node cgID (an_NodeNumber req));
  let providedHash := hashToken (an_AuthToken req) in
  if negb (ConstantTimeCompare providedHash (nd_auth_token_hash row) =? 1)
  then throw invalidCredentials
  else mret ().

Definition be_node (e : Z * NodeRow) : BeNode :=
  {| bn_NodeNumber := e.1; bn_Name := or_zero (nd_name e.2);
     bn_LastSeenAtMillis := default 0 (nd_last_seen_at_millis e.2);
     bn_Metadata := or_zero (nd_metadata e.2) |}.
Definition ListNodes (rawID : string) : ST World status (list BeNode) :=
  cgID ← parseGroupID rawID;
  rows ← on_error internal (exec (sel_nodes cgID));
  mret (be_node <$> rows).

Definition groupNotFound : status := Errorf NotFound "connectivity group not found".
Definition GetRoster (rawID : string) : ST World status GetRosterResponse :=
  cgID ← parseGroupID rawID;
  g ← row_or groupNotFound (sel_group cgID);
  mret {| gr_Roster := g_roster g; gr_Version := g_roster_version g |}.

Definition GetGroupMetadata (b : Backend) (rawID : string) :
    ST World status GetGroupMetadataResponse :=
  cgID ← parseGroupID rawID;
  g ← row_or groupNotFound (sel_group cgID);
  mret {| gm_DomainId := instanceID b; gm_CreatedAtMillis := g_created_at_millis g;
          gm_Name := or_zero (g_name g); gm_AssociationKey := or_zero (g_association_key g) |}.

Definition GetTurnPolicy (b : Backend) (rawID : string) : ST World status GetTurnPolicyResponse :=
  cgID ← parseGroupID rawID;
  _ ← row_or groupNotFound (sel_group cgID);
  mret {| tp_Enabled := true; tp_FloorBps := 0; tp_CeilBps := 0;
          tp_OrganisationId := instanceID b |}.

Definition UpdateRoster (req : UpdateRosterRequest) : ST World status unit :=
  cgID ← parseGroupID (ur_ConnectivityGroupId req);
  if ur_NewVersion req <=? ur_ExpectedVersion req then
    throw (Errorf InvalidArgument "new_version must be greater than expected_version")
  else
    n ← on_error internal
          (exec (upd_roster cgID (ur_Roster req) (ur_NewVersion req) (ur_ExpectedVersion req)));
    if n =? 0 then throw (Errorf Aborted "roster version conflict") else mret ().

Definition UpdateNodeLastSeen (rawID : string) (nodeNumber : Z) : ST World status unit :=
  cgID ← parseGroupID rawID;
  t ← nowMillis;
  on_error internal (exec (upd_node cgID nodeNumber (node_last_seen t))).

Definition DeregisterNode (rawID : string) (nodeNumber : Z) : ST World status unit :=
  cgID ← parseGroupID rawID;
  t ← nowMillis;
  _ ← on_error internal (exec (upd_node cgID nodeNumber (node_deleted t)));
  insertActivityLog cgID nodeNumber "deregister" true (Some (event Deregister_)).

Definition LogActivity (req : LogActivityRequest) : ST World status unit :=
  cgID ← parseGroupID (la_ConnectivityGroupId req);
  insertActivityLog cgID (la_NodeNumber req) (la_EventType req) (la_Success req) (la_Details req).
End backend.
