(* ===== verification/BackendSteps.v ===== *)
(** * Every backend call is a sequence of atomic database changes

    Inversion of the handlers of Backend.v: what a successful registration and
    a successful authentication did, and that each handler moves the database
    by [db_step]s only. *)
From S2P Require Import Prelude GoStrings GoEncoding GoTime Grpc BePb Attestation Store StoreInv.
From S2P Require Import Platform Backend.
Open Scope Z_scope.

Section backend_steps.
Context `{Platform} `{Crypto} `{JwtLib}.
Implicit Types (w : World).

(** ** Inversion *)

Lemma parseGroupID_Ok raw w w' cg :
  parseGroupID raw w = (w', Ok cg) <-> uuid_Parse raw = Some cg /\ w' = w.
Proof.
  unfold parseGroupID, throw, mret, ST_ret. destruct (uuid_Parse raw) as [c|].
  - split; [by intros [= <- <-]|]. by intros [[= <-] ->].
  - by split; [intros [=]|intros [[=] _]].
Qed.
Lemma ask_Ok {E A} (q : nat -> A) w w' a :
  (ask q : ST World E A) w = (w', Ok a) <->
  a = q (tick w) /\ w' = {| db := db w; tick := S (tick w) |}.
Proof. unfold ask. split; [by intros [= <- <-]|]. by intros [-> ->]. Qed.
Lemma commit_tx_Ok w w' u : commit_tx w = (w', Ok u) -> db w' = db w.
Proof. unfold commit_tx. rewrite tx_exec_Ok. intros (_ & [= ->] & _). done. Qed.

(** The transaction that succeeds is the one of [registers]. *)
Lemma registration_body_Ok hash w w' cg n authToken :
  registration_body hash w = (w', Ok (cg, n, authToken)) ->
  exists t bytes k, rand_Read t 32 = Some bytes /\ authToken = hex_EncodeToString bytes /\
    cg = tk_group k /\
    registers (db w) hash (UnixMilli (now (tick w))) (hashToken authToken) k n (db w').
Proof.
  unfold registration_body.
  intros (w3 & t0 & [-> ->]%ask_Ok & Hb)%ST_bind_Ok.
  apply ST_bind_Ok in Hb as (w4 & k & (_ & Hk & _)%on_error_Ok%tx_exec_Ok & Hb).
  apply ST_bind_Ok in Hb as (w5 & [bytes|] & [Hbytes ->]%ask_Ok & Hb); [|done].
  apply ST_bind_Ok in Hb as (w6 & n' & (_ & Hn & _)%on_error_Ok%tx_exec_Ok & Hb).
  apply ST_bind_Ok in Hb as (w7 & t1 & [_ ->]%ask_Ok & Hb).
  apply ST_bind_Ok in Hb as (w8 & [] & (_ & Hins & _)%on_error_Ok%tx_exec_Ok & Hb).
  apply ST_bind_Ok in Hb as (w9 & t2 & [_ ->]%ask_Ok & Hb).
  apply ST_bind_Ok in Hb as (w10 & [] & (_ & Hused & _)%on_error_Ok%tx_exec_Ok & Hb).
  apply ST_bind_Ok in Hb as (w11 & [] & H11%on_error_Ok%commit_tx_Ok & [= -> <- <- <-]).
  cbn [db] in *. rewrite H11.
  pose proof (sel_token_Ok _ _ _ _ _ Hk) as (Hdb & _). rewrite Hdb in *.
  exists (tick w4), bytes, k. split_and!; [done..|].
  exists t1, t2, (db w6), (db w8). by split_and!.
Qed.
(** Before it begins, others may run; the clock is read once it has begun. *)
Lemma begin_tx_db `{Others} w :
  db (fst (begin_tx w)) = db (meanwhile w) /\ tick (fst (begin_tx w)) = S (tick (meanwhile w)).
Proof. unfold begin_tx, exec, tx_exec. by destruct (driver_fails _). Qed.
Lemma registration_run `{Others} hash w :
  match registration hash w with
  | (w', Ok (cg, n, authToken)) =>
      exists t bytes k, rand_Read t 32 = Some bytes /\ authToken = hex_EncodeToString bytes /\
      cg = tk_group k /\
      registers (db (meanwhile w)) hash (UnixMilli (now (S (tick (meanwhile w))))) (hashToken authToken) k n (db w')
  | (w', Err e) => db w' = db (meanwhile w)
  end.
Proof.
  unfold registration, mbind, ST_bind, on_error. destruct (begin_tx_db w) as [Hdb Htick].
  destruct (begin_tx w) as [w1 [[]|e]]; cbn in Hdb, Htick; [|done]. rewrite <-Hdb, <-Htick.
  destruct (in_transaction (registration_body hash) w1) as [w' [[[cg n] tok]|e]] eqn:Ht.
  - by apply in_transaction_Ok, registration_body_Ok in Ht.
  - by apply in_transaction_Err in Ht.
Qed.
Lemma registration_Ok hash w w' cg n authToken :
  registration hash w = (w', Ok (cg, n, authToken)) ->
  exists t bytes k, rand_Read t 32 = Some bytes /\ authToken = hex_EncodeToString bytes /\
    cg = tk_group k /\
    registers (db w) hash (UnixMilli (now (S (tick w)))) (hashToken authToken) k n (db w').
Proof. intros Hr. pose proof (registration_run hash w) as Hx. by rewrite Hr in Hx. Qed.
Lemma registration_Err hash w w' e : registration hash w = (w', Err e) -> db w' = db w.
Proof. intros Hr. pose proof (registration_run hash w) as Hx. by rewrite Hr in Hx. Qed.

End backend_steps.

(** ** Steps *)

Section steps.
Context `{Platform} `{O : Others} `{!Lawful O} `{Crypto} `{JwtLib}.

Lemma steps_step {A} (s : stmt A) :
  (forall d d' a, s d = Ok (d', a) -> db_step canonical_id d d') -> steps (exec s).
Proof. intros Hs. apply steps_exec. intros. apply rtc_once. by eapply Hs. Qed.
Lemma steps_parseGroupID raw : steps (parseGroupID raw).
Proof. unfold parseGroupID. destruct (uuid_Parse raw); auto with hub. Qed.
Lemma steps_row_or {A} e (f : DB -> option A) : steps (row_or e (query_row f)).
Proof. unfold row_or. auto with hub. Qed.
Lemma steps_insertActivityLog cg n ty ok details : steps (insertActivityLog cg n ty ok details).
Proof.
  unfold insertActivityLog, nowMillis. destruct (details ≫= _) as [[b|]|]; auto with hub;
    (apply steps_bind; [auto with hub|]; intros t; apply steps_bind; [|auto with hub];
     apply steps_attempt, steps_step; intros d d' []; apply step_activity).
Qed.
Lemma steps_registration hash : steps (registration hash).
Proof.
  intros w. etrans; [apply meanwhile_steps|]. pose proof (registration_run hash w) as Hr.
  destruct (registration hash w) as [w' [[[cg n] tok]|e]]; cbn.
  - destruct Hr as (? & ? & k & _ & _ & _ & Hreg). apply rtc_once. by eapply step_register.
  - by rewrite Hr.
Qed.
End steps.

Ltac steps_tac :=
  repeat match goal with
  | |- steps (mbind _ _) => apply steps_bind; [|intros ?]
  | |- steps (mret _) => apply steps_ret
  | |- steps (throw _) => apply steps_throw
  | |- steps (ask _) => apply steps_ask
  | |- steps nowMillis => apply steps_ask
  | |- steps (on_error _ _) => apply steps_on_error
  | |- steps (attempt _) => apply steps_attempt
  | |- steps (row_or _ _) => apply steps_on_error
  | |- steps (parseGroupID _) => apply steps_parseGroupID
  | |- steps (insertActivityLog _ _ _ _ _) => apply steps_insertActivityLog
  | |- steps (registration _) => apply steps_registration
  | |- steps (exec (sel_nodes _)) => apply steps_sel_nodes
  | |- steps (exec _) => first [apply steps_query_row | apply steps_query_count | apply steps_query]
  | |- steps _ => case_match
  end.

Section backend_keeps.
Context `{Platform} `{Crypto} `{JwtLib}.

(** The requests of the service. *)
Inductive rpc :=
| RCompleteNodeRegistration (token : string)
| RAuthenticateNode (req : AuthenticateNodeRequest)
| RListNodes (rawID : string)
| RGetRoster (rawID : string)
| RGetGroupMetadata (rawID : string)
| RGetTurnPolicy (rawID : string)
| RUpdateRoster (req : UpdateRosterRequest)
| RUpdateNodeLastSeen (rawID : string) (nodeNumber : Z)
| RDeregisterNode (rawID : string) (nodeNumber : Z)
| RLogActivity (req : LogActivityRequest).

(** The state a call leaves; its response is dropped. *)
Definition serve `{Others} (b : Backend) (r : rpc) (w : World) : World :=
  match r with
  | RCompleteNodeRegistration token => fst (CompleteNodeRegistration b token w)
  | RAuthenticateNode req => fst (AuthenticateNode req w)
  | RListNodes id => fst (ListNodes id w)
  | RGetRoster id => fst (GetRoster id w)
  | RGetGroupMetadata id => fst (GetGroupMetadata b id w)
  | RGetTurnPolicy id => fst (GetTurnPolicy b id w)
  | RUpdateRoster req => fst (UpdateRoster req w)
  | RUpdateNodeLastSeen id n => fst (UpdateNodeLastSeen id n w)
  | RDeregisterNode id n => fst (DeregisterNode id n w)
  | RLogActivity req => fst (LogActivity req w)
  end.

Lemma serve_steps `{O : Others} `{!Lawful O} b r w : rtc (db_step canonical_id) (db w) (db (serve b r w)).
Proof.
  assert (forall A (m : ST World status A), steps m -> rtc (db_step canonical_id) (db w) (db (fst (m w))))
    as Hm by auto.
  destruct r; cbn [serve]; apply Hm.
  - unfold CompleteNodeRegistration. steps_tac.
  - unfold AuthenticateNode. steps_tac.
  - unfold ListNodes. steps_tac.
  - unfold GetRoster. steps_tac.
  - unfold GetGroupMetadata. steps_tac.
  - unfold GetTurnPolicy. steps_tac.
  - unfold UpdateRoster. apply steps_bind; [steps_tac|]. intros cg.
    destruct (Z.leb_spec (ur_NewVersion req) (ur_ExpectedVersion req)); [steps_tac|].
    apply steps_bind; [|intros ?; steps_tac]. apply steps_on_error, steps_step. intros d d' a Hd.
    by eapply step_roster.
  - unfold UpdateNodeLastSeen, nowMillis. steps_tac. apply steps_step. intros d d' [] Hd.
    by eapply step_last_seen.
  - unfold DeregisterNode, nowMillis. steps_tac. apply steps_step. intros d d' [] Hd.
    by eapply step_node_deleted.
  - unfold LogActivity. steps_tac.
Qed.
End backend_keeps.
