(* ===== verification/BackendProps.v ===== *)
(** * Correctness of the standalone backend

    Registration, authentication and roster updates, each also in the presence
    of whatever other calls run in between: [rtc db_step] is any sequence of
    database changes the hub can make. *)
From S2P Require Import Prelude GoStrings GoEncoding GoTime Grpc BePb Attestation Store StoreInv.
From S2P Require Import Platform Backend BackendSteps.
Open Scope Z_scope.

Section lemmas.
Context `{Platform} `{Crypto} `{JwtLib}.
Implicit Types (w : World) (d : DB).

(** The rows after a successful registration. *)
Lemma insertActivityLog_frame cg n ty ok details w :
  let w' := fst (insertActivityLog cg n ty ok details w) in
  nodes (db w') = nodes (db w) /\ groups (db w') = groups (db w) /\
  tokens (db w') = tokens (db w) /\ api_keys (db w') = api_keys (db w) /\
  snd (insertActivityLog cg n ty ok details w) = Ok ().
Proof.
  unfold insertActivityLog. destruct (details ≫= _) as [[b|]|]; [|done|];
    unfold nowMillis, ask, exec, meanwhile, alone, tx_exec, attempt, mbind, mret, ST_bind, ST_ret; cbn;
    by destruct (driver_fails _).
Qed.

Lemma CompleteNodeRegistration_Ok b token w w' resp :
  CompleteNodeRegistration b token w = (w', Ok resp) ->
  exists d1 k now t bytes,
    registers (db w) (hashToken token) now (hashToken (cr_AuthToken resp)) k (cr_NodeNumber resp) d1 /\
    cr_ConnectivityGroupId resp = tk_group k /\
    rand_Read t 32 = Some bytes /\ cr_AuthToken resp = hex_EncodeToString bytes /\
    nodes (db w') = nodes d1 /\ groups (db w') = groups d1 /\ tokens (db w') = tokens d1 /\
    now = UnixMilli (Platform.now (2 + tick w)).
Proof.
  unfold CompleteNodeRegistration.
  intros (w1 & allowed & [_ ->]%ask_Ok & Hb)%ST_bind_Ok. destruct (negb allowed); [done|].
  apply ST_bind_Ok in Hb as (w2 & [[cg n] tok] & Hr & Hb).
  apply registration_Ok in Hr as (t & bytes & k & Hrand & -> & -> & Hreg).
  apply ST_bind_Ok in Hb as (w3 & [] & Hlog & Hb).
  pose proof (insertActivityLog_frame (tk_group k) n "register" true (Some (event Register_)) w2) as Hf.
  rewrite Hlog in Hf. cbn in Hf. destruct Hf as (Hn & Hg & Ht & _).
  apply ST_bind_Ok in Hb as (w4 & jwt & Hjwt & [= <- <-]). cbn.
  assert (db w4 = db w3) as ->.
  { destruct (signer b) as [s|]; [|by injection Hjwt as <-].
    apply ST_bind_Ok in Hjwt as (w5 & r & [_ ->]%ask_Ok & [= <- _]). done. }
  eexists (db w2), k, _, t, bytes. by split_and!.
Qed.

Lemma CompleteNodeRegistration_Err b token w w' e :
  CompleteNodeRegistration b token w = (w', Err e) -> db w' = db w.
Proof.
  unfold CompleteNodeRegistration.
  intros [Hask|(w1 & allowed & [_ ->]%ask_Ok & Hb)]%ST_bind_Err; [by injection Hask|].
  destruct (negb allowed); [by injection Hb as <-|].
  apply ST_bind_Err in Hb as [Hr|(w2 & [[cg n] tok] & _ & Hb)]; [by apply registration_Err in Hr|].
  exfalso. apply ST_bind_Err in Hb as [Hlog|(w3 & [] & _ & Hb)].
  - pose proof (insertActivityLog_frame cg n "register" true (Some (event Register_)) w2) as Hf.
    rewrite Hlog in Hf. by destruct Hf as (_ & _ & _ & _ & ?).
  - by destruct (signer b).
Qed.
Lemma AuthenticateNode_db req w : db (fst (AuthenticateNode req w)) = db w.
Proof.
  unfold AuthenticateNode, parseGroupID, row_or, absent_or_internal, on_error, exec, meanwhile, alone, tx_exec, sel_node, query_row, throw,
    mbind, mret, ST_bind, ST_ret.
  destruct (uuid_Parse _); [|done]. destruct (driver_fails _); [done|].
  destruct (live_node _ _ _); [|done]. by destruct (negb _).
Qed.
(** The outcome of an authentication the driver does not fail. *)
Lemma AuthenticateNode_eq req w cg :
  uuid_Parse (an_ConnectivityGroupId req) = Some cg -> driver_fails (tick w) = false ->
  snd (AuthenticateNode req w) =
  match live_node cg (an_NodeNumber req) (db w) with
  | Some row => if decide (hashToken (an_AuthToken req) = nd_auth_token_hash row)
                then Ok () else Err invalidCredentials
  | None => Err invalidCredentials
  end.
Proof.
  intros Hu Hd.
  unfold AuthenticateNode, parseGroupID, row_or, absent_or_internal, on_error, exec, meanwhile, alone, tx_exec, sel_node, query_row, throw,
    mbind, mret, ST_bind, ST_ret, ConstantTimeCompare.
  rewrite Hu, Hd. destruct (live_node _ _ _) as [row|]; [|done]. cbn. by case_decide.
Qed.
Lemma AuthenticateNode_Ok req w :
  snd (AuthenticateNode req w) = Ok () <->
  exists cg row, uuid_Parse (an_ConnectivityGroupId req) = Some cg /\ driver_fails (tick w) = false /\
    live_node cg (an_NodeNumber req) (db w) = Some row /\
    nd_auth_token_hash row = hashToken (an_AuthToken req).
Proof.
  split.
  - destruct (uuid_Parse (an_ConnectivityGroupId req)) as [cg|] eqn:Hu.
    + destruct (driver_fails (tick w)) eqn:Hd.
      * unfold AuthenticateNode, parseGroupID, row_or, absent_or_internal, on_error, exec, meanwhile, alone, tx_exec, mbind, mret, ST_bind, ST_ret.
        by rewrite Hu, Hd.
      * rewrite (AuthenticateNode_eq _ _ cg) by done.
        destruct (live_node _ _ _) as [row|] eqn:Hl; [|done]. case_decide; [|done]. eauto 10.
    + unfold AuthenticateNode, parseGroupID, throw, mbind, ST_bind. by rewrite Hu.
  - intros (cg & row & Hu & Hd & Hl & Hh). rewrite (AuthenticateNode_eq _ _ cg) by done.
    by rewrite Hl, decide_True.
Qed.

(** A token row keeps its place and, once used, stays used. *)
Lemma used_stays d d' k :
  wf_db canonical_id d -> rtc (db_step canonical_id) d d' ->
  k ∈ tokens d -> is_Some (tk_used_at_millis k) ->
  forall k', k' ∈ tokens d' -> tk_id k' = tk_id k -> is_Some (tk_used_at_millis k').
Proof.
  intros Hwf Hs [i Hi]%list_elem_of_lookup Hu k' [j Hj]%list_elem_of_lookup Hid.
  destruct (steps_good _ _ _ Hs Hwf) as [Hwf' Hev].
  destruct (ev_tokens _ _ Hev _ _ Hi) as (k2 & Hk2 & Eid & _ & _ & _ & _ & _ & _ & Eu).
  assert (i = j) as ->; [|simplify_eq; auto].
  eapply (NoDup_lookup (tk_id <$> tokens d'));
    [apply Hwf'|by rewrite list_lookup_fmap, Hk2|rewrite list_lookup_fmap, Hj; cbn; congruence].
Qed.
(** ** Roster updates *)

Lemma update_roster_eq req cg w :
  uuid_Parse (ur_ConnectivityGroupId req) = Some cg -> driver_fails (tick w) = false ->
  UpdateRoster req w =
  if ur_NewVersion req <=? ur_ExpectedVersion req
  then (w, Err (Errorf InvalidArgument "new_version must be greater than expected_version"))
  else match live_group cg (db w) with
       | Some g =>
           if g_roster_version g =? ur_ExpectedVersion req
           then ({| db := with_groups (<[cg := group_roster (ur_Roster req) (ur_NewVersion req) g]>
                            (groups (db w))) (db w); tick := S (tick w) |}, Ok ())
           else ({| db := db w; tick := S (tick w) |}, Err (Errorf Aborted "roster version conflict"))
       | None => ({| db := db w; tick := S (tick w) |}, Err (Errorf Aborted "roster version conflict"))
       end.
Proof.
  intros Hu Hd.
  unfold UpdateRoster, parseGroupID, on_error, exec, meanwhile, alone, tx_exec, upd_roster, throw, mbind, mret, ST_bind, ST_ret.
  rewrite Hu. destruct (ur_NewVersion req <=? _); [done|]. rewrite Hd.
  destruct (live_group cg (db w)) as [g|]; [|done]. by destruct (g_roster_version g =? _).
Qed.

(** ** The list of live nodes *)

Lemma live_nodes_elem cg d n row :
  (n, row) ∈ live_nodes cg d <-> nodes d !! (cg, n) = Some row /\ nd_deleted_at_millis row = None.
Proof.
  unfold live_nodes. rewrite merge_sort_Permutation, list_elem_of_omap. split.
  - intros ([[cg' n'] row'] & Hin%elem_of_map_to_list & Hif). cbn in Hif.
    destruct (bool_decide (cg' = cg)) eqn:Hcg; [|done]. apply bool_decide_eq_true in Hcg as ->.
    destruct (nd_live row') eqn:Hl; [|done]. injection Hif as -> ->.
    split; [done|]. by apply nd_live_true.
  - intros [Hrow Hl]. exists ((cg, n), row). rewrite elem_of_map_to_list. split; [done|]. cbn.
    rewrite bool_decide_true by done. apply nd_live_true in Hl. by rewrite Hl.
Qed.
Lemma live_nodes_NoDup cg d : NoDup (live_nodes cg d).*1.
Proof.
  unfold live_nodes. rewrite merge_sort_Permutation.
  generalize (NoDup_map_to_list (nodes d)), (NoDup_fst_map_to_list (nodes d)).
  generalize (map_to_list (nodes d)) as l. induction l as [|[[cg' n'] row] l IH]; [constructor|].
  rewrite fmap_cons, !NoDup_cons. intros [Hin Hnd] [Hk Hks]. cbn -[nd_live].
  destruct (_ && _) eqn:Hb; [|by apply IH]. cbn. apply NoDup_cons. split; [|by apply IH].
  apply andb_true_iff in Hb as [->%bool_decide_eq_true _].
  intros ([n1 r1] & Hn1 & Hin1)%list_elem_of_fmap. cbn in Hn1. subst n1.
  apply list_elem_of_omap in Hin1 as ([[cg2 n2] r2] & Hin2 & Hif). cbn -[nd_live] in Hif.
  destruct (bool_decide (cg2 = cg)) eqn:Hcg; [|done]. apply bool_decide_eq_true in Hcg as ->.
  destruct (nd_live r2); [|done]. injection Hif as -> ->. apply Hk, list_elem_of_fmap.
  by exists ((cg, n'), r1).
Qed.
Lemma live_nodes_sorted cg d : Sorted Z.lt (live_nodes cg d).*1.
Proof.
  assert (Sorted number_before (live_nodes cg d)) as Hs.
  { apply Sorted_merge_sort. intros a b. unfold number_before. lia. }
  pose proof (live_nodes_NoDup cg d) as Hnd. revert Hs Hnd. generalize (live_nodes cg d).
  induction l as [|[n r] l IH]; [constructor|]. cbn. intros Hs Hnd.
  apply Sorted_inv in Hs as [Hs Hhd]. apply NoDup_cons in Hnd as [Hin Hnd].
  constructor; [by apply IH|]. destruct l as [|[n2 r2] l]; constructor.
  apply HdRel_inv in Hhd. unfold number_before in Hhd. cbn in *.
  assert (n <> n2) by set_solver. lia.
Qed.
End lemmas.

(** * Properties *)
Section properties.
Context `{Platform} `{Crypto} `{JwtLib}.

(** C2. A successful registration uses up a token that was valid (its hash is
    that of the submitted secret, it was unused, it had not expired at the
    clock reading the transaction makes, and its group is not deleted)
    and creates exactly one node: in the token's group, with the token's name
    and metadata, live, under the number the group's counter held, which no
    node, live or deleted, had; the stored hash is that of the returned
    64-character secret. Every other node is untouched. *)
Theorem registration_creates_node b token w w' resp :
  CompleteNodeRegistration b token w = (w', Ok resp) -> wf_db canonical_id (db w) ->
  let cg := cr_ConnectivityGroupId resp in
  let n := cr_NodeNumber resp in
  exists k g row,
    k ∈ tokens (db w) /\ tk_token_hash k = hashToken token /\ tk_used_at_millis k = None /\
    UnixMilli (Platform.now (2 + tick w)) < tk_expires_at_millis k /\
    tk_group k = cg /\ live_group cg (db w) = Some g /\
    n = g_next_node_number g /\ 1 <= n < 2 ^ 31 /\ nodes (db w) !! (cg, n) = None /\
    nodes (db w') = <[(cg, n) := row]> (nodes (db w)) /\
    nd_deleted_at_millis row = None /\ nd_name row = tk_node_name k /\
    nd_metadata row = tk_node_metadata k /\
    nd_auth_token_hash row = hashToken (cr_AuthToken resp) /\
    String.length (cr_AuthToken resp) = 64%nat /\
    (forall k', k' ∈ tokens (db w') -> tk_id k' = tk_id k -> is_Some (tk_used_at_millis k')).
Proof.
  intros (d1 & k & now & t & bytes & Hreg & -> & Hrand & Htok & Hn & _ & Ht & ->)%CompleteNodeRegistration_Ok Hwf.
  apply registers_registered in Hreg as [[Hk Hv] (g & Hg & Hnum & _) H32 Hfree [t1 Hns] [t2 Hts] _].
  destruct Hv as (Hh & Hu & Hexp & _). pose proof Hg as [Hgr _]%live_group_Some.
  destruct (wf_groups _ _ Hwf _ _ Hgr) as (_ & Hnext & _). unfold int32_ok in H32.
  exists k, g, (new_node k (hashToken (cr_AuthToken resp)) t1).
  split_and!; try done; try lia.
  - congruence.
  - rewrite Htok, length_hex. by rewrite (rand_Read_length _ _ _ Hrand).
  - intros k' Hk' Hid. rewrite Ht, Hts in Hk'. apply list_elem_of_fmap in Hk' as (k2 & -> & _).
    revert Hid. case_decide; cbn; [eauto|done].
Qed.

(** C3. A registration that fails, for any reason and at any statement of its
    transaction, leaves the database exactly as it was. *)
Theorem registration_failure_atomic b token w w' e :
  CompleteNodeRegistration b token w = (w', Err e) -> db w' = db w.
Proof. apply CompleteNodeRegistration_Err. Qed.

(** C4. The credentials a registration returns authenticate the node, and no
    secret with another hash does, as long as the node has not been deleted:
    whatever changes the hub makes to its database in between. *)
Theorem registered_node_authenticates b token w w' resp d t tok :
  CompleteNodeRegistration b token w = (w', Ok resp) -> wf_db canonical_id (db w) ->
  rtc (db_step canonical_id) (db w') d -> driver_fails t = false ->
  is_Some (live_node (cr_ConnectivityGroupId resp) (cr_NodeNumber resp) d) ->
  snd (AuthenticateNode {| an_ConnectivityGroupId := cr_ConnectivityGroupId resp;
                           an_NodeNumber := cr_NodeNumber resp; an_AuthToken := tok |}
         {| db := d; tick := t |}) =
  if decide (hashToken tok = hashToken (cr_AuthToken resp)) then Ok () else Err invalidCredentials.
Proof.
  intros Hreg Hwf Hs Hd [row Hl].
  assert (wf_db canonical_id (db w')) as Hwf'.
  { eapply (steps_good _ (db w)); [|done].
    pose proof (serve_steps b (RCompleteNodeRegistration token) w) as Hst. cbn in Hst.
    by rewrite Hreg in Hst. }
  apply CompleteNodeRegistration_Ok in Hreg as (d1 & k & now & t0 & bytes & Hreg & Hcg & _ & _ & Hn & Hg & _).
  apply registers_registered in Hreg as [_ (g & _ & _ & Hgs) _ _ [t1 Hns] _ _].
  rewrite (AuthenticateNode_eq _ _ (cr_ConnectivityGroupId resp)); [|cbn|done].
  - cbn [db an_NodeNumber an_AuthToken]. rewrite Hl. apply live_node_Some in Hl as [Hrow _].
    destruct (steps_good _ _ _ Hs Hwf') as [_ Hev].
    destruct (ev_nodes _ _ Hev (cr_ConnectivityGroupId resp, cr_NodeNumber resp)
      (new_node k (hashToken (cr_AuthToken resp)) t1)) as (row' & Hrow' & Hh & _).
    { rewrite Hn, Hns, Hcg. apply lookup_insert_eq. }
    assert (row' = row) as -> by congruence. by rewrite Hh.
  - rewrite Hcg. eapply (wf_groups _ _ Hwf'). rewrite Hg, Hgs. apply lookup_insert_eq.
Qed.

(** Authentication succeeds exactly when the claimed group parses to a
    group id under which the claimed number is a live node whose stored hash is
    the hash of the presented secret (and the driver works); it changes nothing. *)
Theorem authenticate_sound_complete req w :
  db (fst (AuthenticateNode req w)) = db w /\
  (snd (AuthenticateNode req w) = Ok () <->
   exists cg row, uuid_Parse (an_ConnectivityGroupId req) = Some cg /\ driver_fails (tick w) = false /\
     nodes (db w) !! (cg, an_NodeNumber req) = Some row /\ nd_deleted_at_millis row = None /\
     nd_auth_token_hash row = hashToken (an_AuthToken req)).
Proof.
  split; [apply AuthenticateNode_db|]. rewrite AuthenticateNode_Ok. setoid_rewrite live_node_Some.
  naive_solver.
Qed.

(** C5. A registration token works once. After a successful registration,
    whatever else the hub does, submitting the same secret again is answered
    with NotFound, unless another token with the same hash has been issued. *)
Theorem registration_single_use b b' token w w' resp d t :
  CompleteNodeRegistration b token w = (w', Ok resp) -> wf_db canonical_id (db w) ->
  rtc (db_step canonical_id) (db w') d ->
  (forall k k', k ∈ tokens d -> k' ∈ tokens d -> tk_token_hash k = hashToken token ->
     tk_token_hash k' = hashToken token -> tk_id k = tk_id k') ->
  regLimiter_Allow t = true -> (forall t', driver_fails t' = false) ->
  snd (CompleteNodeRegistration b' token {| db := d; tick := t |}) =
    Err (Errorf NotFound "invalid or expired token").
Proof.
  intros Hreg Hwf Hs Huniq Hallow Hdrv.
  assert (wf_db canonical_id (db w') /\ evolves (db w) (db w')) as [Hwf' Hev'].
  { eapply (steps_good _ (db w)); [|done].
    pose proof (serve_steps b (RCompleteNodeRegistration token) w) as Hst. cbn in Hst.
    by rewrite Hreg in Hst. }
  apply CompleteNodeRegistration_Ok in Hreg as (d1 & k & now0 & t0 & bytes & Hreg & _ & _ & _ & _ & _ & Ht & _).
  apply registers_registered in Hreg as [[Hk [Hh _]] _ _ _ _ [t2 Hts] _].
  assert (token_used t2 k ∈ tokens (db w')) as Hused.
  { rewrite Ht, Hts. apply list_elem_of_fmap. exists k. by rewrite decide_True. }
  destruct (steps_good _ _ _ Hs Hwf') as [_ Hev].
  assert (exists k2, k2 ∈ tokens d /\ tk_id k2 = tk_id k /\ tk_token_hash k2 = hashToken token)
    as (k2 & Hk2 & Hid2 & Hh2).
  { apply list_elem_of_lookup in Hused as [i Hi].
    destruct (ev_tokens _ _ Hev _ _ Hi) as (k2 & Hk2 & Eid & _ & Eh & _).
    exists k2. split; [by eapply list_elem_of_lookup_2|]. cbn in Eid, Eh. by rewrite Eid, Eh. }
  assert (forall now, sel_token (hashToken token) now d = Err ErrNoRows) as Hnone.
  { intros now1. apply sel_token_none. intros k' Hk' (Hh' & Hu' & _).
    assert (tk_id k' = tk_id k) as Hid by (rewrite <-Hid2; by apply Huniq).
    destruct (used_stays _ _ _ Hwf' Hs Hused ltac:(by eexists) k' Hk' Hid) as [x Hx]. congruence. }
  unfold CompleteNodeRegistration, registration, registration_body, in_transaction, begin_tx, commit_tx,
    row_or, absent_or_internal, on_error, exec, meanwhile, alone, tx_exec,
    nowMillis, ask, throw, mbind, mret, ST_bind, ST_ret. cbn [tick db].
  rewrite Hallow. cbn. rewrite !Hdrv. cbn. by rewrite Hnone.
Qed.
End properties.

Section more_properties.
Context `{Platform} `{Crypto} `{JwtLib}.

Lemma registration_wf b token w w' resp :
  CompleteNodeRegistration b token w = (w', Ok resp) -> wf_db canonical_id (db w) ->
  wf_db canonical_id (db w').
Proof.
  intros Hreg Hwf. eapply (steps_good _ (db w)); [|done].
  pose proof (serve_steps b (RCompleteNodeRegistration token) w) as Hst. cbn in Hst.
  by rewrite Hreg in Hst.
Qed.

(** Node numbers are never reused: of two registrations in one group, the
    later one gets a larger number, whatever nodes were deleted in between. *)
Theorem node_numbers_increase b b' token token' w1 w1' w2 w2' resp resp' :
  CompleteNodeRegistration b token w1 = (w1', Ok resp) -> wf_db canonical_id (db w1) ->
  rtc (db_step canonical_id) (db w1') (db w2) ->
  CompleteNodeRegistration b' token' w2 = (w2', Ok resp') ->
  cr_ConnectivityGroupId resp' = cr_ConnectivityGroupId resp ->
  cr_NodeNumber resp < cr_NodeNumber resp'.
Proof.
  intros Hr1 Hwf Hs Hr2 Hcg. pose proof (registration_wf _ _ _ _ _ Hr1 Hwf) as Hwf1.
  destruct (steps_good _ _ _ Hs Hwf1) as [_ Hev].
  apply CompleteNodeRegistration_Ok in Hr1 as (d1 & k & ? & ? & ? & Hreg1 & Hcg1 & _ & _ & _ & Hg1 & _).
  apply CompleteNodeRegistration_Ok in Hr2 as (d2 & k' & ? & ? & ? & Hreg2 & Hcg2 & _).
  apply registers_registered in Hreg1 as [_ (g & _ & _ & Hgs1) _ _ _ _ _].
  apply registers_registered in Hreg2 as [_ (g' & Hl2 & -> & _) _ _ _ _ _].
  apply live_group_Some in Hl2 as [Hl2 _].
  destruct (ev_groups _ _ Hev (tk_group k) (group_next (cr_NodeNumber resp + 1) g))
    as (g2 & Hg2 & _ & _ & _ & Hle & _); [rewrite Hg1, Hgs1; apply lookup_insert_eq|].
  assert (tk_group k' = tk_group k) as Heq by congruence. rewrite Heq in Hl2.
  cbn in Hle. assert (g2 = g') as -> by congruence. lia.
Qed.

(** Deregistration revokes for good: after it, no secret authenticates the
    node again, whatever the hub does later. *)
Theorem deregister_revokes raw cg n w w' d t rawID tok :
  DeregisterNode raw n w = (w', Ok ()) -> wf_db canonical_id (db w) ->
  uuid_Parse raw = Some cg -> is_Some (nodes (db w) !! (cg, n)) ->
  rtc (db_step canonical_id) (db w') d ->
  uuid_Parse rawID = Some cg ->
  snd (AuthenticateNode {| an_ConnectivityGroupId := rawID; an_NodeNumber := n; an_AuthToken := tok |}
         {| db := d; tick := t |}) <> Ok ().
Proof.
  intros Hde Hwf Hraw [row0 Hrow0] Hs Hid (cg' & row & Hu & _ & Hl & _)%AuthenticateNode_Ok.
  cbn in Hu, Hl. assert (cg' = cg) as -> by congruence.
  assert (wf_db canonical_id (db w')) as Hwf'.
  { eapply (steps_good _ (db w)); [|done].
    pose proof (serve_steps {| instanceID := ""; signer := None |} (RDeregisterNode raw n) w) as Hst. cbn in Hst.
    by rewrite Hde in Hst. }
  destruct (steps_good _ _ _ Hs Hwf') as [Hwfd Hev].
  apply live_node_Some in Hl as [Hrow Hlive].
  revert Hde. unfold DeregisterNode.
  intros (w1 & cg1 & [Hp ->]%parseGroupID_Ok & Hb)%ST_bind_Ok. assert (cg1 = cg) as -> by congruence.
  apply ST_bind_Ok in Hb as (w2 & t1 & [_ ->]%ask_Ok & Hb).
  apply ST_bind_Ok in Hb as (w3 & u & (_ & Hupd & _)%on_error_Ok%exec_Ok & Hlog).
  pose proof (insertActivityLog_frame cg n "deregister" true (Some (event Deregister_)) w3) as Hf.
  rewrite Hlog in Hf. cbn in Hf. destruct Hf as (Hn & _).
  injection Hupd as Hdb _. cbn in Hdb.
  assert (nodes (db w') = alter (node_deleted t1) (cg, n) (nodes (db w))) as Hn'
    by (by rewrite Hn, <-Hdb).
  destruct (ev_nodes _ _ Hev (cg, n) (node_deleted t1 row0)) as (row' & Hrow' & _ & _ & _ & Hdel).
  { by rewrite Hn', lookup_alter_eq, Hrow0. }
  destruct Hdel as [x Hx]; [by eexists|]. congruence.
Qed.

(** The roster is updated under optimistic locking. A call whose new
    version does not exceed the expected one is refused; otherwise the live
    group's roster and version are replaced if its version is the expected
    one, and the call is aborted, changing nothing, if not. *)
Theorem update_roster_locking req cg w :
  uuid_Parse (ur_ConnectivityGroupId req) = Some cg -> driver_fails (tick w) = false ->
  UpdateRoster req w =
  if ur_NewVersion req <=? ur_ExpectedVersion req
  then (w, Err (Errorf InvalidArgument "new_version must be greater than expected_version"))
  else match live_group cg (db w) with
       | Some g =>
           if g_roster_version g =? ur_ExpectedVersion req
           then ({| db := with_groups (<[cg := group_roster (ur_Roster req) (ur_NewVersion req) g]>
                            (groups (db w))) (db w); tick := S (tick w) |}, Ok ())
           else ({| db := db w; tick := S (tick w) |}, Err (Errorf Aborted "roster version conflict"))
       | None => ({| db := db w; tick := S (tick w) |}, Err (Errorf Aborted "roster version conflict"))
       end.
Proof. apply update_roster_eq. Qed.

(** Of two updates that expect the same version, at most one succeeds,
    as long as the roster has not been reset in between: the second one finds
    a larger version. *)
Theorem update_roster_one_winner req req' cg w w1 w2 :
  uuid_Parse (ur_ConnectivityGroupId req) = Some cg ->
  uuid_Parse (ur_ConnectivityGroupId req') = Some cg ->
  ur_ExpectedVersion req' = ur_ExpectedVersion req ->
  UpdateRoster req w = (w1, Ok ()) ->
  (forall g1, live_group cg (db w1) = Some g1 -> exists g2, live_group cg (db w2) = Some g2 /\
     g_roster_version g1 <= g_roster_version g2) ->
  snd (UpdateRoster req' w2) <> Ok ().
Proof.
  intros Hu Hu' Hexp Hr1 Hmono Hr2.
  assert (driver_fails (tick w) = false) as Hd.
  { revert Hr1. unfold UpdateRoster. intros (w3 & c & [_ ->]%parseGroupID_Ok & Hb)%ST_bind_Ok.
    destruct (_ <=? _); [done|]. by apply ST_bind_Ok in Hb as (? & ? & (? & _)%on_error_Ok%exec_Ok & _). }
  assert (driver_fails (tick w2) = false) as Hd2.
  { destruct (UpdateRoster req' w2) as [w3 r] eqn:Hr. cbn in Hr2. subst r. revert Hr. unfold UpdateRoster.
    intros (w4 & c & [_ ->]%parseGroupID_Ok & Hb)%ST_bind_Ok.
    destruct (_ <=? _); [done|]. by apply ST_bind_Ok in Hb as (? & ? & (? & _)%on_error_Ok%exec_Ok & _). }
  rewrite (update_roster_eq _ _ _ Hu Hd) in Hr1. rewrite (update_roster_eq _ _ _ Hu' Hd2) in Hr2.
  destruct (Z.leb_spec (ur_NewVersion req) (ur_ExpectedVersion req)); [done|].
  destruct (live_group cg (db w)) as [g|] eqn:Hl; [|done].
  destruct (Z.eqb_spec (g_roster_version g) (ur_ExpectedVersion req)); [|done].
  injection Hr1 as <-. apply live_group_Some in Hl as [_ Hlive].
  destruct (Hmono (group_roster (ur_Roster req) (ur_NewVersion req) g)) as (g2 & Hg2 & Hle).
  { apply live_group_Some. cbn. by rewrite lookup_insert_eq. }
  rewrite Hg2 in Hr2. cbn in Hle. destruct (_ <=? _); [done|].
  destruct (Z.eqb_spec (g_roster_version g2) (ur_ExpectedVersion req')); [lia|done].
Qed.

(** ListNodes reports exactly the live nodes of the group, once each, in
    increasing order of their numbers, with their name, metadata and time of
    last contact. *)
Theorem list_nodes_spec raw cg w :
  uuid_Parse raw = Some cg -> driver_fails (tick w) = false -> wf_db canonical_id (db w) ->
  exists l, snd (ListNodes raw w) = Ok l /\ db (fst (ListNodes raw w)) = db w /\
  Sorted Z.lt (bn_NodeNumber <$> l) /\
  forall bn, bn ∈ l <-> exists row, nodes (db w) !! (cg, bn_NodeNumber bn) = Some row /\
    nd_deleted_at_millis row = None /\ bn = be_node (bn_NodeNumber bn, row).
Proof.
  intros Hu Hd Hwf. exists (be_node <$> live_nodes cg (db w)).
  assert (forallb (fun e => int32_ok e.1) (live_nodes cg (db w)) = true) as H32.
  { apply forallb_forall. intros [n row] Hin%list_elem_of_In%live_nodes_elem.
    destruct Hin as [Hrow _]. destruct (wf_nodes _ _ Hwf _ _ _ Hrow) as (g & Hg & Hr).
    destruct (wf_groups _ _ Hwf _ _ Hg) as (_ & Hn & _). apply int32_ok_true. cbn. lia. }
  assert (ListNodes raw w = ({| db := db w; tick := S (tick w) |}, Ok (be_node <$> live_nodes cg (db w)))) as ->.
  { unfold ListNodes, parseGroupID, on_error, exec, meanwhile, alone, tx_exec, sel_nodes, mbind, mret, ST_bind, ST_ret.
    by rewrite Hu, Hd, H32. }
  split_and!; [done|done| |].
  - rewrite <-list_fmap_compose. apply live_nodes_sorted.
  - intros bn. rewrite list_elem_of_fmap. split.
    + intros ([n row] & -> & [Hrow Hl]%live_nodes_elem). by exists row.
    + intros (row & Hrow & Hl & Hbn). exists (bn_NodeNumber bn, row). split; [done|].
      by apply live_nodes_elem.
Qed.
End more_properties.
