(* ===== verification/RosterPb.v ===== *)
(** * Rosters of the client's proto package

    The roster messages are defined by the client library, which the
    repository refers to as a submodule: the class lists the accessors that
    the hub uses, with the decoding of an encoded roster as the one law the
    protobuf library documents. *)
From S2P Require Import Prelude.
Open Scope Z_scope.

(** The last step of a roster's history, as far as the hub looks at it. *)
Record ActivationPayload := {
  ap_Version : Z;
  ap_NewNodeNumber : Z;
  ap_EndorserNodeNumber : Z
}.
Record RevocationPayload := { rp_Version : Z; rp_RevokerNodeNumber : Z }.
Inductive AddendumKind :=
| Activation (payload : ActivationPayload)
| Revocation (payload : RevocationPayload)
| NoKind.

Class RosterPb := {
  Roster : Type;
  emptyRoster : Roster;
  Marshal_Roster : Roster -> option string;
  Unmarshal_Roster : string -> option Roster;
  Unmarshal_Marshal : forall r s, Marshal_Roster r = Some s -> Unmarshal_Roster s = Some r;
  (** the number of each node of the roster, and whether it is revoked *)
  GetNodes : Roster -> list (Z * bool);
  GetVersion : Roster -> Z;
  GetAddenda : Roster -> list AddendumKind;
  (** the roster whose last addendum, an activation, has this endorser signature *)
  set_EndorserSignature : string -> Roster -> Roster
}.
