(* ===== verification/AdminApi.v ===== *)
(** * The admin REST API: connect/hub/standalone_rest.go

    One definition per handler, behind the API-key check. A handler answers
    200 with a body, or stops with a status code and an error text. The parts
    of a request the framework reads (path and query parameters, the
    Authorization header, the bound JSON body) are arguments. *)
From S2P Require Import Prelude GoStrings GoEncoding GoTime ApiKeys IntegratorApi RosterPb Store.
From S2P Require Import StoreInv Platform.
Open Scope Z_scope.

Section admin.
Context `{Platform} `{Others} `{Crypto} `{RosterPb}.

Record httpError := { http_code : Z; http_error : string }.
Definition badRequest (msg : string) : httpError := {| http_code := 400; http_error := msg |}.
Definition unauthorized (msg : string) : httpError := {| http_code := 401; http_error := msg |}.
Definition notFound : httpError := {| http_code := 404; http_error := "not found" |}.
Definition conflict (msg : string) : httpError := {| http_code := 409; http_error := msg |}.
Definition serverError (e : dbError) : httpError :=
  {| http_code := 500; http_error := dbErrorText e |}.

Notation REST := (ST World httpError).

(** A statement whose error is answered with 500. *)
Definition run_stmt {A} (s : stmt A) : REST A := on_error serverError (exec s).
(** A SELECT of one row; no row is answered with 404. *)
Definition row_or_404 {A} (s : stmt A) : REST A :=
  on_error (fun e => if decide (e = ErrNoRows) then notFound else serverError e) (exec s).

(** *** Helpers *)

Definition isUniqueViolation (e : dbError) : bool := bool_decide (e = ConstraintUnique).
Definition format_RFC3339 (t : Time) : string := rfc3339 ((ext t - unixToInternal) * 1000).

Definition groupExists (cgID : string) : REST unit :=
  _ ← row_or_404 (sel_group cgID); mret ().

(** [nodeRevokedInRoster]. *)
Definition nodeRevokedInRoster (rosterBytes : string) (nodeNumber : Z) : bool :=
  match Unmarshal_Roster rosterBytes with
  | None => false
  | Some roster => existsb (fun n => (n.1 =? nodeNumber) && n.2) (GetNodes roster)
  end.

(** The [:id] parameter: [AbortWithError] answers without a body. *)
Definition group_param (id : string) (e : httpError) : REST string :=
  match uuid_Parse id with
  | None => throw e
  | Some cgID => mret cgID
  end.
Definition emptyBadRequest : httpError := badRequest "".
Definition invalidGroupID : httpError := badRequest "invalid connectivity group ID".
Definition node_param (nodeNumber : string) : REST Z :=
  match ParseInt nodeNumber 32 with
  | None => throw (badRequest "invalid node number")
  | Some nn => mret nn
  end.
(** [c.ShouldBindJSON(&dto)] *)
Definition bind_json {A} (body : result string A) : REST A :=
  match body with
  | Err e => throw (badRequest e)
  | Ok dto => mret dto
  end.

(** *** The API key *)

(** The result is the id of the key that authorises the request. *)
Definition checkAPIKey (header : string) : REST string :=
  match FromAuthHeader header with
  | Err e => throw (unauthorized (authErrorMessage e))
  | Ok apiKey =>
      found ← attempt (exec (sel_api_key (ID apiKey)));
      match found with
      | Err e =>
          if decide (e = ErrNoRows) then throw (unauthorized "unknown API key")
          else throw (serverError e)
      | Ok row =>
          if bool_decide (is_Some (ak_revoked_at_millis row)) ||
             negb (ConstantTimeCompare (hex_EncodeToString (SecretHash apiKey)) (ak_secret_hash row) =? 1)
          then throw (unauthorized "unknown API key")
          else mret (ID apiKey)
      end
  end.

(** *** Groups *)

Definition getStats : REST GroupsStats :=
  count ← run_stmt count_groups;
  mret {| st_Count := count; st_Max := None |}.

Definition getConnectivityGroups (associationKey : string) : REST (list GroupSummary) :=
  rows ← run_stmt (sel_groups (if decide (associationKey = "") then None else Some associationKey));
  mret ((fun e => {| gs_ID := e.1; gs_Name := g_name e.2 |}) <$> rows).

Definition postConnectivityGroup (body : result string CreateConnectivityGroupRequest) :
    REST GroupCreated :=
  dto ← bind_json body;
  id ← ask uuid_NewString;
  createdAt ← nowMillis;
  _ ← on_error
        (fun e => if isUniqueViolation e then conflict "association key conflict" else serverError e)
        (exec (ins_group id (cg_Name dto) (cg_AssociationKey dto) createdAt));
  mret {| gc_ID := id; gc_CreatedAt := rfc3339 createdAt; gc_Name := cg_Name dto |}.

(** One row of the answer; [onlineNodes] is the hub's connection table. *)
Definition node_info (onlineNodes : list Z) (e : Z * NodeRow) : Node :=
  {| n_NodeNumber := e.1;
     n_CreatedAt := rfc3339 (nd_created_at_millis e.2);
     n_Name := nd_name e.2;
     n_LastSeenAt := rfc3339 <$> nd_last_seen_at_millis e.2;
     n_Metadata := nd_metadata e.2;
     n_IsOnline := Some (bool_decide (e.1 ∈ onlineNodes)) |}.

Definition getConnectivityGroup (online : string -> list Z) (idParam : string) : REST GroupDetail :=
  cgID ← group_param idParam emptyBadRequest;
  g ← row_or_404 (sel_group cgID);
  let onlineNodes := online cgID in
  rows ← run_stmt (sel_nodes cgID);
  let nodeList := node_info onlineNodes <$> rows in
  weekAgo ← ask (fun t => UnixMilli (time_Add (now t) (- (7 * 24 * Hour))));
  connections ← attempt (exec (count_activity cgID weekAgo));
  t ← nowMillis;
  pendingTokens ← run_stmt (count_pending cgID t);
  mret {| gd_ID := cgID; gd_CreatedAt := rfc3339 (g_created_at_millis g); gd_Name := g_name g;
          gd_Nodes := nodeList;
          gd_ActivityStats := {| as_SuccessfulConnections7d :=
            match connections with Ok n => n | Err _ => 0 end |};
          gd_NodeQuota := {| nq_Limit := None;
            nq_Current := wrap32 (wrap32 (Z.of_nat (length nodeList)) + pendingTokens) |} |}.

(** The two UPDATEs are separate statements: other calls may run in between. *)
Definition deleteGroup_nodes (cgID : string) (t : Z) : REST unit :=
  run_stmt (upd_nodes_deleted cgID t).
Definition deleteGroup_group (cgID : string) (t : Z) : REST unit :=
  run_stmt (upd_group_deleted cgID t).
Definition deleteConnectivityGroup (idParam : string) : REST unit :=
  cgID ← group_param idParam emptyBadRequest;
  t ← nowMillis;
  _ ← deleteGroup_nodes cgID t;
  deleteGroup_group cgID t.

Definition resetConnectivityGroup (idParam : string) : REST unit :=
  cgID ← group_param idParam emptyBadRequest;
  _ ← groupExists cgID;
  t ← nowMillis;
  _ ← run_stmt (upd_nodes_deleted cgID t);
  run_stmt (upd_group_reset cgID).

(** *** Registration tokens *)

Definition postRegistrationToken (idParam : string)
    (body : result string CreateRegistrationTokenRequest) : REST RegistrationTokenCreated :=
  cgID ← group_param idParam invalidGroupID;
  dto ← bind_json body;
  _ ← groupExists cgID;
  minted ← ask (fun t => MintRegistrationToken (rand_Read t) (now t) dto);
  match minted with
  | Err (ValidationError msg) => throw (badRequest msg)
  | Err errRandRead => throw {| http_code := 500; http_error := randErrorText |}
  | Ok minted =>
      id ← ask uuid_NewString;
      createdAt ← nowMillis;
      _ ← run_stmt (ins_token
        {| tk_id := id; tk_group := cgID; tk_token_hash := TokenHash minted;
           tk_node_name := rt_NodeName dto; tk_node_metadata := rt_NodeMetadata dto;
           tk_created_at_millis := createdAt;
           tk_expires_at_millis := UnixMilli (ExpiresAt minted); tk_used_at_millis := None |});
      mret {| rc_Token := Token minted; rc_ExpiresAt := format_RFC3339 (ExpiresAt minted) |}
  end.

Definition token_info (k : TokenRow) : RegistrationTokenInfo :=
  {| ri_NodeName := tk_node_name k; ri_NodeMetadata := tk_node_metadata k;
     ri_CreatedAt := rfc3339 (tk_created_at_millis k);
     ri_ExpiresAt := rfc3339 (tk_expires_at_millis k);
     ri_UsedAt := rfc3339 <$> tk_used_at_millis k |}.
Definition getRegistrationTokens (idParam : string) : REST (list RegistrationTokenInfo) :=
  cgID ← group_param idParam invalidGroupID;
  _ ← groupExists cgID;
  t ← ask now;
  rows ← run_stmt (sel_tokens cgID (UnixMilli t)
                     (UnixMilli (time_Add t (- RegistrationTokenListWindow))));
  mret (token_info <$> rows).

(** *** Nodes *)

Definition patchNode (idParam nodeParam : string) (body : result string PatchNodeRequest) :
    REST unit :=
  cgID ← group_param idParam invalidGroupID;
  nn ← node_param nodeParam;
  dto ← bind_json body;
  match pn_Name dto with
  | None => mret ()
  | Some name =>
      if 256 <? slen name then throw (badRequest "name exceeds 256 characters")
      else _ ← run_stmt (upd_live_node cgID nn (node_name name)); mret ()
  end.

Definition deleteNode (idParam nodeParam : string) : REST unit :=
  cgID ← group_param idParam invalidGroupID;
  nn ← node_param nodeParam;
  g ← row_or_404 (sel_group cgID);
  _ ← row_or_404 (sel_node cgID nn);
  if negb (nodeRevokedInRoster (g_roster g) nn)
  then throw (conflict "node is not marked revoked in the group's roster")
  else
    t ← nowMillis;
    n ← run_stmt (upd_live_node cgID nn (node_deleted t));
    if n =? 0 then throw notFound else mret ().

(** *** The routes *)

Inductive request :=
| GetStats
| GetConnectivityGroups (associationKey : string)
| PostConnectivityGroup (body : result string CreateConnectivityGroupRequest)
| GetConnectivityGroup (id : string)
| DeleteConnectivityGroup (id : string)
| ResetConnectivityGroup (id : string)
| PostRegistrationToken (id : string) (body : result string CreateRegistrationTokenRequest)
| GetRegistrationTokens (id : string)
| PatchNode (id nodeNumber : string) (body : result string PatchNodeRequest)
| DeleteNode (id nodeNumber : string).

Inductive response :=
| Stats (r : GroupsStats)
| Groups (r : list GroupSummary)
| Created (r : GroupCreated)
| Detail (r : GroupDetail)
| GroupDeleted
| GroupReset
| TokenCreated (r : RegistrationTokenCreated)
| TokenInfos (r : list RegistrationTokenInfo)
| Patched
| NodeDeleted.

(** The handler of a route. *)
Definition route (online : string -> list Z) (r : request) : REST response :=
  match r with
  | GetStats => r ← getStats; mret (Stats r)
  | GetConnectivityGroups key => r ← getConnectivityGroups key; mret (Groups r)
  | PostConnectivityGroup body => r ← postConnectivityGroup body; mret (Created r)
  | GetConnectivityGroup id => r ← getConnectivityGroup online id; mret (Detail r)
  | DeleteConnectivityGroup id => _ ← deleteConnectivityGroup id; mret GroupDeleted
  | ResetConnectivityGroup id => _ ← resetConnectivityGroup id; mret GroupReset
  | PostRegistrationToken id body => r ← postRegistrationToken id body; mret (TokenCreated r)
  | GetRegistrationTokens id => r ← getRegistrationTokens id; mret (TokenInfos r)
  | PatchNode id n body => _ ← patchNode id n body; mret Patched
  | DeleteNode id n => _ ← deleteNode id n; mret NodeDeleted
  end.
(** The group /api/v1: [checkAPIKey] runs before every handler. *)
Definition handle (online : string -> list Z) (header : string) (r : request) : REST response :=
  _ ← checkAPIKey header; route online r.
End admin.
