(* ===== verification/AdminProps.v ===== *)
(** * Correctness of the admin API and of the hub's database under all calls

    What the API-key check lets through, what each handler does to the
    database, the life of a registration token from its minting to the node it
    registers, and the invariant of the database under every mixture of admin
    and node calls. *)
From S2P Require Import Prelude GoStrings GoEncoding GoTime ApiKeys IntegratorApi Grpc BePb.
From S2P Require Import Attestation RosterPb Store StoreInv Platform Backend BackendSteps.
From S2P Require Import BackendProps AdminApi.
Open Scope Z_scope.

Section admin_steps.
Context `{Platform} `{O : Others} `{!Lawful O} `{Crypto} `{JwtLib} `{RosterPb}.
Implicit Types (w : World).

Lemma steps_checkAPIKey header : steps (checkAPIKey header).
Proof.
  unfold checkAPIKey. case_match; [|apply steps_throw].
  apply steps_bind; [apply steps_attempt, steps_query_row|]. intros [row|e].
  - case_match; [apply steps_throw|apply steps_ret].
  - case_decide; apply steps_throw.
Qed.
Lemma steps_group_param id e : steps (group_param id e).
Proof. unfold group_param. case_match; [apply steps_ret|apply steps_throw]. Qed.
Lemma steps_groupExists cg : steps (groupExists cg).
Proof. unfold groupExists, row_or_404. apply steps_bind; [apply steps_on_error, steps_query_row|]. intros. apply steps_ret. Qed.
Lemma steps_run_stmt {A} (s : stmt A) :
  (forall d d' a, s d = Ok (d', a) -> db_step canonical_id d d') -> steps (run_stmt s).
Proof. intros Hs. by apply steps_on_error, steps_step. Qed.
End admin_steps.

Ltac admin_steps_tac :=
  repeat match goal with
  | |- steps (mbind _ _) => apply steps_bind; [|intros ?]
  | |- steps (mret _) => apply steps_ret
  | |- steps (throw _) => apply steps_throw
  | |- steps (ask _) => apply steps_ask
  | |- steps nowMillis => apply steps_ask
  | |- steps (checkAPIKey _) => apply steps_checkAPIKey
  | |- steps (group_param _ _) => apply steps_group_param
  | |- steps (node_param _) => unfold node_param
  | |- steps (bind_json _) => unfold bind_json
  | |- steps (groupExists _) => apply steps_groupExists
  | |- steps (row_or_404 _) => apply steps_on_error
  | |- steps (run_stmt (upd_nodes_deleted _ _)) =>
      apply steps_run_stmt; intros ? ? [] ?; by eapply step_nodes_deleted
  | |- steps (run_stmt (upd_group_deleted _ _)) =>
      apply steps_run_stmt; intros ? ? [] ?; by eapply step_group_deleted
  | |- steps (run_stmt (upd_group_reset _)) =>
      apply steps_run_stmt; intros ? ? [] ?; by eapply step_group_reset
  | |- steps (run_stmt (upd_live_node _ _ (node_name _))) =>
      apply steps_run_stmt; intros ? ? ? ?; by eapply step_node_name
  | |- steps (run_stmt (upd_live_node _ _ (node_deleted _))) =>
      apply steps_run_stmt; intros ? ? ? ?; by eapply step_live_node_deleted
  | |- steps (run_stmt (ins_token _)) =>
      apply steps_run_stmt; intros ? ? [] ?; by eapply step_token; [|eassumption]
  | |- steps (run_stmt _) => apply steps_on_error
  | |- steps (on_error _ _) => apply steps_on_error
  | |- steps (attempt _) => apply steps_attempt
  | |- steps (exec (sel_nodes _)) => apply steps_sel_nodes
  | |- steps (exec _) => first [apply steps_query_row | apply steps_query_count | apply steps_query]
  | |- steps _ => case_match
  end.

Section admin_keeps.
Context `{Platform} `{O : Others} `{!Lawful O} `{Crypto} `{JwtLib} `{RosterPb}.

(** [id] comes from [uuid.NewString]: this is where group ids are made. *)
Lemma steps_ins_group {E} (f : dbError -> E) name assoc :
  steps (id ← ask uuid_NewString; createdAt ← nowMillis;
         _ ← on_error f (exec (ins_group id name assoc createdAt)); mret (id, createdAt)).
Proof.
  intros w. unfold mbind, ST_bind, ask, nowMillis, on_error, mret, ST_ret, exec, tx_exec. cbn -[ins_group].
  match goal with |- context [driver_fails (tick (meanwhile ?w1))] => pose proof (meanwhile_steps w1) as Hm end.
  cbn in Hm. destruct (driver_fails _); [exact Hm|].
  destruct (ins_group _ _ _ _ _) as [[d []]|e] eqn:Hi; [|exact Hm]. cbn.
  eapply rtc_r; [exact Hm|]. eapply step_group; [|exact Hi]. apply uuid_NewString_canonical.
Qed.
Lemma route_steps online r : steps (route online r).
Proof.
  destruct r; cbn [route].
  - unfold getStats. admin_steps_tac.
  - unfold getConnectivityGroups. admin_steps_tac.
  - unfold postConnectivityGroup. apply steps_bind; [|intros ?; apply steps_ret].
    apply steps_bind; [admin_steps_tac|]. intros dto w.
    pose proof (steps_ins_group (fun e => if isUniqueViolation e
      then conflict "association key conflict" else serverError e)
      (cg_Name dto) (cg_AssociationKey dto) w) as Hs.
    unfold mbind, ST_bind, ask, nowMillis, on_error, mret, ST_ret in *. cbn in *.
    by destruct (exec _ _) as [w1 [[]|e]].
  - unfold getConnectivityGroup. admin_steps_tac.
  - unfold deleteConnectivityGroup, deleteGroup_nodes, deleteGroup_group. admin_steps_tac.
  - unfold resetConnectivityGroup. admin_steps_tac.
  - unfold postRegistrationToken. admin_steps_tac.
  - unfold getRegistrationTokens. admin_steps_tac.
  - unfold patchNode. admin_steps_tac.
  - unfold deleteNode. admin_steps_tac.
Qed.
Lemma handle_steps online header r : steps (handle online header r).
Proof. unfold handle. apply steps_bind; [apply steps_checkAPIKey|]. intros _. apply route_steps. Qed.
End admin_keeps.

(** ** Any calls, in any order *)
Section calls.
Context `{Platform} `{Crypto} `{JwtLib} `{RosterPb}.

(** A call on the hub: an RPC of the backend or a request of the admin API. *)
Inductive call :=
| Rpc (b : Backend) (r : rpc)
| Admin (online : string -> list Z) (header : string) (r : request).
Definition run_call `{Others} (w : World) (c : call) : World :=
  match c with
  | Rpc b r => serve b r w
  | Admin online header r => fst (handle online header r w)
  end.

Lemma run_calls_steps `{O : Others} `{!Lawful O} cs w : rtc (db_step canonical_id) (db w) (db (foldl run_call w cs)).
Proof.
  revert w. induction cs as [|c cs IH]; intros w; [apply rtc_refl|]. cbn. etrans; [|apply IH].
  destruct c; [apply serve_steps|apply handle_steps].
Qed.
(** Others that run any calls while one waits, during which again others run
    any calls, [n] deep. *)
Fixpoint crowd (n : nat) (calls : nat -> list call) : Others := fun w =>
  match n with
  | O => w
  | S n => foldl (@run_call (crowd n calls)) w (calls (tick w))
  end.
#[export] Instance crowd_lawful n calls : Lawful (crowd n calls).
Proof.
  induction n as [|n IH]; intros w; [apply rtc_refl|].
  exact (@run_calls_steps (crowd n calls) IH (calls (tick w)) w).
Qed.

(** No sequence of calls undoes what others rely on: groups and nodes are
    never removed, deleted ones stay deleted, a group's key and a node's
    secret never change, used tokens stay used, the activity log only grows,
    and API keys are never altered. *)
Theorem database_monotone cs w :
  wf_db canonical_id (db w) -> evolves (db w) (db (foldl run_call w cs)).
Proof. intros Hwf. eapply steps_good; [apply run_calls_steps|done]. Qed.

(** C31. A request reaches its handler exactly when its Authorization header
    parses to an API key whose id is stored, unrevoked, with the hash of the
    presented secret; any other request changes nothing in the database. *)
Theorem api_key_gate online header r w :
  (exists key row, FromAuthHeader header = Ok key /\ driver_fails (tick w) = false /\
     api_keys (db w) !! ID key = Some row /\ ak_revoked_at_millis row = None /\
     ak_secret_hash row = hex_EncodeToString (SecretHash key) /\
     handle online header r w = route online r {| db := db w; tick := S (tick w) |}) \/
  (is_ok (snd (handle online header r w)) = false /\ db (fst (handle online header r w)) = db w /\
   forall key row, FromAuthHeader header = Ok key -> driver_fails (tick w) = false ->
     api_keys (db w) !! ID key = Some row -> ak_revoked_at_millis row = None ->
     ak_secret_hash row <> hex_EncodeToString (SecretHash key)).
Proof.
  unfold handle, checkAPIKey. destruct (FromAuthHeader header) as [key|e]; [|by right; split_and!].
  unfold attempt, exec, meanwhile, alone, tx_exec, sel_api_key, query_row, throw, ConstantTimeCompare, mbind, ST_bind, mret, ST_ret.
  destruct (driver_fails (tick w)) eqn:Hd; [by right; split_and!|].
  destruct (api_keys (db w) !! ID key) as [row|] eqn:Hrow; [|right; split_and!; [done|done|by intros; simplify_eq]].
  destruct (ak_revoked_at_millis row) as [t|] eqn:Hrev.
  { right. rewrite bool_decide_true by eauto. split_and!; [done|done|]. intros; by simplify_eq. }
  rewrite bool_decide_false by (intros [? ?]; congruence).
  destruct (decide (hex_EncodeToString (SecretHash key) = ak_secret_hash row)) as [Heq|Hne].
  - left. exists key, row. split_and!; try done. 
  - right. split_and!; [done|done|]. intros; by simplify_eq.
Qed.

(** Creating a group is refused with 409 exactly when a live group has the
    requested association key. *)
Theorem association_key_conflict dto w :
  (forall t, driver_fails t = false) -> (forall t, groups (db w) !! uuid_NewString t = None) ->
  match snd (postConnectivityGroup (Ok dto) w) with
  | Ok r => (forall key, cg_AssociationKey dto = Some key ->
       forall cg g, live_group cg (db w) = Some g -> g_association_key g <> Some key) /\
     groups (db w) !! gc_ID r = None /\
     exists g, live_group (gc_ID r) (db (fst (postConnectivityGroup (Ok dto) w))) = Some g /\
       g_association_key g = cg_AssociationKey dto /\ g_name g = cg_Name dto /\
       g_roster_version g = 0 /\ g_next_node_number g = 1
  | Err e => e = conflict "association key conflict" /\
     db (fst (postConnectivityGroup (Ok dto) w)) = db w /\
     exists key cg g, cg_AssociationKey dto = Some key /\ live_group cg (db w) = Some g /\
       g_association_key g = Some key
  end.
Proof.
  intros Hdrv Hfresh.
  unfold postConnectivityGroup, bind_json, on_error, exec, meanwhile, alone, tx_exec, ask, nowMillis, mbind, ST_bind, mret, ST_ret.
  cbn -[ins_group]. rewrite Hdrv. unfold ins_group. rewrite decide_False
    by (intros [? Hex]; rewrite Hfresh in Hex; done).
  destruct (match cg_AssociationKey dto with Some _ => _ | None => _ end) eqn:Htaken; cbn.
  - split; [done|]. split; [done|]. destruct (cg_AssociationKey dto) as [key|]; [|done].
    apply bool_decide_eq_true in Htaken as (cg & g & Hg & Hl & Hk).
    exists key, cg, g. split_and!; [done| |done]. apply live_group_Some. by rewrite <-g_live_true.
  - split_and!.
    + intros key Hkey cg g [Hg Hl]%live_group_Some Hk. rewrite Hkey in Htaken.
      apply bool_decide_eq_false in Htaken. apply Htaken. exists cg, g.
      split; [done|]. split; [by apply g_live_true|done].
    + done.
    + eexists. split; [apply live_group_Some; cbn; rewrite lookup_insert_eq; done|done].
Qed.

End calls.

(** ** From a minted token to a node *)
Section token_life.
Context `{Platform} `{Crypto} `{JwtLib} `{RosterPb}.

(** What a successful request for a token stored. *)
Lemma postRegistrationToken_Ok id dto w w' r :
  postRegistrationToken id (Ok dto) w = (w', Ok r) ->
  exists cg g minted tokenID createdAt t,
    uuid_Parse id = Some cg /\ live_group cg (db w) = Some g /\
    MintRegistrationToken (rand_Read t) (now t) dto = Ok minted /\ rc_Token r = Token minted /\
    tokens (db w') = tokens (db w) ++
      [{| tk_id := tokenID; tk_group := cg; tk_token_hash := TokenHash minted;
          tk_node_name := rt_NodeName dto; tk_node_metadata := rt_NodeMetadata dto;
          tk_created_at_millis := createdAt;
          tk_expires_at_millis := UnixMilli (ExpiresAt minted); tk_used_at_millis := None |}] /\
    groups (db w') = groups (db w) /\ nodes (db w') = nodes (db w).
Proof.
  unfold postRegistrationToken, bind_json, group_param, groupExists, row_or_404, run_stmt.
  destruct (uuid_Parse id) as [cg|] eqn:Hid; [|done].
  intros (w1 & c & [= <- <-] & Hb)%ST_bind_Ok.
  apply ST_bind_Ok in Hb as (w2 & x & [= <- <-] & Hb).
  apply ST_bind_Ok in Hb as (w3 & [] & Hex & Hb).
  apply ST_bind_Ok in Hex as (w4 & g & (_ & Hg & _)%on_error_Ok%exec_Ok & [= <-]).
  unfold sel_group, query_row in Hg. destruct (live_group cg (db w)) as [g0|] eqn:Hl; [|done].
  injection Hg as Hdb ->.
  apply ST_bind_Ok in Hb as (w5 & m & [Hm ->]%ask_Ok & Hb).
  destruct m as [minted|[msg|]]; [|done|done].
  apply ST_bind_Ok in Hb as (w6 & tid & [_ ->]%ask_Ok & Hb).
  apply ST_bind_Ok in Hb as (w7 & createdAt & [_ ->]%ask_Ok & Hb).
  apply ST_bind_Ok in Hb as (w8 & [] & (_ & Hins & _)%on_error_Ok%exec_Ok & [= <- <-]).
  unfold ins_token in Hins. cbn [db tk_id tk_group] in Hins. case_decide; [done|]. case_decide; [done|].
  injection Hins as Hd. exists cg, g, minted, tid, createdAt, (tick w4).
  rewrite <-Hd, <-Hdb. split_and!; done.
Qed.

(** A valid token, a free number and a working driver are enough. *)
Lemma registration_succeeds hash d t k g bytes :
  wf_db canonical_id d -> (forall t', driver_fails t' = false) ->
  sel_token hash (UnixMilli (now (S t))) d = Ok (d, k) ->
  live_group (tk_group k) d = Some g -> int32_ok (g_next_node_number g) = true ->
  rand_Read (S (S (S t))) 32 = Some bytes ->
  exists w', registration hash {| db := d; tick := t |} =
    (w', Ok (tk_group k, g_next_node_number g, hex_EncodeToString bytes)).
Proof.
  intros Hwf Hdrv Hsel [Hg _]%live_group_Some H32 Hrand.
  assert (nodes d !! (tk_group k, g_next_node_number g) = None) as Hfree.
  { apply eq_None_not_Some. intros [row Hrow].
    destruct (wf_nodes _ _ Hwf _ _ _ Hrow) as (g' & Hg' & Hlt). simplify_eq. lia. }
  unfold registration, registration_body, in_transaction, begin_tx, commit_tx, row_or, absent_or_internal, on_error, exec, meanwhile, alone, tx_exec, nowMillis, ask,
    mbind, ST_bind, mret, ST_ret.
  do 2 (cbn -[sel_token upd_assign_number ins_node upd_token_used]; rewrite ?Hdrv).
  rewrite Hsel. do 2 (cbn -[upd_assign_number ins_node upd_token_used]; rewrite ?Hrand, ?Hdrv).
  unfold upd_assign_number at 1. rewrite Hg, H32.
  do 2 (cbn -[ins_node upd_token_used]; rewrite ?Hdrv).
  unfold ins_node at 1. cbn -[upd_token_used].
  rewrite decide_False by (rewrite Hfree; by intros [? ?]).
  rewrite decide_False by (by rewrite lookup_insert_eq).
  do 3 (cbn; rewrite ?Hdrv). by eexists.
Qed.

Lemma CompleteNodeRegistration_runs b token w w2 cg n tok :
  regLimiter_Allow (tick w) = true ->
  registration (hashToken token) {| db := db w; tick := S (tick w) |} = (w2, Ok (cg, n, tok)) ->
  exists w' resp, CompleteNodeRegistration b token w = (w', Ok resp) /\
    cr_ConnectivityGroupId resp = cg /\ cr_NodeNumber resp = n.
Proof.
  intros Hallow Hreg. unfold CompleteNodeRegistration.
  pose proof (insertActivityLog_frame cg n "register" true (Some (event Register_)) w2)
    as (_ & _ & _ & _ & Hlog).
  destruct (insertActivityLog cg n "register" true (Some (event Register_)) w2) as [w3 rl] eqn:Hl.
  cbn in Hlog. subst rl.
  assert (forall (m : ST World status string), (exists w4 jwt, m w3 = (w4, Ok jwt)) ->
    exists w' resp, (_ ← ask regLimiter_Allow; '(cgID, nodeNumber, authToken) ← registration (hashToken token);
      _ ← insertActivityLog cgID nodeNumber "register" true (Some (event Register_));
      attestationJwt ← m;
      mret {| cr_ConnectivityGroupId := cgID; cr_NodeNumber := nodeNumber;
              cr_AuthToken := authToken; cr_AttestationJwt := attestationJwt |}) w = (w', Ok resp) /\
      cr_ConnectivityGroupId resp = cg /\ cr_NodeNumber resp = n) as Hrun.
  { intros m (w4 & jwt & Hm). unfold mbind, ST_bind, ask, mret, ST_ret. rewrite Hreg, Hl, Hm.
    by eexists _, _. }
  destruct (signer b) as [s|].
  - destruct (Hrun (jwt ← ask (fun tick => Sign s (now tick) cg n);
      mret (match jwt with Ok jwt => jwt | Err _ => "" end))) as (w' & resp & Hr & ?); [by eexists _, _|].
    exists w', resp. split; [|done]. rewrite <-Hr. unfold mbind, ST_bind, ask, mret, ST_ret.
    rewrite Hallow. cbn. rewrite Hreg. done.
  - destruct (Hrun (mret "")) as (w' & resp & Hr & ?); [by eexists _, _|].
    exists w', resp. split; [|done]. rewrite <-Hr. unfold mbind, ST_bind, ask, mret, ST_ret.
    rewrite Hallow. cbn. rewrite Hreg. done.
Qed.

(** C1. The token the admin API hands out registers a node: presented with the
    code half the request named, before it is used or expires and while its
    group is live, it makes CompleteNodeRegistration succeed for that group,
    whatever the hub did in between. *)
Theorem minted_token_registers id dto w w1 r d t b cg g :
  postRegistrationToken id (Ok dto) w = (w1, Ok r) -> wf_db canonical_id (db w) ->
  rtc (db_step canonical_id) (db w1) d ->
  uuid_Parse id = Some cg -> live_group cg d = Some g -> g_next_node_number g < 2 ^ 31 ->
  (forall k, k ∈ tokens d -> tk_token_hash k = hashToken (submission dto (rc_Token r)) ->
     tk_group k = cg /\ tk_used_at_millis k = None /\
     UnixMilli (now (S (S t))) < tk_expires_at_millis k) ->
  regLimiter_Allow t = true -> (forall t', driver_fails t' = false) ->
  (forall t', is_Some (rand_Read t' 32)) ->
  exists w' resp,
    CompleteNodeRegistration b (submission dto (rc_Token r)) {| db := d; tick := t |} = (w', Ok resp) /\
    cr_ConnectivityGroupId resp = cg /\ cr_NodeNumber resp = g_next_node_number g.
Proof.
  intros Hpost Hwf Hs Hid Hg Hmax Hk Hallow Hdrv Hrand.
  assert (wf_db canonical_id (db w1)) as Hwf1.
  { eapply (steps_good _ (db w)); [|done].
    pose proof (route_steps (fun _ => []) (PostRegistrationToken id (Ok dto)) w) as Hst.
    cbn [route] in Hst. unfold mbind, ST_bind, mret, ST_ret in Hst. by rewrite Hpost in Hst. }
  destruct (steps_good _ _ _ Hs Hwf1) as [Hwfd Hev].
  apply postRegistrationToken_Ok in Hpost as (cg' & g0 & m & tid & createdAt & t0 & Hid' & _ & Hm & Htok & Htoks & _ & _).
  assert (cg' = cg) as -> by congruence.
  assert (TokenHash m = hashToken (submission dto (rc_Token r))) as Hhash.
  { apply mint_Ok in Hm as (_ & p & bytes & _ & _ & ->). by rewrite Htok. }
  assert (exists k, k ∈ tokens d /\ tk_token_hash k = hashToken (submission dto (rc_Token r))) as (k0 & Hk0 & Hh0).
  { destruct (ev_tokens _ _ Hev (length (tokens (db w))) {| tk_id := tid; tk_group := cg; tk_token_hash := TokenHash m;
      tk_node_name := rt_NodeName dto; tk_node_metadata := rt_NodeMetadata dto;
      tk_created_at_millis := createdAt; tk_expires_at_millis := UnixMilli (ExpiresAt m);
      tk_used_at_millis := None |}) as (k0 & Hk0 & _ & _ & Hh & _).
    { rewrite Htoks. by rewrite lookup_app_r, Nat.sub_diag. }
    exists k0. split; [by eapply list_elem_of_lookup_2|]. by rewrite Hh. }
  assert (exists k, sel_token (hashToken (submission dto (rc_Token r))) (UnixMilli (now (S (S t)))) d = Ok (d, k))
    as [k Hsel].
  { destruct (sel_token _ _ d) as [[d' k]|e] eqn:Hsel.
    - exists k. by destruct (sel_token_Ok _ _ _ _ _ Hsel) as [-> _].
    - assert (e = ErrNoRows) as -> by (revert Hsel; unfold sel_token, query_row; by case_match; intros [= <-]).
      exfalso. apply (proj1 (sel_token_none _ _ _) Hsel k0 Hk0).
      destruct (Hk k0 Hk0 Hh0) as (Hcg & Hu & He). split_and!; [done|done|done|]. rewrite Hcg. eauto. }
  destruct (sel_token_Ok _ _ _ _ _ Hsel) as (_ & Hkin & Hh & _).
  destruct (Hk k Hkin Hh) as (Hcg & _ & _).
  assert (int32_ok (g_next_node_number g) = true) as H32.
  { apply int32_ok_true. apply live_group_Some in Hg as [Hg _].
    destruct (wf_groups _ _ Hwfd _ _ Hg) as (_ & ? & _). lia. }
  destruct (Hrand (S (S (S (S t))))) as [bytes Hbytes].
  destruct (registration_succeeds (hashToken (submission dto (rc_Token r))) d (S t) k g bytes)
    as [w2 Hreg]; try done; [by rewrite Hcg|].
  rewrite <-Hcg. eapply CompleteNodeRegistration_runs; [exact Hallow|exact Hreg].
Qed.
End token_life.

Section groups.
Context `{Platform} `{Crypto} `{JwtLib} `{RosterPb}.
Implicit Types (w : World).

Lemma group_param_Ok id e w w' cg :
  group_param id e w = (w', Ok cg) <-> uuid_Parse id = Some cg /\ w' = w.
Proof.
  unfold group_param, throw, mret, ST_ret. destruct (uuid_Parse id) as [c|].
  - split; [by intros [= <- <-]|]. by intros [[= <-] ->].
  - by split; [intros [=]|intros [[=] _]].
Qed.
Lemma exec_count_db f w : db (fst (exec (query_count f) w)) = db w.
Proof.
  unfold exec, meanwhile, alone, tx_exec, query_count. destruct (driver_fails _); [done|]. by destruct (int32_ok _).
Qed.
Lemma nodes_deleted_lookup cg t d d' key :
  upd_nodes_deleted cg t d = Ok (d', tt) ->
  nodes d' !! key = (fun row => if bool_decide (key.1 = cg) && nd_live row
                                then node_deleted t row else row) <$> nodes d !! key.
Proof. intros [= <-]. cbn. rewrite map_lookup_imap. by destruct (nodes d !! key). Qed.
Lemma nodes_deleted_effect cg t d d' :
  upd_nodes_deleted cg t d = Ok (d', tt) ->
  groups d' = groups d /\ tokens d' = tokens d /\ (forall n, live_node cg n d' = None) /\
  (forall cg' n, cg' <> cg -> nodes d' !! (cg', n) = nodes d !! (cg', n)).
Proof.
  intros Hupd. split_and!; [by injection Hupd as <-|by injection Hupd as <-| |].
  - intros n. apply eq_None_not_Some. intros [row [Hrow Hl]%live_node_Some].
    rewrite (nodes_deleted_lookup _ _ _ _ _ Hupd) in Hrow.
    destruct (nodes d !! (cg, n)) as [row0|]; [|done]. cbn -[nd_live] in Hrow. injection Hrow as <-.
    rewrite bool_decide_true in Hl by done. cbn -[nd_live] in Hl.
    destruct (nd_live row0) eqn:Hlive; [done|]. apply nd_live_true in Hl. congruence.
  - intros cg' n Hne. rewrite (nodes_deleted_lookup _ _ _ _ _ Hupd).
    destruct (nodes d !! (cg', n)); [|done]. cbn -[nd_live]. by rewrite bool_decide_false.
Qed.

(** Deleting a group, with nothing running in between, leaves no live node
    in it and no live group under its id, and touches no other group. *)
Theorem delete_group_spec id w w' :
  deleteConnectivityGroup id w = (w', Ok ()) ->
  exists cg, uuid_Parse id = Some cg /\ live_group cg (db w') = None /\
  (forall n, live_node cg n (db w') = None) /\
  (forall cg', cg' <> cg -> groups (db w') !! cg' = groups (db w) !! cg' /\
     forall n, nodes (db w') !! (cg', n) = nodes (db w) !! (cg', n)).
Proof.
  unfold deleteConnectivityGroup, deleteGroup_nodes, deleteGroup_group, run_stmt.
  intros (w1 & cg & [Hid ->]%group_param_Ok & Hb)%ST_bind_Ok.
  apply ST_bind_Ok in Hb as (w2 & t & [_ ->]%ask_Ok & Hb).
  apply ST_bind_Ok in Hb as (w3 & [] & (_ & Hn & _)%on_error_Ok%exec_Ok & Hb).
  apply on_error_Ok, exec_Ok in Hb as (_ & Hg & _). cbn in Hn.
  apply nodes_deleted_effect in Hn as (Hgs & _ & Hdead & Hother).
  exists cg. split; [done|]. unfold upd_group_deleted in Hg.
  destruct (live_group cg (db w3)) as [g|] eqn:Hl; injection Hg as <-.
  - split_and!.
    + apply eq_None_not_Some. intros [g' [Hg' Hd]%live_group_Some]. cbn in Hg'.
      rewrite lookup_insert_eq in Hg'. by injection Hg' as <-.
    + exact Hdead.
    + intros cg' Hne. cbn. rewrite lookup_insert_ne, Hgs by done. split; [done|]. intros. by apply Hother.
  - split_and!; [done|exact Hdead|]. intros cg' Hne. rewrite Hgs. split; [done|]. intros. by apply Hother.
Qed.

(** Resetting a group needs it to be live; it deletes all its nodes and
    empties its roster at version 0, keeps its node counter, so that numbers
    are not reused, and touches no other group. *)
Theorem reset_group_spec id w w' :
  resetConnectivityGroup id w = (w', Ok ()) ->
  exists cg g, uuid_Parse id = Some cg /\ live_group cg (db w) = Some g /\
  groups (db w') = <[cg := group_roster "" 0 g]> (groups (db w)) /\
  (forall n, live_node cg n (db w') = None) /\
  (forall cg' n, cg' <> cg -> nodes (db w') !! (cg', n) = nodes (db w) !! (cg', n)).
Proof.
  unfold resetConnectivityGroup, groupExists, row_or_404, run_stmt.
  intros (w1 & cg & [Hid ->]%group_param_Ok & Hb)%ST_bind_Ok.
  apply ST_bind_Ok in Hb as (w2 & [] & Hex & Hb).
  apply ST_bind_Ok in Hex as (w3 & g & (_ & Hg & _)%on_error_Ok%exec_Ok & [= <-]).
  unfold sel_group, query_row in Hg. destruct (live_group cg (db w)) as [g0|] eqn:Hl; [|done].
  injection Hg as Hdb ->.
  apply ST_bind_Ok in Hb as (w4 & t & [_ ->]%ask_Ok & Hb).
  apply ST_bind_Ok in Hb as (w5 & [] & (_ & Hn & _)%on_error_Ok%exec_Ok & Hb).
  apply on_error_Ok, exec_Ok in Hb as (_ & Hg & _). cbn in Hn. rewrite <-Hdb in Hn.
  apply nodes_deleted_effect in Hn as (Hgs & _ & Hdead & Hother).
  exists cg, g. unfold upd_group_reset in Hg.
  assert (live_group cg (db w5) = Some g) as Hl5.
  { apply live_group_Some. rewrite Hgs. by apply live_group_Some. }
  rewrite Hl5 in Hg. injection Hg as <-. rewrite Hgs. split_and!; try done.
Qed.

(** The details of a group list exactly its live nodes, once each and in
    order of their numbers; a node is shown as online iff the hub's connection
    table has it, and the quota counts the live nodes plus the pending tokens
    (modulo 2^32). *)
Theorem group_detail_spec online id w w' r :
  getConnectivityGroup online id w = (w', Ok r) ->
  exists cg g pending, uuid_Parse id = Some cg /\ live_group cg (db w) = Some g /\
  gd_ID r = cg /\ gd_Name r = g_name g /\ db w' = db w /\
  Sorted Z.lt (n_NodeNumber <$> gd_Nodes r) /\
  (forall nd, nd ∈ gd_Nodes r <-> exists row, live_node cg (n_NodeNumber nd) (db w) = Some row /\
     nd = node_info (online cg) (n_NodeNumber nd, row)) /\
  nq_Current (gd_NodeQuota r) =
    wrap32 (wrap32 (Z.of_nat (length (gd_Nodes r))) + Z.of_nat (length (filter (fun k =>
      tk_group k = cg /\ token_pending pending k = true) (tokens (db w))))).
Proof.
  unfold getConnectivityGroup, row_or_404, run_stmt.
  intros (w1 & cg & [Hid ->]%group_param_Ok & Hb)%ST_bind_Ok.
  apply ST_bind_Ok in Hb as (w2 & g & (_ & Hg & _)%on_error_Ok%exec_Ok & Hb).
  unfold sel_group, query_row in Hg. destruct (live_group cg (db w)) as [g0|] eqn:Hl; [|done].
  injection Hg as Hdb ->.
  apply ST_bind_Ok in Hb as (w3 & rows & (_ & Hrows & _)%on_error_Ok%exec_Ok & Hb).
  unfold sel_nodes in Hrows. destruct (forallb _ _); [|done]. injection Hrows as Hdb3 <-.
  apply ST_bind_Ok in Hb as (w4 & weekAgo & [_ ->]%ask_Ok & Hb).
  apply ST_bind_Ok in Hb as (w5 & conns & Hatt & Hb).
  assert (db w5 = db w3) as Hdb5.
  { pose proof (exec_count_db (fun d => length (filter (fun a => al_group a = cg /\
      al_event_type a = "start-connection" /\ al_success a = true /\
      weekAgo <= al_created_at_millis a) (activity d))) {| db := db w3; tick := S (tick w3) |}) as Hx.
    revert Hatt. unfold attempt, count_activity. destruct (exec _ _) as [w5' r5].
    cbn in Hx. by intros [= -> _]. }
  apply ST_bind_Ok in Hb as (w6 & t & [_ ->]%ask_Ok & Hb).
  apply ST_bind_Ok in Hb as (w7 & pt & (_ & Hp & _)%on_error_Ok%exec_Ok & [= <- <-]).
  unfold count_pending, query_count in Hp. destruct (int32_ok _); [|done]. injection Hp as Hdb7 <-.
  cbn [db] in *. assert (db w5 = db w) as E5 by congruence. assert (db w2 = db w) as E2 by congruence.
  exists cg, g, t. cbn [gd_ID gd_Name gd_Nodes gd_NodeQuota nq_Current].
  rewrite E2, E5. split_and!; try done.
  { congruence. }
  - rewrite <-list_fmap_compose. apply live_nodes_sorted.
  - intros nd. rewrite list_elem_of_fmap. setoid_rewrite live_node_Some. split.
    + intros ([n row] & -> & Hin%live_nodes_elem). by exists row.
    + intros (row & Hrow & Hnd). exists (n_NodeNumber nd, row). split; [done|]. by apply live_nodes_elem.
Qed.
End groups.

Section delete_race.
Context `{Platform} `{Crypto} `{JwtLib} `{RosterPb}.

(** C36. The deletion of a group is two statements, first its nodes, then the
    group: a node that registers in between stays live, and since
    authentication does not look at the group, it still authenticates with its
    credentials in the deleted group. *)
Theorem delete_group_race cg t w w1 w2 w3 b token resp tk :
  wf_db canonical_id (db w) ->
  deleteGroup_nodes cg t w = (w1, Ok ()) ->
  CompleteNodeRegistration b token w1 = (w2, Ok resp) -> cr_ConnectivityGroupId resp = cg ->
  deleteGroup_group cg t w2 = (w3, Ok ()) -> driver_fails tk = false ->
  live_group cg (db w3) = None /\
  snd (AuthenticateNode {| an_ConnectivityGroupId := cg; an_NodeNumber := cr_NodeNumber resp;
                           an_AuthToken := cr_AuthToken resp |} {| db := db w3; tick := tk |}) = Ok ().
Proof.
  intros Hwf Hdel Hreg <- Hdel2 Hd.
  assert (wf_db canonical_id (db w1)) as Hwf1.
  { eapply (steps_good _ (db w)); [|done].
    assert (steps (deleteGroup_nodes (cr_ConnectivityGroupId resp) t)) as Hs
      by (unfold deleteGroup_nodes; admin_steps_tac).
    specialize (Hs w). by rewrite Hdel in Hs. }
  apply CompleteNodeRegistration_Ok in Hreg as (d1 & k & now0 & t0 & bytes & Hreg & Hcg & _ & _ & Hn & Hg & _).
  apply registers_registered in Hreg as [_ (g & Hl & _ & Hgs) _ _ [t1 Hns] _ _].
  apply live_group_Some in Hl as [Hgrow _].
  destruct (wf_groups _ _ Hwf1 _ _ Hgrow) as (Hcan & _).
  unfold deleteGroup_group, run_stmt in Hdel2. apply on_error_Ok, exec_Ok in Hdel2 as (_ & Hg3 & _).
  assert (nodes (db w3) = nodes (db w2) /\ live_group (cr_ConnectivityGroupId resp) (db w3) = None) as [Hn3 Hdead].
  { unfold upd_group_deleted in Hg3. destruct (live_group _ (db w2)) as [g2|] eqn:Hl2; injection Hg3 as <-.
    - split; [done|]. apply eq_None_not_Some. intros [g3 [Hr3 Hd3]%live_group_Some].
      cbn in Hr3. rewrite lookup_insert_eq in Hr3. by injection Hr3 as <-.
    - done. }
  split; [done|]. rewrite (AuthenticateNode_eq _ _ (cr_ConnectivityGroupId resp)); [|by rewrite Hcg|done].
  cbn [db an_NodeNumber an_AuthToken].
  assert (live_node (cr_ConnectivityGroupId resp) (cr_NodeNumber resp) (db w3) =
    Some (new_node k (Backend.hashToken (cr_AuthToken resp)) t1)) as ->.
  { apply live_node_Some. rewrite Hn3, Hn, Hns, Hcg. split; [apply lookup_insert_eq|done]. }
  cbn. by rewrite decide_True.
Qed.
End delete_race.

(** ** Refinement *)
Section refinement.
Context `{Platform} `{Crypto} `{JwtLib} `{RosterPb}.

(** Refinement of the database's specification: whatever the calls, their
    arguments, the clock and the failures of the driver, the hub changes its
    database only by the atomic steps of [db_step], a registration being one of
    them, also when others run between its statements; so every property of
    [db_step] holds under concurrent calls. *)
Theorem calls_refine_steps `{O : Others} `{!Lawful O} cs w :
  rtc (db_step canonical_id) (db w) (db (foldl run_call w cs)).
Proof. apply run_calls_steps. Qed.
End refinement.
