(* ===== verification/AdminRoutes.v ===== *)
(** * The routes of the admin API: NewRESTHandler of connect/hub/standalone_rest.go

    The engine as [NewRESTHandler] builds it: a route is a method, a pattern
    and a chain, and a group hands its prefix and the middleware it has so far
    to the routes registered on it. gin itself (finding the route of a path,
    redirecting a path that has a slash too much or too little, reading
    parameters and binding bodies) is the class [Gin]. A request is
    served by the chain of its route; [AdminApi.handle] is what remains of it
    behind the key check. *)
From S2P Require Import Prelude GoStrings GoEncoding ApiKeys IntegratorApi RosterPb Store.
From S2P Require Import StoreInv Platform AdminApi AdminProps.
Open Scope Z_scope.

(** ** The table *)

Inductive method := GET | POST | PATCH | DELETE | OtherMethod (name : string).
#[export] Instance method_eq_dec : EqDecision method.
Proof. solve_decision. Defined.
Inductive endpoint :=
| ep_jwks
| ep_getStats
| ep_getConnectivityGroups
| ep_postConnectivityGroup
| ep_getConnectivityGroup
| ep_deleteConnectivityGroup
| ep_resetConnectivityGroup
| ep_postRegistrationToken
| ep_getRegistrationTokens
| ep_patchNode
| ep_deleteNode.
#[export] Instance endpoint_eq_dec : EqDecision endpoint.
Proof. solve_decision. Defined.
Inductive middleware := Recovery | mw_checkAPIKey.
#[export] Instance middleware_eq_dec : EqDecision middleware.
Proof. solve_decision. Defined.

Record Route := { r_method : method; r_pattern : string; r_uses : list middleware; r_endpoint : endpoint }.

(** ** Requests *)

Record HTTPRequest := {
  hr_method : method;
  hr_path : string;
  hr_authorization : string;
  (** the query parameter [association_key] *)
  hr_associationKey : string;
  hr_body : string
}.

(** gin: the groups and the routes registered on them, as documented, and what
    it does with a request. *)
Class Gin := {
  RouterGroup : Type;
  basePath : RouterGroup -> string;
  uses : RouterGroup -> list middleware;
  (** [gin.New()] *)
  New : RouterGroup;
  New_empty : basePath New = "" /\ uses New = [];
  (** [engine.Group(path)]: the same prefix and middleware, and the path *)
  Group : string -> RouterGroup -> RouterGroup;
  Group_extends : forall path g, basePath (Group path g) = basePath g +:+ path /\ uses (Group path g) = uses g;
  (** [g.Use(m)]: for the routes registered from now on *)
  Use : middleware -> RouterGroup -> RouterGroup;
  Use_adds : forall m g, basePath (Use m g) = basePath g /\ uses (Use m g) = uses g ++ [m];
  (** the route of a method and a path, with the values of its parameters *)
  find_route : list Route -> method -> string -> option (Route * (string -> string));
  find_route_registered : forall table m path r params,
    find_route table m path = Some (r, params) -> r ∈ table /\ r_method r = m;
  (** gin.New() keeps [RedirectTrailingSlash] on: where it redirects a path that
      has no route, if it does *)
  redirect_slash : list Route -> method -> string -> option string;
  (** [c.ShouldBindJSON] into each of the three request types *)
  bind_group : string -> result string CreateConnectivityGroupRequest;
  bind_token : string -> result string CreateRegistrationTokenRequest;
  bind_patch : string -> result string PatchNodeRequest
}.

Section serve.
Context `{Platform} `{Others} `{Crypto} `{RosterPb} `{Gin}.

(** [g.GET(path, h)] and its like register a route behind the group's prefix
    and the middleware it has so far. *)
Definition Handle (m : method) (path : string) (h : endpoint) (g : RouterGroup) (table : list Route) :
    list Route :=
  table ++ [{| r_method := m; r_pattern := basePath g +:+ path; r_uses := uses g; r_endpoint := h |}].

Definition NewRESTHandler : list Route :=
  let engine := Use Recovery New in
  let table := Handle GET "/.well-known/jwks.json" ep_jwks engine [] in
  let g := Use mw_checkAPIKey (Group "/api/v1" engine) in
  let table := Handle GET "/stats" ep_getStats g table in
  let table := Handle GET "/connectivity-groups" ep_getConnectivityGroups g table in
  let table := Handle POST "/connectivity-groups" ep_postConnectivityGroup g table in
  let table := Handle GET "/connectivity-groups/:id" ep_getConnectivityGroup g table in
  let table := Handle DELETE "/connectivity-groups/:id" ep_deleteConnectivityGroup g table in
  let table := Handle POST "/connectivity-groups/:id/reset" ep_resetConnectivityGroup g table in
  let table := Handle POST "/connectivity-groups/:id/registration-tokens" ep_postRegistrationToken g table in
  let table := Handle GET "/connectivity-groups/:id/registration-tokens" ep_getRegistrationTokens g table in
  let table := Handle PATCH "/connectivity-groups/:id/nodes/:nodeNumber" ep_patchNode g table in
  Handle DELETE "/connectivity-groups/:id/nodes/:nodeNumber" ep_deleteNode g table.

(** What an endpoint reads from a request; [None]: the key set is not a
    handler of the API. *)
Definition request_of (h : endpoint) (params : string -> string) (q : HTTPRequest) : option request :=
  let id := params "id" in
  match h with
  | ep_jwks => None
  | ep_getStats => Some GetStats
  | ep_getConnectivityGroups => Some (GetConnectivityGroups (hr_associationKey q))
  | ep_postConnectivityGroup => Some (PostConnectivityGroup (bind_group (hr_body q)))
  | ep_getConnectivityGroup => Some (GetConnectivityGroup id)
  | ep_deleteConnectivityGroup => Some (DeleteConnectivityGroup id)
  | ep_resetConnectivityGroup => Some (ResetConnectivityGroup id)
  | ep_postRegistrationToken => Some (PostRegistrationToken id (bind_token (hr_body q)))
  | ep_getRegistrationTokens => Some (GetRegistrationTokens id)
  | ep_patchNode => Some (PatchNode id (params "nodeNumber") (bind_patch (hr_body q)))
  | ep_deleteNode => Some (DeleteNode id (params "nodeNumber"))
  end.

Inductive answer :=
| KeySet (jwks : string)
| Answer (r : response)
| Redirect (code : Z) (location : string).
Definition pageNotFound : httpError := {| http_code := 404; http_error := "404 page not found" |}.

Definition serve_endpoint (jwks : string) (online : string -> list Z) (h : endpoint)
    (params : string -> string) (q : HTTPRequest) : ST World httpError answer :=
  match request_of h params q with
  | None => mret (KeySet jwks)
  | Some r => response ← route online r; mret (Answer response)
  end.
(** The chain: [checkAPIKey] aborts it with an answer of its own; [Recovery]
    acts on a panic only, and the handlers do not panic. *)
Fixpoint serve_chain (header : string) (ms : list middleware) (last : ST World httpError answer) :
    ST World httpError answer :=
  match ms with
  | [] => last
  | Recovery :: ms => serve_chain header ms last
  | mw_checkAPIKey :: ms => _ ← checkAPIKey header; serve_chain header ms last
  end.
(** What gin answers when there is no route: the redirect of a path with a
    trailing slash, permanent for GET and temporary otherwise, or 404. *)
Definition serve_unrouted (m : method) (path : string) : result httpError answer :=
  match redirect_slash NewRESTHandler m path with
  | Some location => Ok (Redirect (if decide (m = GET) then 301 else 307) location)
  | None => Err pageNotFound
  end.
Definition ServeHTTP (jwks : string) (online : string -> list Z) (q : HTTPRequest) :
    ST World httpError answer :=
  match find_route NewRESTHandler (hr_method q) (hr_path q) with
  | None => fun w => (w, serve_unrouted (hr_method q) (hr_path q))
  | Some (r, params) =>
      serve_chain (hr_authorization q) (r_uses r) (serve_endpoint jwks online (r_endpoint r) params q)
  end.

(** * Properties *)

(** The table, in full. *)
Definition guarded (m : method) (path : string) (h : endpoint) : Route :=
  {| r_method := m; r_pattern := "/api/v1" +:+ path; r_uses := [Recovery; mw_checkAPIKey]; r_endpoint := h |}.
Definition route_table : list Route :=
  [{| r_method := GET; r_pattern := "/.well-known/jwks.json"; r_uses := [Recovery]; r_endpoint := ep_jwks |};
   guarded GET "/stats" ep_getStats;
   guarded GET "/connectivity-groups" ep_getConnectivityGroups;
   guarded POST "/connectivity-groups" ep_postConnectivityGroup;
   guarded GET "/connectivity-groups/:id" ep_getConnectivityGroup;
   guarded DELETE "/connectivity-groups/:id" ep_deleteConnectivityGroup;
   guarded POST "/connectivity-groups/:id/reset" ep_resetConnectivityGroup;
   guarded POST "/connectivity-groups/:id/registration-tokens" ep_postRegistrationToken;
   guarded GET "/connectivity-groups/:id/registration-tokens" ep_getRegistrationTokens;
   guarded PATCH "/connectivity-groups/:id/nodes/:nodeNumber" ep_patchNode;
   guarded DELETE "/connectivity-groups/:id/nodes/:nodeNumber" ep_deleteNode].
Lemma NewRESTHandler_table : NewRESTHandler = route_table.
Proof.
  unfold NewRESTHandler, Handle. cbn zeta.
  destruct New_empty as [Hb0 Hu0], (Use_adds Recovery New) as [Hb1 Hu1].
  destruct (Group_extends "/api/v1" (Use Recovery New)) as [Hb2 Hu2].
  destruct (Use_adds mw_checkAPIKey (Group "/api/v1" (Use Recovery New))) as [Hb3 Hu3].
  rewrite Hb3, Hb2, Hu3, Hu2, Hb1, Hu1, Hb0, Hu0. reflexivity.
Qed.

(** No method and pattern is registered twice (gin would panic), and the key
    set is the only route that does not ask for a key. *)
Theorem routes_guarded :
  NoDup ((fun r => (r_method r, r_pattern r)) <$> NewRESTHandler) /\
  Forall (fun r => mw_checkAPIKey ∈ r_uses r <-> r_endpoint r <> ep_jwks) NewRESTHandler.
Proof.
  rewrite NewRESTHandler_table.
  split; apply (bool_decide_unpack _); vm_compute; reflexivity.
Qed.

(** The chain of each route. *)
Lemma route_chains :
  Forall (fun r =>
    r_uses r = (if decide (r_endpoint r = ep_jwks) then [Recovery] else [Recovery; mw_checkAPIKey]) /\
    (r_endpoint r = ep_jwks -> r_pattern r = "/.well-known/jwks.json")) NewRESTHandler.
Proof. rewrite NewRESTHandler_table. apply (bool_decide_unpack _). vm_compute. reflexivity. Qed.
End serve.

Section dispatch.
Context `{Platform} `{Crypto} `{RosterPb} `{Gin}.

Lemma checkAPIKey_keeps header w : db (fst (checkAPIKey header w)) = db w.
Proof.
  unfold checkAPIKey. destruct (FromAuthHeader header) as [key|e]; [|done].
  unfold attempt, exec, meanwhile, alone, tx_exec, sel_api_key, query_row, throw, mbind, ST_bind, mret, ST_ret.
  destruct (driver_fails (tick w)); [done|]. destruct (api_keys (db w) !! ID key); [|done].
  by destruct (bool_decide _ || _).
Qed.

(** C29. Whatever the path and the method: without a route nothing happens and
    the answer is gin's own, a redirect or 404, with or without a key; the only
    route that is answered without a key is the public key set, which changes
    nothing either; on every other route, a request that presents no accepted
    key changes nothing in the database and is answered with an error, and with
    an accepted key it runs the handler of its route and no other. *)
Theorem rest_dispatch jwks online q w :
  let '(w', a) := ServeHTTP jwks online q w in
  match find_route NewRESTHandler (hr_method q) (hr_path q) with
  | None => w' = w /\ (a = Err pageNotFound \/
      exists location, redirect_slash NewRESTHandler (hr_method q) (hr_path q) = Some location /\
        a = Ok (Redirect (if decide (hr_method q = GET) then 301 else 307) location))
  | Some (r, params) =>
      r ∈ NewRESTHandler /\ r_method r = hr_method q /\
      match request_of (r_endpoint r) params q with
      | None => r_pattern r = "/.well-known/jwks.json" /\ w' = w /\ a = Ok (KeySet jwks)
      | Some request =>
          let '(w1, response) := handle online (hr_authorization q) request w in
          w' = w1 /\ a = match response with Ok r => Ok (Answer r) | Err e => Err e end /\
          (is_ok (snd (checkAPIKey (hr_authorization q) w)) = false -> db w' = db w /\ is_ok a = false)
      end
  end.
Proof.
  unfold ServeHTTP. destruct (find_route _ _ _) as [[r params]|] eqn:Hfind.
  2:{ split; [done|]. unfold serve_unrouted.
      destruct (redirect_slash _ _ _) as [location|]; [right; by exists location|by left]. }
  destruct (find_route_registered _ _ _ _ _ Hfind) as [Hin Hm].
  pose proof (proj1 (Forall_forall _ _) route_chains r Hin) as [Huses Hjwks]. rewrite Huses.
  unfold serve_endpoint. destruct (request_of (r_endpoint r) params q) as [request|] eqn:Hreq.
  - rewrite decide_False by (intros Heq; by rewrite Heq in Hreq). cbn [serve_chain].
    unfold handle, mbind, ST_bind, mret, ST_ret. pose proof (checkAPIKey_keeps (hr_authorization q) w) as Hkeep.
    destruct (checkAPIKey (hr_authorization q) w) as [w1 [key|e]].
    + destruct (route online request w1) as [w2 [response|e]]; by split_and!.
    + split_and!; try done.
  - rewrite decide_True by (by destruct (r_endpoint r)). cbn. split_and!; try done.
    apply Hjwks. by destruct (r_endpoint r).
Qed.
End dispatch.
