(* ===== verification/Replies.v ===== *)
(** * The answers of the backend service

    Every call of the service with the response it is answered with, over
    whatever the others do between the statements of a call. *)
From S2P Require Import Prelude GoStrings GoEncoding GoTime Grpc BePb Attestation.
From S2P Require Import Store StoreInv Platform Backend BackendSteps.
Open Scope Z_scope.

Section messages.
Context `{Platform} `{Others} `{Crypto} `{JwtLib}.

(** The response of each call. *)
Inductive reply :=
| PCompleteNodeRegistration (r : CompleteNodeRegistrationResponse)
| PNodes (r : list BeNode)
| PRoster (r : GetRosterResponse)
| PGroupMetadata (r : GetGroupMetadataResponse)
| PTurnPolicy (r : GetTurnPolicyResponse)
| PEmpty.
Definition serveReply (b : Backend) (r : rpc) : ST World status reply :=
  match r with
  | RCompleteNodeRegistration token => x ← CompleteNodeRegistration b token; mret (PCompleteNodeRegistration x)
  | RAuthenticateNode req => _ ← AuthenticateNode req; mret PEmpty
  | RListNodes id => x ← ListNodes id; mret (PNodes x)
  | RGetRoster id => x ← GetRoster id; mret (PRoster x)
  | RGetGroupMetadata id => x ← GetGroupMetadata b id; mret (PGroupMetadata x)
  | RGetTurnPolicy id => x ← GetTurnPolicy b id; mret (PTurnPolicy x)
  | RUpdateRoster req => _ ← UpdateRoster req; mret PEmpty
  | RUpdateNodeLastSeen id n => _ ← UpdateNodeLastSeen id n; mret PEmpty
  | RDeregisterNode id n => _ ← DeregisterNode id n; mret PEmpty
  | RLogActivity req => _ ← LogActivity req; mret PEmpty
  end.

(** The state is the one [serve] leaves. *)
Lemma serveReply_serve b r w : fst (serveReply b r w) = serve b r w.
Proof.
  destruct r; cbn [serveReply serve]; unfold mbind, ST_bind, mret, ST_ret;
    match goal with |- context [match ?m with _ => _ end] => by destruct m as [? []] end.
Qed.
End messages.
