(* ===== verification/Registry.v ===== *)
(** * What the backend promises: a registry

    An abstract specification of the standalone backend and its admin API, as
    those see it who only see calls and answers: which groups are live, which
    nodes belong to them and by what secret they are known, the next number,
    and the roster. There are no tables, statements, transactions, tokens,
    times or deleted rows. An answered call has an effect on the registry, and
    the registry explains the answer. *)
From S2P Require Import Prelude Past GoStrings GoEncoding GoTime IntegratorApi Grpc BePb Attestation RosterPb Store.
From S2P Require Import StoreInv Platform Backend BackendSteps AdminApi AdminProps Replies.
From stdpp Require Import functions.
Open Scope Z_scope.

(** ** The registry *)

(** Functions of the group's id; [r_member] also of the node's number, with the
    hash of the node's secret. A group that was never made is like a new one,
    except that it is not live. *)
Record Registry := {
  r_live : string -> bool;
  r_roster : string -> string * Z;
  r_next : string -> Z;
  r_member : string -> Z -> option string
}.
Definition emptyRegistry : Registry :=
  {| r_live := fun _ => false; r_roster := fun _ => ("", 0); r_next := fun _ => 1;
     r_member := fun _ _ => None |}.
(** Two registries are the same if they answer alike. *)
#[export] Instance registry_equiv : Equiv Registry := fun R1 R2 =>
  (forall cg, r_live R1 cg = r_live R2 cg) /\ (forall cg, r_roster R1 cg = r_roster R2 cg) /\
  (forall cg, r_next R1 cg = r_next R2 cg) /\ forall cg n, r_member R1 cg n = r_member R2 cg n.
#[export] Instance registry_equivalence : Equivalence (≡@{Registry}).
Proof.
  split.
  - by intros R.
  - by intros R1 R2 (? & ? & ? & ?).
  - intros R1 R2 R3 (A1 & B1 & C1 & D1) (A2 & B2 & C2 & D2). split_and!; intros; etrans; eauto.
Qed.

(** ** Operations *)

(** A group is made; its id is new. *)
Definition open_group (cg : string) (R : Registry) : Registry :=
  {| r_live := <[cg := true]> (r_live R); r_roster := r_roster R; r_next := r_next R;
     r_member := r_member R |}.
Definition close_group (cg : string) (R : Registry) : Registry :=
  {| r_live := <[cg := false]> (r_live R); r_roster := r_roster R; r_next := r_next R;
     r_member := r_member R |}.
Definition set_roster (cg bytes : string) (version : Z) (R : Registry) : Registry :=
  {| r_live := r_live R; r_roster := <[cg := (bytes, version)]> (r_roster R); r_next := r_next R;
     r_member := r_member R |}.
Definition with_member (m : string -> Z -> option string) (R : Registry) : Registry :=
  {| r_live := r_live R; r_roster := r_roster R; r_next := r_next R; r_member := m |}.
(** A node joins under number [n]. *)
Definition enroll (cg : string) (n : Z) (hash : string) (R : Registry) : Registry :=
  {| r_live := r_live R; r_roster := r_roster R; r_next := <[cg := n + 1]> (r_next R);
     r_member := <[cg := <[n := Some hash]> (r_member R cg)]> (r_member R) |}.
Definition expel (cg : string) (n : Z) (R : Registry) : Registry :=
  with_member (<[cg := <[n := None]> (r_member R cg)]> (r_member R)) R.
Definition expel_all (cg : string) (R : Registry) : Registry :=
  with_member (<[cg := fun _ => None]> (r_member R)) R.

(** They respect the equivalence. *)
Ltac registry_proper :=
  intros; repeat match goal with H : _ ≡ _ |- _ => destruct H as (? & ? & ? & ?) end;
  split_and!; intros; cbn; unfold insert, fn_insert; repeat case_decide; congruence || eauto.
#[export] Instance open_group_proper cg : Proper ((≡) ==> (≡)) (open_group cg).
Proof. intros ???. registry_proper. Qed.
#[export] Instance close_group_proper cg : Proper ((≡) ==> (≡)) (close_group cg).
Proof. intros ???. registry_proper. Qed.
#[export] Instance set_roster_proper cg bytes v : Proper ((≡) ==> (≡)) (set_roster cg bytes v).
Proof. intros ???. registry_proper. Qed.
#[export] Instance enroll_proper cg n h : Proper ((≡) ==> (≡)) (enroll cg n h).
Proof. intros ???. registry_proper. Qed.
#[export] Instance expel_proper cg n : Proper ((≡) ==> (≡)) (expel cg n).
Proof. intros ???. registry_proper. Qed.
#[export] Instance expel_all_proper cg : Proper ((≡) ==> (≡)) (expel_all cg).
Proof. intros ???. registry_proper. Qed.

(** ** Calls and answers *)

Section calls.
Context `{Platform} `{Others} `{Crypto} `{JwtLib} `{RosterPb}.

Inductive answered :=
| ToNode (r : result status reply)
| ToAdmin (r : result httpError response).
Definition answer_call (w : World) (c : call) : World * answered :=
  match c with
  | Rpc b r => let '(w, a) := serveReply b r w in (w, ToNode a)
  | Admin online header r => let '(w, a) := handle online header r w in (w, ToAdmin a)
  end.
(** Calls one after the other, with their answers. *)
Fixpoint dialogue (w : World) (cs : list call) : World * list (call * answered) :=
  match cs with
  | [] => (w, [])
  | c :: cs =>
      let '(w, a) := answer_call w c in
      let '(w, tr) := dialogue w cs in (w, (c, a) :: tr)
  end.

(** What a successful answer means for the registry. *)
Definition in_group (raw : string) (f : string -> Registry -> Registry) (R : Registry) : Registry :=
  match uuid_Parse raw with Some cg => f cg R | None => R end.
Definition rpc_effect (r : rpc) (p : reply) (R : Registry) : Registry :=
  match r, p with
  | RCompleteNodeRegistration _, PCompleteNodeRegistration x =>
      enroll (cr_ConnectivityGroupId x) (cr_NodeNumber x) (hashToken (cr_AuthToken x)) R
  | RUpdateRoster req, _ =>
      in_group (ur_ConnectivityGroupId req) (fun cg => set_roster cg (ur_Roster req) (ur_NewVersion req)) R
  | RDeregisterNode raw n, _ => in_group raw (fun cg => expel cg n) R
  | _, _ => R
  end.
Definition admin_effect (r : request) (p : response) (R : Registry) : Registry :=
  match r, p with
  | PostConnectivityGroup _, Created x => open_group (gc_ID x) R
  | DeleteConnectivityGroup id, _ => in_group id (fun cg R => close_group cg (expel_all cg R)) R
  | ResetConnectivityGroup id, _ => in_group id (fun cg R => set_roster cg "" 0 (expel_all cg R)) R
  | DeleteNode id n, _ =>
      match ParseInt n 32 with Some n => in_group id (fun cg => expel cg n) R | None => R end
  | _, _ => R
  end.
Definition effect (c : call) (a : answered) (R : Registry) : Registry :=
  match c, a with
  | Rpc _ r, ToNode (Ok p) => rpc_effect r p R
  | Admin _ _ r, ToAdmin (Ok p) => admin_effect r p R
  | _, _ => R
  end.
(** A deletion or a reset that the database fails half-way has expelled the
    group's nodes, or not. *)
Definition swept (c : call) (a : answered) : option string :=
  match c, a with
  | Admin _ _ (DeleteConnectivityGroup id), ToAdmin (Err e)
  | Admin _ _ (ResetConnectivityGroup id), ToAdmin (Err e) =>
      if http_code e =? 500 then uuid_Parse id else None
  | _, _ => None
  end.
Definition observes (c : call) (a : answered) (R R' : Registry) : Prop :=
  R' ≡ effect c a R \/ exists cg, swept c a = Some cg /\ R' ≡ expel_all cg R.

(** ** Answers the registry explains *)

Definition badID : status := Errorf InvalidArgument "invalid connectivity_group_id".
(** A call that names a group fails for its own reason [P], or because the id
    is none, or because the database failed. *)
Definition refused (raw : string) (e : status) (P : string -> Prop) : Prop :=
  (e = badID /\ uuid_Parse raw = None) \/ e = internalError \/
  exists cg, uuid_Parse raw = Some cg /\ P cg.
(** The numbers of a group's nodes, in order. *)
Definition lists_members (R : Registry) (cg : string) (l : list Z) : Prop :=
  Sorted Z.lt l /\ forall n, n ∈ l <-> is_Some (r_member R cg n).

(** What holds of the group and the node that a path names, if it names any. *)
Definition of_group_node (id n : string) (P : string -> Z -> Prop) : Prop :=
  forall cg nn, uuid_Parse id = Some cg -> ParseInt n 32 = Some nn -> P cg nn.

Definition rpc_explained (R : Registry) (r : rpc) (a : result status reply) : Prop :=
  match r, a with
  | RCompleteNodeRegistration _, Ok (PCompleteNodeRegistration x) =>
      let cg := cr_ConnectivityGroupId x in
      r_live R cg = true /\ cr_NodeNumber x = r_next R cg /\ r_member R cg (cr_NodeNumber x) = None
  | RAuthenticateNode req, Ok _ => exists cg, uuid_Parse (an_ConnectivityGroupId req) = Some cg /\
      r_member R cg (an_NodeNumber req) = Some (hashToken (an_AuthToken req))
  | RAuthenticateNode req, Err e => refused (an_ConnectivityGroupId req) e (fun cg =>
      e = invalidCredentials /\ r_member R cg (an_NodeNumber req) <> Some (hashToken (an_AuthToken req)))
  | RListNodes raw, Ok (PNodes l) =>
      exists cg, uuid_Parse raw = Some cg /\ lists_members R cg (bn_NodeNumber <$> l)
  | RGetRoster raw, Ok (PRoster x) => exists cg, uuid_Parse raw = Some cg /\
      r_live R cg = true /\ r_roster R cg = (gr_Roster x, gr_Version x)
  | RGetGroupMetadata raw, Ok _ | RGetTurnPolicy raw, Ok _ =>
      exists cg, uuid_Parse raw = Some cg /\ r_live R cg = true
  | RGetRoster raw, Err e | RGetGroupMetadata raw, Err e | RGetTurnPolicy raw, Err e =>
      refused raw e (fun cg => e = groupNotFound /\ r_live R cg = false)
  | RUpdateRoster req, Ok _ => exists cg, uuid_Parse (ur_ConnectivityGroupId req) = Some cg /\
      r_live R cg = true /\ snd (r_roster R cg) = ur_ExpectedVersion req /\
      ur_ExpectedVersion req < ur_NewVersion req
  | RUpdateRoster req, Err e => refused (ur_ConnectivityGroupId req) e (fun cg =>
      ur_NewVersion req <= ur_ExpectedVersion req \/
      r_live R cg = false \/ snd (r_roster R cg) <> ur_ExpectedVersion req)
  | _, _ => True
  end.
Definition admin_explained (R : Registry) (r : request) (a : result httpError response) : Prop :=
  match r, a with
  | GetStats, Ok (Stats x) => exists l, NoDup l /\ (forall cg, cg ∈ l <-> r_live R cg = true) /\
      st_Count x = Z.of_nat (length l)
  | GetConnectivityGroups key, Ok (Groups l) => NoDup (gs_ID <$> l) /\
      (forall cg, cg ∈ gs_ID <$> l -> r_live R cg = true) /\
      (key = "" -> forall cg, r_live R cg = true -> cg ∈ gs_ID <$> l)
  | PostConnectivityGroup _, Ok (Created x) => r_live R (gc_ID x) = false /\
      r_roster R (gc_ID x) = ("", 0) /\ r_next R (gc_ID x) = 1 /\ forall n, r_member R (gc_ID x) n = None
  | GetConnectivityGroup id, Ok (Detail d) => uuid_Parse id = Some (gd_ID d) /\
      r_live R (gd_ID d) = true /\ lists_members R (gd_ID d) (n_NodeNumber <$> gd_Nodes d)
  | ResetConnectivityGroup id, Ok _ | PostRegistrationToken id _, Ok _ | GetRegistrationTokens id, Ok _ =>
      exists cg, uuid_Parse id = Some cg /\ r_live R cg = true
  | GetConnectivityGroup id, Err e | ResetConnectivityGroup id, Err e | PostRegistrationToken id _, Err e
  | GetRegistrationTokens id, Err e =>
      http_code e = 404 -> exists cg, uuid_Parse id = Some cg /\ r_live R cg = false
  | DeleteNode id n, Ok _ => exists cg nn, uuid_Parse id = Some cg /\ ParseInt n 32 = Some nn /\
      r_live R cg = true /\ is_Some (r_member R cg nn) /\
      nodeRevokedInRoster (fst (r_roster R cg)) nn = true
  | DeleteNode id n, Err e => of_group_node id n (fun cg nn =>
      (http_code e = 404 -> r_live R cg = false \/ r_member R cg nn = None) /\
      (http_code e = 409 -> nodeRevokedInRoster (fst (r_roster R cg)) nn = false))
  | _, _ => True
  end.
Definition explained (R : Registry) (c : call) (a : answered) : Prop :=
  match c, a with
  | Rpc _ r, ToNode a => rpc_explained R r a
  | Admin _ _ r, ToAdmin a => admin_explained R r a
  | _, _ => False
  end.

(** The registry explains a conversation. *)
Definition answers (e : call * answered) (R R' : Registry) : Prop :=
  explained R e.1 e.2 /\ observes e.1 e.2 R R'.
Definition explains : Registry -> list (call * answered) -> Registry -> Prop := told answers.

(** All of this respects the equivalence. *)
#[export] Instance in_group_proper raw f :
  (forall cg, Proper ((≡) ==> (≡)) (f cg)) -> Proper ((≡) ==> (≡)) (in_group raw f).
Proof. intros Hf R1 R2 HR. unfold in_group. destruct (uuid_Parse raw); [by apply Hf|done]. Qed.
#[export] Instance effect_proper c a : Proper ((≡) ==> (≡)) (effect c a).
Proof.
  intros R1 R2 HR. destruct c as [b r|online header r], a as [[p|e]|[p|e]]; cbn; try done.
  - destruct r; cbn; try done; [by destruct p; [rewrite HR|..]|by rewrite HR..].
  - destruct r; cbn; try done; [by destruct p; rewrite ?HR| | |].
    + apply in_group_proper; [|done]. intros cg S1 S2 HS. by rewrite HS.
    + apply in_group_proper; [|done]. intros cg S1 S2 HS. by rewrite HS.
    + destruct (ParseInt _ _); [by rewrite HR|done].
Qed.
#[export] Instance observes_proper c a : Proper ((≡) ==> (≡) ==> iff) (observes c a).
Proof. intros R1 R2 HR S1 S2 HS. unfold observes. setoid_rewrite HR. by setoid_rewrite HS. Qed.
#[export] Instance explained_proper : Proper ((≡) ==> eq ==> eq ==> iff) explained.
Proof.
  assert (forall R1 R2 c a, R1 ≡ R2 -> explained R1 c a -> explained R2 c a) as Hx.
  { intros R1 R2 c a (Hl & Hr & Hn & Hm).
    destruct c as [b r|online header r], a as [a|a]; try done;
      [destruct r, a as [[]|]|destruct r, a as [[]|]]; cbn; unfold refused, lists_members, of_group_node;
      try setoid_rewrite Hl; try setoid_rewrite Hr; try setoid_rewrite Hn; try setoid_rewrite Hm; done. }
  intros R1 R2 HR c _ <- a _ <-. split; by apply Hx.
Qed.
#[export] Instance answers_proper e : Proper ((≡) ==> (≡) ==> iff) (answers e).
Proof. intros R1 R2 HR S1 S2 HS. unfold answers. by rewrite HR, HS. Qed.

(** ** Calls among others

    The driver has one connection, so other calls' statements run between those
    of a call. A call is then a sequence of phases, each of which happens at a
    moment; in between the others move the registry by [O]. *)
Definition phase : Type := Registry -> Registry -> Prop.
Inductive phased (O : relation Registry) : list phase -> Registry -> Registry -> Prop :=
| phased_nil R R' : O R R' -> phased O [] R R'
| phased_cons (P : phase) ps R R1 R2 R' :
    O R R1 -> P R1 R2 -> phased O ps R2 R' -> phased O (P :: ps) R R'.
Definition reads (P : Registry -> Prop) : phase := fun R R' => P R /\ R' ≡ R.

(** A group's details are read in two phases; its reset and its deletion, and
    the deletion of a node, are done in several. A reset finds the group deleted
    in the meantime, or not. All other calls have one moment at which they
    happen, and so has a call that fails. *)
Definition phases (c : call) (a : answered) : list phase :=
  match c, a with
  | Admin _ _ (GetConnectivityGroup id), ToAdmin (Ok (Detail d)) =>
      [reads (fun R => uuid_Parse id = Some (gd_ID d) /\ r_live R (gd_ID d) = true);
       reads (fun R => lists_members R (gd_ID d) (n_NodeNumber <$> gd_Nodes d))]
  | Admin _ _ (DeleteConnectivityGroup id), ToAdmin (Ok _) =>
      [fun R R' => R' ≡ in_group id expel_all R; fun R R' => R' ≡ in_group id close_group R]
  | Admin _ _ (ResetConnectivityGroup id), ToAdmin (Ok _) =>
      [reads (fun R => exists cg, uuid_Parse id = Some cg /\ r_live R cg = true);
       fun R R' => R' ≡ in_group id expel_all R;
       fun R R' => R' ≡ in_group id (fun cg R => if r_live R cg then set_roster cg "" 0 R else R) R]
  | Admin _ _ (DeleteNode id n), ToAdmin (Ok _) =>
      [reads (fun R => exists cg nn, uuid_Parse id = Some cg /\ ParseInt n 32 = Some nn /\
         r_live R cg = true /\ nodeRevokedInRoster (fst (r_roster R cg)) nn = true);
       fun R R' => exists cg nn, uuid_Parse id = Some cg /\ ParseInt n 32 = Some nn /\
         is_Some (r_member R cg nn) /\ R' ≡ expel cg nn R]
  | _, _ => [fun R R' => explained R c a /\ observes c a R R']
  end.

(** What calls do to the registry, one atomic change at a time. *)
Inductive registry_step : Registry -> Registry -> Prop :=
| rs_same R R' : R' ≡ R -> registry_step R R'
| rs_open cg R R' :
    r_live R cg = false -> r_roster R cg = ("", 0) -> r_next R cg = 1 ->
    (forall n, r_member R cg n = None) -> R' ≡ open_group cg R -> registry_step R R'
| rs_close cg R R' : R' ≡ close_group cg R -> registry_step R R'
| rs_update cg bytes version R R' :
    r_live R cg = true -> snd (r_roster R cg) < version -> R' ≡ set_roster cg bytes version R ->
    registry_step R R'
| rs_reset cg R R' : r_live R cg = true -> R' ≡ set_roster cg "" 0 R -> registry_step R R'
| rs_enroll cg hash R R' :
    r_live R cg = true -> r_member R cg (r_next R cg) = None ->
    R' ≡ enroll cg (r_next R cg) hash R -> registry_step R R'
| rs_expel cg n R R' : R' ≡ expel cg n R -> registry_step R R'
| rs_expel_all cg R R' : R' ≡ expel_all cg R -> registry_step R R'.
End calls.
