(* ===== verification/RegistryRefine.v ===== *)
(** * The standalone backend implements the registry

    [abs] forgets everything of a database but what the registry of Registry.v
    keeps. Each call of the backend or of the admin API, with any clock and any
    failures of the driver, has the effect on it that its answer announces, and
    answers as it explains: at one moment, or in the phases that Registry.v
    lists, whatever others do between its statements. *)
From S2P Require Import Prelude Past GoStrings GoEncoding GoTime ApiKeys IntegratorApi Grpc BePb Attestation RosterPb Store.
From S2P Require Import StoreInv Platform Backend BackendSteps BackendProps AdminApi AdminProps Replies Registry.
From stdpp Require Import functions.
Open Scope Z_scope.

(** ** The registry of a database *)

Definition abs (d : DB) : Registry :=
  {| r_live := fun cg => bool_decide (is_Some (live_group cg d));
     r_roster := fun cg => match groups d !! cg with
                           | Some g => (g_roster g, g_roster_version g) | None => ("", 0) end;
     r_next := fun cg => match groups d !! cg with Some g => g_next_node_number g | None => 1 end;
     r_member := fun cg n => nd_auth_token_hash <$> live_node cg n d |}.

Section statements.
Implicit Types (d : DB).

Lemma abs_live cg d : r_live (abs d) cg = true <-> is_Some (live_group cg d).
Proof. apply bool_decide_eq_true. Qed.
Lemma abs_dead cg d : r_live (abs d) cg = false <-> live_group cg d = None.
Proof. cbn. rewrite bool_decide_eq_false. symmetry. apply eq_None_not_Some. Qed.
Lemma abs_roster cg d g :
  live_group cg d = Some g -> r_roster (abs d) cg = (g_roster g, g_roster_version g).
Proof. intros [Hg _]%live_group_Some. cbn. by rewrite Hg. Qed.
Lemma abs_member cg n d row :
  live_node cg n d = Some row -> r_member (abs d) cg n = Some (nd_auth_token_hash row).
Proof. intros Hr. cbn. by rewrite Hr. Qed.

Lemma live_row cg d g : live_group cg d = Some g -> r_live (abs d) cg = true.
Proof. intros Hg. apply abs_live. eauto. Qed.
Lemma lists_live_nodes cg d : lists_members (abs d) cg (live_nodes cg d).*1.
Proof.
  split; [apply live_nodes_sorted|]. intros n. cbn. rewrite fmap_is_Some, list_elem_of_fmap. split.
  - intros ([n' row] & -> & Hin%live_nodes_elem). exists row. by apply live_node_Some.
  - intros [row Hr%live_node_Some]. exists (n, row). split; [done|]. by apply live_nodes_elem.
Qed.

(** The rows of the live groups. *)
Lemma live_ids d :
  let l := (map_to_list (filter (fun e => g_live e.2 = true) (groups d))).*1 in
  NoDup l /\ forall cg, cg ∈ l <-> r_live (abs d) cg = true.
Proof.
  split; [apply NoDup_fst_map_to_list|]. intros cg. rewrite abs_live, list_elem_of_fmap. unfold is_Some.
  setoid_rewrite live_group_Some. setoid_rewrite <-g_live_true. split.
  - intros ([cg' g] & -> & [Hg Hl]%elem_of_map_to_list%map_lookup_filter_Some). by exists g.
  - intros (g & Hg & Hl). exists (cg, g). split; [done|].
    by apply elem_of_map_to_list, map_lookup_filter_Some.
Qed.

(** Only the tables of groups and nodes count. *)
Lemma abs_frame d d' : groups d' = groups d -> nodes d' = nodes d -> abs d' = abs d.
Proof. intros Hg Hn. unfold abs, live_group, live_node. by rewrite Hg, Hn. Qed.

(** A new row of one group. *)
Lemma abs_group d cg g :
  abs (with_groups (<[cg := g]> (groups d)) d) ≡
  {| r_live := <[cg := g_live g]> (r_live (abs d));
     r_roster := <[cg := (g_roster g, g_roster_version g)]> (r_roster (abs d));
     r_next := <[cg := g_next_node_number g]> (r_next (abs d)); r_member := r_member (abs d) |}.
Proof.
  assert (forall cg', cg' <> cg -> <[cg := g]> (groups d) !! cg' = groups d !! cg') as Hne
    by (intros; by rewrite lookup_insert_ne).
  split_and!; intros cg'; cbn; try done; destruct (decide (cg' = cg)) as [->|Hn];
    rewrite ?fn_lookup_insert, ?fn_lookup_insert_ne, ?lookup_insert_eq, ?Hne by done; try done.
  - unfold live_group. cbn. rewrite lookup_insert_eq. cbn. by destruct (g_live g).
  - unfold live_group. cbn. by rewrite Hne.
Qed.
(** A new row of one node. *)
Lemma abs_node d cg n row :
  abs (with_nodes (<[(cg, n) := row]> (nodes d)) d) ≡
  with_member (<[cg := <[n := if nd_live row then Some (nd_auth_token_hash row) else None]>
                         (r_member (abs d) cg)]> (r_member (abs d))) (abs d).
Proof.
  split_and!; try done. intros cg' n'. cbn. unfold live_node at 1. cbn.
  destruct (decide (cg' = cg)) as [->|]; [rewrite fn_lookup_insert|by rewrite fn_lookup_insert_ne, lookup_insert_ne by congruence].
  destruct (decide (n' = n)) as [->|]; [|by rewrite fn_lookup_insert_ne, lookup_insert_ne by congruence].
  rewrite fn_lookup_insert, lookup_insert_eq. cbn. by destruct (nd_live row).
Qed.
(** The same member written again. *)
Lemma with_member_same cg n (R : Registry) m :
  m = r_member R cg n -> with_member (<[cg := <[n := m]> (r_member R cg)]> (r_member R)) R ≡ R.
Proof.
  intros ->. split_and!; try done. intros cg' n'. cbn. unfold insert, fn_insert.
  repeat case_decide; congruence.
Qed.
Lemma group_same cg (R : Registry) live roster next :
  live = r_live R cg -> roster = r_roster R cg -> next = r_next R cg ->
  {| r_live := <[cg := live]> (r_live R); r_roster := <[cg := roster]> (r_roster R);
     r_next := <[cg := next]> (r_next R); r_member := r_member R |} ≡ R.
Proof.
  intros -> -> ->. split_and!; try done; intros; cbn; unfold insert, fn_insert; case_decide; congruence.
Qed.

(** ** The effect of each statement *)

Lemma abs_upd_roster cg bytes v d g :
  live_group cg d = Some g ->
  abs (with_groups (<[cg := group_roster bytes v g]> (groups d)) d) ≡ set_roster cg bytes v (abs d).
Proof.
  intros [Hg Hl]%live_group_Some. rewrite abs_group.
  split_and!; try done; intros cg'; cbn; unfold insert, fn_insert; case_decide; subst; try done.
  - rewrite bool_decide_true; [by apply g_live_true|]. exists g. by apply live_group_Some.
  - by rewrite Hg.
Qed.
Lemma abs_upd_group_reset cg d d' :
  is_Some (live_group cg d) -> upd_group_reset cg d = Ok (d', tt) -> abs d' ≡ set_roster cg "" 0 (abs d).
Proof.
  intros [g Hg]. unfold upd_group_reset. rewrite Hg. intros [= <-]. by apply abs_upd_roster.
Qed.
(** A group that is deleted is not reset. *)
Lemma abs_reset cg d d' :
  upd_group_reset cg d = Ok (d', tt) ->
  abs d' ≡ if r_live (abs d) cg then set_roster cg "" 0 (abs d) else abs d.
Proof.
  intros Hr. destruct (live_group cg d) as [g|] eqn:Hg.
  - rewrite (live_row _ _ _ Hg). eapply abs_upd_group_reset; eauto.
  - rewrite (proj2 (abs_dead cg d) Hg). unfold upd_group_reset in Hr. rewrite Hg in Hr. by injection Hr as <-.
Qed.
Lemma abs_upd_group_deleted cg t d d' :
  upd_group_deleted cg t d = Ok (d', tt) -> abs d' ≡ close_group cg (abs d).
Proof.
  unfold upd_group_deleted. destruct (live_group cg d) as [g|] eqn:Hg; intros [= <-].
  - rewrite abs_group. apply live_group_Some in Hg as [Hg _].
    split_and!; try done; intros cg'; cbn; unfold insert, fn_insert; case_decide; subst; try done;
      by rewrite Hg.
  - split_and!; try done. intros cg'. cbn. unfold insert, fn_insert. case_decide; subst; [|done].
    apply bool_decide_false. rewrite Hg. by intros [? ?].
Qed.
Lemma abs_upd_nodes_deleted cg t d d' :
  upd_nodes_deleted cg t d = Ok (d', tt) -> abs d' ≡ expel_all cg (abs d).
Proof.
  intros (Hg & _ & Hdead & Hother)%nodes_deleted_effect.
  split_and!; intros cg'; cbn; unfold live_group; rewrite ?Hg; try done.
  intros n. destruct (decide (cg' = cg)) as [->|]; [by rewrite fn_lookup_insert, Hdead|].
  rewrite fn_lookup_insert_ne by done. unfold live_node. by rewrite Hother.
Qed.
Lemma abs_upd_live_node_deleted cg n t d d' r :
  upd_live_node cg n (node_deleted t) d = Ok (d', r) -> abs d' ≡ expel cg n (abs d).
Proof.
  unfold upd_live_node. destruct (live_node cg n d) as [row|] eqn:Hr; intros [= <- <-].
  - apply abs_node.
  - unfold expel. symmetry. apply with_member_same. cbn. by rewrite Hr.
Qed.
Lemma abs_upd_live_node_name cg n s d d' r :
  upd_live_node cg n (node_name s) d = Ok (d', r) -> abs d' ≡ abs d.
Proof.
  unfold upd_live_node. destruct (live_node cg n d) as [row|] eqn:Hr; intros [= <- <-]; [|done].
  rewrite abs_node. apply with_member_same. cbn. rewrite Hr.
  apply live_node_Some in Hr as [_ Hl]. apply nd_live_true in Hl. unfold nd_live in *. cbn. by rewrite Hl.
Qed.
(** Rewriting the row of a node, live or not. *)
Lemma abs_upd_node cg n f d d' :
  upd_node cg n f d = Ok (d', tt) ->
  abs d' ≡ with_member (<[cg := <[n := (row ← nodes d !! (cg, n);
             if nd_live (f row) then Some (nd_auth_token_hash (f row)) else None)]>
               (r_member (abs d) cg)]> (r_member (abs d))) (abs d).
Proof.
  intros [= <-]. destruct (nodes d !! (cg, n)) as [row|] eqn:Hr; cbn [mbind option_bind].
  - assert (alter f (cg, n) (nodes d) = <[(cg, n) := f row]> (nodes d)) as ->; [|apply abs_node].
    apply map_eq. intros key. destruct (decide (key = (cg, n))) as [->|].
    + by rewrite lookup_alter_eq, lookup_insert_eq, Hr.
    + by rewrite lookup_alter_ne, lookup_insert_ne.
  - assert (alter f (cg, n) (nodes d) = nodes d) as ->.
    { apply map_eq. intros key. destruct (decide (key = (cg, n))) as [->|].
      - by rewrite lookup_alter_eq, Hr.
      - by rewrite lookup_alter_ne. }
    rewrite (abs_frame d) by done. symmetry. apply with_member_same. cbn. unfold live_node. by rewrite Hr.
Qed.
Lemma abs_last_seen cg n t d d' :
  upd_node cg n (node_last_seen t) d = Ok (d', tt) -> abs d' ≡ abs d.
Proof.
  intros ->%abs_upd_node. apply with_member_same. cbn. unfold live_node.
  destruct (nodes d !! (cg, n)) as [row|]; [|done]. cbn. by destruct (nd_live row) eqn:Hl; unfold nd_live in *; cbn; rewrite Hl.
Qed.
Lemma abs_node_deleted cg n t d d' :
  upd_node cg n (node_deleted t) d = Ok (d', tt) -> abs d' ≡ expel cg n (abs d).
Proof. intros ->%abs_upd_node. unfold expel. by destruct (nodes d !! (cg, n)). Qed.
Lemma abs_ins_group id name assoc t d d' :
  ins_group id name assoc t d = Ok (d', tt) ->
  groups d !! id = None /\ abs d' ≡ open_group id (abs d).
Proof.
  unfold ins_group. case_decide as Hex; [done|]. destruct (match assoc with Some _ => _ | None => _ end); [done|].
  intros [= <-]. assert (groups d !! id = None) as Hn by by apply eq_None_not_Some. split; [done|].
  rewrite abs_group.
  split_and!; try done; intros cg'; cbn; unfold insert, fn_insert; case_decide; subst; try done; by rewrite Hn.
Qed.
Lemma abs_ins_token k d d' : ins_token k d = Ok (d', tt) -> abs d' = abs d.
Proof. unfold ins_token. do 2 (case_decide; [done|]). intros [= <-]. by apply abs_frame. Qed.
(** The new group is like one that was never made. *)
Lemma abs_new_group canonical id name assoc t d d' :
  wf_db canonical d -> ins_group id name assoc t d = Ok (d', tt) ->
  r_live (abs d) id = false /\ r_roster (abs d) id = ("", 0) /\ r_next (abs d) id = 1 /\
  (forall n, r_member (abs d) id n = None) /\ abs d' ≡ open_group id (abs d).
Proof.
  intros Hwf [Hnone Heff]%abs_ins_group. split_and!; [|cbn; by rewrite Hnone..| |done].
  - apply abs_dead. unfold live_group. by rewrite Hnone.
  - intros n. cbn. destruct (live_node id n d) as [row|] eqn:Hrow; [|done].
    apply live_node_Some in Hrow as [Hrow _]. destruct (wf_nodes _ _ Hwf _ _ _ Hrow) as (g & Hg & _). congruence.
Qed.
(** The registration transaction. *)
Lemma abs_registered canonical d hash now h k n d' :
  wf_db canonical d -> registers d hash now h k n d' ->
  abs d' ≡ enroll (tk_group k) n h (abs d) /\ r_live (abs d) (tk_group k) = true /\
  r_next (abs d) (tk_group k) = n /\ r_member (abs d) (tk_group k) n = None /\ canonical (tk_group k).
Proof.
  intros Hwf [_ (g & Hl & Hn & Hgs) _ Hfree [t1 Hns] _ _]%registers_registered.
  pose proof Hl as [Hg Hlive]%live_group_Some. split_and!.
  - rewrite (abs_frame (with_nodes (<[(tk_group k, n) := new_node k h t1]> (nodes d))
      (with_groups (<[tk_group k := group_next (n + 1) g]> (groups d)) d)) d'); [|done..].
    rewrite (abs_node (with_groups _ d)). cbn [nd_live new_node].
    destruct (abs_group d (tk_group k) (group_next (n + 1) g)) as (El & Er & En & Em).
    split_and!; cbn; try done.
    + intros cg. etrans; [apply El|]. cbn. unfold insert, fn_insert. case_decide; subst; [|done].
      rewrite bool_decide_true by eauto. by apply g_live_true.
    + intros cg. etrans; [apply Er|]. cbn. unfold insert, fn_insert. case_decide; subst; [|done]. by rewrite Hg.
  - apply abs_live. eauto.
  - cbn. by rewrite Hg.
  - cbn. unfold live_node. by rewrite Hfree.
  - by eapply wf_groups.
Qed.
End statements.

(** ** Every atomic change of the database is one of the registry *)

Section steps.
Context `{Platform}.
Lemma step_registry d d' :
  wf_db canonical_id d -> db_step canonical_id d d' -> registry_step (abs d) (abs d').
Proof.
  intros Hwf Hs. destruct Hs as [hash now h k n d d' Hreg|cg bytes v e r d d' Hlt Hu|cg n t d d' Hu|cg n t d d' Hu|
    cg n t r d d' Hu|cg n x r d d' Hu|cg t d d' Hu|cg t d d' Hu|cg d d' Hu|id name assoc t d d' _ Hu|
    k d d' _ Hu|row d d' Hu|id row d d' Hu|key v d d' Hu].
  - destruct (abs_registered _ _ _ _ _ _ _ _ Hwf Hreg) as (Heff & Hl & Hnext & Hfree & _). subst n. by eapply rs_enroll.
  - unfold upd_roster in Hu. destruct (live_group cg d) as [g|] eqn:Hg; [|injection Hu as <- _; by apply rs_same].
    destruct (Z.eqb_spec (g_roster_version g) e); injection Hu as <- _; [|by apply rs_same].
    apply (rs_update cg bytes v); [apply abs_live; eauto|rewrite (abs_roster _ _ _ Hg); cbn; lia|by apply abs_upd_roster].
  - apply rs_same. by eapply abs_last_seen.
  - eapply rs_expel. by eapply abs_node_deleted.
  - eapply rs_expel. by eapply abs_upd_live_node_deleted.
  - apply rs_same. by eapply abs_upd_live_node_name.
  - eapply rs_expel_all. by eapply abs_upd_nodes_deleted.
  - eapply rs_close. by eapply abs_upd_group_deleted.
  - destruct (live_group cg d) as [g|] eqn:Hg.
    + apply (rs_reset cg); [apply abs_live; eauto|]. eapply abs_upd_group_reset; eauto.
    + unfold upd_group_reset in Hu. rewrite Hg in Hu. injection Hu as <-. by apply rs_same.
  - destruct (abs_new_group _ _ _ _ _ _ _ Hwf Hu) as (Hl & Hr & Hn & Hm & Heff). by eapply rs_open.
  - apply rs_same. by rewrite (abs_ins_token _ _ _ Hu).
  - apply rs_same. injection Hu as <-. by rewrite (abs_frame d).
  - apply rs_same. unfold ins_api_key in Hu. case_decide; [done|]. injection Hu as <-. by rewrite (abs_frame d).
  - apply rs_same. unfold ins_meta in Hu. case_decide; [done|]. injection Hu as <-. by rewrite (abs_frame d).
Qed.
Lemma steps_registry d d' :
  rtc (db_step canonical_id) d d' -> wf_db canonical_id d -> rtc registry_step (abs d) (abs d').
Proof.
  induction 1 as [d|d d1 d2 Hs _ IH]; intros Hwf; [done|].
  eapply rtc_l; [by apply step_registry|]. apply IH. by destruct (step_good _ _ _ Hs Hwf).
Qed.
End steps.

(** ** The backend's calls, among others *)

Section runs.
Context `{Platform} `{Oth : Others} `{!Lawful Oth} `{Crypto} `{JwtLib} `{RosterPb}.
Context (O : relation Registry) `{!PreOrder O}.
Context (others_move : forall w,
  wf_db canonical_id (db w) -> O (abs (db w)) (abs (db (meanwhile w)))).
Implicit Types (w : World).

Definition runs (c : call) : Prop := forall w, wf_db canonical_id (db w) ->
  let '(w', a) := answer_call w c in phased O (phases c a) (abs (db w)) (abs (db w')).

Lemma waited w : wf_db canonical_id (db w) ->
  wf_db canonical_id (db (meanwhile w)) /\ O (abs (db w)) (abs (db (meanwhile w))).
Proof. intros Hwf. split; [|by apply others_move]. eapply steps_good; [apply meanwhile_steps|done]. Qed.
Lemma one_moment (P : phase) R R1 R2 R' : O R R1 -> P R1 R2 -> O R2 R' -> phased O [P] R R'.
Proof. intros. eapply phased_cons; [done..|by apply phased_nil]. Qed.
(** A call that happens at one moment. *)
Lemma rpc_writes b r a R R1 R2 R' :
  O R R1 -> rpc_explained R1 r a ->
  R2 ≡ match a with Ok p => rpc_effect r p R1 | Err _ => R1 end -> O R2 R' ->
  phased O (phases (Rpc b r) (ToNode a)) R R'.
Proof. intros HR Ha Heff HR'. eapply one_moment; [done|split; [done|by left; destruct a]|done]. Qed.
Lemma rpc_reads b r a R R1 :
  O R R1 -> rpc_explained R1 r a -> match a with Ok p => rpc_effect r p R1 ≡ R1 | Err _ => True end ->
  phased O (phases (Rpc b r) (ToNode a)) R R1.
Proof. intros HR Ha Heff. apply (rpc_writes _ _ _ _ R1 R1); [done|done|by destruct a|reflexivity]. Qed.

Lemma log_run cg n ty ok details w : wf_db canonical_id (db w) -> exists w',
  insertActivityLog cg n ty ok details w = (w', Ok ()) /\ O (abs (db w)) (abs (db w')).
Proof.
  intros Hwf. unfold insertActivityLog.
  destruct (details ≫= _) as [[bytes|]|]; [|exists w; by split|];
    unfold nowMillis, ask, attempt, exec, tx_exec, ins_activity, mbind, mret, ST_bind, ST_ret;
    destruct (waited {| db := db w; tick := S (tick w) |} Hwf) as [_ Hle];
    destruct (driver_fails _); (eexists; split; [reflexivity|exact Hle]).
Qed.

Ltac branches :=
  unfold parseGroupID, row_or, absent_or_internal, on_error, exec, tx_exec, query_row, nowMillis, ask,
    throw, mbind, mret, ST_bind, ST_ret.
Ltac simp := cbn -[abs meanwhile phases rpc_explained insertActivityLog upd_roster upd_node sel_nodes].
(** Others use the connection first. *)
Ltac wait Hwf w1 :=
  match goal with
  | |- context [meanwhile ?x] =>
      lazymatch x with context [meanwhile _] => fail | _ => idtac end;
      let Hwf1 := fresh "Hwf" in let Hle := fresh "Hle" in
      destruct (waited x Hwf) as [Hwf1 Hle]; generalize dependent (meanwhile x); intros w1 Hwf1 Hle; cbn [db] in Hle
  end.
Ltac refused_id := simp; apply rpc_reads; [done|by left|done].
Ltac refused_driver := simp; apply rpc_reads; [done|by right; left|done].

Lemma registration_runs b token : runs (Rpc b (RCompleteNodeRegistration token)).
Proof.
  intros w Hwf. simp. unfold CompleteNodeRegistration, mbind, ST_bind, ask. simp.
  destruct (regLimiter_Allow (tick w)); simp; [|by apply rpc_reads].
  pose proof (registration_run (hashToken token) {| db := db w; tick := S (tick w) |}) as Hr.
  destruct (waited {| db := db w; tick := S (tick w) |} Hwf) as [Hwf0 Hle]. cbn [db] in Hle.
  destruct (registration _ _) as [w2 [[[cg n] secret]|e]]; simp.
  - destruct Hr as (t & bytes & k & _ & _ & -> & Hreg).
    destruct (abs_registered _ _ _ _ _ _ _ _ Hwf0 Hreg) as (Heff & Hl & Hn & Hfree & _).
    assert (wf_db canonical_id (db w2)) as Hwf2 by (eapply step_good; [by eapply step_register|done]).
    destruct (log_run (tk_group k) n "register" true (Some (event Register_)) w2 Hwf2) as (w3 & -> & Hlog).
    destruct (signer b) as [sg|]; unfold mret, ST_ret; simp; by eapply rpc_writes.
  - rewrite Hr. by apply rpc_reads.
Qed.
Lemma authenticate_runs b req : runs (Rpc b (RAuthenticateNode req)).
Proof.
  intros w Hwf. simp. unfold AuthenticateNode. branches.
  destruct (uuid_Parse _) as [cg|] eqn:Hu; [|refused_id].
  wait Hwf w1. destruct (driver_fails _); [refused_driver|].
  unfold sel_node, query_row.
  destruct (live_node cg _ _) as [row|] eqn:Hl.
  - unfold ConstantTimeCompare. case_decide as Hh; simp; (apply rpc_reads; [done| |done]).
    + exists cg. split; [done|]. rewrite (abs_member _ _ _ _ Hl). by rewrite Hh.
    + right. right. exists cg. split_and!; [done|done|]. rewrite (abs_member _ _ _ _ Hl). congruence.
  - simp. apply rpc_reads; [done| |done]. right. right. exists cg. split_and!; [done|done|]. cbn. by rewrite Hl.
Qed.
(** The calls that read the row of the group. *)
Ltac reads_group raw :=
  intros w Hwf; simp; unfold GetRoster, GetGroupMetadata, GetTurnPolicy; branches;
  destruct (uuid_Parse raw) as [cg|] eqn:Hu; [|refused_id];
  let w1 := fresh "w" in wait Hwf w1; destruct (driver_fails _); [refused_driver|];
  unfold sel_group, query_row; destruct (live_group cg _) as [g|] eqn:Hg; simp; (apply rpc_reads; [done| |done]);
  [exists cg; split_and!; eauto using live_row, abs_roster|right; right; exists cg; by rewrite abs_dead].
Lemma GetRoster_runs b raw : runs (Rpc b (RGetRoster raw)).
Proof. reads_group raw. Qed.
Lemma GetGroupMetadata_runs b raw : runs (Rpc b (RGetGroupMetadata raw)).
Proof. reads_group raw. Qed.
Lemma GetTurnPolicy_runs b raw : runs (Rpc b (RGetTurnPolicy raw)).
Proof. reads_group raw. Qed.
Lemma ListNodes_runs b raw : runs (Rpc b (RListNodes raw)).
Proof.
  intros w Hwf. simp. unfold ListNodes. branches.
  destruct (uuid_Parse _) as [cg|] eqn:Hu; [|by apply rpc_reads].
  wait Hwf w1. destruct (driver_fails _); [by apply rpc_reads|].
  unfold sel_nodes. destruct (forallb _ _); simp; (apply rpc_reads; [done| |done]); [|done].
  exists cg. split; [done|]. rewrite <-list_fmap_compose. apply lists_live_nodes.
Qed.
Lemma UpdateRoster_runs b req : runs (Rpc b (RUpdateRoster req)).
Proof.
  intros w Hwf. simp. unfold UpdateRoster. branches.
  destruct (uuid_Parse _) as [cg|] eqn:Hu; [|refused_id].
  destruct (Z.leb_spec (ur_NewVersion req) (ur_ExpectedVersion req)).
  { simp. apply rpc_reads; [done| |done]. right. right. exists cg. auto. }
  wait Hwf w1. destruct (driver_fails _); [refused_driver|]. unfold upd_roster.
  destruct (live_group cg _) as [g|] eqn:Hg; simp.
  - destruct (Z.eqb_spec (g_roster_version g) (ur_ExpectedVersion req)); simp.
    + eapply rpc_writes; [exact Hle| | |reflexivity].
      * exists cg. split_and!; [done|by eapply live_row|by rewrite (abs_roster _ _ _ Hg)|done].
      * cbn -[abs]. unfold in_group. rewrite Hu. by apply abs_upd_roster.
    + apply rpc_reads; [done| |done]. right. right. exists cg. split; [done|]. right. right.
      by rewrite (abs_roster _ _ _ Hg).
  - apply rpc_reads; [done| |done]. right. right. exists cg. split; [done|]. right. left. by apply abs_dead.
Qed.
Lemma UpdateNodeLastSeen_runs b raw n : runs (Rpc b (RUpdateNodeLastSeen raw n)).
Proof.
  intros w Hwf. simp. unfold UpdateNodeLastSeen. branches.
  destruct (uuid_Parse _) as [cg|] eqn:Hu; [|by apply rpc_reads].
  simp. wait Hwf w1. destruct (driver_fails _); [by apply rpc_reads|]. simp.
  eapply rpc_writes; [exact Hle|done| |reflexivity]. cbn -[abs]. by eapply abs_last_seen.
Qed.
Lemma DeregisterNode_runs b raw n : runs (Rpc b (RDeregisterNode raw n)).
Proof.
  intros w Hwf. simp. unfold DeregisterNode. branches.
  destruct (uuid_Parse _) as [cg|] eqn:Hu; [|by apply rpc_reads].
  simp. wait Hwf w1. destruct (driver_fails _); [by apply rpc_reads|]. unfold upd_node. simp.
  match goal with |- context [insertActivityLog ?a ?b ?c ?d ?e ?w2] =>
    destruct (log_run a b c d e w2) as (w3 & -> & Hlog) end.
  { eapply step_good; [by eapply step_node_deleted|done]. }
  eapply rpc_writes; [exact Hle|done| |exact Hlog].
  cbn -[abs]. unfold in_group. rewrite Hu. by eapply abs_node_deleted.
Qed.
Lemma LogActivity_runs b req : runs (Rpc b (RLogActivity req)).
Proof.
  intros w Hwf. simp. unfold LogActivity. branches.
  destruct (uuid_Parse _) as [cg|] eqn:Hu; [|by apply rpc_reads].
  match goal with |- context [insertActivityLog ?a ?b ?c ?d ?e ?w2] =>
    destruct (log_run a b c d e w2 Hwf) as (w3 & -> & Hlog) end.
  by apply rpc_reads.
Qed.
Lemma rpc_runs b r : runs (Rpc b r).
Proof.
  destruct r; auto using registration_runs, authenticate_runs, ListNodes_runs, GetRoster_runs,
    GetGroupMetadata_runs, GetTurnPolicy_runs, UpdateRoster_runs, UpdateNodeLastSeen_runs,
    DeregisterNode_runs, LogActivity_runs.
Qed.

(** ** The requests of the admin API, among others *)

Lemma checkAPIKey_run header w : wf_db canonical_id (db w) ->
  let '(w', a) := checkAPIKey header w in
  wf_db canonical_id (db w') /\ O (abs (db w)) (abs (db w')) /\
  match a with Ok _ => True | Err e => http_code e = 401 \/ http_code e = 500 end.
Proof.
  intros Hwf. unfold checkAPIKey.
  destruct (FromAuthHeader header) as [key|e]; [|by split_and!; [|reflexivity|left]].
  unfold attempt, exec, tx_exec, sel_api_key, query_row, throw, mbind, ST_bind, mret, ST_ret.
  wait Hwf w1. destruct (driver_fails _); [by split_and!; [..|right]|].
  destruct (api_keys _ !! _) as [row|]; [|by split_and!; [..|left]]. cbn -[ConstantTimeCompare].
  destruct (_ || _); split_and!; done || by left.
Qed.
(** Nothing is announced of a request without a key, or that fails. *)
Lemma gate_explained (R : Registry) r e :
  http_code e = 401 \/ http_code e = 500 -> admin_explained R r (Err e).
Proof. intros He. destruct r; cbn; try done; try lia. intros cg nn _ _. lia. Qed.

Definition route_runs (r : request) : Prop := forall online header w,
  wf_db canonical_id (db w) ->
  let '(w', a) := route online r w in
  phased O (phases (Admin online header r) (ToAdmin a)) (abs (db w)) (abs (db w')).
Lemma phased_before ps R0 R R' : O R0 R -> phased O ps R R' -> phased O ps R0 R'.
Proof.
  intros H0' Hp. destruct Hp as [R R' HO|P ps R R1 R2 R' HO HP Hp].
  - apply phased_nil. by etrans.
  - by eapply phased_cons; [etrans|..].
Qed.
Lemma phased_later ps R R1 R' : phased O ps R R1 -> O R1 R' -> phased O ps R R'.
Proof.
  intros Hp. induction Hp as [R R1 HO|P ps R S1 S2 R1 HO HP _ IH]; intros HO'.
  - apply phased_nil. by etrans.
  - eapply phased_cons; [done..|by apply IH].
Qed.
Lemma admin_fails online header r e R R1 :
  O R R1 -> admin_explained R1 r (Err e) -> phased O (phases (Admin online header r) (ToAdmin (Err e))) R R1.
Proof.
  intros HR Ha.
  assert (phases (Admin online header r) (ToAdmin (Err e)) =
    [fun R R' => explained R (Admin online header r) (ToAdmin (Err e)) /\
                 observes (Admin online header r) (ToAdmin (Err e)) R R']) as -> by by destruct r.
  eapply one_moment; [done|split; [exact Ha|by left]|reflexivity].
Qed.
Lemma handle_runs online header r : route_runs r -> runs (Admin online header r).
Proof.
  intros Hr w Hwf. cbn -[abs phases]. unfold handle, mbind, ST_bind.
  pose proof (checkAPIKey_run header w Hwf) as Hkey.
  destruct (checkAPIKey header w) as [w1 [u|e]]; destruct Hkey as (Hwf1 & HO & He); cbn -[abs phases].
  - specialize (Hr online header w1 Hwf1). destruct (route online r w1). by eapply phased_before.
  - apply admin_fails; [done|by apply gate_explained].
Qed.
Ltac simp ::= cbn -[abs meanwhile phases upd_nodes_deleted upd_group_deleted upd_group_reset upd_live_node ins_token ins_group rfc3339].
Ltac branches ::=
  unfold run_stmt, row_or_404, on_error, exec, tx_exec, query_row, nowMillis, ask, throw, mbind, ST_bind, mret, ST_ret;
  simp.
Ltac fails := by (apply admin_fails).
(** Between the two statements of a deletion or a reset, the driver fails. *)
Ltac half_way cg Hu Hle Hn Hle' :=
  simp; eapply one_moment; [exact Hle|split; [done|right; exists cg; split; [cbn; by rewrite Hu|exact Hn]]|exact Hle'].

Lemma GetStats_runs : route_runs GetStats.
Proof.
  intros online header w Hwf. simp. unfold getStats. branches. wait Hwf w1. destruct (driver_fails _); [fails|].
  unfold count_groups, query_count. destruct (int32_ok _); [|fails]. simp.
  eapply one_moment; [exact Hle|split; [|by left]|reflexivity].
  destruct (live_ids (db w1)) as [Hnd Hin]. eexists. split_and!; [exact Hnd|exact Hin|].
  by rewrite length_fmap, length_map_to_list.
Qed.
Lemma GetConnectivityGroups_runs key : route_runs (GetConnectivityGroups key).
Proof.
  intros online header w Hwf. simp. unfold getConnectivityGroups. branches. wait Hwf w1.
  destruct (driver_fails _); [fails|]. unfold sel_groups, query. simp.
  eapply one_moment; [exact Hle|split; [|by left]|reflexivity].
  destruct (live_ids (db w1)) as [Hnd Hin]. simp. rewrite <-list_fmap_compose. case_decide as Hkey.
  - split_and!; [by rewrite merge_sort_Permutation|by intros cg; rewrite merge_sort_Permutation, Hin|].
    intros _ cg. by rewrite merge_sort_Permutation, Hin.
  - split_and!; [| |done].
    + eapply sublist_NoDup; [exact Hnd|]. apply (fmap_sublist fst), sublist_filter.
    + intros cg (e & -> & [_ He]%list_elem_of_filter)%list_elem_of_fmap. apply Hin, list_elem_of_fmap. by exists e.
Qed.
Lemma PostConnectivityGroup_runs body : route_runs (PostConnectivityGroup body).
Proof.
  intros online header w Hwf. simp. unfold postConnectivityGroup, bind_json.
  destruct body as [dto|msg]; [|branches; fails]. branches. wait Hwf w1. destruct (driver_fails _); [fails|].
  destruct (ins_group _ _ _ _ _) as [[d []]|e] eqn:Hins; [|fails]. simp.
  destruct (abs_new_group _ _ _ _ _ _ _ Hwf0 Hins) as (? & ? & ? & ? & Heff).
  eapply one_moment; [exact Hle|split; [by split_and!|by left]|reflexivity].
Qed.
Lemma GetConnectivityGroup_runs id : route_runs (GetConnectivityGroup id).
Proof.
  intros online header w Hwf. simp. unfold getConnectivityGroup, group_param. branches.
  destruct (uuid_Parse id) as [cg|] eqn:Hu; [|fails]. simp.
  wait Hwf w1. destruct (driver_fails _); [fails|]. unfold sel_group, query_row.
  destruct (live_group cg _) as [g|] eqn:Hg; simp;
    [|apply admin_fails; [done|]; exists cg; by rewrite abs_dead].
  wait Hwf0 w2. assert (O (abs (db w)) (abs (db w2))) as Hle02 by by etrans.
  destruct (driver_fails _); [fails|]. unfold sel_nodes. destruct (forallb _ _); [|fails]. simp.
  unfold attempt, count_activity, count_pending, query_count.
  assert (lists_members (abs (db w2)) cg (n_NodeNumber <$> (node_info (online cg) <$> live_nodes cg (db w2)))) as Hl.
  { rewrite <-list_fmap_compose. apply lists_live_nodes. }
  pose proof (live_row _ _ _ Hg) as Hr.
  wait Hwf1 w3.
  assert (forall w4, O (abs (db w3)) (abs (db w4)) -> O (abs (db w)) (abs (db w4))) as Hle4
    by (intros w4 ?; etrans; [exact Hle02|by etrans]).
  assert (forall (x : GroupDetail) w4, gd_ID x = cg ->
    gd_Nodes x = node_info (online cg) <$> live_nodes cg (db w2) -> O (abs (db w3)) (abs (db w4)) ->
    phased O (phases (Admin online header (GetConnectivityGroup id)) (ToAdmin (Ok (Detail x))))
      (abs (db w)) (abs (db w4))) as Hdone.
  { intros x w4 Hid Hns Hle4'. cbn [phases]. rewrite Hid, Hns.
    eapply phased_cons; [exact Hle|by split|eapply one_moment; [exact Hle0|by split|by etrans]]. }
  destruct (driver_fails _); simp; [|destruct (int32_ok _); simp];
    wait Hwf2 w4; (destruct (driver_fails _); [apply admin_fails; [by apply Hle4|done]|]);
    simp; (destruct (int32_ok _); [|apply admin_fails; [by apply Hle4|done]]); simp; by apply Hdone.
Qed.
Lemma DeleteConnectivityGroup_runs id : route_runs (DeleteConnectivityGroup id).
Proof.
  intros online header w Hwf. simp.
  unfold deleteConnectivityGroup, deleteGroup_nodes, deleteGroup_group, group_param. branches.
  destruct (uuid_Parse id) as [cg|] eqn:Hu; [|fails]. simp.
  wait Hwf w1. destruct (driver_fails _); [fails|].
  destruct (upd_nodes_deleted _ _ _) as [[d1 []]|] eqn:Hn; [|fails]. simp.
  assert (wf_db canonical_id d1) as Hwfd1 by (eapply step_good; [by eapply step_nodes_deleted|done]).
  apply abs_upd_nodes_deleted in Hn.
  wait Hwfd1 w2.
  destruct (driver_fails _); [half_way cg Hu Hle Hn Hle0|].
  destruct (upd_group_deleted _ _ _) as [[d2 []]|] eqn:Hg; simp; [|half_way cg Hu Hle Hn Hle0].
  eapply phased_cons; [exact Hle| |eapply one_moment; [exact Hle0| |reflexivity]]; unfold in_group; rewrite Hu.
  - exact Hn.
  - by eapply abs_upd_group_deleted.
Qed.
Lemma ResetConnectivityGroup_runs id : route_runs (ResetConnectivityGroup id).
Proof.
  intros online header w Hwf. simp. unfold resetConnectivityGroup, groupExists, group_param. branches.
  destruct (uuid_Parse id) as [cg|] eqn:Hu; [|fails]. simp.
  wait Hwf w1. destruct (driver_fails _); [fails|]. unfold sel_group, query_row.
  destruct (live_group cg _) as [g|] eqn:Hg; simp;
    [|apply admin_fails; [done|]; exists cg; by rewrite abs_dead].
  wait Hwf0 w2. assert (O (abs (db w)) (abs (db w2))) as Hle02 by by etrans.
  destruct (driver_fails _); [fails|].
  destruct (upd_nodes_deleted _ _ _) as [[d1 []]|] eqn:Hn; [|fails]. simp.
  assert (wf_db canonical_id d1) as Hwfd1 by (eapply step_good; [by eapply step_nodes_deleted|done]).
  apply abs_upd_nodes_deleted in Hn.
  wait Hwfd1 w3.
  destruct (driver_fails _); [half_way cg Hu Hle02 Hn Hle1|].
  destruct (upd_group_reset _ _) as [[d2 []]|] eqn:Hr; simp; [|half_way cg Hu Hle02 Hn Hle1].
  eapply phased_cons; [exact Hle| |eapply phased_cons; [exact Hle0| |eapply one_moment; [exact Hle1| |reflexivity]]].
  - split; [|done]. exists cg. split; [done|by eapply live_row].
  - unfold in_group. by rewrite Hu.
  - unfold in_group. rewrite Hu. by apply abs_reset.
Qed.
Lemma PostRegistrationToken_runs id body : route_runs (PostRegistrationToken id body).
Proof.
  intros online header w Hwf. simp. unfold postRegistrationToken, groupExists, group_param, bind_json. branches.
  destruct (uuid_Parse id) as [cg|] eqn:Hu; [|fails]. destruct body as [dto|msg]; [|fails]. simp.
  wait Hwf w1. destruct (driver_fails _); [fails|]. unfold sel_group, query_row.
  destruct (live_group cg _) as [g|] eqn:Hg; simp;
    [|apply admin_fails; [done|]; exists cg; by rewrite abs_dead].
  destruct (MintRegistrationToken _ _ _) as [minted|[msg|]]; [|fails|fails]. simp.
  wait Hwf0 w2. assert (O (abs (db w)) (abs (db w2))) as Hle02 by by etrans.
  destruct (driver_fails _); [fails|].
  destruct (ins_token _ _) as [[d1 []]|e] eqn:Hi; simp; [|fails].
  eapply one_moment; [exact Hle|split; [|by left]|by rewrite (abs_ins_token _ _ _ Hi)].
  exists cg. split; [done|by eapply live_row].
Qed.
Lemma GetRegistrationTokens_runs id : route_runs (GetRegistrationTokens id).
Proof.
  intros online header w Hwf. simp. unfold getRegistrationTokens, groupExists, group_param. branches.
  destruct (uuid_Parse id) as [cg|] eqn:Hu; [|fails]. simp.
  wait Hwf w1. destruct (driver_fails _); [fails|]. unfold sel_group, query_row.
  destruct (live_group cg _) as [g|] eqn:Hg; simp;
    [|apply admin_fails; [done|]; exists cg; by rewrite abs_dead].
  wait Hwf0 w2. assert (O (abs (db w)) (abs (db w2))) as Hle02 by by etrans.
  destruct (driver_fails _); [fails|]. simp.
  eapply one_moment; [exact Hle|split; [|by left]|exact Hle0]. exists cg. split; [done|by eapply live_row].
Qed.
Lemma PatchNode_runs id n body : route_runs (PatchNode id n body).
Proof.
  intros online header w Hwf. simp. unfold patchNode, group_param, node_param, bind_json. branches.
  destruct (uuid_Parse id) as [cg|] eqn:Hu; [|fails]. destruct (ParseInt n 32) as [nn|]; [|fails].
  destruct body as [dto|msg]; [|fails]. destruct (pn_Name dto) as [name|];
    [|eapply one_moment; [reflexivity|split; [done|by left]|reflexivity]].
  destruct (_ <? _); [fails|]. wait Hwf w1. destruct (driver_fails _); [fails|].
  destruct (upd_live_node _ _ _ _) as [[d r]|e] eqn:Hp; [|fails]. simp.
  eapply one_moment; [exact Hle|split; [done|left]|reflexivity]. by eapply abs_upd_live_node_name.
Qed.
Lemma DeleteNode_runs id n : route_runs (DeleteNode id n).
Proof.
  intros online header w Hwf. simp. unfold deleteNode, group_param, node_param. branches.
  destruct (uuid_Parse id) as [cg|] eqn:Hu; [|apply admin_fails; [done|intros ? ? ?; congruence]].
  destruct (ParseInt n 32) as [nn|] eqn:Hp; [|apply admin_fails; [done|intros ? ? ? ?; congruence]].
  assert (forall w1 e, O (abs (db w)) (abs (db w1)) ->
    ((http_code e = 404 -> r_live (abs (db w1)) cg = false \/ r_member (abs (db w1)) cg nn = None) /\
     (http_code e = 409 -> nodeRevokedInRoster (fst (r_roster (abs (db w1)) cg)) nn = false)) ->
    phased O (phases (Admin online header (DeleteNode id n)) (ToAdmin (Err e))) (abs (db w)) (abs (db w1))) as Hfail.
  { intros w1 e Hle He. apply admin_fails; [done|]. intros cg' nn' ? ?. by simplify_eq. }
  wait Hwf w1. destruct (driver_fails _); [by apply Hfail|]. unfold sel_group, sel_node, query_row.
  destruct (live_group cg _) as [g|] eqn:Hg; simp;
    [|apply (Hfail w1); [done|]; split; [|done]; left; by apply abs_dead].
  wait Hwf0 w2. assert (O (abs (db w)) (abs (db w2))) as Hle02 by by etrans.
  destruct (driver_fails _); [by apply Hfail|].
  destruct (live_node cg nn _) as [row|] eqn:Hr; simp;
    [|apply (Hfail w2); [done|]; split; [|done]; right; cbn; by rewrite Hr].
  destruct (nodeRevokedInRoster (g_roster g) nn) eqn:Hrev; simp.
  2: { eapply phased_later; [|exact Hle0]. apply (Hfail w1); [done|]. split; [done|]. intros _.
    by rewrite (abs_roster _ _ _ Hg). }
  wait Hwf1 w3. destruct (driver_fails _); [by apply Hfail; [etrans|]|].
  unfold upd_live_node. destruct (live_node cg nn (db w3)) as [row'|] eqn:Hr'; simp.
  - eapply phased_cons; [exact Hle| |eapply one_moment; [etrans; [exact Hle0|exact Hle1]| |reflexivity]].
    + split; [|done]. exists cg, nn. split_and!; [done|done|by eapply live_row|by rewrite (abs_roster _ _ _ Hg)].
    + exists cg, nn. split_and!; [done|done|rewrite (abs_member _ _ _ _ Hr'); by eexists|].
      eapply (abs_upd_live_node_deleted cg nn (UnixMilli (now (S (tick w2))))). unfold upd_live_node.
      rewrite Hr'. reflexivity.
  - apply (Hfail w3); [by etrans|]. split; [|done]. right. cbn. by rewrite Hr'.
Qed.
Lemma admin_runs online header r : runs (Admin online header r).
Proof.
  apply handle_runs. destruct r; auto using GetStats_runs, GetConnectivityGroups_runs,
    PostConnectivityGroup_runs, GetConnectivityGroup_runs, DeleteConnectivityGroup_runs,
    ResetConnectivityGroup_runs, PostRegistrationToken_runs, GetRegistrationTokens_runs,
    PatchNode_runs, DeleteNode_runs.
Qed.
Lemma call_runs c : runs c.
Proof. destruct c; [apply rpc_runs|apply admin_runs]. Qed.
End runs.

(** ** Conversations *)

Section conversations.
Context `{Platform} `{Crypto} `{JwtLib} `{RosterPb}.
Implicit Types (w : World).

Lemma answer_call_run `{Oth : Others} w c : fst (answer_call w c) = run_call w c.
Proof.
  destruct c as [b r|online header r]; cbn.
  - rewrite <-serveReply_serve. by destruct (serveReply b r w).
  - by destruct (handle online header r w).
Qed.
Lemma dialogue_run `{Oth : Others} cs w : fst (dialogue w cs) = foldl run_call w cs.
Proof.
  revert w. induction cs as [|c cs IH]; intros w; [done|]. cbn.
  rewrite <-(answer_call_run w c), <-IH. destruct (answer_call w c) as [w1 a]. cbn. by destruct (dialogue w1 cs).
Qed.
Lemma answer_call_wf `{Oth : Others} `{!Lawful Oth} w c : wf_db canonical_id (db w) -> wf_db canonical_id (db (fst (answer_call w c))).
Proof.
  intros Hwf. rewrite answer_call_run. eapply steps_good; [|exact Hwf]. apply (run_calls_steps [c] w).
Qed.
Lemma dialogue_wf `{Oth : Others} `{!Lawful Oth} cs w : wf_db canonical_id (db w) -> wf_db canonical_id (db (fst (dialogue w cs))).
Proof. intros Hwf. rewrite dialogue_run. eapply steps_good; [apply run_calls_steps|done]. Qed.

(** With nobody else, the phases of a call make up its one effect. *)
Lemma phased_cons_inv O P ps R R' :
  phased O (P :: ps) R R' -> exists R1 R2, O R R1 /\ P R1 R2 /\ phased O ps R2 R'.
Proof. inversion 1; subst. eauto. Qed.
Lemma phased_nil_inv O R R' : phased O [] R R' -> O R R'.
Proof. by inversion 1. Qed.
Lemma lists_members_equiv R1 R2 cg l : R1 ≡ R2 -> lists_members R1 cg l -> lists_members R2 cg l.
Proof. intros (_ & _ & _ & Hm) [Hs Hin]. split; [done|]. intros n. by rewrite Hin, Hm. Qed.
Lemma phased_alone c a R R' :
  phased (≡) (phases c a) R R' -> explained R c a /\ observes c a R R'.
Proof.
  intros Hp.
  assert (phases c a = [fun R R' => explained R c a /\ observes c a R R'] -> explained R c a /\ observes c a R R') as Hone.
  { intros Heq. rewrite Heq in Hp. apply phased_cons_inv in Hp as (R1 & R2 & HR & [He Ho] & HR'%phased_nil_inv).
    rewrite HR. rewrite <-HR'. done. }
  destruct c as [b r|online header r], a as [a|[p|e]]; try (by apply Hone); try (by destruct r; apply Hone).
  destruct r; try (by apply Hone); [destruct p; try by apply Hone|..]; clear Hone; cbn [phases] in Hp.
  - apply phased_cons_inv in Hp as (R1 & R2 & HR1 & [[Hid Hl] HR2] & Hp).
    apply phased_cons_inv in Hp as (R3 & R4 & HR3 & [Hm HR4] & HR'%phased_nil_inv).
    assert (R3 ≡ R) as HR by by rewrite <-HR3, HR2, HR1.
    split; [|left; cbn; by rewrite <-HR', HR4]. cbn. split_and!; [done| |by eapply lists_members_equiv].
    destruct HR1 as (Hlive & _). by rewrite Hlive.
  - apply phased_cons_inv in Hp as (R1 & R2 & HR1 & HR2 & Hp).
    apply phased_cons_inv in Hp as (R3 & R4 & HR3 & HR4 & HR'%phased_nil_inv).
    split; [done|left]. cbn. rewrite <-HR', HR4, <-HR3. unfold in_group in *.
    destruct (uuid_Parse id); by rewrite HR2, HR1.
  - apply phased_cons_inv in Hp as (R1 & R2 & HR1 & [(cg & Hid & Hl) HR2] & Hp).
    apply phased_cons_inv in Hp as (R3 & R4 & HR3 & HR4 & Hp).
    apply phased_cons_inv in Hp as (R5 & R6 & HR5 & HR6 & HR'%phased_nil_inv).
    assert (r_live R cg = true) as HlR by (destruct HR1 as (Hlive & _); by rewrite Hlive).
    split; [by exists cg|left]. cbn. unfold in_group in *. rewrite Hid in *.
    assert (R5 ≡ expel_all cg R) as HR by by rewrite <-HR5, HR4, <-HR3, HR2, HR1.
    assert (r_live R5 cg = true) as HlR5 by (destruct HR as (Hlive & _); by rewrite Hlive).
    rewrite HlR5 in HR6. by rewrite <-HR', HR6, HR.
  - apply phased_cons_inv in Hp as (R1 & R2 & HR1 & [(cg & nn & Hid & Hn & Hl & Hrev) HR2] & Hp).
    apply phased_cons_inv in Hp as (R3 & R4 & HR3 & (cg' & nn' & Hid' & Hn' & Hm & HR4) & HR'%phased_nil_inv).
    simplify_eq. assert (R3 ≡ R) as HR by by rewrite <-HR3, HR2, HR1.
    split.
    + exists cg, nn. destruct HR1 as (Hlive & Hros & _). destruct HR as (_ & _ & _ & Hmem).
      rewrite Hlive, Hros, <-Hmem. done.
    + left. cbn. unfold in_group. rewrite Hid, Hn. by rewrite <-HR', HR4, HR.
Qed.
(** C11. Every call is linearizable. Whatever other calls, requests and starts
    do to the database between the statements of a call, there is a moment
    between its start and its end at which its answer is one that the registry
    explains and it has its effect; only the details, the reset and the deletion
    of a group and the deletion of a node consist of several such moments, as
    [phases] lists them. The others move the registry by atomic changes. *)
Theorem calls_linearizable `{Oth : Others} `{!Lawful Oth} c w : wf_db canonical_id (db w) ->
  let '(w', a) := answer_call w c in
  wf_db canonical_id (db w') /\
  phased (rtc registry_step) (phases c a) (abs (db w)) (abs (db w')).
Proof.
  intros Hwf. pose proof (answer_call_wf w c Hwf) as Hwf'.
  assert (runs (rtc registry_step) c) as Hruns.
  { apply call_runs.
    - apply _.
    - intros w0 Hw0. by apply steps_registry; [apply meanwhile_steps|]. }
  specialize (Hruns w Hwf). by destruct (answer_call w c).
Qed.
Lemma answer_call_explained c w : wf_db canonical_id (db w) ->
  let '(w', a) := answer_call w c in
  explained (abs (db w)) c a /\ observes c a (abs (db w)) (abs (db w')).
Proof.
  intros Hwf. assert (runs (Oth := alone) (≡) c) as Hruns by (by apply call_runs; [apply _|]).
  specialize (Hruns w Hwf). destruct (answer_call w c) as [w' a]. by apply phased_alone.
Qed.

Lemma dialogue_explained cs w : wf_db canonical_id (db w) ->
  let '(w', tr) := dialogue w cs in explains (abs (db w)) tr (abs (db w')).
Proof.
  revert w. induction cs as [|c cs IH]; intros w Hwf; [by constructor|]. cbn.
  pose proof (answer_call_wf w c Hwf) as Hwf1.
  pose proof (answer_call_explained c w Hwf) as Hc. destruct (answer_call w c) as [w1 a]. destruct Hc as [Ha Hobs].
  specialize (IH w1 Hwf1). destruct (dialogue w1 cs) as [w' tr]. by eapply told_cons.
Qed.

(** C10. The standalone backend and its admin API implement the registry.
    Whatever calls and requests are made, one after the other, with any clock,
    any random bytes and any failures of the driver: every answer is one that
    the registry explains, and the answers alone determine how the registry
    moves on, save that a deletion or a reset answered with 500 may have
    expelled the group's nodes already. *)
Theorem registry_refinement cs w : wf_db canonical_id (db w) ->
  let '(w', tr) := dialogue w cs in
  w' = foldl run_call w cs /\ fst <$> tr = cs /\ explains (abs (db w)) tr (abs (db w')).
Proof.
  intros Hwf. pose proof (dialogue_explained cs w Hwf) as Hex. pose proof (dialogue_run cs w) as Hrun.
  assert (fst <$> snd (dialogue w cs) = cs) as Hcs.
  { clear. revert w. induction cs as [|c cs IH]; intros w; [done|]. cbn.
    destruct (answer_call w c) as [w1 a]. specialize (IH w1). destruct (dialogue w1 cs). cbn in *. by f_equal. }
  by destruct (dialogue w cs).
Qed.
Lemma abs_emptyDB : abs emptyDB ≡ emptyRegistry.
Proof.
  assert (forall cg, groups emptyDB !! cg = None) as Hg by done.
  split_and!; intros cg; cbn; try done.
Qed.
End conversations.
