(* ===== verification/HubSrv.v ===== *)
(** * The node-facing service: connect/hub/hubsrv.go

    The handlers of the hub's gRPC service. What they call is stated by
    interfaces: [BackendClient] is the generated client of the backend service
    (Backend.v implements it), [RouterClient] the router with its futures, and
    [RateLib] the token buckets of golang.org/x/time/rate. Handlers are
    computations on the hub's state: its limiters, and whatever its backend
    and router keep. *)
From S2P Require Import Prelude GoStrings GoEncoding GoTime TurnCreds Version Sharding Grpc BePb.
From S2P Require Import RosterPb.
Open Scope Z_scope.

(** ** Messages of the client's proto package

    The hub builds requests of these kinds, and forwards the messages inside
    them without looking at more than the listed accessors. *)
Class HubPb `{RosterPb} := {
  PairNodesMessage : Type;
  GetReceiverNodeNumber : PairNodesMessage -> Z;
  StartConnectionRequest : Type;
  (** [proto.Unmarshal(req.GetSignedPayload(), &payload)]: the answerer's
      number and the name of the transport *)
  signed_payload : StartConnectionRequest -> result string (Z * string);
  StartConnectionResponse : Type
}.
Inductive RequestKind `{HubPb} :=
| KPairNodesMessage (m : PairNodesMessage)
| KRosterCosignRequest (newNodeNumber : Z) (newRoster : Roster)
| KStartConnectionRequest (m : StartConnectionRequest)
| KWelcome (serverSideInitLatencyUsec : Z).
Record ServingRequest `{HubPb} := {
  sr_DestNodeNumber : Z;
  sr_SourceNodeNumber : Z;
  sr_Kind : RequestKind
}.
(** A peer's answer; a kind that is not set reads as nil. *)
Record ServingResponse `{HubPb} := {
  sp_Error : string;
  sp_PairNodesMessage : option PairNodesMessage;
  sp_EndorserSignature : option string;
  sp_StartConnectionResponse : option StartConnectionResponse
}.

(** ** Interfaces *)

(** The clock and the buckets of the rate limiters. *)
Class RateLib := {
  bucket : Type;
  (** [rate.NewLimiter(rps, burst)] *)
  NewBucket : Z -> Z -> bucket;
  (** [Allow], at a time *)
  bucket_Allow : Time -> bucket -> bool * bucket
}.

Class BackendClient (S : Type) := {
  be_CompleteNodeRegistration : string -> ST S status CompleteNodeRegistrationResponse;
  be_AuthenticateNode : AuthenticateNodeRequest -> ST S status unit;
  be_ListNodes : string -> ST S status (list BeNode);
  be_GetRoster : string -> ST S status GetRosterResponse;
  be_GetGroupMetadata : string -> ST S status GetGroupMetadataResponse;
  be_GetTurnPolicy : string -> ST S status GetTurnPolicyResponse;
  be_UpdateRoster : UpdateRosterRequest -> ST S status unit;
  be_UpdateNodeLastSeen : string -> Z -> ST S status unit;
  be_DeregisterNode : string -> Z -> ST S status unit;
  be_LogActivity : LogActivityRequest -> ST S status unit
}.

(** [exchange]: [RouteRequest] and the [Await] of its future; either a response
    or an error, as the router's own theorems say. [connect] to
    [disconnect]: the calls of one serving stream. *)
Class RouterClient `{HubPb} (S : Type) := {
  exchange : string -> ServingRequest -> ST S status ServingResponse;
  isNodeConnected : S -> string -> Z -> bool;
  Conn : Type;
  router_connect : string -> Z -> ST S status Conn;
  router_disconnect : Conn -> S -> S;
  (** [stream.Send] of the hub's welcome *)
  stream_send : ServingRequest -> ST S status unit;
  (** [c.Run()] *)
  conn_run : Conn -> S -> S;
  conn_evicted : Conn -> S -> bool;
  (** [sharding.ShedAfterTTL(cgID, nodeNum, c.Close)]; [stopTTL()]; [shed.Load()] *)
  shed_start : string -> Z -> Conn -> S -> S;
  shed_stop : Conn -> S -> S;
  shed_load : Conn -> S -> bool;
  (** [time.Now()] *)
  clock : S -> Time * S
}.

Section hubsrv.
Context `{Crypto} `{HP : HubPb} `{RateLib} {S : Type}.
Context `{!BackendClient S} `{!RouterClient S}.

(** ** State *)

Record Limiter := { limiters : gmap string bucket; l_rate : Z; l_burst : Z }.
Definition NewLimiter (rps burst : Z) : Limiter :=
  {| limiters := ∅; l_rate := rps; l_burst := burst |}.
(** [LoadOrStore] of a fresh bucket, and its [Allow]. *)
Definition Allow (key : string) (t : Time) (l : Limiter) : bool * Limiter :=
  let val := default (NewBucket (l_rate l) (l_burst l)) (limiters l !! key) in
  let '(ok, val) := bucket_Allow t val in
  (ok, {| limiters := <[key := val]> (limiters l); l_rate := l_rate l; l_burst := l_burst l |}).

Record HubServer := {
  stunServer : string;
  turnServer : string;
  turnSecret : string;
  assignedShard : Z
}.
(** What changes: the limiters, and the backend's and router's state. *)
Record HubState := { limiter : Limiter; rest : S }.
Definition newHubState (s : S) : HubState := {| limiter := NewLimiter 2 20; rest := s |}.

(** A call on the backend or the router. *)
Definition lift {E A} (m : ST S E A) : ST HubState E A := fun h =>
  let '(s, r) := m (rest h) in ({| limiter := limiter h; rest := s |}, r).
Definition lift_pure {E} (f : S -> S) : ST HubState E unit := fun h =>
  ({| limiter := limiter h; rest := f (rest h) |}, Ok tt).
Definition read {E A} (f : S -> A) : ST HubState E A := fun h => (h, Ok (f (rest h))).
Definition time_Now {E} : ST HubState E Time := fun h =>
  let '(t, s) := clock (rest h) in ({| limiter := limiter h; rest := s |}, Ok t).
Definition limiter_Allow_at {E} (key : string) (t : Time) : ST HubState E bool := fun h =>
  let '(ok, l) := Allow key t (limiter h) in ({| limiter := l; rest := rest h |}, Ok ok).
Definition limiter_Allow {E} (key : string) : ST HubState E bool :=
  t ← time_Now; limiter_Allow_at key t.

(** ** Authentication *)

(** [getMetadataValue]. *)
Definition getMetadataValue (md : metadata) (key : string) : string :=
  match default [] (md !! key) with
  | [] => ""
  | v :: _ => v
  end.
Definition limiterKey (cgID : string) (nodeNum : Z) : string :=
  cgID +:+ ":" +:+ FormatInt nodeNum.

Definition authenticateAndRateLimit (ctx : option metadata) : ST HubState status (string * Z) :=
  match ctx with
  | None => throw (Errorf Unauthenticated "missing metadata")
  | Some md =>
      let cgID := getMetadataValue md "x-connectivity-group-id" in
      let nodeNumStr := getMetadataValue md "x-node-number" in
      let authToken := getMetadataValue md "x-auth-token" in
      if bool_decide (cgID = "") || bool_decide (nodeNumStr = "") || bool_decide (authToken = "")
      then throw (Errorf Unauthenticated "missing credentials")
      else
        match Sscanf_int32 nodeNumStr with
        | None => throw (Errorf Unauthenticated "invalid node number")
        | Some nodeNum =>
            allowed ← limiter_Allow (limiterKey cgID nodeNum);
            if negb allowed then throw (Errorf ResourceExhausted "rate limit exceeded")
            else
              _ ← lift (be_AuthenticateNode {| an_ConnectivityGroupId := cgID;
                          an_NodeNumber := nodeNum; an_AuthToken := authToken |});
              mret (cgID, nodeNum)
        end
  end.

(** Errors of the activity log are dropped. *)
Definition logActivity (cgID : string) (nodeNum : Z) (eventType : string) (success : bool)
    (details : EventDetails) : ST HubState status unit :=
  _ ← attempt (E' := status) (lift (be_LogActivity {| la_ConnectivityGroupId := cgID;
        la_NodeNumber := nodeNum; la_EventType := eventType; la_Success := success;
        la_Details := Some details |}));
  mret ().

(** ** Handlers *)

Definition CompleteNodeRegistration (token : string) :
    ST HubState status CompleteNodeRegistrationResponse :=
  lift (be_CompleteNodeRegistration token).

Definition PairNodes (ctx : option metadata) (req : PairNodesMessage) :
    ST HubState status (option PairNodesMessage) :=
  '(cgID, nodeNum) ← authenticateAndRateLimit ctx;
  resp ← lift (exchange cgID {| sr_DestNodeNumber := GetReceiverNodeNumber req;
                               sr_SourceNodeNumber := nodeNum; sr_Kind := KPairNodesMessage req |});
  if bool_decide (sp_Error resp <> "") then
    throw (Errorf FailedPrecondition ("peer rejected request: " +:+ sp_Error resp))
  else
    _ ← logActivity cgID nodeNum "activate" true (event (Activate_ (GetReceiverNodeNumber req)));
    mret (sp_PairNodesMessage resp).

(** [getEndorserCosignature]: the roster with the endorser's signature. *)
Definition getEndorserCosignature (statusText : status -> string) (cgID : string) (nodeNum : Z)
    (roster : Roster) (payload : ActivationPayload) : ST HubState status Roster :=
  answer ← attempt (lift (exchange cgID {| sr_DestNodeNumber := ap_EndorserNodeNumber payload;
             sr_SourceNodeNumber := nodeNum;
             sr_Kind := KRosterCosignRequest (ap_NewNodeNumber payload) roster |}));
  match answer with
  | Err err => throw (Errorf Unavailable ("endorser unreachable: " +:+ statusText err))
  | Ok resp =>
      if bool_decide (sp_Error resp <> "") then
        throw (Errorf FailedPrecondition ("endorser rejected: " +:+ sp_Error resp))
      else
        match sp_EndorserSignature resp with
        | None => throw (Errorf Internal "invalid cosign response")
        | Some sig => mret (set_EndorserSignature sig roster)
        end
  end.

(** [statusText] is [err.Error()]. The roster is changed in place: what is
    stored and returned carries the endorser's signature. *)
Definition UpdateRoster (statusText : status -> string) (ctx : option metadata) (newRoster : Roster) :
    ST HubState status Roster :=
  '(cgID, callerNodeNum) ← authenticateAndRateLimit ctx;
  match last (GetAddenda newRoster) with
  | None => throw (Errorf InvalidArgument "roster has no addenda")
  | Some newAddendum =>
      '(expectedVersion, roster, rosterKind) ←
        match newAddendum with
        | Activation payload =>
            if negb (callerNodeNum =? ap_NewNodeNumber payload)
            then throw (Errorf PermissionDenied "caller must be the new node")
            else
              cosigned ← getEndorserCosignature statusText cgID callerNodeNum newRoster payload;
              mret (wrap64 (ap_Version payload - 1), cosigned, "activation")
        | Revocation payload =>
            if negb (callerNodeNum =? rp_RevokerNodeNumber payload)
            then throw (Errorf PermissionDenied "caller must be the revoker")
            else mret (wrap64 (rp_Version payload - 1), newRoster, "revocation")
        | NoKind => throw (Errorf InvalidArgument "addendum has no activation or revocation")
        end;
      match Marshal_Roster roster with
      | None => throw (Errorf Internal "failed to serialize roster")
      | Some rosterBytes =>
          _ ← lift (be_UpdateRoster {| ur_ConnectivityGroupId := cgID; ur_Roster := rosterBytes;
                      ur_NewVersion := GetVersion roster; ur_ExpectedVersion := expectedVersion |});
          _ ← logActivity cgID callerNodeNum "roster_update" true (event (RosterUpdate_ rosterKind));
          mret roster
      end
  end.

Record HubNode := { hn_Node : BeNode; hn_IsOnline : bool }.
Definition ListNodes (ctx : option metadata) : ST HubState status (list HubNode) :=
  '(cgID, _) ← authenticateAndRateLimit ctx;
  ns ← lift (be_ListNodes cgID);
  read (fun s => (fun n => {| hn_Node := n;
                              hn_IsOnline := isNodeConnected s cgID (bn_NodeNumber n) |}) <$> ns).

Definition GetRoster (ctx : option metadata) : ST HubState status Roster :=
  '(cgID, _) ← authenticateAndRateLimit ctx;
  resp ← lift (be_GetRoster cgID);
  if bool_decide (gr_Roster resp = "") then mret emptyRoster
  else
    match Unmarshal_Roster (gr_Roster resp) with
    | None => throw (Errorf Internal "failed to deserialize roster")
    | Some roster => mret roster
    end.

(** Id, name and time of creation. *)
Definition GetGroupMetadata (ctx : option metadata) : ST HubState status (string * string * Z) :=
  '(cgID, _) ← authenticateAndRateLimit ctx;
  resp ← lift (be_GetGroupMetadata cgID);
  mret (cgID, gm_Name resp, gm_CreatedAtMillis resp).

Definition turnCredentialTTL : Z := 10 * Minute.
Record StunTurnConfig := {
  cfg_StunServer : string;
  cfg_TurnServer : string;
  cfg_TurnUsername : string;
  cfg_TurnPassword : string;
  cfg_ExpiresAtMillis : Z
}.
Definition stunOnly (h : HubServer) : StunTurnConfig :=
  {| cfg_StunServer := stunServer h; cfg_TurnServer := ""; cfg_TurnUsername := "";
     cfg_TurnPassword := ""; cfg_ExpiresAtMillis := 0 |}.
(** [Mint] may panic. *)
Definition GetStunTurnConfig (h : HubServer) (ctx : option metadata) :
    ST HubState status (outcome StunTurnConfig) :=
  '(cgID, _) ← authenticateAndRateLimit ctx;
  if bool_decide (turnServer h = "") then mret (Return (stunOnly h))
  else
    policy ← lift (be_GetTurnPolicy cgID);
    if negb (tp_Enabled policy) then mret (Return (stunOnly h))
    else
      t ← time_Now;
      let expiry := Truncate_Second (time_Add t turnCredentialTTL) in
      mret ('(username, password) ← Mint (turnSecret h) ("org-" +:+ tp_OrganisationId policy)
              (tp_FloorBps policy) (tp_CeilBps policy) expiry;
            Return {| cfg_StunServer := stunServer h; cfg_TurnServer := turnServer h;
                      cfg_TurnUsername := username; cfg_TurnPassword := password;
                      cfg_ExpiresAtMillis := UnixMilli expiry |}).

Definition connectionEvent (errorMessage transport : string) (peer : Z) : EventDetails :=
  {| error_message := errorMessage; event_kind := Connection_ transport peer |}.
Definition StartConnection (statusText : status -> string) (ctx : option metadata)
    (req : StartConnectionRequest) : ST HubState status (option StartConnectionResponse) :=
  '(cgID, nodeNum) ← authenticateAndRateLimit ctx;
  match signed_payload req with
  | Err e => throw (Errorf InvalidArgument ("cannot decode signed payload: " +:+ e))
  | Ok (answerer, transport) =>
      answer ← attempt (lift (exchange cgID {| sr_DestNodeNumber := answerer;
                 sr_SourceNodeNumber := nodeNum; sr_Kind := KStartConnectionRequest req |}));
      match answer with
      | Err err =>
          _ ← logActivity cgID nodeNum "start-connection" false
                (connectionEvent (statusText err) transport answerer);
          throw err
      | Ok resp =>
          if bool_decide (sp_Error resp <> "") then
            _ ← logActivity cgID nodeNum "start-connection" false
                  (connectionEvent (sp_Error resp) transport answerer);
            throw (Errorf FailedPrecondition ("peer rejected connection: " +:+ sp_Error resp))
          else
            _ ← logActivity cgID nodeNum "start-connection" true
                  (connectionEvent "" transport answerer);
            mret (sp_StartConnectionResponse resp)
      end
  end.

Definition DeregisterNode (ctx : option metadata) : ST HubState status unit :=
  '(cgID, nodeNum) ← authenticateAndRateLimit ctx;
  lift (be_DeregisterNode cgID nodeNum).

(** ** The serving stream *)

(** [defer f]: [f] runs after the rest, whichever way it ends. *)
Definition with_defer {E A} (f : S -> S) (m : ST HubState E A) : ST HubState E A := fun h =>
  let '(h', r) := m h in ({| limiter := limiter h'; rest := f (rest h') |}, r).

Definition supersededStatus : status := Errorf Aborted
  "connection superseded by a newer connection for this node; is another instance running on the same credentials?".
Definition reshardingStatus : status := Errorf Unavailable
  "resharding: this hub no longer serves this connectivity group; please reconnect".

(** Whether the stream is shed: another shard's group and a client that copes. *)
Definition sheds (h : HubServer) (minShed : version) (ctx : option metadata) (cgID : string) : bool :=
  negb (assignedShard h =? 0) && clientIsShedSafe minShed ctx &&
  negb (GetShard cgID =? assignedShard h).

(** [latency] is the time since the handler started, in microseconds. *)
Definition StartServing (h : HubServer) (minShed : version) (latency : Z) (ctx : option metadata) :
    ST HubState status unit :=
  '(cgID, nodeNum) ← authenticateAndRateLimit ctx;
  _ ← attempt (E' := status) (lift (be_UpdateNodeLastSeen cgID nodeNum));
  _ ← logActivity cgID nodeNum "connect" true (event Connect_);
  c ← lift (router_connect cgID nodeNum);
  with_defer (router_disconnect c) (
    let shed := sheds h minShed ctx cgID in
    _ ← lift_pure (if shed then shed_start cgID nodeNum c else id);
    with_defer (if shed then shed_stop c else id) (
      _ ← lift (stream_send {| sr_DestNodeNumber := 0; sr_SourceNodeNumber := 0;
                              sr_Kind := KWelcome latency |});
      _ ← lift_pure (conn_run c);
      _ ← logActivity cgID nodeNum "disconnect" true (event Disconnect_);
      superseded ← read (conn_evicted c);
      if superseded : bool then throw supersededStatus
      else
        fired ← read (shed_load c);
        if shed && fired then throw reshardingStatus else mret ())).
End hubsrv.
