(* ===== verification/HubProps.v ===== *)
(** * Correctness of the node-facing service

    Authentication before everything else, the rate limiter, roster updates,
    TURN configuration and the life of a serving stream, for every backend and
    router that has the interfaces of HubSrv.v; and the standalone backend as
    one implementation of them. *)
From S2P Require Import Prelude GoStrings GoEncoding GoTime TurnCreds Version Sharding Grpc BePb.
From S2P Require Import Attestation RosterPb Store StoreInv Platform Backend BackendSteps.
From S2P Require Import BackendProps HubSrv.
From S2P Require Routing.
Open Scope Z_scope.

(** The standalone backend behind the client interface. *)
#[export] Instance standalone_client `{Platform} `{Crypto} `{JwtLib} (b : Backend) :
    BackendClient World := {
  be_CompleteNodeRegistration := Backend.CompleteNodeRegistration b;
  be_AuthenticateNode := Backend.AuthenticateNode;
  be_ListNodes := Backend.ListNodes;
  be_GetRoster := Backend.GetRoster;
  be_GetGroupMetadata := Backend.GetGroupMetadata b;
  be_GetTurnPolicy := Backend.GetTurnPolicy b;
  be_UpdateRoster := Backend.UpdateRoster;
  be_UpdateNodeLastSeen := Backend.UpdateNodeLastSeen;
  be_DeregisterNode := Backend.DeregisterNode;
  be_LogActivity := Backend.LogActivity
}.

Section hub_lemmas.
Context `{Crypto} `{HP : HubPb} `{RateLib} {S : Type}.
Context `{!BackendClient S} `{!RouterClient S}.
Implicit Types (h : HubState (S := S)).

Lemma lift_Ok {E A} (m : ST S E A) h h' a :
  lift m h = (h', Ok a) <-> m (rest h) = (rest h', Ok a) /\ limiter h' = limiter h.
Proof.
  unfold lift. destruct (m (rest h)) as [s r]. destruct h' as [l s']. cbn. split.
  - by intros [= <- -> ->].
  - by intros [[= -> ->] ->].
Qed.

Lemma attempt_no_Err {E A} (m : ST (HubState (S := S)) E A) h h' (e : status) :
  attempt m h <> (h', Err e).
Proof. unfold attempt. by destruct (m h). Qed.
Lemma logActivity_no_Err cg n ty ok details h h' e :
  logActivity cg n ty ok details h <> (h', Err e).
Proof. unfold logActivity. by intros [?%attempt_no_Err|(? & ? & _ & [=])]%ST_bind_Err. Qed.
Lemma with_defer_inv {E A} (f : S -> S) (m : ST HubState E A) h h' r :
  with_defer f m h = (h', r) -> exists h1, m h = (h1, r) /\ rest h' = f (rest h1).
Proof. unfold with_defer. destruct (m h) as [h1 r1]. intros [= <- <-]. by exists h1. Qed.

(** Keys of the limiter are told apart by group and by number. *)
Lemma limiterKey_parts cg n cg' n' :
  limiterKey cg n = limiterKey cg' n' -> cg = cg' /\ FormatInt n = FormatInt n'.
Proof.
  unfold limiterKey. intros Heq.
  assert (forall s t c c', has_byte ":" c = false -> has_byte ":" c' = false ->
    s +:+ ":" +:+ c = t +:+ ":" +:+ c' -> s = t /\ c = c') as Hsplit.
  { induction s as [|x s IH]; intros [|y t] c c' Hc Hc' Hx.
    - by injection Hx.
    - exfalso. rewrite str_app_cons in Hx. injection Hx as <- Hx.
      change ("" +:+ c) with c in Hx. rewrite Hx, has_byte_app in Hc. cbn in Hc. by rewrite orb_true_r in Hc.
    - exfalso. rewrite str_app_cons in Hx. injection Hx as -> Hx.
      change ("" +:+ c') with c' in Hx. rewrite <-Hx, has_byte_app in Hc'. cbn in Hc'. by rewrite orb_true_r in Hc'.
    - rewrite !str_app_cons in Hx. injection Hx as -> Hx.
      by destruct (IH t c c' Hc Hc' Hx) as [-> ->]. }
  apply Hsplit; [by apply FormatInt_no_colon..|done].
Qed.
Lemma limiterKey_inj cg n cg' n' :
  int64_ok n = true -> int64_ok n' = true ->
  limiterKey cg n = limiterKey cg' n' -> cg = cg' /\ n = n'.
Proof. intros Hn Hn' [-> Hf]%limiterKey_parts. split; [done|]. by apply FormatInt_inj64. Qed.
End hub_lemmas.

Section properties.
Context `{Crypto} `{HP : HubPb} `{RateLib} {S : Type}.
Context `{!BackendClient S} `{!RouterClient S}.
Implicit Types (h : HubState (S := S)).

(** A call is authenticated before anything else happens: whenever the
    check of its metadata, its rate limit and its credentials fails, each
    handler answers with that very status and in the state the check left. *)
Theorem authentication_first ctx h h' e :
  authenticateAndRateLimit ctx h = (h', Err e) ->
  (forall req, PairNodes ctx req h = (h', Err e)) /\
  (forall text roster, UpdateRoster text ctx roster h = (h', Err e)) /\
  ListNodes ctx h = (h', Err e) /\ GetRoster ctx h = (h', Err e) /\
  GetGroupMetadata ctx h = (h', Err e) /\
  (forall srv, GetStunTurnConfig srv ctx h = (h', Err e)) /\
  (forall text req, StartConnection text ctx req h = (h', Err e)) /\
  DeregisterNode ctx h = (h', Err e) /\
  (forall srv v lat, StartServing srv v lat ctx h = (h', Err e)).
Proof.
  intros Hauth.
  unfold PairNodes, UpdateRoster, ListNodes, GetRoster, GetGroupMetadata, GetStunTurnConfig,
    StartConnection, DeregisterNode, StartServing, mbind, ST_bind.
  by rewrite Hauth.
Qed.

(** A caller is taken for node [n] of group [cg] only if it claims to be
    that node, the limiter of that very identity allows the call, and the
    backend then accepts the credentials it presents; and when the limiter
    refuses, the backend is not asked. *)
Theorem authentication_sound ctx h h' cg n :
  authenticateAndRateLimit ctx h = (h', Ok (cg, n)) ->
  exists md nodeNum token,
    ctx = Some md /\ getMetadataValue md "x-connectivity-group-id" = cg /\ cg <> "" /\
    getMetadataValue md "x-node-number" = nodeNum /\ Sscanf_int32 nodeNum = Some n /\
    getMetadataValue md "x-auth-token" = token /\ token <> "" /\
    let '(t, s1) := clock (rest h) in
    Allow (limiterKey cg n) t (limiter h) = (true, limiter h') /\
    be_AuthenticateNode {| an_ConnectivityGroupId := cg; an_NodeNumber := n; an_AuthToken := token |} s1
      = (rest h', Ok tt).
Proof.
  unfold authenticateAndRateLimit. destruct ctx as [md|]; [|done].
  destruct (bool_decide_reflect (getMetadataValue md "x-connectivity-group-id" = "")); [done|].
  destruct (bool_decide_reflect (getMetadataValue md "x-node-number" = "")); [done|].
  destruct (bool_decide_reflect (getMetadataValue md "x-auth-token" = "")); [done|]. cbn [orb].
  destruct (Sscanf_int32 _) as [nodeNum|] eqn:Hn; [|done].
  unfold limiter_Allow. intros (h1 & allowed & Hall & Hb)%ST_bind_Ok.
  apply ST_bind_Ok in Hall as (h2 & t & Ht & Hall). unfold time_Now in Ht.
  destruct (clock (rest h)) as [t' s1] eqn:Hclock. injection Ht as <- <-.
  unfold limiter_Allow_at in Hall. cbn in Hall.
  destruct (Allow _ t' (limiter h)) as [ok l] eqn:Hallow. injection Hall as <- <-.
  destruct ok; [|done]. cbn [negb] in Hb.
  apply ST_bind_Ok in Hb as (h3 & [] & [Hbe Hl]%lift_Ok & [= <- <- <-]). cbn in Hbe, Hl.
  exists md, (getMetadataValue md "x-node-number"), (getMetadataValue md "x-auth-token").
  split_and!; try done. by rewrite Hallow, Hl.
Qed.

(** Node identities have independent limiters: a call by one identity
    changes neither the answer nor the later state that another identity gets,
    and two identities share a key only if they are equal. *)
Theorem limiter_isolation cg n cg' n' t t' (l : Limiter) :
  int64_ok n = true -> int64_ok n' = true -> (cg, n) <> (cg', n') ->
  fst (Allow (limiterKey cg' n') t' (snd (Allow (limiterKey cg n) t l))) =
    fst (Allow (limiterKey cg' n') t' l) /\
  limiters (snd (Allow (limiterKey cg n) t l)) !! limiterKey cg' n' = limiters l !! limiterKey cg' n'.
Proof.
  intros Hn Hn' Hne.
  assert (limiterKey cg n <> limiterKey cg' n') as Hk.
  { intros [-> ->]%limiterKey_inj; done. }
  assert (limiters (snd (Allow (limiterKey cg n) t l)) !! limiterKey cg' n' =
    limiters l !! limiterKey cg' n') as Hl.
  { unfold Allow. destruct (bucket_Allow _ _) as [ok b]. cbn. by rewrite lookup_insert_ne. }
  split; [|exact Hl]. unfold Allow at 1. rewrite Hl. unfold Allow.
  destruct (bucket_Allow t _) as [ok b]. cbn. by destruct (bucket_Allow t' _).
Qed.

(** The node that may add an addendum, and the version before it. *)
Definition addendum_author (a : AddendumKind) : option (Z * Z) :=
  match a with
  | Activation p => Some (ap_NewNodeNumber p, wrap64 (ap_Version p - 1))
  | Revocation p => Some (rp_RevokerNodeNumber p, wrap64 (rp_Version p - 1))
  | NoKind => None
  end.
(** A roster with the endorser's signature, if the endorser gave one. *)
Definition cosigned (r : Roster) (answer : result status ServingResponse) : option Roster :=
  match answer with
  | Ok resp =>
      if bool_decide (sp_Error resp = "")
      then (fun sig => set_EndorserSignature sig r) <$> sp_EndorserSignature resp
      else None
  | Err _ => None
  end.
Lemma cosign_cases text cg caller r p h :
  let '(s, answer) := exchange cg {| sr_DestNodeNumber := ap_EndorserNodeNumber p;
    sr_SourceNodeNumber := caller; sr_Kind := KRosterCosignRequest (ap_NewNodeNumber p) r |} (rest h) in
  exists res, getEndorserCosignature text cg caller r p h =
    ({| limiter := limiter h; rest := s |}, res) /\
    match cosigned r answer with Some r' => res = Ok r' | None => exists e, res = Err e end.
Proof.
  unfold getEndorserCosignature, attempt, lift, mbind, ST_bind. destruct (exchange _ _ _) as [s [resp|e]].
  - unfold cosigned. destruct (decide (sp_Error resp = "")) as [He|He].
    + rewrite (bool_decide_false (_ <> _)), bool_decide_true by (done || by intros []).
      destruct (sp_EndorserSignature resp); eexists; (split; [reflexivity|]); [done|by eexists].
    + rewrite (bool_decide_true (_ <> _)), bool_decide_false by done.
      eexists; split; [reflexivity|by eexists].
  - eexists. split; [reflexivity|]. by eexists.
Qed.

(** C24. A roster update, from its start to its end, on every branch. It is
    refused by the authentication; or the last addendum does not name the caller
    (the new node of an activation, the revoker of a revocation), and then
    nothing but the authentication has happened; or the roster to store is the
    caller's, for an activation the one the endorser signed over the router; if
    there is none, or it has no bytes, nothing has happened but the endorser's
    request, and the caller gets an error. Otherwise the backend is asked, once,
    to replace the version before the addendum's with it; the call ends as the
    backend answers, and after the backend only the activity log has run. *)
Theorem update_roster_sound text ctx newRoster h h' r :
  UpdateRoster text ctx newRoster h = (h', r) ->
  (exists e, r = Err e /\ authenticateAndRateLimit ctx h = (h', Err e)) \/
  exists h1 cg caller, authenticateAndRateLimit ctx h = (h1, Ok (cg, caller)) /\
  match a ← last (GetAddenda newRoster); v ← addendum_author a; Some (a, v) with
  | None => h' = h1 /\ exists e, r = Err e /\ status_code e = InvalidArgument
  | Some (a, (author, expected)) =>
    if negb (caller =? author)
    then h' = h1 /\ exists e, r = Err e /\ status_code e = PermissionDenied
    else
      let '(s2, signed) :=
        match a with
        | Activation p =>
            let '(s, answer) := exchange cg {| sr_DestNodeNumber := ap_EndorserNodeNumber p;
              sr_SourceNodeNumber := caller;
              sr_Kind := KRosterCosignRequest author newRoster |} (rest h1) in
            (s, cosigned newRoster answer)
        | _ => (rest h1, Some newRoster)
        end in
      match roster ← signed; bytes ← Marshal_Roster roster; Some (roster, bytes) with
      | None => h' = {| limiter := limiter h1; rest := s2 |} /\ exists e, r = Err e
      | Some (roster, bytes) =>
        let '(s3, stored) := be_UpdateRoster {| ur_ConnectivityGroupId := cg; ur_Roster := bytes;
          ur_NewVersion := GetVersion roster; ur_ExpectedVersion := expected |} s2 in
        match stored with
        | Err e => h' = {| limiter := limiter h1; rest := s3 |} /\ r = Err e
        | Ok _ => r = Ok roster /\ exists kind, logActivity cg caller "roster_update" true
            (event (RosterUpdate_ kind)) {| limiter := limiter h1; rest := s3 |} = (h', Ok tt)
        end
      end
  end.
Proof.
  unfold UpdateRoster.
  intros [(e & Hauth & ->)|(h1 & [cg caller] & Hauth & Hb)]%ST_bind_cases; [by left; eauto|right].
  exists h1, cg, caller. split; [done|].
  assert (forall expected (h2 : S) (roster : Roster) kind,
    (match Marshal_Roster roster with
     | None => throw (Errorf Internal "failed to serialize roster")
     | Some rosterBytes =>
         _ ← lift (be_UpdateRoster {| ur_ConnectivityGroupId := cg; ur_Roster := rosterBytes;
                     ur_NewVersion := GetVersion roster; ur_ExpectedVersion := expected |});
         _ ← logActivity cg caller "roster_update" true (event (RosterUpdate_ kind));
         mret roster
     end : ST (HubState (S := S)) status Roster) {| limiter := limiter h1; rest := h2 |} = (h', r) ->
    match bytes ← Marshal_Roster roster; Some (roster, bytes) with
    | None => h' = {| limiter := limiter h1; rest := h2 |} /\ exists e, r = Err e
    | Some (roster, bytes) =>
      let '(s3, stored) := be_UpdateRoster {| ur_ConnectivityGroupId := cg; ur_Roster := bytes;
        ur_NewVersion := GetVersion roster; ur_ExpectedVersion := expected |} h2 in
      match stored with
      | Err e => h' = {| limiter := limiter h1; rest := s3 |} /\ r = Err e
      | Ok _ => r = Ok roster /\ exists kind, logActivity cg caller "roster_update" true
          (event (RosterUpdate_ kind)) {| limiter := limiter h1; rest := s3 |} = (h', Ok tt)
      end
    end) as Hstore.
  { intros expected h2 roster kind. destruct (Marshal_Roster roster) as [bytes|]; cbn;
      [|intros [= <- <-]; split; [done|by eexists]].
    unfold lift at 1, mbind at 1, ST_bind at 1. cbn [rest limiter].
    destruct (be_UpdateRoster _ h2) as [s3 [[]|e]]; [|by intros [= <- <-]].
    intros [(e & Hlog & _)|(h4 & [] & Hlog & [= <- <-])]%ST_bind_cases; [by apply logActivity_no_Err in Hlog|].
    split; [done|by exists kind]. }
  destruct (last (GetAddenda newRoster)) as [[p|p|]|]; cbn; try (injection Hb as <- <-; split; [done|by eexists]).
  - destruct (caller =? ap_NewNodeNumber p); cbn in Hb |- *; [|injection Hb as <- <-; split; [done|by eexists]].
    pose proof (cosign_cases text cg caller newRoster p h1) as Hcos.
    destruct (exchange _ _ _) as [s answer]. destruct Hcos as (res & Hcos & Hres).
    unfold mbind, ST_bind in Hb. rewrite Hcos in Hb.
    destruct (cosigned newRoster answer) as [roster|]; cbn in *; [subst res; by apply Hstore in Hb|].
    destruct Hres as [e ->]. injection Hb as <- <-. split; [done|by eexists].
  - destruct (caller =? rp_RevokerNodeNumber p); cbn in Hb |- *; [|injection Hb as <- <-; split; [done|by eexists]].
    unfold mbind, ST_bind in Hb. cbn in Hb. destruct h1 as [l s1]. by apply Hstore in Hb.
Qed.

Lemma time_ok_truncate t d : time_ok (Truncate_Second (time_Add t d)).
Proof. split; cbn; [apply int64_ok_true; lia|unfold Second; lia]. Qed.
Lemma wrap64_mul a k : wrap64 (wrap64 a * k) = wrap64 (a * k).
Proof.
  destruct (wrap64_ex a) as [q ->].
  replace ((a + q * 2 ^ 64) * k) with (a * k + (q * k) * 2 ^ 64) by lia. apply wrap64_add_mod.
Qed.
Lemma UnixMilli_whole t : nsec t = 0 -> UnixMilli t = wrap64 (Unix t * 1000).
Proof. intros Hn. unfold UnixMilli, Unix. by rewrite wrap64_mul, Hn, Z.add_0_r. Qed.

(** C28. The TURN configuration of an authenticated caller, on every branch:
    without a TURN server, and only then or when the policy of the caller's own
    group disables TURN, just the STUN server is reported; if the policy cannot
    be read the caller gets that error. Otherwise the credentials verify to the
    organisation and the rates of that policy and to an expiry ten minutes after
    the clock was read, cut to the second, which is also the expiry that is
    reported in milliseconds. Minting panics exactly for an organisation id with
    a colon. *)
Theorem turn_config_verifies srv ctx h h' r :
  (forall cg s s' p, be_GetTurnPolicy cg s = (s', Ok p) ->
     int64_ok (tp_FloorBps p) = true /\ int64_ok (tp_CeilBps p) = true) ->
  GetStunTurnConfig srv ctx h = (h', r) ->
  (exists e, r = Err e /\ authenticateAndRateLimit ctx h = (h', Err e)) \/
  exists h1 cg n, authenticateAndRateLimit ctx h = (h1, Ok (cg, n)) /\
  if bool_decide (turnServer srv = "") then h' = h1 /\ r = Ok (Return (stunOnly srv))
  else
    let '(s2, policy) := be_GetTurnPolicy cg (rest h1) in
    match policy with
    | Err e => h' = {| limiter := limiter h1; rest := s2 |} /\ r = Err e
    | Ok p =>
      if negb (tp_Enabled p)
      then h' = {| limiter := limiter h1; rest := s2 |} /\ r = Ok (Return (stunOnly srv))
      else
        let '(t, s3) := clock s2 in
        let expiry := Truncate_Second (time_Add t (10 * Minute)) in
        h' = {| limiter := limiter h1; rest := s3 |} /\ exists out, r = Ok out /\
        match out with
        | Return cfg => has_byte ":" (tp_OrganisationId p) = false /\
            cfg_StunServer cfg = stunServer srv /\ cfg_TurnServer cfg = turnServer srv /\
            cfg_ExpiresAtMillis cfg = wrap64 (Unix expiry * 1000) /\
            Verify (turnSecret srv) (cfg_TurnUsername cfg) (cfg_TurnPassword cfg) =
              credentialSpec ("org-" +:+ tp_OrganisationId p) (tp_FloorBps p) (tp_CeilBps p) expiry
        | Panic _ => has_byte ":" (tp_OrganisationId p) = true
        end
    end.
Proof.
  intros Hint. unfold GetStunTurnConfig.
  intros [(e & Hauth & ->)|(h1 & [cg n] & Hauth & Hb)]%ST_bind_cases; [by left; eauto|right].
  exists h1, cg, n. split; [done|].
  destruct (bool_decide (turnServer srv = "")); [by injection Hb as <- <-|].
  unfold mbind, ST_bind, lift in Hb. destruct (be_GetTurnPolicy cg (rest h1)) as [s2 [p|e]] eqn:Hp;
    [|by injection Hb as <- <-].
  destruct (negb (tp_Enabled p)); [by injection Hb as <- <-|]. unfold time_Now in Hb. cbn [rest limiter] in Hb.
  destruct (clock s2) as [t s3]. cbv zeta. fold turnCredentialTTL. injection Hb as <- <-. split; [done|].
  eexists. split; [done|]. set (expiry := Truncate_Second (time_Add t turnCredentialTTL)) in *.
  destruct (Hint _ _ _ _ Hp) as [Hf Hc].
  pose proof (Mint_Verify (turnSecret srv) ("org-" +:+ tp_OrganisationId p) (tp_FloorBps p)
    (tp_CeilBps p) expiry Hf Hc (time_ok_truncate _ _)) as Hmint.
  destruct (Mint _ _ _ _ expiry) as [[username password]|msg]; cbn.
  - destruct Hmint as (_ & Hcolon & Hv). rewrite has_byte_app in Hcolon.
    split_and!; [done|done|done|by apply UnixMilli_whole|apply Hv].
  - destruct Hmint as [[=]|Hcolon]. by rewrite has_byte_app in Hcolon.
Qed.

(** Every serving stream that was connected ends by disconnecting exactly
    its connector, whichever way it ends: a failed welcome, eviction by a newer
    connection, shedding or an ordinary end; eviction is reported before
    shedding, and shedding only if the group belongs to another shard and the
    client is recent enough. *)
Theorem serving_disconnects srv v lat ctx h h' r :
  StartServing srv v lat ctx h = (h', r) ->
  (exists e, r = Err e /\ (authenticateAndRateLimit ctx h = (h', Err e) \/
     exists cg n h1, router_connect cg n (rest h1) = (rest h', Err e))) \/
  exists h1 cg n s2 s3 c s4, authenticateAndRateLimit ctx h = (h1, Ok (cg, n)) /\
    router_connect cg n s2 = (s3, Ok c) /\ rest h' = router_disconnect c s4 /\
    (r = Ok tt \/ (exists s5 s6 e, stream_send {| sr_DestNodeNumber := 0; sr_SourceNodeNumber := 0;
         sr_Kind := KWelcome lat |} s5 = (s6, Err e) /\ r = Err e) \/
     exists s5, (conn_evicted c s5 = true /\ r = Err supersededStatus) \/
       (conn_evicted c s5 = false /\ shed_load c s5 = true /\ sheds srv v ctx cg = true /\
        r = Err reshardingStatus)).
Proof.
  unfold StartServing.
  intros [(e & Hauth & ->)|(h1 & [cg n] & Hauth & Hb)]%ST_bind_cases; [by left; eauto|].
  apply ST_bind_cases in Hb as [(e & Hatt & _)|(h2 & ru & _ & Hb)]; [by apply attempt_no_Err in Hatt|].
  apply ST_bind_cases in Hb as [(e & Hlog & _)|(h3 & [] & _ & Hb)]; [by apply logActivity_no_Err in Hlog|].
  apply ST_bind_cases in Hb as [(e & Hc & ->)|(h4 & c & Hc & Hb)].
  { left. exists e. split; [done|]. right. exists cg, n, h3. revert Hc. unfold lift.
    destruct (router_connect _ _ _) as [s [|]]; [done|]. by intros [= <- <-]. }
  right. apply lift_Ok in Hc as [Hc _]. apply with_defer_inv in Hb as (h5 & Hb & Hrest).
  exists h1, cg, n, (rest h3), (rest h4), c, (rest h5). split_and!; try done.
  apply ST_bind_cases in Hb as [(e & [=] & _)|(h6 & [] & _ & Hb)].
  apply with_defer_inv in Hb as (h7 & Hb & _).
  apply ST_bind_cases in Hb as [(e & Hsend & ->)|(h8 & [] & _ & Hb)].
  { right; left. revert Hsend. unfold lift. destruct (stream_send _ _) as [s [|e']] eqn:Hs; [done|].
    intros [= <- ->]. by eexists _, _, _. }
  apply ST_bind_cases in Hb as [(e & [=] & _)|(h9 & [] & _ & Hb)].
  apply ST_bind_cases in Hb as [(e & Hlog & _)|(h10 & [] & _ & Hb)]; [by apply logActivity_no_Err in Hlog|].
  apply ST_bind_cases in Hb as [(e & [=] & _)|(h11 & ev & [= <- <-] & Hb)].
  destruct (conn_evicted c (rest h10)) eqn:Hev.
  { injection Hb as <- <-. right; right. exists (rest h10). by left. }
  apply ST_bind_cases in Hb as [(e & [=] & _)|(h12 & fired & [= <- <-] & Hb)].
  destruct (sheds srv v ctx cg) eqn:Hsh; cbn [andb] in Hb; [|injection Hb as <- <-; by left].
  destruct (shed_load c (rest h10)) eqn:Hload; injection Hb as <- <-; [|by left].
  right; right. exists (rest h10). by right.
Qed.
End properties.

(** * Spellings of a group id *)
Section spelling.
Context `{Platform} `{Crypto} `{JwtLib} `{Routing.RoutingPb}.

(** The hub keys its limiters and its router by the group id as the client
    spells it, while the backend accepts every spelling [uuid.Parse] does: a
    node that spells its group id differently is authenticated alike, but is
    given another rate limiter, and its connection is not seen under the other
    spelling. *)
Theorem identity_not_canonical raw1 raw2 id n tok w :
  uuid_Parse raw1 = Some id -> uuid_Parse raw2 = Some id -> raw1 <> raw2 -> int64_ok n = true ->
  Backend.AuthenticateNode {| an_ConnectivityGroupId := raw1; an_NodeNumber := n; an_AuthToken := tok |} w =
  Backend.AuthenticateNode {| an_ConnectivityGroupId := raw2; an_NodeNumber := n; an_AuthToken := tok |} w /\
  limiterKey raw1 n <> limiterKey raw2 n /\
  forall (r r' : Routing.Router) c n', Routing.Connect raw1 n r = Return (c, r') ->
    Routing.IsNodeConnected raw2 n' r' = Routing.IsNodeConnected raw2 n' r.
Proof.
  intros H1' H2' Hne Hn. split_and!.
  - unfold Backend.AuthenticateNode, parseGroupID. cbn [an_ConnectivityGroupId]. by rewrite H1', H2'.
  - by intros [-> _]%limiterKey_inj.
  - intros r r' c n'. unfold Routing.Connect, Routing.on_group, Routing.findOrCreateGroup,
      Routing.IsNodeConnected, Routing.Router in *.
    destruct (r !! raw1) as [g|].
    + destruct (Routing.connect n g) as [[c' g']|]; cbn; [|done]. intros [= <- <-].
      by rewrite lookup_insert_ne.
    + destruct (Routing.connect n _) as [[c' g']|]; cbn; [|done]. intros [= <- <-].
      by rewrite !lookup_insert_ne.
Qed.
End spelling.
