(* ===== verification/RouterSpec.v ===== *)
(** * What the router promises: a table of sessions and requests

    An abstract specification of connect/hub/routing.go. The table holds the
    sessions (one per [connect]), the node each current session serves, and
    the requests in the order in which they were numbered, with what has become
    of each. There are no mutex, no channels, no futures and no map of ids.
    [exec_refines]: every action of the interleaved router is one operation of
    the table, or does not show in it, as long as the 64-bit counter has not
    wrapped; [router_refines_table] lifts this to whole runs. *)
From S2P Require Import Prelude GoStrings Grpc Routing RoutingSteps RoutingProps.
Open Scope Z_scope.

(** * The specification *)
Section spec.
Context `{RoutingPb}.

(** What has become of a request: numbered, given to a session, taken by the
    session's sender, waiting for its answer, or settled. *)
Inductive progress :=
| Submitted
| Assigned (session : nat)
| Handed
| Pending
| Answered (resp : ServingResponse)
| Failed (err : status).
Record Request := { rq_node : Z; rq_progress : progress }.
Record Session := { s_node : Z; s_ended : bool }.
Record Table := {
  online : gmap Z nat;
  sessions : list Session;
  requests : list Request
}.
Definition emptyTable : Table := {| online := ∅; sessions := []; requests := [] |}.

(** The id of the request at an index. *)
Definition request_id (t : nat) : Z := wrap64 (Z.of_nat t + 1).

Definition is_pending (rq : Request) : bool :=
  match rq_progress rq with Pending => true | _ => false end.
Definition advance (p : progress) (rq : Request) : Request :=
  {| rq_node := rq_node rq; rq_progress := p |}.
Definition advance_at (t : nat) (p : progress) (T : Table) : Table :=
  {| online := online T; sessions := sessions T;
     requests := alter (advance p) t (requests T) |}.

(** The requests pending at a node fail. *)
Definition drop_request (n : Z) (rq : Request) : Request :=
  if is_pending rq && (rq_node rq =? n)
  then advance (Failed (nodeMessage "disconnected" n)) rq else rq.
(** A response settles the pending request it names. *)
Definition answer_request (resp : ServingResponse) (t : nat) (rq : Request) : Request :=
  if is_pending rq && (request_id t =? resp_GetRequestId resp)
  then advance (Answered resp) rq else rq.
Definition end_session (c : nat) (l : list Session) : list Session :=
  alter (fun x => {| s_node := s_node x; s_ended := true |}) c l.

Inductive op :=
| Submit (n : Z)
| Assign (t : nat)
| HandOver (t : nat)
| GiveUp (t : nat)
| Await_answer (t : nat)
| Attach (n : Z)
| Detach (c : nat)
| Answer (resp : ServingResponse)
| End (c : nat).

Definition apply (o : op) (T : Table) : option Table :=
  match o with
  | Submit n =>
      Some {| online := online T; sessions := sessions T;
              requests := requests T ++ [{| rq_node := n; rq_progress := Submitted |}] |}
  | Assign t =>
      rq ← requests T !! t;
      match rq_progress rq with
      | Submitted =>
          Some (advance_at t
            (match online T !! rq_node rq with
             | Some c => Assigned c
             | None => Failed (nodeMessage "is not connected" (rq_node rq))
             end) T)
      | _ => None
      end
  | HandOver t =>
      rq ← requests T !! t;
      match rq_progress rq with
      | Assigned _ => Some (advance_at t Handed T)
      | _ => None
      end
  | GiveUp t =>
      rq ← requests T !! t;
      match rq_progress rq with
      | Assigned c =>
          x ← sessions T !! c;
          if s_ended x then Some (advance_at t (Failed (nodeMessage "disconnected" (s_node x))) T)
          else None
      | _ => None
      end
  | Await_answer t =>
      rq ← requests T !! t;
      match rq_progress rq with
      | Handed => Some (advance_at t Pending T)
      | _ => None
      end
  | Attach n =>
      let c := length (sessions T) in
      let fresh := sessions T ++ [{| s_node := n; s_ended := false |}] in
      Some match online T !! n with
           | Some p => {| online := <[n := c]> (online T); sessions := end_session p fresh;
                          requests := drop_request n <$> requests T |}
           | None => {| online := <[n := c]> (online T); sessions := fresh;
                        requests := requests T |}
           end
  | Detach c =>
      x ← sessions T !! c;
      Some (if decide (online T !! s_node x = Some c)
            then {| online := delete (s_node x) (online T); sessions := sessions T;
                    requests := drop_request (s_node x) <$> requests T |}
            else T)
  | Answer resp =>
      Some (if is_CheckIn resp then T
            else {| online := online T; sessions := sessions T;
                    requests := imap (answer_request resp) (requests T) |})
  | End c =>
      _ ← sessions T !! c;
      Some {| online := online T; sessions := end_session c (sessions T); requests := requests T |}
  end.
Fixpoint apply_all (os : list op) (T : Table) : option Table :=
  match os with
  | [] => Some T
  | o :: os => T ← apply o T; apply_all os T
  end.

(** * The router as a table *)

Definition view_future (fr : FutureResponse) : progress :=
  match f_resp fr, f_err fr with
  | Some r, _ => Answered r
  | None, Some e => Failed e
  | None, None => Pending
  end.
Definition view (st : list FutureResponse) (pc : routePC) : Request :=
  {| rq_node := GetDestNodeNumber (pc_req pc);
     rq_progress :=
       match pc with
       | Numbered _ => Submitted
       | Found _ _ c => Assigned c
       | Sent _ _ => Handed
       | Returned _ f =>
           match st !! f with
           | Some fr => view_future fr
           | None => Pending
           end
       end |}.
Definition view_conn (c : Connector) : Session :=
  {| s_node := c_nodeNum c; s_ended := cancelled c |}.
(** A [connect] counts from the moment it has cancelled the previous connector. *)
Definition table (s : Sys) : Table :=
  {| online := match connecting s with
               | Some (n, c, _) => <[n := c]> (connectors (grp s))
               | None => connectors (grp s)
               end;
     sessions := view_conn <$> connStore (grp s);
     requests := view (futStore (grp s)) <$> callers s |}.

(** The operation an action is, if any. *)
Definition op_of (a : action) : option op :=
  match a with
  | ANumber req => Some (Submit (GetDestNodeNumber req))
  | ALookup t => Some (Assign t)
  | ASend t handOver => Some (HandOver t)
  | ASend t contextDone => Some (GiveUp t)
  | ARegister t => Some (Await_answer t)
  | AConnect n => Some (Attach n)
  | ADisconnect c => Some (Detach c)
  | AResponse resp => Some (Answer resp)
  | ACancel c | ASendReturns c false => Some (End c)
  | AConnected | ARun _ | ASendReturns _ true | ASenderDone _ => None
  end.
Definition apply_visible (o : option op) (T : Table) : option Table :=
  match o with Some o => apply o T | None => Some T end.

(** An open future of a caller that has returned is in the map under the
    caller's id. *)
Definition registered (s : Sys) : Prop :=
  forall t req f fr, callers s !! t = Some (Returned req f) ->
    futStore (grp s) !! f = Some fr -> f_done fr = false ->
    futures (grp s) !! GetRequestId req = Some f.
Record good (s : Sys) : Prop := {
  good_inv : inv s;
  good_numbered : numbered s;
  good_registered : registered s
}.
Definition few (s : Sys) : Prop := Z.of_nat (length (callers s)) <= 2 ^ 64.
End spec.

(** * Lemmas *)
Section lemmas.
Context `{RoutingPb}.
Implicit Types (s : Sys) (st : list FutureResponse) (th : list routePC).

(** A view reads the future of a caller that has returned, nothing else. *)
Lemma view_same st st' pc :
  (forall req f, pc = Returned req f -> st' !! f = st !! f) -> view st' pc = view st pc.
Proof. intros Hf. unfold view. f_equal. destruct pc; [done..|]. by rewrite (Hf _ _ eq_refl). Qed.

(** One caller moves on, the others keep what they have. *)
Lemma view_insert st st' th t pc pc' p :
  th !! t = Some pc -> view st' pc' = advance p (view st pc) ->
  (forall t' req f, t' <> t -> th !! t' = Some (Returned req f) -> st' !! f = st !! f) ->
  view st' <$> <[t := pc']> th = alter (advance p) t (view st <$> th).
Proof.
  intros Ht Hv Hother. apply list_eq. intros i. rewrite list_lookup_fmap.
  destruct (decide (t = i)) as [<-|Hne].
  - rewrite list_lookup_insert_eq by by eapply lookup_lt_Some.
    rewrite list_lookup_alter_eq, list_lookup_fmap, Ht. cbn. by rewrite Hv.
  - rewrite list_lookup_insert_ne, list_lookup_alter_ne, list_lookup_fmap by done.
    destruct (th !! i) as [pc1|] eqn:Hi; [|done]. cbn. f_equal. apply view_same.
    intros req f ->. by eapply Hother.
Qed.
Lemma view_map st st' th F :
  (forall pc, pc ∈ th -> view st' pc = F (view st pc)) -> view st' <$> th = F <$> (view st <$> th).
Proof.
  intros Hv. rewrite <-list_fmap_compose. apply list_fmap_ext. intros i pc Hi. cbn.
  apply Hv. by eapply list_elem_of_lookup_2.
Qed.

(** Ids are the callers' positions, and differ. *)
Lemma caller_id s t pc : numbered s -> callers s !! t = Some pc -> GetRequestId (pc_req pc) = request_id t.
Proof. intros [_ Hn]. apply Hn. Qed.
Lemma caller_id_inj s t1 t2 pc1 pc2 :
  numbered s -> few s -> callers s !! t1 = Some pc1 -> callers s !! t2 = Some pc2 ->
  GetRequestId (pc_req pc1) = GetRequestId (pc_req pc2) -> t1 = t2.
Proof.
  intros [_ Hn] Hlen H1 H2. rewrite (Hn _ _ H1), (Hn _ _ H2). unfold few in Hlen.
  apply lookup_lt_Some in H1, H2. intros Heq%wrap64_inj; lia.
Qed.

(** Clearing a node fails the pending requests of that node in every view. *)
Lemma view_clear s n t pc :
  good s -> callers s !! t = Some pc ->
  view (futStore (clear n (grp s))) pc = drop_request n (view (futStore (grp s)) pc).
Proof.
  intros [[Hf _ _] _ Hreg] Ht. destruct pc as [req|req f c|req f|req f]; [done..|].
  destruct (fi_private _ _ _ Hf _ _ _ Ht eq_refl) as (fr & Hfr & Hn & _). cbn in Hn.
  pose proof (fi_ok _ _ _ Hf _ _ Hfr) as Hok. unfold future_ok in Hok.
  unfold view. cbn [pc_req]. rewrite Hfr. destruct (f_done fr) eqn:Hd.
  - rewrite clear_store_miss, Hfr.
    + unfold drop_request, is_pending, view_future. cbn.
      destruct Hok as [[[r ->] _]|[-> [e ->]]]; done.
    + intros k Hk. destruct (fi_registered _ _ _ Hf _ _ Hk) as ((fr' & ? & ?) & _). congruence.
  - destruct Hok as [Hr He]. pose proof (Hreg _ _ _ _ Ht Hfr Hd) as Hm.
    destruct (Z.eqb_spec (GetDestNodeNumber req) n) as [Heq|Hne].
    + rewrite (clear_store_hit n _ _ _ _ Hm Hfr) by congruence.
      unfold drop_request, is_pending, view_future. cbn. rewrite Hr, He. cbn.
      by rewrite (proj2 (Z.eqb_eq _ _) Heq).
    + rewrite clear_store_miss, Hfr.
      * unfold drop_request, is_pending, view_future. cbn. rewrite Hr, He. cbn.
        by rewrite (proj2 (Z.eqb_neq _ _) Hne).
      * intros k _. unfold node_of. rewrite Hfr. cbn. congruence.
Qed.

(** A response settles one view. *)
Lemma view_resolve s resp f fr t pc :
  good s -> few s -> is_CheckIn resp = false ->
  futures (grp s) !! resp_GetRequestId resp = Some f -> futStore (grp s) !! f = Some fr ->
  callers s !! t = Some pc ->
  view (<[f := {| f_nodeNum := f_nodeNum fr; f_resp := Some resp; f_err := f_err fr; f_done := true |}]>
    (futStore (grp s))) pc = answer_request resp t (view (futStore (grp s)) pc).
Proof.
  intros [[Hf _ _] Hnum Hreg] Hfew Hci Hm Hfr Ht.
  destruct (fi_registered _ _ _ Hf _ _ Hm) as ((fr0 & Hfr0 & Hopen) & t0 & req0 & Ht0 & Hid). simplify_eq.
  pose proof (fi_ok _ _ _ Hf _ _ Hfr) as Hok. unfold future_ok in Hok. rewrite Hopen in Hok.
  destruct Hok as [Hr He].
  destruct pc as [req|req f' c|req f'|req f']; [done..|].
  destruct (decide (t0 = t)) as [->|Hne].
  - simplify_eq. unfold view. rewrite list_lookup_insert_eq by by eapply lookup_lt_Some.
    rewrite Hfr. unfold answer_request, view_future, is_pending. cbn. rewrite Hr, He. cbn.
    rewrite <-Hid. pose proof (caller_id s _ _ Hnum Ht) as Hid'. cbn [pc_req] in Hid'.
    by rewrite Hid', Z.eqb_refl.
  - rewrite (view_same (futStore (grp s))).
    + unfold answer_request. destruct (Z.eqb_spec (request_id t) (resp_GetRequestId resp)) as [Heq|];
        [|by rewrite andb_false_r].
      exfalso. apply Hne. symmetry. apply (caller_id_inj s t t0 _ _ Hnum Hfew Ht Ht0). cbn [pc_req].
      rewrite Hid, <-Heq. exact (caller_id s _ _ Hnum Ht).
    + intros req' f1 [= <- <-]. rewrite list_lookup_insert_ne; [done|].
      intros <-. apply Hne. by apply (fi_own _ _ _ Hf t0 t _ _ f Ht0 Ht).
Qed.
(** A response under an id nobody waits for settles no view. *)
Lemma view_unknown s resp t pc :
  good s -> futures (grp s) !! resp_GetRequestId resp = None ->
  callers s !! t = Some pc ->
  view (futStore (grp s)) pc = answer_request resp t (view (futStore (grp s)) pc).
Proof.
  intros [[Hf _ _] Hnum Hreg] Hm Ht. unfold answer_request.
  destruct (is_pending _) eqn:Hp; [|done].
  destruct (Z.eqb_spec (request_id t) (resp_GetRequestId resp)) as [Heq|]; [|done]. exfalso.
  destruct pc as [req|req f c|req f|req f]; [done..|]. unfold is_pending, view in Hp. cbn in Hp.
  destruct (fi_private _ _ _ Hf _ _ _ Ht eq_refl) as (fr & Hfr & _). rewrite Hfr in Hp.
  pose proof (fi_ok _ _ _ Hf _ _ Hfr) as Hok. unfold future_ok, view_future in *.
  destruct (f_done fr) eqn:Hd.
  - destruct Hok as [[[r Hr] He]|[Hr [e He]]]; rewrite Hr, ?He in Hp; done.
  - pose proof (Hreg _ _ _ _ Ht Hfr Hd) as Hk. pose proof (caller_id s _ _ Hnum Ht) as Hid.
    cbn [pc_req] in Hid. congruence.
Qed.
End lemmas.

(** * One action is at most one operation *)
Section simulation.
Context `{RoutingPb}.
Implicit Types (s : Sys).

Definition refines (a : action) (s : Sys) : Prop :=
  forall s', exec a s = Some (Return s') ->
    registered s' /\ apply_visible (op_of a) (table s) = Some (table s').

Lemma table_eq (T1 T2 : Table) :
  online T1 = online T2 -> sessions T1 = sessions T2 -> requests T1 = requests T2 -> T1 = T2.
Proof. destruct T1, T2; cbn; congruence. Qed.

(** Changes of a connector that its session does not show, or that end it. *)
Lemma view_conn_same F (c : nat) (l : list Connector) :
  (forall x, view_conn (F x) = view_conn x) -> view_conn <$> alter F c l = view_conn <$> l.
Proof.
  intros HF. apply list_eq. intros i. rewrite !list_lookup_fmap, list_lookup_alter.
  case_decide; [subst|done]. destruct (l !! i); [|done]. cbn. by rewrite HF.
Qed.
Lemma view_conn_end F (c : nat) (l : list Connector) :
  (forall x, c_nodeNum (F x) = c_nodeNum x /\ cancelled (F x) = true) ->
  view_conn <$> alter F c l = end_session c (view_conn <$> l).
Proof.
  intros HF. unfold end_session. apply list_eq. intros i.
  rewrite list_lookup_fmap, !list_lookup_alter, !list_lookup_fmap. case_decide; [subst|done].
  destruct (l !! i) as [x|]; [|done]. cbn. destruct (HF x) as [Hn Hc]. unfold view_conn. by rewrite Hn, Hc.
Qed.

Lemma registered_same s s' :
  registered s -> callers s' = callers s -> futures (grp s') = futures (grp s) ->
  futStore (grp s') = futStore (grp s) -> registered s'.
Proof. intros Hreg Hc Hm Hst t req f fr. rewrite Hc, Hm, Hst. apply Hreg. Qed.

Lemma refines_number req s : good s -> refines (ANumber req) s.
Proof.
  intros [_ _ Hreg] s' [= <-]. split.
  - intros t req' f fr [Ht|[_ ?]]%snoc_lookup; [|done]. by apply (Hreg t req' f fr).
  - cbn. f_equal. apply table_eq; [done|done|]. cbn. rewrite fmap_app. cbn.
    unfold view at 3. cbn. by rewrite GetDestNodeNumber_set.
Qed.

(** A future that is not allocated yet belongs to nobody. *)
Lemma returned_old s t req f :
  good s -> callers s !! t = Some (Returned req f) ->
  exists fr, futStore (grp s) !! f = Some fr /\ f <> length (futStore (grp s)).
Proof.
  intros [[Hf _ _] _ _] Ht. destruct (fi_private _ _ _ Hf _ _ _ Ht eq_refl) as (fr & Hfr & _).
  exists fr. split; [done|]. apply lookup_lt_Some in Hfr. lia.
Qed.

(** Caller [t] moves on: the futures of the others stay, and its own, if it
    has returned, is done. *)
Definition keeps_others (t : nat) (s s' : Sys) : Prop :=
  forall t' req f, t' <> t -> callers s !! t' = Some (Returned req f) ->
    futStore (grp s') !! f = futStore (grp s) !! f.
Lemma registered_move s s' t pc' :
  registered s -> callers s' = <[t := pc']> (callers s) -> futures (grp s') = futures (grp s) ->
  keeps_others t s s' ->
  (forall req f fr, pc' = Returned req f -> futStore (grp s') !! f = Some fr -> f_done fr = true) ->
  registered s'.
Proof.
  intros Hreg Hc Hm Hkeep Hdone t' req f fr. rewrite Hc, Hm.
  intros [(<- & Hpc & _)|[Hne Ht']]%list_lookup_insert_Some Hfr Hd.
  - rewrite (Hdone _ _ _ Hpc Hfr) in Hd. done.
  - rewrite (Hkeep t' req f) in Hfr by done. by apply (Hreg t' req f fr).
Qed.
Lemma table_move s s' t pc pc' p :
  callers s !! t = Some pc -> callers s' = <[t := pc']> (callers s) ->
  connecting s' = connecting s -> connectors (grp s') = connectors (grp s) ->
  view_conn <$> connStore (grp s') = view_conn <$> connStore (grp s) ->
  keeps_others t s s' ->
  view (futStore (grp s')) pc' = advance p (view (futStore (grp s)) pc) ->
  advance_at t p (table s) = table s'.
Proof.
  intros Ht Hc Hcn Hm Hconn Hkeep Hv. symmetry.
  apply table_eq; cbn; [by rewrite Hcn, Hm|done|]. rewrite Hc. by eapply view_insert.
Qed.
Lemma table_request s t pc :
  callers s !! t = Some pc -> requests (table s) !! t = Some (view (futStore (grp s)) pc).
Proof. intros Ht. cbn. by rewrite list_lookup_fmap, Ht. Qed.

Lemma refines_lookup t s : good s -> refines (ALookup t) s.
Proof.
  intros Hg s'. pose proof Hg as [[Hf _ _] _ Hreg]. cbn [exec].
  destruct (callers s !! t) as [[req|? ? ?|? ?|? ?]|] eqn:Ht; try done.
  unfold locked. destruct (connecting s) eqn:Hlock; [done|]. intros [= Hx]. revert Hx.
  cbn [op_of apply_visible apply]. rewrite (table_request _ _ _ Ht). cbn [mbind option_bind].
  unfold routeRequest_lookup, newFutureResponse.
  assert (forall t' req' f, callers s !! t' = Some (Returned req' f) ->
    f <> length (futStore (grp s)) /\ (f < length (futStore (grp s)))%nat) as Hold.
  { intros t' req' f Ht'. destruct (returned_old s t' req' f Hg Ht') as (fr & Hfr%lookup_lt_Some & ?).
    split; [done|lia]. }
  cbn [view rq_progress rq_node pc_req online table]. rewrite Hlock.
  destruct (connectors (grp s) !! GetDestNodeNumber req) as [c|] eqn:Hc; cbn -[view].
  - intros [= <-]. split; [|f_equal].
    + eapply registered_move; [done|done|done| |done].
      intros t' req' f _ Ht'. cbn. apply lookup_app_l. by destruct (Hold _ _ _ Ht').
    + eapply table_move; try done. intros t' req' f _ Ht'. cbn. apply lookup_app_l.
      by destruct (Hold _ _ _ Ht').
  - unfold fail, complete. cbn [with_futStore futStore].
    rewrite (proj2 (snoc_lookup (futStore (grp s)) _ _ _)) by (right; split; reflexivity).
    cbn -[view]. intros [= <-].
    match goal with |- registered ?s1 /\ _ => assert (keeps_others t s s1) as Hkeep end.
    { intros t' req' f _ Ht'. destruct (Hold _ _ _ Ht') as [? ?]. cbn.
      rewrite list_lookup_insert_ne by done. by apply lookup_app_l. }
    split; [|f_equal].
    + eapply registered_move; [done|done|done|done|]. cbn. intros req' f fr [= <- <-].
      rewrite list_lookup_insert_eq by (rewrite length_app; cbn; lia). by intros [= <-].
    + eapply table_move; try done. unfold view. cbn.
      rewrite list_lookup_insert_eq by (rewrite length_app; cbn; lia). done.
Qed.

Lemma refines_send t branch s : good s -> refines (ASend t branch) s.
Proof.
  intros Hg s'. pose proof Hg as [[Hf _ _] _ Hreg]. cbn [exec].
  destruct (callers s !! t) as [[?|req f c|? ?|? ?]|] eqn:Ht; try done.
  unfold send. destruct (connStore (grp s) !! c) as [conn|] eqn:Hconn; [|done]. cbn [mbind option_bind].
  destruct branch; cbn [op_of apply_visible apply]; rewrite (table_request _ _ _ Ht);
    cbn [mbind option_bind view rq_progress].
  - destruct (sender conn); try done. cbn -[view]. intros [= <-]. split; [|f_equal].
    + by eapply registered_move.
    + eapply table_move; try done. cbn. by apply view_conn_same.
  - destruct (cancelled conn) eqn:Hcan; [|done]. cbn [mbind option_bind].
    intros [= Hx]. revert Hx.
    destruct (fi_private _ _ _ Hf _ _ _ Ht eq_refl) as (fr & Hfr & _ & Hopen & _).
    pose proof (fi_ok _ _ _ Hf _ _ Hfr) as Hok. unfold future_ok in Hok. rewrite Hopen in Hok.
    destruct Hok as [Hr He].
    unfold fail, complete. rewrite Hfr, Hopen. cbn -[view]. intros [= <-].
    match goal with |- registered ?s1 /\ _ => assert (keeps_others t s s1) as Hkeep end.
    { intros t' req' f' Hne Ht'. cbn. rewrite list_lookup_insert_ne; [done|]. intros <-.
      apply Hne. by apply (fi_own _ _ _ Hf t' t _ _ f Ht' Ht). }
    assert (f < length (futStore (grp s)))%nat by by eapply lookup_lt_Some.
    rewrite list_lookup_fmap, Hconn. cbn -[view]. rewrite Hcan. split; [|f_equal].
    + eapply registered_move; [done|done|done|done|]. cbn. intros req' f' fr' [= <- <-].
      rewrite list_lookup_insert_eq by done. by intros [= <-].
    + eapply table_move; try done. unfold view. cbn.
      rewrite list_lookup_insert_eq by done. unfold view_future. cbn. by rewrite Hr.
Qed.

Lemma refines_register t s : good s -> few s -> refines (ARegister t) s.
Proof.
  intros Hg Hfew s'. pose proof Hg as [[Hf _ _] Hnum Hreg]. cbn [exec].
  destruct (callers s !! t) as [[?|? ? ?|req f|? ?]|] eqn:Ht; try done.
  unfold locked. destruct (connecting s) eqn:Hlock; [done|]. intros [= <-].
  cbn [op_of apply_visible apply]. rewrite (table_request _ _ _ Ht). cbn [mbind option_bind view rq_progress].
  destruct (fi_private _ _ _ Hf _ _ _ Ht eq_refl) as (fr & Hfr & _ & Hopen & _).
  pose proof (fi_ok _ _ _ Hf _ _ Hfr) as Hok. unfold future_ok in Hok. rewrite Hopen in Hok.
  destruct Hok as [Hr He]. split; [|f_equal].
  - intros t' req' f' fr'. cbn.
    intros [(<- & [= <- <-] & _)|[Hne Ht']]%list_lookup_insert_Some Hfr' Hd.
    + by rewrite lookup_insert_eq.
    + rewrite lookup_insert_ne; [by apply (Hreg t' req' f' fr')|].
      intros Heq. apply Hne. by apply (caller_id_inj s t t' _ _ Hnum Hfew Ht Ht').
  - eapply table_move; try done. unfold view. cbn. rewrite Hfr. unfold view_future. by rewrite Hr, He.
Qed.

(** Clearing a node. *)
Lemma registered_clear s s' n :
  good s -> callers s' = callers s -> futures (grp s') = futures (clear n (grp s)) ->
  futStore (grp s') = futStore (clear n (grp s)) -> registered s'.
Proof.
  intros [[Hf _ _] _ Hreg] Hc Hm Hst t req f fr. rewrite Hc, Hm, Hst. intros Ht Hfr Hd.
  destruct (fi_private _ _ _ Hf _ _ _ Ht eq_refl) as (fr0 & Hfr0 & _).
  destruct (f_done fr0) eqn:Hd0.
  - rewrite clear_store_miss, Hfr0 in Hfr; [congruence|].
    intros k Hk. destruct (fi_registered _ _ _ Hf _ _ Hk) as ((fr' & ? & ?) & _). congruence.
  - pose proof (Hreg _ _ _ _ Ht Hfr0 Hd0) as Hk. apply clear_futures. split; [done|].
    unfold node_of. rewrite Hfr0. cbn. intros [= Hn].
    rewrite (clear_store_hit _ _ _ _ _ Hk Hfr0 Hn) in Hfr. by injection Hfr as <-.
Qed.
Lemma requests_clear s n :
  good s -> view (futStore (clear n (grp s))) <$> callers s = drop_request n <$> requests (table s).
Proof.
  intros Hg. apply view_map. intros pc [t Ht]%list_elem_of_lookup. by eapply view_clear.
Qed.

Lemma refines_connect n s : good s -> refines (AConnect n) s.
Proof.
  intros Hg s'. pose proof Hg as [[Hf Hci _] _ Hreg]. cbn [exec]. unfold locked.
  destruct (connecting s) eqn:Hlock; [done|]. intros [= Hx]. revert Hx.
  unfold connect_begin, newConnector. set (g1 := with_connStore _ (grp s)).
  change (connectors g1) with (connectors (grp s)). cbn [op_of apply_visible apply].
  replace (online (table s)) with (connectors (grp s)) by (cbn; by rewrite Hlock).
  assert (view_conn <$> connStore g1 =
    (view_conn <$> connStore (grp s)) ++ [{| s_node := n; s_ended := false |}]) as Hs
    by (cbn; by rewrite fmap_app).
  destruct (connectors (grp s) !! n) as [p|] eqn:Hp.
  - destruct (ci_current _ _ _ Hci _ _ Hp) as (x & Hxp & Hxn & _).
    assert (connStore g1 !! p = Some x) as -> by (apply snoc_lookup; by left). rewrite Hxn.
    rewrite clearFutures_clear by (eapply (fut_inv_wf g1); exact Hf).
    cbn [mbind outcome_bind]. intros [= <-]. split.
    + eapply (registered_clear s _ n); done.
    + f_equal. apply table_eq; cbn [table online sessions requests grp callers connecting].
      * by rewrite length_fmap.
      * rewrite <-Hs. symmetry. by apply view_conn_end.
      * symmetry. by apply requests_clear.
  - cbn [mbind outcome_bind]. intros [= <-]. split; [by eapply registered_same|].
    f_equal. apply table_eq; cbn [table online sessions requests grp callers connecting];
      [by rewrite length_fmap|by rewrite <-Hs|done].
Qed.

Lemma refines_connected s : good s -> refines AConnected s.
Proof.
  intros Hg s'. pose proof Hg as [[Hf Hci _] _ Hreg]. cbn [exec].
  destruct (connecting s) as [[[n c] previous]|] eqn:Hlock; [|done]. cbn [mbind option_bind].
  intros [= <-]. split; [by apply (registered_same s); destruct previous|].
  cbn [op_of apply_visible]. f_equal.
  apply table_eq; cbn [table online sessions requests grp callers connecting]; rewrite ?Hlock;
    destruct previous; try done. symmetry. by apply view_conn_same.
Qed.

Lemma refines_disconnect c s : good s -> refines (ADisconnect c) s.
Proof.
  intros Hg s'. pose proof Hg as [[Hf Hci _] _ Hreg]. cbn [exec op_of apply_visible apply].
  cbn [table sessions]. rewrite list_lookup_fmap.
  destruct (connStore (grp s) !! c) as [conn|] eqn:Hc; [|done]. cbn [mbind option_bind fmap option_fmap option_map].
  unfold locked. destruct (connecting s) eqn:Hlock; [done|]. intros [= Hx]. revert Hx.
  unfold disconnect. rewrite Hc. cbn [view_conn s_node online].
  destruct (decide (connectors (grp s) !! c_nodeNum conn = Some c)) as [Hcur|Hcur].
  - rewrite decide_False by tauto. rewrite clearFutures_clear by by eapply fut_inv_wf.
    cbn [mbind outcome_bind]. intros [= <-]. split; [by eapply registered_clear|].
    f_equal. cbn [online table connecting]. rewrite Hlock, decide_True by done.
    apply table_eq; cbn; rewrite ?Hlock; try done. symmetry. by apply requests_clear.
  - rewrite decide_True by done. intros [= <-]. split; [by eapply registered_same|].
    f_equal. cbn [online table connecting]. rewrite Hlock, decide_False by done.
    unfold table. cbn. by rewrite Hlock.
Qed.

Lemma refines_response resp s : good s -> few s -> refines (AResponse resp) s.
Proof.
  intros Hg Hfew s'. pose proof Hg as [[Hf Hci _] _ Hreg]. cbn [exec op_of apply_visible apply].
  unfold locked. destruct (connecting s) eqn:Hlock; [done|]. intros [= Hx]. revert Hx.
  assert (with_grp (grp s) s = s) as Hsame by by destruct s.
  unfold processResponse, isCheckInMsg. destruct (is_CheckIn resp) eqn:Hchk.
  { cbn [mbind outcome_bind]. rewrite Hsame. by intros [= <-]. }
  destruct (futures (grp s) !! resp_GetRequestId resp) as [f|] eqn:Hm.
  - destruct (fi_registered _ _ _ Hf _ _ Hm) as ((fr & Hfr & Hopen) & t0 & req0 & Ht0 & Hid).
    assert (f < length (futStore (grp s)))%nat by by eapply lookup_lt_Some.
    unfold resolve, complete. cbn [with_futures futStore]. rewrite Hfr, Hopen. cbn [mbind outcome_bind].
    intros [= <-]. split.
    + intros t req f' fr' Ht Hfr' Hd. cbn in *. destruct (decide (f = f')) as [<-|Hne].
      * rewrite list_lookup_insert_eq in Hfr' by done. by injection Hfr' as <-.
      * rewrite list_lookup_insert_ne in Hfr' by done. pose proof (Hreg _ _ _ _ Ht Hfr' Hd) as Hk.
        rewrite lookup_delete_ne; [done|]. intros Heq. apply Hne. congruence.
    + f_equal. apply table_eq; cbn; rewrite ?Hlock; [done|done|].
      apply list_eq. intros t. rewrite list_lookup_imap, !list_lookup_fmap.
      destruct (callers s !! t) as [pc|] eqn:Ht; [|done]. cbn. f_equal. symmetry. by apply view_resolve.
  - cbn [mbind outcome_bind]. rewrite Hsame. intros [= <-]. split; [done|].
    f_equal. apply table_eq; cbn; rewrite ?Hlock; [done|done|].
    apply list_eq. intros t. rewrite list_lookup_imap, list_lookup_fmap.
    destruct (callers s !! t) as [pc|] eqn:Ht; [|done]. cbn. f_equal. symmetry. by apply view_unknown.
Qed.

(** The actions that change one connector only. *)
Lemma refines_hidden s F c :
  good s -> (forall x, view_conn (F x) = view_conn x) ->
  let s' := with_grp (update_conn F c (grp s)) s in
  registered s' /\ Some (table s) = Some (table s').
Proof.
  intros [_ _ Hreg] HF s'. split; [by eapply registered_same|]. f_equal.
  apply table_eq; [done| |done]. cbn. symmetry. by apply view_conn_same.
Qed.
Lemma refines_end s s' c conn :
  good s -> connStore (grp s) !! c = Some conn ->
  callers s' = callers s -> connecting s' = connecting s -> futures (grp s') = futures (grp s) ->
  futStore (grp s') = futStore (grp s) -> connectors (grp s') = connectors (grp s) ->
  view_conn <$> connStore (grp s') = end_session c (view_conn <$> connStore (grp s)) ->
  registered s' /\ apply (End c) (table s) = Some (table s').
Proof.
  intros [_ _ Hreg] Hc Hcs Hcn Hm Hst Hcon Hv. split; [by eapply registered_same|].
  cbn [apply table sessions]. rewrite list_lookup_fmap, Hc. cbn [mbind option_bind fmap option_fmap option_map].
  f_equal. apply table_eq; cbn; [by rewrite Hcn, Hcon|done|by rewrite Hcs, Hst].
Qed.

Lemma refines_exec a s : good s -> few s -> refines a s.
Proof.
  intros Hg Hfew. destruct a as [req|t|t b|t|n| |c|resp|c|c|c ok|c].
  - by apply refines_number.
  - by apply refines_lookup.
  - by apply refines_send.
  - by apply refines_register.
  - by apply refines_connect.
  - by apply refines_connected.
  - by apply refines_disconnect.
  - by apply refines_response.
  - intros s'. cbn [exec]. destruct (_ !! c) eqn:Hc; [|done]. intros [= <-].
    eapply refines_end; try done. cbn. by apply view_conn_end.
  - intros s'. cbn [exec]. destruct (_ !! c) as [conn|] eqn:Hc; [|done]. cbn [mbind option_bind].
    destruct (sender conn); try done. intros [= <-]. by apply refines_hidden.
  - intros s'. cbn [exec]. destruct (_ !! c) as [conn|] eqn:Hc; [|done]. cbn [mbind option_bind].
    destruct (sender conn); try done. intros [= <-]. destruct ok; [by apply refines_hidden|].
    eapply refines_end; try done. cbn. rewrite view_conn_same by done. by apply view_conn_end.
  - intros s'. cbn [exec]. destruct (_ !! c) as [conn|] eqn:Hc; [|done]. cbn [mbind option_bind].
    destruct (sender conn); try done. destruct (cancelled conn); [|done]. intros [= <-].
    by apply refines_hidden.
Qed.
End simulation.

(** * Whole runs *)
Section runs.
Context `{RoutingPb}.
Implicit Types (s : Sys) (T : Table).

Lemma few_before a s s' : exec a s = Some (Return s') -> few s' -> few s.
Proof.
  unfold few. intros Ha. destruct (exec_callers _ _ _ Ha)
    as [(req & _ & _ & ->)|[[_ ->]|(_ & t & pc & pc' & _ & -> & _)]].
  - rewrite length_app. lia.
  - done.
  - by rewrite length_insert.
Qed.
Lemma good_init id : good (init id).
Proof. split; [apply inv_init|by split|by intros ?]. Qed.
Lemma numbered_exec a s s' : numbered s -> exec a s = Some (Return s') -> numbered s'.
Proof.
  intros Hn Ha. destruct (exec_callers _ _ _ Ha)
    as [(req & _ & Hm & Hc)|[[Hm Hc]|(Hm & t & pc & pc' & ? & ? & ? & _)]].
  - destruct Hn as [Hn1 Hn2]. unfold numbered. rewrite Hc, length_app. simpl.
    assert (msgCounter (grp s') = wrap64 (Z.of_nat (length (callers s)) + 1)) as Hid
      by by rewrite Hm, Hn1, wrap64_succ.
    split; [rewrite Hid; f_equal; lia|].
    intros t pc [Ht|[-> ->]]%snoc_lookup; [by apply Hn2|]. simpl. by rewrite GetRequestId_set.
  - by eapply numbered_same.
  - by eapply numbered_insert.
Qed.
Lemma good_exec a s s' :
  good s -> few s' -> exec a s = Some (Return s') ->
  good s' /\ apply_visible (op_of a) (table s) = Some (table s').
Proof.
  intros Hg Hfew Ha. pose proof (few_before _ _ _ Ha Hfew) as Hfew0.
  destruct (refines_exec a s Hg Hfew0 s' Ha) as [Hreg Happ]. split; [|done].
  destruct Hg as [Hinv Hnum _]. split; [|by eapply numbered_exec|done].
  pose proof (safe_exec a s Hinv) as Hs. by rewrite Ha in Hs.
Qed.
Lemma run_few acts s s' : run acts s = Some s' -> few s' -> few s.
Proof.
  revert s. induction acts as [|a acts IH]; intros s; simpl; [by intros [= ->]|].
  destruct (exec a s) as [[s1|]|] eqn:Ha; try done. intros Hrun Hfew.
  eapply few_before; [done|]. by apply IH.
Qed.
Lemma run_refines acts s s' :
  good s -> run acts s = Some s' -> few s' ->
  good s' /\ apply_all (omap op_of acts) (table s) = Some (table s').
Proof.
  revert s. induction acts as [|a acts IH]; intros s Hg; simpl; [by intros [= ->]|].
  destruct (exec a s) as [[s1|]|] eqn:Ha; try done. intros Hrun Hfew.
  destruct (good_exec a s s1 Hg (run_few _ _ _ Hrun Hfew) Ha) as [Hg1 Happ].
  destruct (IH s1 Hg1 Hrun Hfew) as [Hg' Hall]. split; [done|].
  change (omap op_of (a :: acts))
    with (match op_of a with Some o => o :: omap op_of acts | None => omap op_of acts end).
  destruct (op_of a) as [o|]; cbn [apply_visible] in Happ.
  - cbn [apply_all]. by rewrite Happ.
  - by assert (table s = table s1) as -> by congruence.
Qed.

(** ** Facts about the table *)

Definition settled (rq : Request) : Prop :=
  match rq_progress rq with Answered _ | Failed _ => True | _ => False end.
Lemma settled_not_pending rq : settled rq -> is_pending rq = false.
Proof. unfold settled, is_pending. by destruct (rq_progress rq). Qed.
Lemma settled_drop n rq : settled rq -> drop_request n rq = rq.
Proof. intros Hs. unfold drop_request. by rewrite settled_not_pending. Qed.
Lemma settled_answer resp t rq : settled rq -> answer_request resp t rq = rq.
Proof. intros Hs. unfold answer_request. by rewrite settled_not_pending. Qed.
Lemma settled_advance_at t p T t' rq :
  requests T !! t' = Some rq -> settled rq ->
  (forall rq', requests T !! t = Some rq' -> ~ settled rq') ->
  requests (advance_at t p T) !! t' = Some rq.
Proof.
  intros Ht' Hs Ht. cbn. rewrite list_lookup_alter_ne; [done|]. intros ->. by apply (Ht rq).
Qed.
(** An operation that advances the request [t0] finds it unsettled. *)
Ltac advances Happ :=
  let rq0 := fresh "rq" in let Hp := fresh "Hp" in let Ht0 := fresh "Ht" in
  match type of Happ with
  | context [requests ?T !! ?t0] => destruct (requests T !! t0) as [rq0|] eqn:Ht0
  end;
  [|discriminate Happ];
  cbn [mbind option_bind] in Happ; destruct (rq_progress rq0) eqn:Hp; try done;
  repeat (cbv [mbind option_bind] in Happ; case_head_in Happ; try discriminate Happ);
  injection Happ as <-; (apply settled_advance_at; [assumption|assumption|]);
  intros rq' Hrq'; rewrite Ht0 in Hrq'; injection Hrq' as <-; unfold settled; rewrite Hp; tauto.
Lemma apply_settled o T T' t rq :
  apply o T = Some T' -> requests T !! t = Some rq -> settled rq -> requests T' !! t = Some rq.
Proof.
  intros Happ Ht Hs. destruct o as [n|t0|t0|t0|t0|n|c|resp|c]; cbn [apply] in Happ.
  - injection Happ as <-. cbn. apply snoc_lookup. by left.
  - advances Happ.
  - advances Happ.
  - advances Happ.
  - advances Happ.
  - injection Happ as <-. destruct (online T !! n); cbn; [|done].
    rewrite list_lookup_fmap, Ht. cbn. by rewrite settled_drop.
  - destruct (sessions T !! c) as [x|]; [|done]. cbn [mbind option_bind] in Happ. injection Happ as <-.
    case_decide; [|done]. cbn. rewrite list_lookup_fmap, Ht. cbn. by rewrite settled_drop.
  - injection Happ as <-. destruct (is_CheckIn resp); [done|]. cbn.
    rewrite list_lookup_imap, Ht. cbn. by rewrite settled_answer.
  - destruct (sessions T !! c); [|done]. cbn [mbind option_bind] in Happ. by injection Happ as <-.
Qed.
Lemma apply_all_settled os T T' t rq :
  apply_all os T = Some T' -> requests T !! t = Some rq -> settled rq -> requests T' !! t = Some rq.
Proof.
  revert T. induction os as [|o os IH]; intros T; cbn; [by intros [= <-]|].
  destruct (apply o T) as [T1|] eqn:Ho; [|done]. cbn. intros Hall Ht Hs.
  eapply IH; [done| |done]. by eapply apply_settled.
Qed.
End runs.

Section reading.
Context `{RoutingPb}.
Implicit Types (s : Sys).

Lemma good_reachable id s : reachable id s -> few s -> good s.
Proof.
  unfold reachable. revert s. apply (rtc_ind_r (fun s => few s -> good s)); [intros; apply good_init|].
  intros s1 s2 _ [a Ha] IH Hfew. eapply good_exec; [|done|done]. apply IH. by eapply few_before.
Qed.

(** What [Await] gives to a caller is what the table says of its request. *)
Definition outcome_of (p : progress) : option (option ServingResponse * option status) :=
  match p with
  | Answered r => Some (Some r, None)
  | Failed e => Some (None, Some e)
  | _ => None
  end.
Lemma await_reads_table s t req f :
  good s -> callers s !! t = Some (Returned req f) ->
  exists fr rq, futStore (grp s) !! f = Some fr /\ requests (table s) !! t = Some rq /\
    forall prefer, Await fr None prefer = outcome_of (rq_progress rq).
Proof.
  intros [[Hf _ _] _ _] Ht. destruct (fi_private _ _ _ Hf _ _ _ Ht eq_refl) as (fr & Hfr & _).
  pose proof (fi_ok _ _ _ Hf _ _ Hfr) as Hok. unfold future_ok in Hok.
  eexists fr, _. split; [done|]. split; [by apply table_request|]. intros prefer.
  unfold Await, view, view_future. cbn. rewrite Hfr. destruct (f_done fr).
  - destruct Hok as [[[r ->] ->]|[-> [e ->]]]; done.
  - by destruct Hok as [-> ->].
Qed.

(** A caller that has returned stays as it is. *)
Lemma exec_returned a s s' t req f :
  exec a s = Some (Return s') -> callers s !! t = Some (Returned req f) ->
  callers s' !! t = Some (Returned req f).
Proof.
  intros Ha Ht. destruct (exec_callers _ _ _ Ha)
    as [(req' & _ & _ & ->)|[[_ ->]|(_ & t' & pc & pc' & Ht' & -> & _ & Hrank)]]; [|done|].
  - apply snoc_lookup. by left.
  - rewrite list_lookup_insert_ne; [done|]. intros ->. simplify_eq. destruct pc'; cbn in Hrank; lia.
Qed.
Lemma run_returned acts s s' t req f :
  run acts s = Some s' -> callers s !! t = Some (Returned req f) ->
  callers s' !! t = Some (Returned req f).
Proof.
  revert s. induction acts as [|a acts IH]; intros s; simpl; [by intros [= <-]|].
  destruct (exec a s) as [[s1|]|] eqn:Ha; try done. intros Hrun Ht.
  eapply IH; [done|]. by eapply exec_returned.
Qed.
End reading.

(** * Properties *)
Section properties.
Context `{RoutingPb}.

(** C15. Every run of the router, whatever the interleaving of its goroutines
    and the responses of its peers, is a run of the session table: the actions
    that show, in the order in which they happen, are its operations, and the
    router's maps, connectors, futures and callers stand for the table they
    lead to. In particular [connect] is atomic although the code cancels the
    old connector before it installs the new one. *)
Theorem router_refines_table id acts s :
  run acts (init id) = Some s -> few s ->
  apply_all (omap op_of acts) emptyTable = Some (table s).
Proof. intros Hrun Hfew. by apply (run_refines acts (init id) s (good_init id)). Qed.

(** The outcome of a request is final: once [Await] has an answer or an
    error for a caller, it gives the same one after anything that the router
    does later. *)
Theorem settled_once id s acts s' t req f fr prefer result :
  reachable id s -> run acts s = Some s' -> few s' ->
  callers s !! t = Some (Returned req f) -> futStore (grp s) !! f = Some fr ->
  Await fr None prefer = Some result ->
  callers s' !! t = Some (Returned req f) /\
  exists fr', futStore (grp s') !! f = Some fr' /\ forall prefer', Await fr' None prefer' = Some result.
Proof.
  intros Hreach Hrun Hfew Ht Hfr Hresult. pose proof (run_returned _ _ _ _ _ _ Hrun Ht) as Ht'.
  split; [done|]. pose proof (good_reachable _ _ Hreach (run_few _ _ _ Hrun Hfew)) as Hg.
  destruct (run_refines _ _ _ Hg Hrun Hfew) as [Hg' Hall].
  destruct (await_reads_table s t req f Hg Ht) as (fr0 & rq & Hfr0 & Hrq & Hread). simplify_eq.
  destruct (await_reads_table s' t req f Hg' Ht') as (fr' & rq' & Hfr' & Hrq' & Hread').
  exists fr'. split; [done|]. intros prefer'. rewrite Hread'. rewrite Hread in Hresult.
  assert (settled rq) as Hs by (unfold settled; by destruct (rq_progress rq)).
  pose proof (apply_all_settled _ _ _ _ _ Hall Hrq Hs) as Hsame. simplify_eq. done.
Qed.
End properties.

(** * Witnesses *)
#[local] Existing Instance toy_pb.

(** Node 7 answers, and its connector is replaced while another caller is
    under way. *)
Definition table_schedule : list action :=
  toy_schedule ++ [ANumber (7, 0); AResponse toy_resp; ALookup 1; AConnect 7; ASend 1 contextDone; AConnected].
Lemma router_refines_table_witness :
  exists s, run table_schedule (init "g") = Some s /\
  apply_all (omap op_of table_schedule) emptyTable = Some (table s) /\
  requests (table s) =
    [{| rq_node := 7; rq_progress := Answered toy_resp |};
     {| rq_node := 7; rq_progress := Failed (nodeMessage "disconnected" 7) |}] /\
  online (table s) = {[ 7 := 1%nat ]}.
Proof.
  eexists. split; [vm_compute; reflexivity|]. split.
  - apply (router_refines_table "g" table_schedule); [vm_compute; reflexivity|vm_compute; discriminate].
  - by split; vm_compute.
Defined.

Lemma settled_once_witness :
  exists s', run [AConnect 7; AConnected; AResponse toy_resp] toy_answered = Some s' /\
  exists fr', futStore (grp s') !! 0%nat = Some fr' /\
    Await fr' None true = Some (Some toy_resp, None).
Proof.
  eexists. split; [vm_compute; reflexivity|].
  destruct (settled_once "g" toy_answered [AConnect 7; AConnected; AResponse toy_resp] _ 0 toy_req 0
    {| f_nodeNum := 7; f_resp := Some toy_resp; f_err := None; f_done := true |} true (Some toy_resp, None)
    toy_answered_reachable ltac:(vm_compute; reflexivity) ltac:(vm_compute; discriminate)
    eq_refl eq_refl eq_refl) as (_ & fr' & Hfr' & Hread).
  exists fr'. split; [exact Hfr'|apply Hread].
Defined.
