(* ===== verification/RouterLive.v ===== *)
(** * Progress of the router's goroutines

    No caller of [routeRequest] is ever stuck: from every reachable state its
    own next action, or the action of the one goroutine it waits for, is
    enabled, and at most five such actions bring it home; its own actions, in
    any run, are at most three. A cancelled connector's send loop ends in the
    same way. [next] and [sender_next] are executable and say whom to wait for. *)
From S2P Require Import Prelude GoStrings Grpc Routing RoutingSteps RoutingProps.
Open Scope Z_scope.

Section live.
Context `{RoutingPb}.
Implicit Types (s : Sys).

(** The action that caller [t] takes or waits for; [None] once it has returned. *)
Definition next (t : nat) (s : Sys) : option action :=
  pc ← callers s !! t;
  match pc with
  | Numbered _ => Some (match connecting s with Some _ => AConnected | None => ALookup t end)
  | Found _ _ c =>
      conn ← connStore (grp s) !! c;
      if cancelled conn then Some (ASend t contextDone)
      else match sender conn with
           | notStarted => Some (ARun c)
           | selecting => Some (ASend t handOver)
           | sending _ => Some (ASendReturns c true)
           | exited => None
           end
  | Sent _ _ => Some (match connecting s with Some _ => AConnected | None => ARegister t end)
  | Returned _ _ => None
  end.

(** The action that the send loop of connector [c] takes once it is cancelled. *)
Definition sender_next (c : nat) (s : Sys) : option action :=
  conn ← connStore (grp s) !! c;
  match sender conn with
  | notStarted => Some (ARun c)
  | selecting => Some (ASenderDone c)
  | sending _ => Some (ASendReturns c true)
  | exited => None
  end.

(** Following a goroutine: the actions it takes or waits for, in order. *)
Fixpoint follow (pick : Sys -> option action) (fuel : nat) (s : Sys) : list action * Sys :=
  match fuel, pick s with
  | S fuel, Some a =>
      match exec a s with
      | Some (Return s') => let '(acts, s'') := follow pick fuel s' in (a :: acts, s'')
      | _ => ([], s)
      end
  | _, _ => ([], s)
  end.

(** ** Measures *)

Definition locked_by_other (s : Sys) : nat := match connecting s with Some _ => 1 | None => 0 end.
(** How many actions caller [t] is away from returning, at most. *)
Definition caller_distance (t : nat) (s : Sys) : nat :=
  match callers s !! t with
  | Some (Numbered _) => 4 + locked_by_other s
  | Some (Found _ _ c) =>
      (match sender <$> connStore (grp s) !! c with
       | Some selecting => 2
       | _ => 3
       end) + locked_by_other s
  | Some (Sent _ _) => 1 + locked_by_other s
  | _ => 0
  end.
Definition sender_distance (c : nat) (s : Sys) : nat :=
  match sender <$> connStore (grp s) !! c with
  | Some selecting => 1
  | Some exited | None => 0
  | Some _ => 2
  end.
End live.

(** * Lemmas *)
Section lemmas.
Context `{RoutingPb}.
Implicit Types (s : Sys).

(** An invariant and a measure that every picked action decreases: the
    goroutine is followed to its end. *)
Lemma follow_ends (pick : Sys -> option action) (P : Sys -> Prop) (d : Sys -> nat) :
  (forall s a, P s -> pick s = Some a ->
     exists s', exec a s = Some (Return s') /\ P s' /\ (d s' < d s)%nat) ->
  forall fuel s, P s -> (d s <= fuel)%nat ->
  let '(acts, s') := follow pick fuel s in
  run acts s = Some s' /\ (length acts <= d s)%nat /\ P s' /\ pick s' = None.
Proof.
  intros Hstep. induction fuel as [|fuel IH]; intros s HP Hd; cbn [follow].
  - cbn. split_and!; [done|lia|done|]. destruct (pick s) as [a|] eqn:Hp; [|done].
    destruct (Hstep s a HP Hp) as (s' & _ & _ & ?). lia.
  - destruct (pick s) as [a|] eqn:Hp; [|by cbn; split_and!; [|lia| |]].
    destruct (Hstep s a HP Hp) as (s' & Ha & HP' & Hlt). rewrite Ha.
    specialize (IH s' HP' ltac:(lia)). destruct (follow pick fuel s') as [acts s''].
    destruct IH as (Hrun & Hlen & HP'' & Hnone). cbn [run length]. rewrite Ha. split_and!; [done|lia|done|done].
Qed.

Lemma inv_exec a s s' : inv s -> exec a s = Some (Return s') -> inv s'.
Proof. intros Hinv Ha. pose proof (safe_exec a s Hinv) as Hs. by rewrite Ha in Hs. Qed.

(** What each action does to the caller or the connector it concerns. *)
Lemma connected_frees s x :
  connecting s = Some x ->
  exists s', exec AConnected s = Some (Return s') /\ connecting s' = None /\ callers s' = callers s /\
    forall c, sender <$> connStore (grp s') !! c = sender <$> connStore (grp s) !! c.
Proof.
  intros Hx. cbn [exec]. rewrite Hx. destruct x as [[n c] previous]. eexists. split; [reflexivity|].
  destruct previous as [p|]; cbn; split_and!; try done.
  intros c'. rewrite list_lookup_alter. case_decide; [subst|done]. by destruct (connStore (grp s) !! _).
Qed.
Lemma caller_looks_up s t req :
  inv s -> connecting s = None -> callers s !! t = Some (Numbered req) ->
  exists s' pc, exec (ALookup t) s = Some (Return s') /\ callers s' !! t = Some pc /\ (1 <= pc_rank pc)%nat /\
    connecting s' = None.
Proof.
  intros Hinv Hfree Ht. pose proof (safe_lookup s t Hinv) as Hsafe. revert Hsafe. cbn [exec].
  assert (t < length (callers s))%nat by by eapply lookup_lt_Some.
  rewrite Ht. unfold locked. rewrite Hfree. unfold routeRequest_lookup, newFutureResponse.
  destruct (connectors (grp s) !! GetDestNodeNumber req); cbn.
  - intros _. eexists _, _. split; [reflexivity|]. cbn. rewrite list_lookup_insert_eq by done.
    split; [done|]. split; [cbn; lia|done].
  - destruct (fail _ _ _) as [g1|]; cbn; [|done]. intros _. eexists _, _. split; [reflexivity|].
    cbn. rewrite list_lookup_insert_eq by done. split; [done|]. split; [cbn; lia|done].
Qed.
Lemma caller_sends s t req f c conn branch :
  inv s -> callers s !! t = Some (Found req f c) -> connStore (grp s) !! c = Some conn ->
  match branch with handOver => sender conn = selecting | contextDone => cancelled conn = true end ->
  exists s' pc, exec (ASend t branch) s = Some (Return s') /\ callers s' !! t = Some pc /\ (2 <= pc_rank pc)%nat /\
    connecting s' = connecting s.
Proof.
  intros Hinv Ht Hc Hb. pose proof (safe_send s t branch Hinv) as Hsafe. revert Hsafe. cbn [exec].
  assert (t < length (callers s))%nat by by eapply lookup_lt_Some.
  rewrite Ht. unfold send. rewrite Hc. cbn [mbind option_bind]. destruct branch; rewrite Hb; cbn.
  - intros _. eexists _, _. split; [reflexivity|]. cbn. rewrite list_lookup_insert_eq by done.
    split; [done|]. split; [cbn; lia|done].
  - destruct (fail _ _ _) as [g1|]; cbn; [|done]. intros _. eexists _, _. split; [reflexivity|].
    cbn. rewrite list_lookup_insert_eq by done. split; [done|]. split; [cbn; lia|done].
Qed.
(** The send loop comes to its [select]. *)
Lemma sender_selects s c conn a :
  connStore (grp s) !! c = Some conn ->
  match a with
  | ARun c' => c' = c /\ sender conn = notStarted
  | ASendReturns c' ok => c' = c /\ ok = true /\ exists req, sender conn = sending req
  | _ => False
  end ->
  exists s', exec a s = Some (Return s') /\ callers s' = callers s /\ connecting s' = connecting s /\
    connStore (grp s') !! c = Some {| c_nodeNum := c_nodeNum conn; cancelled := cancelled conn;
                                      evicted := evicted conn; sender := selecting |}.
Proof.
  intros Hc Ha. destruct a as [| | | | | | | | |c'|c' ok|]; try done.
  - destruct Ha as [-> Hs]. cbn [exec]. rewrite Hc. cbn [mbind option_bind]. rewrite Hs.
    eexists. split; [reflexivity|]. cbn. split_and!; [done|done|]. by rewrite list_lookup_alter_eq, Hc.
  - destruct Ha as (-> & -> & req & Hs). cbn [exec]. rewrite Hc. cbn [mbind option_bind]. rewrite Hs.
    eexists. split; [reflexivity|]. cbn. split_and!; [done|done|]. by rewrite list_lookup_alter_eq, Hc.
Qed.

(** Each action that a caller takes or waits for is enabled and brings it nearer. *)
Lemma next_step t s a :
  inv s -> next t s = Some a ->
  exists s', exec a s = Some (Return s') /\ inv s' /\ (caller_distance t s' < caller_distance t s)%nat.
Proof.
  intros Hinv Hnext.
  cut (exists s', exec a s = Some (Return s') /\ (caller_distance t s' < caller_distance t s)%nat).
  { intros (s' & Ha & Hd). exists s'. split; [done|]. split; [by eapply inv_exec|done]. }
  pose proof Hinv as [_ Hci Hfound]. unfold next in Hnext.
  destruct (callers s !! t) as [pc|] eqn:Ht; [|done].
  cbn [mbind option_bind] in Hnext. unfold caller_distance, locked_by_other. rewrite Ht.
  destruct pc as [req|req f c|req f|req f]; [| | |done].
  - destruct (connecting s) as [x|] eqn:Hx; injection Hnext as <-.
    + destruct (connected_frees s x Hx) as (s' & Ha & Hfree & Hcs & _).
      exists s'. rewrite Hcs, Hfree, Ht. split; [done|lia].
    + destruct (caller_looks_up s t req Hinv Hx Ht) as (s' & pc & Ha & Hpc & Hr & Hfree).
      exists s'. rewrite Hpc, Hfree. split; [done|]. destruct pc; cbn in *; repeat case_match; lia.
  - destruct (Hfound t req f c Ht) as [conn Hc]. rewrite Hc in Hnext |- *. cbn in Hnext |- *.
    destruct (cancelled conn) eqn:Hcan; [|destruct (sender conn) as [| |r|] eqn:Hs; [| | |done]];
      injection Hnext as <-.
    + destruct (caller_sends s t req f c conn contextDone Hinv Ht Hc Hcan) as (s' & pc & Ha & Hpc & Hr & Hcn).
      exists s'. rewrite Hpc, Hcn. split; [done|]. destruct pc; cbn in *; repeat case_match; lia.
    + destruct (sender_selects s c conn (ARun c) Hc) as (s' & Ha & Hcs & Hcn & Hc'); [done|].
      exists s'. rewrite Hcs, Hcn, Ht, Hc'. cbn. split; [done|]. lia.
    + destruct (caller_sends s t req f c conn handOver Hinv Ht Hc Hs) as (s' & pc & Ha & Hpc & Hr & Hcn).
      exists s'. rewrite Hpc, Hcn. split; [done|]. destruct pc; cbn in *; repeat case_match; lia.
    + destruct (sender_selects s c conn (ASendReturns c true) Hc) as (s' & Ha & Hcs & Hcn & Hc'); [eauto|].
      exists s'. rewrite Hcs, Hcn, Ht, Hc'. cbn. split; [done|]. lia.
  - destruct (connecting s) as [x|] eqn:Hx; injection Hnext as <-.
    + destruct (connected_frees s x Hx) as (s' & Ha & Hfree & Hcs & _).
      exists s'. rewrite Hcs, Hfree, Ht. split; [done|lia].
    + cbn [exec]. rewrite Ht. unfold locked. rewrite Hx. eexists. split; [reflexivity|]. cbn.
      rewrite list_lookup_insert_eq by by eapply lookup_lt_Some. lia.
Qed.
Lemma next_returned t s pc :
  inv s -> callers s !! t = Some pc -> next t s = None -> exists req f, pc = Returned req f.
Proof.
  intros [_ Hci Hfound] Ht. unfold next. rewrite Ht. cbn [mbind option_bind].
  destruct pc as [req|req f c|req f|req f]; [done| |done|by eauto].
  destruct (Hfound t req f c Ht) as [conn Hc]. rewrite Hc. cbn [mbind option_bind].
  destruct (cancelled conn) eqn:Hcan; [done|]. destruct (sender conn) eqn:Hs; try done.
  rewrite (ci_cancelled _ _ _ Hci _ _ Hc) in Hcan; [done|]. by right.
Qed.

Definition cancelled_conn (c : nat) (s : Sys) : Prop :=
  exists conn, connStore (grp s) !! c = Some conn /\ cancelled conn = true.
Lemma sender_next_step c s a :
  cancelled_conn c s -> sender_next c s = Some a ->
  exists s', exec a s = Some (Return s') /\ cancelled_conn c s' /\ (sender_distance c s' < sender_distance c s)%nat.
Proof.
  intros (conn & Hc & Hcan) Hnext. unfold sender_next in Hnext. rewrite Hc in Hnext.
  cbn [mbind option_bind] in Hnext. unfold sender_distance. rewrite Hc. cbn.
  destruct (sender conn) as [| |r|] eqn:Hs; [| | |done]; injection Hnext as <-.
  - destruct (sender_selects s c conn (ARun c) Hc) as (s' & Ha & _ & _ & Hc'); [done|].
    exists s'. unfold cancelled_conn. rewrite Hc'. cbn. split; [done|]. split; [by eexists|lia].
  - cbn [exec]. rewrite Hc. cbn [mbind option_bind]. rewrite Hs, Hcan. eexists. split; [reflexivity|].
    unfold cancelled_conn. cbn. rewrite list_lookup_alter_eq, Hc. cbn. split; [by eexists|lia].
  - destruct (sender_selects s c conn (ASendReturns c true) Hc) as (s' & Ha & _ & _ & Hc'); [by eauto|].
    exists s'. unfold cancelled_conn. rewrite Hc'. cbn. split; [done|]. split; [by eexists|lia].
Qed.

(** The actions of caller [t] itself. *)
Definition own (t : nat) (a : action) : bool :=
  match a with
  | ALookup t' | ASend t' _ | ARegister t' => bool_decide (t' = t)
  | _ => false
  end.
Definition rank_of (t : nat) (s : Sys) : nat :=
  match callers s !! t with Some pc => pc_rank pc | None => 0 end.
Lemma pc_rank_le pc : (pc_rank pc <= 3)%nat.
Proof. destruct pc; cbn; lia. Qed.
Lemma rank_monotone a s s' t :
  exec a s = Some (Return s') -> (rank_of t s <= rank_of t s')%nat.
Proof.
  intros Ha. unfold rank_of.
  destruct (exec_callers _ _ _ Ha) as [(req & _ & _ & ->)|[[_ ->]|(_ & t' & pc & pc' & Ht' & -> & _ & Hr)]].
  - destruct (callers s !! t) as [pc|] eqn:Ht; [|lia].
    by rewrite (proj2 (snoc_lookup _ _ _ _) (or_introl Ht)).
  - lia.
  - destruct (decide (t' = t)) as [->|Hne].
    + rewrite Ht', list_lookup_insert_eq by by eapply lookup_lt_Some. lia.
    + rewrite list_lookup_insert_ne by done. lia.
Qed.
(** A caller's own action is a step forward. *)
Lemma own_advances a s s' t :
  own t a = true -> exec a s = Some (Return s') -> (rank_of t s < rank_of t s')%nat.
Proof.
  intros Hown Ha. unfold rank_of.
  assert (exists pc pc', callers s !! t = Some pc /\ callers s' = <[t := pc']> (callers s) /\
    (pc_rank pc < pc_rank pc')%nat) as (pc & pc' & Ht & -> & Hr).
  { destruct a as [|t'|t' b|t'| | | | | | | |]; try done; cbn in Hown;
      apply bool_decide_eq_true in Hown as ->; cbn [exec] in Ha.
    - destruct (callers s !! t) as [[req|? ? ?|? ?|? ?]|]; try done. unfold locked in Ha.
      destruct (connecting s); [done|]. destruct (routeRequest_lookup req (grp s)) as [[[f [c|]] g]|];
        cbn in Ha; try done; injection Ha as <-; eexists _, _; split_and!; try done; cbn; lia.
    - destruct (callers s !! t) as [[?|req f c|? ?|? ?]|]; try done.
      destruct (send b c req (grp s)) as [[[e|] g]|]; [| |done]; cbn in Ha.
      + destruct (fail f e g) as [g'|]; cbn in Ha; [|done]. injection Ha as <-.
        eexists _, _; split_and!; try done; cbn; lia.
      + injection Ha as <-. eexists _, _; split_and!; try done; cbn; lia.
    - destruct (callers s !! t) as [[?|? ? ?|req f|? ?]|]; try done. unfold locked in Ha.
      destruct (connecting s); [done|]. injection Ha as <-. eexists _, _; split_and!; try done; cbn; lia. }
  rewrite Ht, list_lookup_insert_eq by by eapply lookup_lt_Some. done.
Qed.
Lemma own_count acts s s' t :
  run acts s = Some s' -> (length (filter (fun a => own t a = true) acts) + rank_of t s <= rank_of t s')%nat.
Proof.
  revert s. induction acts as [|a acts IH]; intros s; cbn [run]; [by intros [= <-]|].
  destruct (exec a s) as [[s1|]|] eqn:Ha; try done. intros Hrun. specialize (IH _ Hrun).
  rewrite filter_cons. case_decide as Hown; cbn [length].
  - pose proof (own_advances _ _ _ _ Hown Ha). lia.
  - pose proof (rank_monotone _ _ _ t Ha). lia.
Qed.
End lemmas.

(** * Properties *)
Section properties.
Context `{RoutingPb}.

(** C16. A caller of routeRequest terminates: in any run it takes at most three
    actions of its own, and from any reachable state at most five actions, of
    its own and of the goroutine it waits for, make it return; the caller is
    never deadlocked. *)
Theorem caller_terminates id s t pc :
  reachable id s -> callers s !! t = Some pc ->
  (forall acts s', run acts s = Some s' -> (length (filter (fun a => own t a = true) acts) <= 3)%nat) /\
  let '(acts, s') := follow (next t) 5 s in
  run acts s = Some s' /\ (length acts <= 5)%nat /\ exists req f, callers s' !! t = Some (Returned req f).
Proof.
  intros Hreach%inv_reachable Ht. split.
  - intros acts s' Hrun. pose proof (own_count _ _ _ t Hrun). unfold rank_of in *.
    destruct (callers s' !! t) as [pc'|]; [pose proof (pc_rank_le pc')|]; lia.
  - assert (caller_distance t s <= 5)%nat as Hd.
    { unfold caller_distance, locked_by_other. rewrite Ht. destruct pc; repeat case_match; lia. }
    pose proof (follow_ends (next t) inv (caller_distance t) (next_step t) 5 s Hreach Hd) as Hf.
    destruct (follow (next t) 5 s) as [acts s']. destruct Hf as (Hrun & Hlen & Hinv & Hnone).
    split; [done|]. split; [lia|].
    assert (exists pc', callers s' !! t = Some pc') as [pc' Ht'].
    { pose proof (lookup_lt_Some _ _ _ Ht) as Hlt. apply lookup_lt_is_Some.
      clear -Hrun Hlt. revert s Hlt Hrun. induction acts as [|a acts IH]; intros s Hlt; cbn [run].
      - by intros [= <-].
      - destruct (exec a s) as [[s1|]|] eqn:Ha; try done. apply IH.
        destruct (exec_callers _ _ _ Ha) as [(? & _ & _ & ->)|[[_ ->]|(_ & ? & ? & ? & _ & -> & _)]];
          [rewrite length_app|..|rewrite length_insert]; lia. }
    destruct (next_returned t s' pc' Hinv Ht' Hnone) as (req & f & ->). eauto.
Qed.

(** The send loop of a cancelled connector ends: at most two more of its own
    actions, each of them enabled. *)
Theorem cancelled_sender_ends s c conn :
  connStore (grp s) !! c = Some conn -> cancelled conn = true ->
  let '(acts, s') := follow (sender_next c) 2 s in
  run acts s = Some s' /\ exists conn', connStore (grp s') !! c = Some conn' /\ sender conn' = exited.
Proof.
  intros Hc Hcan.
  assert (sender_distance c s <= 2)%nat as Hd by (unfold sender_distance; repeat case_match; lia).
  pose proof (follow_ends (sender_next c) (cancelled_conn c) (sender_distance c) (sender_next_step c) 2 s
    (ex_intro _ conn (conj Hc Hcan)) Hd) as Hf.
  destruct (follow (sender_next c) 2 s) as [acts s']. destruct Hf as (Hrun & _ & (conn' & Hc' & _) & Hnone).
  split; [done|]. exists conn'. split; [done|]. unfold sender_next in Hnone. rewrite Hc' in Hnone.
  cbn in Hnone. by destruct (sender conn').
Qed.
End properties.

(** * Witnesses *)
#[local] Existing Instance toy_pb.

(** A caller that has found its connector while another connect holds the lock. *)
Definition busy_schedule : list action :=
  [AConnect 7; AConnected; ANumber (7, 0); ALookup 0; AConnect 8].
Definition busy_sys : Sys := match run busy_schedule (init "g") with Some s => s | None => init "g" end.
Lemma caller_terminates_witness :
  let '(acts, s') := follow (next 0) 5 busy_sys in
  acts = [ARun 0; ASend 0 handOver; AConnected; ARegister 0] /\
  exists req f, callers s' !! 0%nat = Some (Returned req f).
Proof.
  assert (reachable "g" busy_sys) as Hr.
  { apply (run_reachable "g" busy_schedule (init "g")); [apply rtc_refl|reflexivity]. }
  destruct (caller_terminates "g" busy_sys 0 (Found toy_req 0 0) Hr eq_refl) as [_ Hf].
  destruct (follow (next 0) 5 busy_sys) as [acts s'] eqn:He. destruct Hf as (_ & _ & Hret).
  split; [|exact Hret]. vm_compute in He. by injection He as <- _.
Defined.

Lemma cancelled_sender_ends_witness :
  let s := match run [ACancel 0] busy_sys with Some s => s | None => busy_sys end in
  let '(acts, _) := follow (sender_next 0) 2 s in acts = [ARun 0; ASenderDone 0].
Proof.
  intros s. pose proof (cancelled_sender_ends s 0
    {| c_nodeNum := 7; cancelled := true; evicted := false; sender := notStarted |} eq_refl eq_refl) as Hf.
  destruct (follow (sender_next 0) 2 s) as [acts s'] eqn:He. clear Hf. vm_compute in He. by injection He as <- _.
Defined.
