(* ===== verification/HubRouter.v ===== *)
(** * The standalone hub put together

    The handlers of HubSrv.v over the router of Routing.v and RoutingSteps.v
    and the standalone backend of Backend.v. A handler is one goroutine among
    others: wherever it waits (for the router's locks, the send loop, the
    answer of a peer, the database) the others act, in any way at all. The
    class [Others] is the schedule: what they do and what the network answers,
    indexed by the number of waits so far; between the statements of one call
    of the backend it is [Platform.Others] who act. Progress is assumed where the code
    relies on it: a lock is released in the end, a send loop gets to run, a
    call's context ends, a stream ends. *)
From S2P Require Import Prelude GoStrings GoEncoding GoTime TurnCreds Version Sharding Grpc BePb.
From S2P Require Import Attestation RosterPb Store StoreInv Platform Backend BackendSteps AdminApi.
From S2P Require Import AdminProps HubSrv HubProps.
From S2P Require Import Routing RoutingSteps RoutingProps.
Open Scope Z_scope.

(** ** What the handlers keep

    A property of the state that every operation of the two interfaces keeps
    is kept by every handler; [router_connect] is apart, as only [StartServing]
    calls it. *)
Section contract.
Context `{Crypto} `{HP : HubPb} `{RateLib} {S : Type}.
Context `{!BackendClient S} `{!RouterClient S}.

Record ops_keep (P : S -> Prop) : Prop := {
  k_register t : keeps P (be_CompleteNodeRegistration t);
  k_authenticate r : keeps P (be_AuthenticateNode r);
  k_list id : keeps P (be_ListNodes id);
  k_roster id : keeps P (be_GetRoster id);
  k_metadata id : keeps P (be_GetGroupMetadata id);
  k_policy id : keeps P (be_GetTurnPolicy id);
  k_update r : keeps P (be_UpdateRoster r);
  k_last_seen id n : keeps P (be_UpdateNodeLastSeen id n);
  k_deregister id n : keeps P (be_DeregisterNode id n);
  k_log r : keeps P (be_LogActivity r);
  k_exchange cg r : keeps P (exchange cg r);
  k_disconnect c s : P s -> P (router_disconnect c s);
  k_send r : keeps P (stream_send r);
  k_run c s : P s -> P (conn_run c s);
  k_shed cg n c s : P s -> P (shed_start cg n c s);
  k_stop c s : P s -> P (shed_stop c s);
  k_clock s : P s -> P (snd (clock s))
}.

(** The calls of the service. *)
Inductive hub_call :=
| HRegister (token : string)
| HPair (ctx : option metadata) (req : PairNodesMessage)
| HUpdateRoster (ctx : option metadata) (roster : Roster)
| HListNodes (ctx : option metadata)
| HGetRoster (ctx : option metadata)
| HGetGroupMetadata (ctx : option metadata)
| HGetStunTurnConfig (ctx : option metadata)
| HStartConnection (ctx : option metadata) (req : StartConnectionRequest)
| HDeregister (ctx : option metadata)
| HStartServing (latency : Z) (ctx : option metadata).
(** The state a call leaves, and how it ends: with an answer, with an error, or
    in a panic. *)
Definition outcome_of {A} (p : HubState (S := S) * result status A) :
    HubState * outcome (option status) :=
  (fst p, Return (match snd p with Ok _ => None | Err e => Some e end)).
(** A handler that may panic itself. *)
Definition panicking {A} (p : HubState (S := S) * result status (outcome A)) :
    HubState * outcome (option status) :=
  (fst p, match snd p with
          | Ok (Return _) => Return None
          | Ok (Panic msg) => Panic msg
          | Err e => Return (Some e)
          end).
Definition hub_serve (srv : HubServer) (minShed : version) (text : status -> string) (c : hub_call)
    (h : HubState (S := S)) : HubState * outcome (option status) :=
  match c with
  | HRegister token => outcome_of (HubSrv.CompleteNodeRegistration token h)
  | HPair ctx req => outcome_of (PairNodes ctx req h)
  | HUpdateRoster ctx roster => outcome_of (HubSrv.UpdateRoster text ctx roster h)
  | HListNodes ctx => outcome_of (HubSrv.ListNodes ctx h)
  | HGetRoster ctx => outcome_of (HubSrv.GetRoster ctx h)
  | HGetGroupMetadata ctx => outcome_of (HubSrv.GetGroupMetadata ctx h)
  | HGetStunTurnConfig ctx => panicking (GetStunTurnConfig srv ctx h)
  | HStartConnection ctx req => outcome_of (StartConnection text ctx req h)
  | HDeregister ctx => outcome_of (HubSrv.DeregisterNode ctx h)
  | HStartServing latency ctx => outcome_of (StartServing srv minShed latency ctx h)
  end.

Context (P : S -> Prop) (HP' : ops_keep P).
Let Q (h : HubState (S := S)) : Prop := P (rest h).

Lemma keeps_lift {E A} (m : ST S E A) : keeps P m -> keeps Q (lift m).
Proof. intros Hm h Hh. specialize (Hm _ Hh). unfold lift. by destruct (m (rest h)). Qed.
Lemma keeps_lift_pure {E} (f : S -> S) :
  (forall s, P s -> P (f s)) -> keeps Q (lift_pure f : ST HubState E unit).
Proof. intros Hf h Hh. by apply Hf. Qed.
Lemma keeps_read {E A} (f : S -> A) : keeps Q (read f : ST HubState E A).
Proof. by intros h Hh. Qed.
Lemma keeps_with_defer {E A} (f : S -> S) (m : ST HubState E A) :
  (forall s, P s -> P (f s)) -> keeps Q m -> keeps Q (with_defer f m).
Proof. intros Hf Hm h Hh. specialize (Hm _ Hh). unfold with_defer. destruct (m h). by apply Hf. Qed.
Lemma keeps_time_Now {E} : keeps Q (time_Now : ST HubState E Time).
Proof.
  intros h Hh. unfold time_Now. pose proof (k_clock _ HP' _ Hh) as Hc. by destruct (clock (rest h)).
Qed.
Lemma keeps_limiter_Allow {E} key : keeps Q (limiter_Allow key : ST HubState E bool).
Proof.
  apply keeps_bind; [apply keeps_time_Now|]. intros t h Hh. unfold limiter_Allow_at.
  by destruct (Allow key t (limiter h)).
Qed.
Lemma keeps_authenticate ctx : keeps Q (authenticateAndRateLimit ctx).
Proof.
  unfold authenticateAndRateLimit. destruct ctx as [md|]; [|apply keeps_throw].
  destruct (_ || _); [apply keeps_throw|]. destruct (Sscanf_int32 _); [|apply keeps_throw].
  apply keeps_bind; [apply keeps_limiter_Allow|]. intros [|]; [|apply keeps_throw].
  apply keeps_bind; [apply keeps_lift, HP'|]. intros []. apply keeps_ret.
Qed.
Lemma keeps_logActivity cg n ty ok details : keeps Q (logActivity cg n ty ok details).
Proof.
  apply keeps_bind; [apply keeps_attempt, keeps_lift, HP'|]. intros r. apply keeps_ret.
Qed.

End contract.

(** A handler, followed through its binds and branches. *)
Ltac keeps_tac :=
  repeat match goal with
  | |- forall _, _ => intros ?
  | |- keeps _ (mbind _ _) => apply keeps_bind
  | |- keeps _ (mret _) => apply keeps_ret
  | |- keeps _ (throw _) => apply keeps_throw
  | |- keeps _ (authenticateAndRateLimit _) => apply keeps_authenticate; assumption
  | |- keeps _ (logActivity _ _ _ _ _) => apply keeps_logActivity; assumption
  | |- keeps _ (attempt _) => apply keeps_attempt
  | |- keeps _ (lift (router_connect _ _)) => apply keeps_lift; auto
  | |- keeps _ (lift _) => apply keeps_lift; match goal with HP : ops_keep _ |- _ => apply HP end
  | |- keeps _ (lift_pure _) => apply keeps_lift_pure
  | |- keeps _ (read _) => apply keeps_read
  | |- keeps _ time_Now => apply keeps_time_Now; assumption
  | |- keeps _ (with_defer _ _) => apply keeps_with_defer
  | |- keeps _ (getEndorserCosignature _ _ _ _ _) => unfold getEndorserCosignature
  | |- keeps _ _ => case_match
  end.

Section handlers.
Context `{Crypto} `{HP : HubPb} `{RateLib} {S : Type}.
Context `{!BackendClient S} `{!RouterClient S}.
Context (P : S -> Prop) (HP' : ops_keep P).

Lemma handlers_keep srv minShed text c h :
  match c with HStartServing _ _ => forall cg n, keeps P (router_connect cg n) | _ => True end ->
  P (rest h) -> P (rest (fst (hub_serve srv minShed text c h))).
Proof.
  intros Hconn Hh.
  assert (forall A (m : ST HubState status A), keeps (fun h => P (rest h)) m -> P (rest (fst (m h)))) as Hm
    by (intros A m Hm; apply (Hm h Hh)).
  destruct c; cbn [hub_serve outcome_of panicking fst]; apply Hm.
  - apply keeps_lift, HP'.
  - unfold PairNodes. keeps_tac.
  - unfold UpdateRoster. keeps_tac.
  - unfold ListNodes. keeps_tac.
  - unfold GetRoster. keeps_tac.
  - unfold GetGroupMetadata. keeps_tac.
  - unfold GetStunTurnConfig. keeps_tac.
  - unfold StartConnection. keeps_tac.
  - unfold DeregisterNode. keeps_tac.
  - unfold StartServing. keeps_tac; try (case_match; [by apply HP'|done]); by apply HP'.
Qed.
End handlers.

(** A serving stream up to and from its connection. *)
Section serving.
Context `{Crypto} `{HP : HubPb} `{RateLib} {S : Type}.
Context `{!BackendClient S} `{!RouterClient S}.
Implicit Types (h : HubState (S := S)).

(** What the handler does between the authentication and its connection; and a
    call in four parts, each from the state the one before left. *)
Lemma StartServing_parts srv v lat ctx h h' r :
  StartServing srv v lat ctx h = (h', r) ->
  (exists e, r = Err e /\ authenticateAndRateLimit ctx h = (h', Err e)) \/
  exists h1 cg n h2, authenticateAndRateLimit ctx h = (h1, Ok (cg, n)) /\
    (_ ← attempt (E' := status) (lift (be_UpdateNodeLastSeen cg n));
     logActivity cg n "connect" true (event Connect_)) h1 = (h2, Ok tt) /\
    (forall P, ops_keep P -> P (rest h) -> P (rest h2)) /\
    ((exists e, router_connect cg n (rest h2) = (rest h', Err e)) \/
     exists h3 c h4, router_connect cg n (rest h2) = (rest h3, Ok c) /\
       rest h' = router_disconnect c (rest h4) /\
       (forall P, ops_keep P -> P (rest h3) -> P (rest h4))).
Proof.
  unfold StartServing.
  intros [(e & Hauth & ->)|(h1 & [cg n] & Hauth & Hb)]%ST_bind_cases; [by left; eauto|].
  apply ST_bind_cases in Hb as [(e & Hatt & _)|(h2 & ru & Hatt & Hb)]; [by apply attempt_no_Err in Hatt|].
  apply ST_bind_cases in Hb as [(e & Hlog & _)|(h3 & [] & Hlog & Hb)]; [by apply logActivity_no_Err in Hlog|].
  right. exists h1, cg, n, h3. split; [done|]. split; [unfold mbind, ST_bind; by rewrite Hatt|]. split.
  { intros P HP' Hh. pose proof (keeps_authenticate P HP' ctx h Hh) as K1. rewrite Hauth in K1.
    pose proof (keeps_attempt (E' := status) _ _ (keeps_lift P _ (k_last_seen _ HP' cg n)) h1 K1) as K2.
    rewrite Hatt in K2.
    pose proof (keeps_logActivity P HP' cg n "connect" true (event Connect_) h2 K2) as K3.
    by rewrite Hlog in K3. }
  apply ST_bind_cases in Hb as [(e & Hc & ->)|(h4 & c & Hc & Hb)].
  { left. exists e. revert Hc. unfold lift. destruct (router_connect _ _ _) as [s [|]]; [done|].
    by intros [= <- <-]. }
  right. apply lift_Ok in Hc as [Hc _]. apply with_defer_inv in Hb as (h5 & Hb & Hrest).
  exists h4, c, h5. split; [done|]. split; [done|]. intros P HP' Hh.
  match type of Hb with ?m h4 = _ => assert (keeps (fun h => P (rest h)) m) as Hk end.
  { keeps_tac; try (case_match; [by apply HP'|done]); by apply HP'. }
  specialize (Hk h4 Hh). by rewrite Hb in Hk.
Qed.
End serving.

(** ** The router and the backend behind the interfaces *)

(** The messages on the serving streams: what the hub builds and reads, with
    the request id of the router; a check-in carries no answer. *)
Record WireRequest `{HubPb} := { wq_RequestId : Z; wq_request : HubSrv.ServingRequest }.
Record WireResponse `{HubPb} :=
  { wp_RequestId : Z; wp_CheckIn : bool; wp_response : HubSrv.ServingResponse }.
#[export] Instance hub_routing_pb `{HubPb} : RoutingPb := {
  Routing.ServingRequest := WireRequest;
  GetDestNodeNumber := fun m => sr_DestNodeNumber (wq_request m);
  GetRequestId := wq_RequestId;
  set_RequestId := fun id m => {| wq_RequestId := id; wq_request := wq_request m |};
  GetRequestId_set := fun id m => eq_refl;
  GetDestNodeNumber_set := fun id m => eq_refl;
  Routing.ServingResponse := WireResponse;
  resp_GetRequestId := wp_RequestId;
  is_CheckIn := wp_CheckIn
}.

Section hub.
Context `{Crypto} `{HP : HubPb} `{RateLib} `{Platform} `{JwtLib}.
(** What runs between the statements of a call of the backend. *)
Context {Oth : Platform.Others}.

Class Others := {
  (** what other goroutines do to the router and to the database *)
  other_actions : nat -> list (string * action);
  other_calls : nat -> list call;
  (** what [select] picks in [send] when both branches are ready *)
  send_pick : nat -> sendBranch;
  (** whether the [stream.Send] a send loop is in succeeds *)
  send_returns : nat -> bool;
  (** the error of the caller's context, if it has ended; the error it ends
      with; and what [select] picks in [Await] when both are ready *)
  ctx_err : nat -> option status;
  ctx_end : nat -> status;
  prefer_ctx : nat -> bool;
  (** the error of sending the welcome *)
  welcome_err : nat -> option status;
  (** the connectors whose shed timers fire *)
  other_sheds : nat -> list (string * nat)
}.
Context {O : Others}.

(** The router's groups, each with the goroutines in it; the flags of the
    running shed timers, by group and connector; whether a goroutine panicked. *)
Record Hub := {
  sessions : gmap string Sys;
  shedFlags : gmap (string * nat) bool;
  panicked : bool;
  waits : nat;
  world : World
}.
Definition newHub (w : World) : Hub :=
  {| sessions := ∅; shedFlags := ∅; panicked := false; waits := 0; world := w |}.
Definition with_session (cg : string) (s : Sys) (h : Hub) : Hub :=
  {| sessions := <[cg := s]> (sessions h); shedFlags := shedFlags h; panicked := panicked h;
     waits := waits h; world := world h |}.
Definition with_world (w : World) (h : Hub) : Hub :=
  {| sessions := sessions h; shedFlags := shedFlags h; panicked := panicked h;
     waits := waits h; world := w |}.
Definition with_flags (m : gmap (string * nat) bool) (h : Hub) : Hub :=
  {| sessions := sessions h; shedFlags := m; panicked := panicked h;
     waits := waits h; world := world h |}.
Definition next_wait (h : Hub) : Hub :=
  {| sessions := sessions h; shedFlags := shedFlags h; panicked := panicked h;
     waits := Datatypes.S (waits h); world := world h |}.
Definition panic (h : Hub) : Hub :=
  {| sessions := sessions h; shedFlags := shedFlags h; panicked := true;
     waits := waits h; world := world h |}.

(** [findOrCreateGroup]. *)
Definition session (cg : string) (h : Hub) : Sys := default (init cg) (sessions h !! cg).
(** The router as its callers see it. *)
Definition router (h : Hub) : Router := grp <$> sessions h.

(** An action of a goroutine in a group; one that is not enabled is skipped. *)
Definition act (cg : string) (a : action) (h : Hub) : Hub :=
  match RoutingSteps.exec a (session cg h) with
  | Some (Return s) => with_session cg s h
  | Some (Panic _) => panic h
  | None => h
  end.
(** A shed timer: it sets its flag and then closes its connector. *)
Definition shed_fires (c : string * nat) (h : Hub) : Hub :=
  if decide (is_Some (shedFlags h !! c))
  then act c.1 (ACancel c.2) (with_flags (<[c := true]> (shedFlags h)) h)
  else h.
(** Waiting: the others act. *)
Definition interfere (h : Hub) : Hub :=
  let k := waits h in
  let h := foldl (fun h e => act e.1 e.2 h) h (other_actions k) in
  let h := foldl (fun h c => shed_fires c h) h (other_sheds k) in
  next_wait (with_world (foldl run_call (world h) (other_calls k)) h).
(** Acquiring the group's mutex: a [connect] that holds it finishes. *)
Definition lock (cg : string) (h : Hub) : Hub := act cg AConnected (interfere h).

(** [RouteRequest]; the result is the place of the caller, which holds its future. *)
Definition RouteRequest (cg : string) (req : HubSrv.ServingRequest) (h : Hub) : nat * Hub :=
  let t := length (callers (session cg h)) in
  let h := act cg (ANumber {| wq_RequestId := 0; wq_request := req |}) h in
  let h := act cg (ALookup t) (lock cg h) in
  let h :=
    match callers (session cg h) !! t with
    | Some (Found _ _ c) =>
        (* the send loop gets to its select, or has returned *)
        let h := interfere h in
        let k := waits h in
        let h := act cg (ASendReturns c (send_returns k)) (act cg (ARun c) h) in
        act cg (ASend t contextDone) (act cg (ASend t handOver) (act cg (ASend t (send_pick k)) h))
    | _ => h
    end in
  (t, act cg (ARegister t) (lock cg h)).

(** A response that is nil reads as empty. *)
Definition nilResponse : HubSrv.ServingResponse :=
  {| sp_Error := ""; sp_PairNodesMessage := None; sp_EndorserSignature := None;
     sp_StartConnectionResponse := None |}.
(** [future.Await(ctx)]: while the future is open it blocks until the context ends. *)
Definition await (cg : string) (t : nat) (h : Hub) : result status HubSrv.ServingResponse :=
  let k := waits h in
  match callers (session cg h) !! t with
  | Some (Returned _ f) =>
      match futStore (grp (session cg h)) !! f with
      | Some fr =>
          match Await fr (ctx_err k) (prefer_ctx k) with
          | Some (Some resp, None) => Ok (wp_response resp)
          | Some (None, None) => Ok nilResponse
          | Some (_, Some e) => Err e
          | None => Err (ctx_end k)
          end
      | None => Err (ctx_end k)
      end
  | _ => Err (ctx_end k)
  end.

(** A call of the standalone backend: it waits for the database before each of
    its statements, and for its turn before the first. *)
Definition on_world {E A} (m : ST World E A) : ST Hub E A := fun h =>
  let h := interfere h in
  let '(w, r) := m (world h) in (with_world w h, r).

#[export] Instance hub_client (b : Backend) : BackendClient Hub := {
  be_CompleteNodeRegistration t := on_world (Backend.CompleteNodeRegistration b t);
  be_AuthenticateNode r := on_world (Backend.AuthenticateNode r);
  be_ListNodes id := on_world (Backend.ListNodes id);
  be_GetRoster id := on_world (Backend.GetRoster id);
  be_GetGroupMetadata id := on_world (Backend.GetGroupMetadata b id);
  be_GetTurnPolicy id := on_world (Backend.GetTurnPolicy b id);
  be_UpdateRoster r := on_world (Backend.UpdateRoster r);
  be_UpdateNodeLastSeen id n := on_world (Backend.UpdateNodeLastSeen id n);
  be_DeregisterNode id n := on_world (Backend.DeregisterNode id n);
  be_LogActivity r := on_world (Backend.LogActivity r)
}.
#[export] Instance hub_router : RouterClient Hub := {
  exchange cg req := fun h =>
    let '(t, h) := RouteRequest cg req h in
    let h := interfere h in (h, await cg t h);
  isNodeConnected h cg n := IsNodeConnected cg n (router h);
  Conn := string * nat;
  router_connect cg n := fun h =>
    let h := lock cg h in
    let c := length (connStore (grp (session cg h))) in
    (act cg AConnected (interfere (act cg (AConnect n) h)), Ok (cg, c));
  router_disconnect c h := act c.1 (ADisconnect c.2) (lock c.1 h);
  stream_send _ := fun h =>
    (interfere h, match welcome_err (waits h) with Some e => Err e | None => Ok tt end);
  (* [Run]: the stream is served until it breaks, is replaced or is shed *)
  conn_run c h := act c.1 (ACancel c.2) (interfere (act c.1 (ARun c.2) h));
  conn_evicted c h := Evicted c.2 (grp (session c.1 h));
  shed_start cg n c h := with_flags (<[c := false]> (shedFlags h)) h;
  shed_stop c h := with_flags (delete c (shedFlags h)) h;
  shed_load c h := default false (shedFlags h !! c);
  clock h := (now (tick (world h)),
    with_world {| db := db (world h); tick := Datatypes.S (tick (world h)) |} h)
}.

(** ** Serving *)

(** A call of a node on the hub: a panic in a handler is one of the process, as
    nothing recovers it. *)
Definition serve_node `{!BackendClient Hub} (srv : HubServer) (minShed : version) (text : status -> string)
    (h : HubState (S := Hub)) (c : hub_call) : HubState :=
  match hub_serve srv minShed text c h with
  | (h, Return _) => h
  | (h, Panic _) => {| limiter := limiter h; rest := panic (rest h) |}
  end.

(** ** The invariant *)

Context `{!Lawful Oth}.
(** Every group is in a state the router can reach, no goroutine has panicked,
    and the database is well formed. *)
Record hub_ok (h : Hub) : Prop := {
  ok_sessions cg s : sessions h !! cg = Some s -> reachable cg s;
  ok_panicked : panicked h = false;
  ok_db : wf_db canonical_id (db (world h))
}.
(** Closed under what can happen to the hub, when only actions that satisfy [A]
    are taken on the router. *)
Record closed (A : action -> Prop) (P : Hub -> Prop) : Prop := {
  cl_act cg a h : A a -> P h -> P (act cg a h);
  cl_flags m h : P h -> P (with_flags m h);
  cl_world w h : P h -> wf_db canonical_id (db w) -> P (with_world w h);
  cl_wait h : P h -> P (next_wait h);
  cl_db h : P h -> wf_db canonical_id (db (world h))
}.
Definition any_action (a : action) : Prop := True.
(** What a handler itself does to the router, except for [connect], is [not_connect]. *)

Lemma ok_session cg h : hub_ok h -> reachable cg (session cg h).
Proof.
  intros Hok. unfold session. destruct (sessions h !! cg) as [s|] eqn:Hs; cbn.
  - by eapply ok_sessions.
  - apply rtc_refl.
Qed.
Lemma act_ok cg a h : hub_ok h -> hub_ok (act cg a h).
Proof.
  intros Hok. pose proof (ok_session cg h Hok) as Hr. unfold act.
  pose proof (safe_exec a _ (inv_reachable _ _ Hr)) as Hs.
  destruct (RoutingSteps.exec a (session cg h)) as [[s|msg]|] eqn:He; [|done|done].
  destruct Hok as [Hse Hp Hd]. split; cbn; [|done|done].
  intros cg' s' [[<- <-]|[_ Hs']]%lookup_insert_Some; [|by apply Hse].
  eapply rtc_r; [exact Hr|]. by exists a.
Qed.
Lemma newHub_ok w : wf_db canonical_id (db w) -> hub_ok (newHub w).
Proof. split; [|done|done]. intros cg s. cbn. by rewrite lookup_empty. Qed.
Lemma hub_ok_closed : closed any_action hub_ok.
Proof.
  split.
  - intros cg a h _. apply act_ok.
  - by intros m h [? ? ?].
  - by intros w h [? ? ?] ?.
  - by intros h [? ? ?].
  - apply ok_db.
Qed.

(** Waiting, and every operation of the interfaces, keeps a closed property. *)
Section closed.
Context (A : action -> Prop) (HA : forall k e, e ∈ other_actions k -> A e.2).
Context (Hours : forall a, not_connect a -> A a).
Context (P : Hub -> Prop) (HP' : closed A P).

Lemma act_closed cg a h : not_connect a -> P h -> P (act cg a h).
Proof. intros Ha. by apply HP', Hours. Qed.
Lemma interfere_closed h : P h -> P (interfere h).
Proof.
  intros Hh. unfold interfere. pose proof (HA (waits h)) as Hk. set (h1 := foldl _ h (other_actions _)).
  assert (P h1) as Hh1.
  { subst h1. revert Hk. generalize (other_actions (waits h)). intros l. revert h Hh.
    induction l as [|e l IH]; intros h Hh Hl; [done|]. apply IH.
    - apply HP'; [apply Hl; by left|done].
    - intros e' He'. apply Hl. by right. }
  set (h2 := foldl _ h1 _).
  assert (P h2) as Hh2.
  { subst h2. generalize (other_sheds (waits h)). intros l. clearbody h1. clear Hh Hk. revert h1 Hh1.
    induction l as [|c l IH]; intros h1 Hh1; [done|]. apply IH. unfold shed_fires.
    case_decide; [|done]. by apply act_closed, HP'. }
  apply HP', HP'; [done|]. eapply steps_good; [apply run_calls_steps|by eapply cl_db].
Qed.
Lemma lock_closed cg h : P h -> P (lock cg h).
Proof. intros. by apply act_closed, interfere_closed. Qed.
Lemma RouteRequest_closed cg req h : P h -> P (snd (RouteRequest cg req h)).
Proof.
  intros Hh. unfold RouteRequest. cbn [snd]. apply act_closed, lock_closed; [done|].
  assert (P (act cg (ALookup (length (callers (session cg h)))) (lock cg
    (act cg (ANumber {| wq_RequestId := 0; wq_request := req |}) h)))) as Hh1
    by by apply act_closed, lock_closed, act_closed.
  case_match; [|done]. case_match; try done.
  do 5 (apply act_closed; [done|]). by apply interfere_closed.
Qed.
Lemma on_world_closed {E B} (m : ST World E B) : steps m -> keeps P (on_world m).
Proof.
  intros Hm h Hh%interfere_closed. unfold on_world. specialize (Hm (world (interfere h))).
  destruct (m _) as [w r]. apply HP'; [done|]. eapply steps_good; [exact Hm|by eapply cl_db].
Qed.
Lemma ops_closed b : @ops_keep _ _ Hub (hub_client b) hub_router P.
Proof.
  split.
  1-10: intros; apply on_world_closed; intros w.
  - apply (serve_steps b (RCompleteNodeRegistration t)).
  - apply (serve_steps b (RAuthenticateNode r)).
  - apply (serve_steps b (RListNodes id)).
  - apply (serve_steps b (RGetRoster id)).
  - apply (serve_steps b (RGetGroupMetadata id)).
  - apply (serve_steps b (RGetTurnPolicy id)).
  - apply (serve_steps b (RUpdateRoster r)).
  - apply (serve_steps b (RUpdateNodeLastSeen id n)).
  - apply (serve_steps b (RDeregisterNode id n)).
  - apply (serve_steps b (RLogActivity r)).
  - intros cg r h Hh%(RouteRequest_closed cg r). revert Hh. cbn.
    destruct (RouteRequest cg r h) as [t h1]. apply interfere_closed.
  - intros c h Hh. by apply act_closed, lock_closed.
  - intros r h Hh. cbn. by apply interfere_closed.
  - intros c h Hh. by apply act_closed, interfere_closed, act_closed.
  - intros cg n c h Hh. by apply HP'.
  - intros c h Hh. by apply HP'.
  - intros h Hh. apply HP'; [done|]. by apply (cl_db _ _ HP') in Hh.
Qed.
End closed.

(** What any action keeps, [connect] keeps too. *)
Lemma closed_any P : closed any_action P ->
  (forall h, P h -> P (interfere h)) /\ (forall cg h, P h -> P (lock cg h)) /\
  (forall b, @ops_keep _ _ Hub (hub_client b) hub_router P) /\
  forall cg n, keeps P (router_connect cg n).
Proof.
  intros HP'. assert (forall k e, e ∈ other_actions k -> any_action e.2) as HA by done.
  assert (forall a, not_connect a -> any_action a) as Ho by done. split_and!.
  - by apply interfere_closed with any_action.
  - by apply lock_closed with any_action.
  - by apply ops_closed with any_action.
  - intros cg n h Hh. cbn. apply HP'; [done|]. apply interfere_closed with any_action; [done..|].
    apply HP'; [done|]. by apply lock_closed with any_action.
Qed.
Lemma interfere_ok h : hub_ok h -> hub_ok (interfere h).
Proof. apply (closed_any _ hub_ok_closed). Qed.
Lemma lock_ok cg h : hub_ok h -> hub_ok (lock cg h).
Proof. apply (closed_any _ hub_ok_closed). Qed.
Lemma RouteRequest_ok cg req h : hub_ok h -> hub_ok (snd (RouteRequest cg req h)).
Proof. by apply RouteRequest_closed with any_action; [| |apply hub_ok_closed]. Qed.
End hub.
