(* ===== verification/HubRouterProps.v ===== *)
(** * Correctness of the standalone hub as a whole

    What the composition of handlers, router and backend in HubRouter.v
    promises under every schedule of the other goroutines, and what it does
    when nobody interferes. *)
From S2P Require Import Prelude GoStrings GoEncoding GoTime TurnCreds Version Sharding Grpc BePb.
From S2P Require Import Attestation RosterPb Store StoreInv Platform Backend BackendSteps AdminApi.
From S2P Require Import BackendProps AdminProps HubSrv HubProps.
From S2P Require Import Routing RoutingSteps RoutingProps HubRouter.
Open Scope Z_scope.

Section hub.
Context `{Crypto} `{HP : HubPb} `{RateLib} `{Platform} `{JwtLib} {Oth : Platform.Others} `{!Lawful Oth} {O : Others}.

(** ** Callers make progress

    Whatever the others do, a caller of [RouteRequest] only moves forward. *)
Definition advances (pc pc' : routePC) : Prop :=
  pc' = pc \/ (pc_req pc' = pc_req pc /\ (pc_rank pc < pc_rank pc')%nat).
Lemma advances_trans pc1 pc2 pc3 : advances pc1 pc2 -> advances pc2 pc3 -> advances pc1 pc3.
Proof.
  intros [->|[Hr1 Hk1]] [->|[Hr2 Hk2]]; [by left|by right|by right|].
  right. split; [congruence|lia].
Qed.
(** Caller [t] of group [cg] is at [pc] or further. *)
Definition reached (cg : string) (t : nat) (pc : routePC) (h : Hub) : Prop :=
  exists pc', callers (session cg h) !! t = Some pc' /\ advances pc pc'.

Lemma exec_advances a s s' t pc :
  RoutingSteps.exec a s = Some (Return s') -> callers s !! t = Some pc ->
  exists pc', callers s' !! t = Some pc' /\ advances pc pc'.
Proof.
  intros Ha Ht. apply exec_callers in Ha as [(req & -> & _ & Hc)|[[_ Hc]|(_ & t' & pc1 & pc2 & Ht1 & Hc & Hr & Hk)]];
    rewrite Hc.
  - exists pc. split; [apply snoc_lookup; by left|by left].
  - exists pc. split; [done|by left].
  - destruct (decide (t' = t)) as [->|Hne].
    + rewrite Ht1 in Ht. injection Ht as ->. exists pc2.
      split; [|by right]. apply list_lookup_insert_eq. by eapply lookup_lt_Some.
    + exists pc. rewrite list_lookup_insert_ne by done. split; [done|by left].
Qed.
Lemma session_other cg cg' s h : cg <> cg' -> session cg (with_session cg' s h) = session cg h.
Proof. intros Hne. unfold session. cbn. by rewrite lookup_insert_ne. Qed.
Lemma session_with cg s h : session cg (with_session cg s h) = s.
Proof. unfold session. cbn. by rewrite lookup_insert_eq. Qed.
Lemma session_next cg w h : session cg (next_wait (with_world w h)) = session cg h.
Proof. done. Qed.
Lemma act_Return cg a h s :
  RoutingSteps.exec a (session cg h) = Some (Return s) -> act cg a h = with_session cg s h.
Proof. unfold act. by intros ->. Qed.
Lemma act_None cg a h : RoutingSteps.exec a (session cg h) = None -> act cg a h = h.
Proof. unfold act. by intros ->. Qed.
Lemma reached_act cg t pc cg' a h : reached cg t pc h -> reached cg t pc (act cg' a h).
Proof.
  intros (pc' & Ht & Hadv). unfold act.
  destruct (RoutingSteps.exec a (session cg' h)) as [[s|]|] eqn:Ha; [|by exists pc'..].
  unfold reached. destruct (decide (cg = cg')) as [->|Hne].
  - rewrite session_with. destruct (exec_advances _ _ _ _ _ Ha Ht) as (pc2 & Ht2 & Hadv2).
    exists pc2. split; [done|by eapply advances_trans].
  - rewrite session_other by done. by exists pc'.
Qed.
Lemma reached_interfere cg t pc h : reached cg t pc h -> reached cg t pc (interfere h).
Proof.
  intros Hr. unfold interfere. set (h1 := foldl _ h (other_actions _)).
  assert (reached cg t pc h1) as Hr1.
  { subst h1. generalize (other_actions (waits h)). intros l. revert h Hr.
    induction l as [|e l IH]; intros h Hr; [done|]. by apply IH, reached_act. }
  set (h2 := foldl _ h1 _).
  assert (reached cg t pc h2) as Hr2; [|exact Hr2].
  subst h2. generalize (other_sheds (waits h)). intros l. clearbody h1. clear Hr. revert h1 Hr1.
  induction l as [|c l IH]; intros h1 Hr1; [done|]. apply IH. unfold shed_fires.
  case_decide; [by apply reached_act|done].
Qed.
Lemma reached_lock cg t pc cg' h : reached cg t pc h -> reached cg t pc (lock cg' h).
Proof. intros. by apply reached_act, reached_interfere. Qed.
Lemma reached_refl cg t pc h : callers (session cg h) !! t = Some pc -> reached cg t pc h.
Proof. intros. exists pc. split; [done|by left]. Qed.

(** A mutex that was just acquired is free. *)
Lemma lock_free cg h : hub_ok h -> connecting (session cg (lock cg h)) = None.
Proof.
  intros Hok%interfere_ok. unfold lock. generalize dependent (interfere h). intros h' Hok.
  unfold act. cbn [RoutingSteps.exec].
  destruct (connecting (session cg h')) as [[[n c] p]|] eqn:Hc; cbn; [by rewrite session_with|done].
Qed.
(** An enabled action does not panic, and is done. *)
Lemma act_enabled cg a h :
  hub_ok h -> RoutingSteps.exec a (session cg h) <> None ->
  exists s, RoutingSteps.exec a (session cg h) = Some (Return s) /\ session cg (act cg a h) = s.
Proof.
  intros Hok Hen. pose proof (safe_exec a _ (inv_reachable _ _ (ok_session cg h Hok))) as Hs.
  unfold act. destruct (RoutingSteps.exec a (session cg h)) as [[s|]|] eqn:He; [|done|done].
  exists s. split; [done|apply session_with].
Qed.
(** An action of caller [t] itself moves it on. *)
Lemma act_advances cg a h t pc :
  hub_ok h -> callers (session cg h) !! t = Some pc ->
  RoutingSteps.exec a (session cg h) <> None ->
  (forall s, RoutingSteps.exec a (session cg h) = Some (Return s) -> callers s !! t <> Some pc) ->
  exists pc', callers (session cg (act cg a h)) !! t = Some pc' /\ pc_req pc' = pc_req pc /\
    (pc_rank pc < pc_rank pc')%nat.
Proof.
  intros Hok Ht Hen Hne. destruct (act_enabled cg a h Hok Hen) as (s & He & ->).
  destruct (exec_advances _ _ _ _ _ He Ht) as (pc' & Ht' & [->|[Hr Hk]]); [by destruct (Hne s He)|eauto].
Qed.

Lemma lookup_moves cg t h pc :
  hub_ok h -> connecting (session cg h) = None -> callers (session cg h) !! t = Some pc ->
  exists pc', callers (session cg (act cg (ALookup t) h)) !! t = Some pc' /\ advances pc pc' /\
    (1 <= pc_rank pc')%nat.
Proof.
  intros Hok Hlock Ht.
  destruct (reached_act cg t pc cg (ALookup t) h (reached_refl _ _ _ _ Ht)) as (pc1 & Ht1 & Hadv).
  exists pc1. split; [done|]. split; [done|]. destruct pc as [rq|rq f c|rq f|rq f];
    try (destruct Hadv as [->|[_ Hk]]; cbn in *; lia).
  destruct (act_advances cg (ALookup t) h t (Numbered rq) Hok Ht) as (pc2 & Ht2 & _ & Hk).
  - cbn [RoutingSteps.exec]. rewrite Ht. unfold locked. by rewrite Hlock.
  - intros s. cbn [RoutingSteps.exec]. rewrite Ht. unfold locked. rewrite Hlock. intros [= Hs].
    revert Hs. destruct (routeRequest_lookup _ _) as [[[f [c|]] g]|]; cbn; [| |done]; intros [= <-];
      unfold set_caller; cbn; rewrite list_lookup_insert_eq by (by eapply lookup_lt_Some); done.
  - rewrite Ht1 in Ht2. injection Ht2 as ->. cbn in Hk. lia.
Qed.
Lemma register_moves cg t h rq f :
  hub_ok h -> connecting (session cg h) = None -> callers (session cg h) !! t = Some (Sent rq f) ->
  exists f', callers (session cg (act cg (ARegister t) h)) !! t = Some (Returned rq f').
Proof.
  intros Hok Hlock Ht. exists f. erewrite act_Return; [rewrite session_with|].
  2:{ cbn [RoutingSteps.exec]. rewrite Ht. unfold locked. by rewrite Hlock. }
  unfold set_caller. cbn. apply list_lookup_insert_eq. by eapply lookup_lt_Some.
Qed.

(** The send loop of a connector that exists can be brought to its [select],
    or has returned and left the connector cancelled. *)
Definition can_send (cg : string) (c : nat) (h : Hub) : Prop :=
  exists conn, connStore (grp (session cg h)) !! c = Some conn /\
    (sender conn = selecting \/ cancelled conn = true).
Lemma unstick cg h t rq f c ok :
  hub_ok h -> callers (session cg h) !! t = Some (Found rq f c) ->
  let h' := act cg (ASendReturns c ok) (act cg (ARun c) h) in
  callers (session cg h') !! t = Some (Found rq f c) /\ can_send cg c h'.
Proof.
  intros Hok Ht h'. destruct (inv_reachable _ _ (ok_session cg h Hok)) as [_ Hci Hfound].
  destruct (Hfound _ _ _ _ Ht) as [conn Hc]. subst h'. unfold can_send.
  destruct (sender conn) as [| |rq'|] eqn:Hs.
  - rewrite (act_Return cg (ARun c) h (with_grp (set_sender selecting c (grp (session cg h))) (session cg h)))
      by (cbn; rewrite Hc; cbn; by rewrite Hs).
    rewrite act_None.
    + rewrite session_with. split; [done|]. eexists. cbn. rewrite list_lookup_alter_eq, Hc. cbn. eauto.
    + rewrite session_with. cbn. rewrite list_lookup_alter_eq, Hc. done.
  - rewrite (act_None cg (ARun c)) by (cbn; rewrite Hc; cbn; by rewrite Hs).
    rewrite act_None by (cbn; rewrite Hc; cbn; by rewrite Hs). eauto.
  - rewrite (act_None cg (ARun c)) by (cbn; rewrite Hc; cbn; by rewrite Hs).
    erewrite act_Return by (cbn; rewrite Hc; cbn; rewrite Hs; reflexivity).
    rewrite session_with. destruct ok; (split; [done|]); eexists; cbn;
      rewrite ?list_lookup_alter_eq, Hc; cbn; eauto.
  - rewrite (act_None cg (ARun c)) by (cbn; rewrite Hc; cbn; by rewrite Hs).
    rewrite act_None by (cbn; rewrite Hc; cbn; by rewrite Hs).
    split; [done|]. exists conn. split; [done|]. right.
    apply (ci_cancelled _ _ _ Hci _ _ Hc). by right.
Qed.

Definition sent (cg : string) (t : nat) (rq : WireRequest) (h : Hub) : Prop :=
  exists pc, callers (session cg h) !! t = Some pc /\ pc_req pc = rq /\ (2 <= pc_rank pc)%nat.
Lemma sent_act cg t rq cg' a h : sent cg t rq h -> sent cg t rq (act cg' a h).
Proof.
  intros (pc & Ht & <- & Hk). destruct (reached_act cg t pc cg' a h (reached_refl _ _ _ _ Ht))
    as (pc' & Ht' & [->|[Hr Hk']]); exists pc' || exists pc; split_and!; try done; lia.
Qed.
(** A branch of the [select] is taken or is not ready. *)
Lemma send_try cg t b rq f c h :
  hub_ok h -> callers (session cg h) !! t = Some (Found rq f c) ->
  RoutingSteps.exec (ASend t b) (session cg h) = None \/ sent cg t rq (act cg (ASend t b) h).
Proof.
  intros Hok Ht. destruct (RoutingSteps.exec (ASend t b) (session cg h)) as [o|] eqn:He; [right|by left].
  destruct (act_advances cg (ASend t b) h t _ Hok Ht) as (pc & Ht' & Hr & Hk); [by rewrite He|..].
  - intros s. cbn [RoutingSteps.exec]. rewrite Ht. unfold send. intros Hs.
    destruct (_ !! c) as [conn|]; [|done]. revert Hs. cbn. destruct b.
    + destruct (sender conn); try done. cbn. intros [= <-]. cbn.
      rewrite list_lookup_insert_eq by (by eapply lookup_lt_Some). done.
    + destruct (cancelled conn); [|done]. cbn. destruct (fail _ _ _); cbn; [|done]. intros [= <-]. cbn.
      rewrite list_lookup_insert_eq by (by eapply lookup_lt_Some). done.
  - exists pc. cbn in Hr, Hk. split_and!; [done|done|lia].
Qed.
Lemma send_moves cg t rq f c pick h :
  hub_ok h -> callers (session cg h) !! t = Some (Found rq f c) -> can_send cg c h ->
  sent cg t rq (act cg (ASend t contextDone) (act cg (ASend t handOver) (act cg (ASend t pick) h))).
Proof.
  intros Hok Ht (conn & Hc & Hready).
  destruct (send_try cg t pick rq f c h Hok Ht) as [He|?]; [|by do 2 apply sent_act].
  rewrite (act_None _ _ _ He). clear He.
  destruct (send_try cg t handOver rq f c h Hok Ht) as [He|?]; [|by apply sent_act].
  rewrite (act_None _ _ _ He).
  destruct (send_try cg t contextDone rq f c h Hok Ht) as [Hd|?]; [|done]. exfalso.
  revert He Hd. cbn [RoutingSteps.exec]. rewrite Ht. unfold send. rewrite Hc. cbn.
  destruct Hready as [Hr|Hr]; rewrite Hr; [done|]. intros _. by repeat case_match.
Qed.

(** [RouteRequest] returns, with a future for its own request. *)
Lemma RouteRequest_returns cg req h :
  hub_ok h ->
  let '(t, h') := RouteRequest cg req h in
  exists rq f, callers (session cg h') !! t = Some (Returned rq f) /\ wq_request rq = req.
Proof.
  intros Hok. unfold RouteRequest. set (t := length (callers (session cg h))).
  set (h1 := act cg (ANumber _) h).
  assert (reached cg t (Numbered {| wq_RequestId := wrap64 (msgCounter (grp (session cg h)) + 1);
    wq_request := req |}) h1) as Hr1.
  { apply reached_refl. unfold h1. erewrite act_Return by reflexivity. rewrite session_with. cbn.
    apply snoc_lookup. by right. }
  assert (hub_ok (lock cg h1)) as Hok1 by by apply lock_ok, act_ok.
  apply (reached_lock _ _ _ cg) in Hr1 as (pc1 & Ht1 & Hadv1).
  destruct (lookup_moves cg t _ _ Hok1 (lock_free cg _ (act_ok cg _ _ Hok)) Ht1) as (pc2 & Ht2 & Hadv2 & Hk2).
  set (h2 := act cg (ALookup t) (lock cg h1)) in *.
  assert (hub_ok h2) as Hok2 by by apply act_ok.
  assert (wq_request (pc_req pc2) = req) as Hreq.
  { destruct (advances_trans _ _ _ Hadv1 Hadv2) as [->|[-> _]]; done. }
  rewrite Ht2. set (h3 := match pc2 with Found _ _ _ => _ | _ => _ end).
  assert (hub_ok h3 /\ exists pc3, callers (session cg h3) !! t = Some pc3 /\
    wq_request (pc_req pc3) = req /\ (2 <= pc_rank pc3)%nat) as [Hok3 (pc3 & Ht3 & Hreq3 & Hk3)].
  { subst h3. destruct pc2 as [?|rq f c|? ?|? ?]; [cbn in Hk2; lia| |
      (split; [done|]; eexists; split_and!; [exact Ht2|done|cbn; lia])..].
    apply reached_refl, reached_interfere in Ht2. pose proof (interfere_ok _ Hok2) as Hoki.
    split; [by repeat apply act_ok|].
    generalize dependent (interfere h2). intros hi Hti Hoki. destruct Hti as (pc' & Ht' & [->|[Hr' Hk']]).
    - destruct (unstick cg hi t rq f c (send_returns (waits hi)) Hoki Ht') as [Hf Hcan].
      destruct (send_moves cg t rq f c (send_pick (waits hi)) _
        (act_ok _ _ _ (act_ok _ _ _ Hoki)) Hf Hcan) as (pc3 & ? & Hr3 & ?).
      exists pc3. cbn in Hreq. rewrite Hr3. eauto.
    - assert (sent cg t rq hi) as Hs by (exists pc'; split_and!; [done|done|cbn in Hk'; lia]).
      apply (sent_act _ _ _ cg (ARun c)), (sent_act _ _ _ cg (ASendReturns c (send_returns (waits hi)))),
        (sent_act _ _ _ cg (ASend t (send_pick (waits hi)))), (sent_act _ _ _ cg (ASend t handOver)),
        (sent_act _ _ _ cg (ASend t contextDone)) in Hs as (pc3 & ? & Hr3 & ?).
      exists pc3. cbn in Hreq. rewrite Hr3. eauto. }
  destruct (reached_lock _ _ _ cg _ (reached_refl _ _ _ _ Ht3)) as (pc4 & Ht4 & Hadv4).
  assert (wq_request (pc_req pc4) = req /\ (2 <= pc_rank pc4)%nat) as [Hreq4 Hk4].
  { destruct Hadv4 as [->|[-> ?]]; split; (done || lia). }
  destruct pc4 as [?|? ? ?|rq f|rq f]; [cbn in Hk4; lia..| |].
  - destruct (register_moves cg t _ rq f (lock_ok cg _ Hok3) (lock_free cg _ Hok3) Ht4) as [f' Hf'].
    by exists rq, f'.
  - exists rq, f. rewrite act_None; [done|]. cbn. by rewrite Ht4.
Qed.

(** What [Await] gives for the future of a caller that has returned. *)
Lemma await_future cg t rq f h :
  hub_ok h -> callers (session cg h) !! t = Some (Returned rq f) ->
  exists fr, futStore (grp (session cg h)) !! f = Some fr /\
  match await cg t h with
  | Ok resp => exists answer, f_resp fr = Some answer /\ wp_response answer = resp /\
      wp_CheckIn answer = false /\ wp_RequestId answer = wq_RequestId rq
  | Err e => f_err fr = Some e \/ ctx_err (waits h) = Some e \/
      (f_done fr = false /\ e = ctx_end (waits h))
  end.
Proof.
  intros Hok Ht. pose proof (inv_reachable _ _ (ok_session cg h Hok)) as [Hf _ _].
  destruct (fi_private _ _ _ Hf _ _ _ Ht eq_refl) as (fr & Hfr & _). exists fr. split; [done|].
  unfold await. rewrite Ht, Hfr. pose proof (fi_ok _ _ _ Hf _ _ Hfr) as Hfo. unfold future_ok in Hfo.
  unfold Await. destruct (f_done fr); [|destruct (ctx_err (waits h)); eauto].
  assert (match (match f_resp fr, f_err fr with
      | Some resp, None => Ok (wp_response resp) | None, None => Ok nilResponse | _, Some e => Err e end) with
    | Ok resp => exists answer, f_resp fr = Some answer /\ wp_response answer = resp /\
        wp_CheckIn answer = false /\ wp_RequestId answer = wq_RequestId rq
    | Err e => f_err fr = Some e
    end) as Hdone.
  { destruct Hfo as [[[r Hr] He]|[Hr [e He]]]; rewrite Hr, He; [|done].
    destruct (fi_answer _ _ _ Hf _ _ _ Hfr Hr) as (Hc & t' & req' & Ht' & Hid).
    assert (t' = t) as -> by by eapply (fi_own _ _ _ Hf). rewrite Ht in Ht'. injection Ht' as <-.
    eauto. }
  revert Hdone. destruct (ctx_err (waits h)) as [e|]; [destruct (prefer_ctx (waits h)); [by eauto|]|];
    destruct (f_resp fr), (f_err fr); naive_solver.
Qed.

(** ** Waits in which nobody else acts *)

Definition quiet (k : nat) : Prop :=
  other_actions k = [] /\ other_calls k = [] /\ other_sheds k = [].
Lemma interfere_quiet h : quiet (waits h) -> interfere h = next_wait h.
Proof. intros (Ha & Hc & Hs). unfold interfere. rewrite Ha, Hc, Hs. by destruct h. Qed.
Lemma lock_quiet cg h :
  quiet (waits h) -> connecting (session cg h) = None -> lock cg h = next_wait h.
Proof.
  intros Hq Hc. unfold lock. rewrite interfere_quiet by done. apply act_None. cbn.
  change (session cg (next_wait h)) with (session cg h). by rewrite Hc.
Qed.

(** ** A request, undisturbed *)

Definition numberedReq (s : Sys) (req : HubSrv.ServingRequest) : WireRequest :=
  {| wq_RequestId := wrap64 (msgCounter (grp s) + 1); wq_request := req |}.
(** The new caller and its request's number. *)
Definition with_request (s : Sys) (req : HubSrv.ServingRequest) : Sys :=
  {| grp := with_msgCounter (wrap64 (msgCounter (grp s) + 1)) (grp s);
     callers := callers s ++ [Numbered (numberedReq s req)]; connecting := connecting s |}.
Lemma act_number cg req h :
  act cg (ANumber {| wq_RequestId := 0; wq_request := req |}) h =
  with_session cg (with_request (session cg h) req) h.
Proof. apply act_Return. reflexivity. Qed.

Lemma snoc_last {A} (l : list A) x : (l ++ [x]) !! length l = Some x.
Proof. apply snoc_lookup. by right. Qed.
Lemma snoc_set_last {A} (l : list A) x y : <[length l := y]> (l ++ [x]) = l ++ [y].
Proof. rewrite insert_app_r_alt by lia. by rewrite Nat.sub_diag. Qed.

(** The state with the new caller at [pc], its future [fr] and the group
    changed by [g] otherwise. *)
Definition at_pc (s : Sys) (pc : routePC) (fr : FutureResponse) (m : gmap Z nat)
    (conns : list Connector) : Sys :=
  {| grp := {| g_id := g_id (grp s); connectors := connectors (grp s);
               msgCounter := wrap64 (msgCounter (grp s) + 1); futures := m; connStore := conns;
               futStore := futStore (grp s) ++ [fr] |};
     callers := callers s ++ [pc]; connecting := connecting s |}.
Definition openFuture (n : Z) : FutureResponse :=
  {| f_nodeNum := n; f_resp := None; f_err := None; f_done := false |}.

Section one_request.
Context (s : Sys) (req : HubSrv.ServingRequest).
Let n := sr_DestNodeNumber req.
Let rq := numberedReq s req.
Let t := length (callers s).
Let f := length (futStore (grp s)).
Context (Hlock : connecting s = None).

Lemma lookup_offline :
  connectors (grp s) !! n = None ->
  RoutingSteps.exec (ALookup t) (with_request s req) = Some (Return
    (at_pc s (Returned rq f) {| f_nodeNum := n; f_resp := None;
       f_err := Some (nodeMessage "is not connected" n); f_done := true |}
       (futures (grp s)) (connStore (grp s)))).
Proof.
  intros Hn. cbn [RoutingSteps.exec with_request callers]. unfold t. rewrite snoc_last.
  unfold locked. cbn [with_request connecting]. rewrite Hlock. unfold routeRequest_lookup. cbn. fold n. rewrite Hn.
  unfold fail, complete. cbn. rewrite snoc_last. cbn. unfold set_caller. cbn.
  rewrite !snoc_set_last. unfold at_pc. by rewrite Hlock.
Qed.
Lemma lookup_online c :
  connectors (grp s) !! n = Some c ->
  RoutingSteps.exec (ALookup t) (with_request s req) = Some (Return
    (at_pc s (Found rq f c) (openFuture n) (futures (grp s)) (connStore (grp s)))).
Proof.
  intros Hn. cbn [RoutingSteps.exec with_request callers]. unfold t. rewrite snoc_last.
  unfold locked. cbn [with_request connecting]. rewrite Hlock. unfold routeRequest_lookup. cbn. fold n. rewrite Hn.
  cbn. unfold set_caller. cbn. rewrite !snoc_set_last. unfold at_pc. by rewrite Hlock.
Qed.
Lemma send_selecting c conn m conns :
  conns !! c = Some conn -> sender conn = selecting ->
  RoutingSteps.exec (ASend t handOver) (at_pc s (Found rq f c) (openFuture n) m conns) = Some (Return
    (at_pc s (Sent rq f) (openFuture n) m
       (alter (fun c => {| c_nodeNum := c_nodeNum c; cancelled := cancelled c; evicted := evicted c;
                           sender := sending rq |}) c conns))).
Proof.
  intros Hc Hs. cbn [RoutingSteps.exec at_pc callers]. unfold t. rewrite snoc_last.
  unfold send. cbn. rewrite Hc. cbn. rewrite Hs. cbn. unfold set_caller. cbn.
  rewrite snoc_set_last. reflexivity.
Qed.
Lemma register_sent m conns :
  RoutingSteps.exec (ARegister t) (at_pc s (Sent rq f) (openFuture n) m conns) = Some (Return
    (at_pc s (Returned rq f) (openFuture n) (<[wq_RequestId rq := f]> m) conns)).
Proof.
  cbn [RoutingSteps.exec at_pc callers]. unfold t. rewrite snoc_last.
  unfold locked. cbn [at_pc connecting]. rewrite Hlock. unfold set_caller. cbn. rewrite snoc_set_last.
  unfold at_pc. by rewrite Hlock.
Qed.
Lemma answered resp m conns :
  wp_RequestId resp = wq_RequestId rq -> wp_CheckIn resp = false ->
  RoutingSteps.exec (AResponse resp)
    (at_pc s (Returned rq f) (openFuture n) (<[wq_RequestId rq := f]> m) conns) = Some (Return
    (at_pc s (Returned rq f) {| f_nodeNum := n; f_resp := Some resp; f_err := None; f_done := true |}
       (delete (wq_RequestId rq) m) conns)).
Proof.
  intros Hid Hci. cbn [RoutingSteps.exec]. unfold locked. cbn [at_pc connecting]. rewrite Hlock.
  unfold processResponse, isCheckInMsg. cbn. rewrite Hci, Hid, lookup_insert_eq.
  unfold resolve, complete. cbn. unfold f. rewrite snoc_last. cbn. unfold with_grp. cbn.
  rewrite snoc_set_last, delete_insert_eq. unfold at_pc. by rewrite Hlock.
Qed.
End one_request.

Lemma send_not_cancelled s req f c m conns conn :
  conns !! c = Some conn -> cancelled conn = false ->
  RoutingSteps.exec (ASend (length (callers s)) contextDone)
    (at_pc s (Found (numberedReq s req) f c) (openFuture (sr_DestNodeNumber req)) m conns) = None.
Proof.
  intros Hc Hcan. cbn [RoutingSteps.exec at_pc callers]. rewrite snoc_last. unfold send. cbn.
  rewrite Hc. cbn. by rewrite Hcan.
Qed.
(** The send loop is ready: nothing needs to happen before the request is handed over. *)
Lemma ready_skips cg c ok h conn :
  connStore (grp (session cg h)) !! c = Some conn -> sender conn = selecting ->
  act cg (ASendReturns c ok) (act cg (ARun c) h) = h.
Proof.
  intros Hc Hs. rewrite (act_None cg (ARun c) h) by (cbn; rewrite Hc; cbn; by rewrite Hs).
  apply act_None. cbn. rewrite Hc. cbn. by rewrite Hs.
Qed.
(** Whichever branch is tried first, the request is handed over, once. *)
Lemma send_once cg s req f c m pick h conn :
  session cg h = at_pc s (Found (numberedReq s req) f c) (openFuture (sr_DestNodeNumber req)) m
                   (connStore (grp s)) ->
  f = length (futStore (grp s)) ->
  connStore (grp s) !! c = Some conn -> cancelled conn = false -> sender conn = selecting ->
  exists conns h1, h1 = with_session cg (at_pc s (Sent (numberedReq s req) f)
      (openFuture (sr_DestNodeNumber req)) m conns) h /\
    act cg (ASend (length (callers s)) contextDone) (act cg (ASend (length (callers s)) handOver)
      (act cg (ASend (length (callers s)) pick) h)) = h1.
Proof.
  intros Hh -> Hc Hcan Hs.
  assert (forall b h conns, session cg h = at_pc s (Sent (numberedReq s req) (length (futStore (grp s))))
    (openFuture (sr_DestNodeNumber req)) m conns -> act cg (ASend (length (callers s)) b) h = h) as Hsent.
  { intros b h' conns Hh'. apply act_None. rewrite Hh'. cbn. by rewrite snoc_last. }
  pose proof (send_selecting s req c conn m _ Hc Hs) as Hhand. rewrite <-Hh in Hhand.
  pose proof (send_not_cancelled s req (length (futStore (grp s))) c m _ conn Hc Hcan) as Hdone.
  rewrite <-Hh in Hdone. eexists _, _. split; [reflexivity|]. destruct pick.
  - rewrite (act_Return _ _ _ _ Hhand).
    rewrite !(Hsent _ _ _ (session_with _ _ _)). reflexivity.
  - rewrite (act_None _ _ _ Hdone), (act_Return _ _ _ _ Hhand).
    by rewrite (Hsent _ _ _ (session_with _ _ _)).
Qed.

Lemma exchange_offline cg req h :
  let s := session cg h in
  let n := sr_DestNodeNumber req in
  connecting s = None ->
  (forall i, (waits h <= i < 3 + waits h)%nat -> quiet i) -> (forall i, ctx_err i = None) ->
  connectors (grp s) !! n = None ->
  snd (exchange cg req h) = Err (nodeMessage "is not connected" n).
Proof.
  intros s n Hlock Hq Hctx Hn. cbn [exchange hub_router]. unfold RouteRequest.
  fold s. rewrite act_number. fold s.
  rewrite (lock_quiet cg (with_session cg (with_request s req) h))
    by first [apply Hq; cbn; lia|by rewrite session_with].
  set (h1 := next_wait _).
  assert (session cg h1 = with_request s req) as Hs1 by apply session_with.
  pose proof (lookup_offline s req Hlock Hn) as Hl. rewrite <-Hs1 in Hl.
  rewrite (act_Return _ _ _ _ Hl), session_with. cbn [at_pc callers]. rewrite snoc_last.
  set (h2 := with_session cg _ h1).
  rewrite (lock_quiet cg h2) by first [apply Hq; cbn; lia|by unfold h2; rewrite session_with].
  assert (session cg (next_wait h2) = session cg h2) as Hs2 by done.
  rewrite (act_None cg (ARegister _)).
  2:{ rewrite Hs2. unfold h2. rewrite session_with. cbn. by rewrite snoc_last. }
  rewrite interfere_quiet by (apply Hq; cbn; lia). unfold await. cbn [snd].
  change (session cg (next_wait (next_wait h2))) with (session cg h2).
  unfold h2. rewrite session_with. cbn. rewrite !snoc_last. cbn. by rewrite Hctx.
Qed.
Lemma exchange_online cg req h answer c conn :
  let s := session cg h in
  let n := sr_DestNodeNumber req in
  connecting s = None ->
  (forall i, (waits h <= i < 3 + waits h)%nat -> quiet i) -> (forall i, ctx_err i = None) ->
  other_actions (3 + waits h) = [(cg, AResponse answer)] -> other_sheds (3 + waits h) = [] ->
  wp_RequestId answer = wrap64 (msgCounter (grp s) + 1) -> wp_CheckIn answer = false ->
  connectors (grp s) !! n = Some c ->
  connStore (grp s) !! c = Some conn -> cancelled conn = false -> sender conn = selecting ->
  snd (exchange cg req h) = Ok (wp_response answer).
Proof.
  intros s n Hlock Hq Hctx Hans Hsheds Hid Hci Hn Hc Hcan Hsel. cbn [exchange hub_router]. unfold RouteRequest.
  fold s. rewrite act_number. fold s.
  rewrite (lock_quiet cg (with_session cg (with_request s req) h))
    by first [apply Hq; cbn; lia|by rewrite session_with].
  set (h1 := next_wait _).
  assert (session cg h1 = with_request s req) as Hs1 by apply session_with.
  pose proof (lookup_online s req Hlock c Hn) as Hl. rewrite <-Hs1 in Hl.
  rewrite (act_Return _ _ _ _ Hl), session_with. cbn [at_pc callers]. rewrite snoc_last.
  set (h2 := with_session cg _ h1).
  rewrite (interfere_quiet h2) by (apply Hq; cbn; lia).
  assert (session cg (next_wait h2) = at_pc s (Found (numberedReq s req) (length (futStore (grp s))) c)
    (openFuture n) (futures (grp s)) (connStore (grp s))) as Hs2 by apply session_with.
  rewrite (ready_skips cg c _ _ conn) by first [done|by rewrite Hs2].
  destruct (send_once cg s req _ c _ (send_pick (waits (next_wait h2))) _ conn Hs2 eq_refl Hc Hcan Hsel)
    as (conns & h3 & Hh3 & ->).
  rewrite lock_quiet by (subst h3; first [apply Hq; cbn; lia|by rewrite session_with]).
  set (h4 := next_wait h3).
  assert (session cg h4 = at_pc s (Sent (numberedReq s req) (length (futStore (grp s))))
    (openFuture n) (futures (grp s)) conns) as Hs4 by (subst h4 h3; apply session_with).
  pose proof (register_sent s req Hlock (futures (grp s)) conns) as Hreg. fold n in Hreg.
  rewrite <-Hs4 in Hreg. rewrite (act_Return _ _ _ _ Hreg).
  set (h5 := with_session cg _ h4).
  assert (waits h5 = (3 + waits h)%nat) as Hw by (subst h5 h4 h3; done).
  unfold interfere. rewrite Hw, Hans, Hsheds. cbn [foldl].
  pose proof (answered s req Hlock answer (futures (grp s)) conns Hid Hci) as Ha. fold n in Ha.
  erewrite act_Return; [|unfold h5; cbn [fst snd]; rewrite session_with; exact Ha].
  unfold await. cbn [snd].
  rewrite !session_next, !session_with.
  cbn. rewrite !snoc_last. cbn. by rewrite Hctx.
Qed.

(** * Properties *)

(** C19. A request routed for a handler, under any schedule of the other
    goroutines: [RouteRequest] and [Await] return without a panic, and the
    caller gets either a response that was given under the number of this very
    request, by a message that is not a check-in, or an error; the error is
    the future's own or that of the caller's context. *)
Theorem exchange_answer cg req h h' r :
  hub_ok h -> exchange cg req h = (h', r) ->
  hub_ok h' /\
  exists t rq f fr, callers (session cg h') !! t = Some (Returned rq f) /\ wq_request rq = req /\
    futStore (grp (session cg h')) !! f = Some fr /\
    match r with
    | Ok resp => exists answer, f_resp fr = Some answer /\ wp_response answer = resp /\
        wp_CheckIn answer = false /\ wp_RequestId answer = wq_RequestId rq
    | Err e => f_err fr = Some e \/ ctx_err (waits h') = Some e \/
        (f_done fr = false /\ e = ctx_end (waits h'))
    end.
Proof.
  intros Hok. cbn [exchange hub_router]. pose proof (RouteRequest_ok cg req h Hok) as Hok1.
  pose proof (RouteRequest_returns cg req h Hok) as Hret. destruct (RouteRequest cg req h) as [t h1].
  intros [= <- <-]. cbn in Hok1. pose proof (interfere_ok _ Hok1) as Hok2. split; [done|].
  destruct Hret as (rq & f & Ht & Hreq).
  destruct (reached_interfere _ _ _ _ (reached_refl _ _ _ _ Ht)) as (pc & Ht' & [->|[_ Hk]]).
  - destruct (await_future cg t rq f _ Hok2 Ht') as (fr & Hfr & Hr). by exists t, rq, f, fr.
  - cbn in Hk. destruct pc; cbn in Hk; lia.
Qed.

(** C20. A request that nobody disturbs gets through: if the destination is not
    connected the caller is told so; if it is, the request is handed to its
    send loop and the answer the node gives under the request's number is what
    the caller gets. *)
Theorem exchange_delivers cg req h answer :
  let s := session cg h in
  let n := sr_DestNodeNumber req in
  connecting s = None ->
  (forall i, (waits h <= i < 3 + waits h)%nat -> quiet i) -> (forall i, ctx_err i = None) ->
  other_actions (3 + waits h) = [(cg, AResponse answer)] -> other_sheds (3 + waits h) = [] ->
  wp_RequestId answer = wrap64 (msgCounter (grp s) + 1) -> wp_CheckIn answer = false ->
  (forall c, connectors (grp s) !! n = Some c -> exists conn, connStore (grp s) !! c = Some conn /\
     cancelled conn = false /\ sender conn = selecting) ->
  snd (exchange cg req h) =
    match connectors (grp s) !! n with
    | None => Err (nodeMessage "is not connected" n)
    | Some _ => Ok (wp_response answer)
    end.
Proof.
  intros s n Hlock Hq Hctx Hans Hsheds Hid Hci Hready.
  destruct (connectors (grp s) !! n) as [c|] eqn:Hn; [|by apply exchange_offline].
  destruct (Hready c eq_refl) as (conn & Hc & Hcan & Hsel). by eapply exchange_online.
Qed.
End hub.

(** * The handlers over the concrete router and backend *)
Section handlers.
Context `{Crypto} `{HP : HubPb} `{RateLib} `{Platform} `{JwtLib} {Oth : Platform.Others} `{!Lawful Oth} {O : Others} (b : Backend).
#[local] Instance the_client : BackendClient Hub := hub_client b.

(** The connector [c] of group [cg] was made for node [n]. *)
Definition made_for (cg : string) (c : nat) (n : Z) (h : Hub) : Prop :=
  exists conn, connStore (grp (session cg h)) !! c = Some conn /\ c_nodeNum conn = n.
Lemma made_for_closed cg c n : closed any_action (fun h => hub_ok h /\ made_for cg c n h).
Proof.
  pose proof hub_ok_closed as Hcl. split.
  - intros cg' a h _ [Hok (conn & Hc & Hn)]. split; [by apply Hcl|]. unfold made_for, act.
    destruct (RoutingSteps.exec a (session cg' h)) as [[s|]|] eqn:Ha; [|by exists conn..].
    destruct (decide (cg = cg')) as [->|Hne]; [|rewrite session_other by done; by exists conn].
    rewrite session_with. destruct (exec_conns _ _ _ Ha _ _ Hc) as (conn' & ? & ?).
    exists conn'. split; [done|congruence].
  - intros m h [? ?]. split; [by apply Hcl|done].
  - intros w h [? ?] ?. split; [by apply Hcl|done].
  - intros h [? ?]. split; [by apply Hcl|done].
  - intros h [? _]. by apply Hcl.
Qed.
(** A connector that disconnects is not its node's any more. *)
Lemma disconnect_unmaps cg c n h :
  hub_ok h -> made_for cg c n h ->
  forall n', connectors (grp (session cg (act cg (ADisconnect c) (lock cg h)))) !! n' <> Some c.
Proof.
  intros Hok Hmade n'.
  destruct (proj1 (proj2 (closed_any _ (made_for_closed cg c n))) cg h) as [Hokl (conn & Hc & Hn)]; [done|].
  pose proof (lock_free cg h Hok) as Hlock.
  destruct (act_enabled cg (ADisconnect c) (lock cg h) Hokl) as (s & He & ->).
  { cbn. rewrite Hc. cbn. unfold locked. by rewrite Hlock. }
  revert He. cbn. rewrite Hc. cbn. unfold locked, disconnect. rewrite Hlock, Hc.
  pose proof (inv_reachable _ _ (ok_session cg _ Hokl)) as [Hf Hci _].
  assert (forall m, connectors (grp (session cg (lock cg h))) !! m = Some c -> m = c_nodeNum conn) as Honly.
  { intros m (x & Hx & Hxm & _)%(ci_current _ _ _ Hci). congruence. }
  case_decide as Hcur; [intros [= <-]|]; cbn.
  - intros Hn'. apply Hcur. rewrite <-(Honly _ Hn'). done.
  - rewrite clearFutures_clear by by eapply fut_inv_wf. cbn. intros [= <-]. cbn.
    intros [Hne Hn']%lookup_delete_Some. by apply Hne, eq_sym, Honly.
Qed.

(** [router_connect] makes a connector for its node. *)
Lemma router_connect_made cg n h h' c :
  hub_ok h -> router_connect cg n h = (h', Ok c) ->
  c = (cg, length (connStore (grp (session cg (lock cg h))))) /\ hub_ok h' /\ made_for cg c.2 n h'.
Proof.
  intros Hok. cbn [router_connect hub_router]. intros [= <- <-]. split; [done|].
  set (k := length _). pose proof (made_for_closed cg k n) as Hcl. cbn [snd].
  apply Hcl; [done|]. apply (closed_any _ Hcl). pose proof (lock_ok cg _ Hok) as Hokl.
  split; [by apply act_ok|]. destruct (act_enabled cg (AConnect n) _ Hokl) as (s & He & Hs).
  { cbn. unfold locked. by rewrite (lock_free cg _ Hok). }
  unfold made_for. rewrite Hs. by apply connect_made in He.
Qed.

(** C22. A serving stream leaves nothing behind: it is refused by the
    authentication, or recording and logging the authenticated node's arrival is
    attempted, then the node is connected with a connector of its own, the next one of the
    group; and in the state in which the call has ended, whatever the others
    did, that connector is still known to be the node's and the group's map
    does not hold it: if the node is online, it is by another connector. *)
Theorem serving_ends_offline srv v lat ctx h h' r :
  hub_ok (rest h) -> StartServing srv v lat ctx h = (h', r) ->
  (exists e, r = Err e /\ authenticateAndRateLimit ctx h = (h', Err e)) \/
  exists h1 cg n h2 h3, authenticateAndRateLimit ctx h = (h1, Ok (cg, n)) /\
    (_ ← attempt (E' := status) (lift (be_UpdateNodeLastSeen cg n));
     logActivity cg n "connect" true (event Connect_)) h1 = (h2, Ok tt) /\
    let c := length (connStore (grp (session cg (lock cg (rest h2))))) in
    router_connect cg n (rest h2) = (h3, Ok (cg, c)) /\
    hub_ok (rest h') /\ made_for cg c n (rest h') /\
    forall n', connectors (grp (session cg (rest h'))) !! n' <> Some c.
Proof.
  intros Hok HS. destruct (StartServing_parts _ _ _ _ _ _ _ HS)
    as [?|(h1 & cg & n & h2 & Hauth & Harr & Hk2 & [(e & [=])|(h3 & conn & h4 & Hc & Hr & Hk4)])]; [by left|right].
  specialize (Hk2 _ (proj1 (proj2 (proj2 (closed_any _ hub_ok_closed))) b) Hok).
  destruct (router_connect_made _ _ _ _ _ Hk2 Hc) as (-> & Hok3 & Hmade). cbn [snd] in Hmade.
  set (c := length _) in *. destruct (closed_any _ (made_for_closed cg c n)) as (_ & Hlock & Hops & _).
  destruct (Hk4 _ (Hops b) (conj Hok3 Hmade)) as [Hok4 Hmade4].
  exists h1, cg, n, h2, (rest h3). split; [done|]. split; [done|]. intros c'. subst c'.
  rewrite Hr. cbn [router_disconnect hub_router fst snd]. split; [done|].
  pose proof (Hlock cg _ (conj Hok4 Hmade4)) as Hl.
  destruct (cl_act _ _ (made_for_closed cg c n) cg (ADisconnect c) _ I Hl) as [Hok' Hmade'].
  split; [done|]. split; [done|]. by eapply disconnect_unmaps.
Qed.

(** ** Who may be online *)

(** At most the given connector is in a map, or about to be. *)
Definition only (o : option (string * nat)) (h : Hub) : Prop :=
  forall cg n c, holds (session cg h) n c -> o = Some (cg, c).
Lemma only_act o cg a h : not_connect a -> only o h -> only o (act cg a h).
Proof.
  intros Ha Ho cg' n c. unfold act.
  destruct (RoutingSteps.exec a (session cg h)) as [[s|]|] eqn:He; [|apply Ho..].
  destruct (decide (cg' = cg)) as [->|Hne]; [|rewrite session_other by done; apply Ho].
  rewrite session_with. intros Hs. by apply (Ho cg n c), (exec_holds a _ s).
Qed.
Lemma only_closed o : closed not_connect (fun h => hub_ok h /\ only o h).
Proof.
  pose proof hub_ok_closed as Hcl. split.
  - intros cg a h Ha [Hok Ho]. split; [by apply Hcl|by apply only_act].
  - intros m h [? ?]. split; [by apply Hcl|done].
  - intros w h [? ?] ?. split; [by apply Hcl|done].
  - intros h [? ?]. split; [by apply Hcl|done].
  - intros h [? _]. by apply Hcl.
Qed.
Lemma only_disconnect cg c n h :
  hub_ok h -> made_for cg c n h -> only (Some (cg, c)) (lock cg h) ->
  only None (act cg (ADisconnect c) (lock cg h)).
Proof.
  intros Hok Hmade Ho cg' n' c' Hh.
  pose proof (only_act _ cg (ADisconnect c) _ I Ho _ _ _ Hh) as [= <- <-]. exfalso.
  destruct Hh as [Hm|[p Hp]]; [by eapply disconnect_unmaps|].
  pose proof (lock_free cg h Hok) as Hl. clear Ho. revert Hl Hp. generalize (lock cg h). intros hl Hl.
  unfold act.
  destruct (RoutingSteps.exec _ _) as [[s|]|] eqn:He; cbv iota; 
    [|by change (session cg (panic hl)) with (session cg hl); rewrite Hl|by rewrite Hl]. rewrite session_with.
  revert He. cbn. unfold locked. rewrite Hl. destruct (_ !! c); cbn; [|done].
  destruct (disconnect _ _); cbn; [|done]. intros [= <-].
  change (connecting (session cg hl) = Some (n', c, p) -> False). by rewrite Hl.
Qed.

(** While the others connect nobody, a call leaves nobody connected. *)
Section alone.
Context (Halone : forall k cg n, (cg, AConnect n) ∉ other_actions k).
Let HA k e : e ∈ other_actions k -> not_connect e.2.
Proof. intros He. destruct e as [cg []]; cbn; try done. by eapply Halone. Qed.

Lemma only_ops o : ops_keep (fun h => hub_ok h /\ only o h).
Proof. by apply (ops_closed not_connect HA (fun _ Ha => Ha) _ (only_closed o)). Qed.
Lemma only_connect cg n h h' c :
  hub_ok h /\ only None h -> router_connect cg n h = (h', Ok c) -> only (Some c) h'.
Proof.
  intros Hh Hc. destruct (router_connect_made cg n h h' c (proj1 Hh) Hc) as (Hcc & _ & _).
  assert (forall o h, hub_ok h /\ only o h -> hub_ok (lock cg h) /\ only o (lock cg h)) as Hlock.
  { intros o. by apply (lock_closed not_connect HA (fun _ Ha => Ha) _ (only_closed o)). }
  assert (forall o h, hub_ok h /\ only o h -> hub_ok (interfere h) /\ only o (interfere h)) as Hint.
  { intros o. by apply (interfere_closed not_connect HA (fun _ Ha => Ha) _ (only_closed o)). }
  destruct (Hlock _ _ Hh) as [Hokl Hol]. revert Hc. cbn [router_connect hub_router]. intros [= <- _].
  apply only_act; [done|]. apply Hint. split; [by apply act_ok|]. rewrite Hcc. clear Hcc.
  intros cg' n' c'. unfold act.
  destruct (RoutingSteps.exec _ _) as [[s|]|] eqn:He; [|intros Hx; by apply Hol in Hx..].
  destruct (decide (cg' = cg)) as [->|Hne].
  - rewrite session_with. intros Hs. destruct (connect_holds _ _ _ _ _ He Hs) as [Hx| ->]; [|done].
    by apply Hol in Hx.
  - rewrite session_other by done. intros Hx. by apply Hol in Hx.
Qed.
Lemma served_alone srv v text c h :
  hub_ok (rest h) /\ only None (rest h) -> only None (rest (fst (hub_serve srv v text c h))).
Proof.
  intros Hh.
  assert (match c with HStartServing _ _ => False | _ => True end \/
    exists lat ctx, c = HStartServing lat ctx) as [Hc|(lat & ctx & ->)] by (destruct c; eauto).
  { apply (handlers_keep _ (only_ops None) srv v text c h); [by destruct c|done]. }
  cbn [hub_serve outcome_of fst]. destruct (StartServing srv v lat ctx h) as [h' r] eqn:HS. cbn [fst].
  destruct (StartServing_parts _ _ _ _ _ _ _ HS)
    as [(e & _ & Hauth)|(h1 & cg & n & h2 & _ & _ & Hk2 & [(e & [=])|(h3 & c & h4 & Hc & Hr & Hk4)])].
  - pose proof (keeps_authenticate _ (only_ops None) ctx h Hh) as Hx. rewrite Hauth in Hx. apply Hx.
  - specialize (Hk2 _ (only_ops None) Hh). pose proof (only_connect _ _ _ _ _ Hk2 Hc) as Ho3.
    destruct (router_connect_made _ _ _ _ _ (proj1 Hk2) Hc) as (Hcc & Hok3 & Hmade).
    destruct (Hk4 _ (only_ops (Some c)) (conj Hok3 Ho3)) as [Hok4 Ho4].
    destruct (closed_any _ (made_for_closed cg c.2 n)) as (_ & _ & Hops & _).
    destruct (Hk4 _ (Hops b) (conj Hok3 Hmade)) as [_ Hmade4].
    rewrite Hr. cbn [router_disconnect hub_router]. destruct c as [cg' c]. injection Hcc as -> _.
    cbn [fst snd] in *. eapply only_disconnect; [done..|].
    by apply (lock_closed not_connect HA (fun _ Ha => Ha) _ (only_closed _)).
Qed.
End alone.

(** [Mint] panics only for an instance id with a colon. *)
Lemma hub_serve_returns srv v text c h :
  has_byte ":" (instanceID b) = false -> exists e, snd (hub_serve srv v text c h) = Return e.
Proof.
  intros Hid. destruct c; cbn [hub_serve outcome_of snd]; try by eexists. unfold panicking. cbn [snd].
  destruct (GetStunTurnConfig srv ctx h) as [h' [[cfg|msg]|e]] eqn:Hg; [by eexists| |by eexists].
  exfalso. unfold GetStunTurnConfig in Hg. apply ST_bind_Ok in Hg as (h1 & [cg n] & _ & Hb).
  case_bool_decide; [done|]. apply ST_bind_Ok in Hb as (h2 & p & [Hp _]%lift_Ok & Hb).
  assert (tp_OrganisationId p = instanceID b) as Ho.
  { revert Hp. cbn [be_GetTurnPolicy the_client hub_client]. unfold on_world.
    destruct (Backend.GetTurnPolicy _ _ _) as [w' r'] eqn:Hb'. intros [= _ ->]. revert Hb'.
    unfold Backend.GetTurnPolicy. intros (? & ? & _ & (? & ? & _ & [= _ <-])%ST_bind_Ok)%ST_bind_Ok. done. }
  destruct (negb _); [done|]. apply ST_bind_Ok in Hb as (h3 & t & _ & [= _ Hm]). revert Hm.
  unfold Mint. by rewrite has_byte_app, Ho, Hid, bool_decide_false.
Qed.

End handlers.

(** ** Undisturbed calls *)
Section undisturbed.
Context `{Crypto} `{HP : HubPb} `{RateLib} `{Platform} `{JwtLib} {O : Others} (b : Backend).
#[local] Instance the_client' : BackendClient Hub := hub_client b.

(** The metadata of a call names a live node and carries its secret. *)
Definition authentic (ctx : option metadata) (d : DB) : Prop :=
  exists md cg n row, ctx = Some md /\
    uuid_Parse (getMetadataValue md "x-connectivity-group-id") = Some cg /\
    Sscanf_int32 (getMetadataValue md "x-node-number") = Some n /\ live_node cg n d = Some row /\
    nd_auth_token_hash row = hashToken (getMetadataValue md "x-auth-token").
Definition call_ctx (c : hub_call) : option (option metadata) :=
  match c with
  | HRegister _ => None
  | HPair ctx _ | HUpdateRoster ctx _ | HListNodes ctx | HGetRoster ctx | HGetGroupMetadata ctx
  | HGetStunTurnConfig ctx | HStartConnection ctx _ | HDeregister ctx | HStartServing _ ctx => Some ctx
  end.
(** Neither the database nor the router has changed. *)
Definition same_hub (h h' : Hub) : Prop :=
  db (world h') = db (world h) /\ sessions h' = sessions h.
Lemma authenticate_quiet ctx h :
  (forall k, quiet k) -> ~ authentic ctx (db (world (rest h))) ->
  exists h' e, authenticateAndRateLimit ctx h = (h', Err e) /\ same_hub (rest h) (rest h').
Proof.
  intros Hq Hno. unfold authenticateAndRateLimit.
  destruct ctx as [md|]; [|by eexists _, _].
  destruct (_ || _); [by eexists _, _|].
  destruct (Sscanf_int32 _) as [n|] eqn:Hn; [|by eexists _, _].
  unfold limiter_Allow, time_Now, limiter_Allow_at, mbind, ST_bind. cbn [clock hub_router limiter rest].
  destruct (Allow _ _ _) as [[|] l]; [|by eexists _, _].
  unfold lift. cbn [negb be_AuthenticateNode the_client' hub_client rest]. unfold on_world.
  rewrite (interfere_quiet _ (Hq _)). cbn [world next_wait with_world].
  set (req := {| an_ConnectivityGroupId := _; an_NodeNumber := n; an_AuthToken := _ |}).
  set (w := {| db := _; tick := _ |}).
  pose proof (AuthenticateNode_db req w) as Hdb. pose proof (AuthenticateNode_Ok req w) as Hsound.
  destruct (Backend.AuthenticateNode req w) as [w' [[]|e]]; cbn in *; [|eexists _, _; split; [done|split; [exact Hdb|done]]].
  exfalso. apply Hno. destruct Hsound as [Hsound _].
  destruct (Hsound eq_refl) as (cg & row & Hu & _ & Hl & Hh). by exists md, cg, n, row.
Qed.

(** C25. Nothing happens for a caller that is not who it claims to be: unless its
    metadata names a live node and carries that node's secret, every call but
    registration fails and leaves the database and the router as they were. *)
Theorem unauthenticated_no_effect srv v text c ctx h :
  (forall k, quiet k) -> call_ctx c = Some ctx -> ~ authentic ctx (db (world (rest h))) ->
  exists e, snd (hub_serve srv v text c h) = Return (Some e) /\
    same_hub (rest h) (rest (fst (hub_serve srv v text c h))).
Proof.
  intros Hq Hctx Hno. destruct (authenticate_quiet ctx h Hq Hno) as (h' & e & Hauth & Hsame).
  exists e.
  destruct (authentication_first ctx h h' e Hauth) as (A1 & A2 & A3 & A4 & A5 & A6 & A7 & A8 & A9).
  destruct c; cbn in Hctx; simplify_eq; cbn [hub_serve]; unfold outcome_of, panicking;
    rewrite ?A1, ?A2, ?A3, ?A4, ?A5, ?A6, ?A7, ?A8, ?A9; (split; [done|exact Hsame]).
Qed.
End undisturbed.
