(* ===== verification/Tenancy.v ===== *)
(** * Tenants of the standalone backend

    A connectivity group is a tenant: its rows are its own. [same_tenant] says
    that two databases agree on the rows of one group, [same_others] that they
    agree on everything else. A computation is [isolated] for a group when it
    changes rows of that group only and its result depends on rows of that
    group only; every call that names the group is. *)
From S2P Require Import Prelude GoStrings GoEncoding GoTime Grpc BePb Attestation Store StoreInv.
From S2P Require Import Platform Backend BackendSteps BackendProps Replies.
Open Scope Z_scope.

(** ** Two databases, seen by a tenant *)

Definition own_tokens (g : string) (d : DB) : list TokenRow :=
  filter (fun k => tk_group k = g) (tokens d).
Definition own_activity (g : string) (d : DB) : list ActivityRow :=
  filter (fun a => al_group a = g) (activity d).
Record same_tenant (g : string) (d1 d2 : DB) : Prop := {
  st_group : groups d1 !! g = groups d2 !! g;
  st_nodes n : nodes d1 !! (g, n) = nodes d2 !! (g, n);
  st_tokens : own_tokens g d1 = own_tokens g d2;
  st_activity : own_activity g d1 = own_activity g d2
}.
Record same_others (g : string) (d1 d2 : DB) : Prop := {
  so_tenants g' : g' <> g -> same_tenant g' d1 d2;
  so_keys : api_keys d1 = api_keys d2;
  so_meta : meta d1 = meta d2
}.

#[export] Instance same_tenant_equiv g : Equivalence (same_tenant g).
Proof.
  split.
  - by intros d.
  - intros d1 d2 [? ? ? ?]. by split.
  - intros d1 d2 d3 [? ? ? ?] [? ? ? ?]. split; intros; congruence.
Qed.
#[export] Instance same_others_equiv g : Equivalence (same_others g).
Proof.
  split.
  - by intros d.
  - intros d1 d2 [Ht ? ?]. split; [|done..]. intros g' ?. by symmetry; apply Ht.
  - intros d1 d2 d3 [Ht1 ? ?] [Ht2 ? ?]. split; [|congruence..].
    intros g' ?. by trans d2; [apply Ht1|apply Ht2].
Qed.

(** What a tenant reads is the same in both. *)
#[export] Instance live_group_proper g : Proper (same_tenant g ==> eq) (live_group g).
Proof. intros d1 d2 [Hg _ _ _]. unfold live_group. by rewrite Hg. Qed.
#[export] Instance live_node_proper g : Proper (eq ==> same_tenant g ==> eq) (live_node g).
Proof. intros n _ <- d1 d2 [_ Hn _ _]. unfold live_node. by rewrite Hn. Qed.
#[export] Instance live_nodes_proper g : Proper (same_tenant g ==> eq) (live_nodes g).
Proof.
  intros d1 d2 Hd.
  assert (forall d, StronglySorted number_before (live_nodes g d)) as Hs.
  { intros d. apply StronglySorted_merge_sort; intros ?; unfold number_before; lia. }
  assert (forall x, x ∈ live_nodes g d1 <-> x ∈ live_nodes g d2) as Hin.
  { intros [n row]. rewrite !live_nodes_elem. by rewrite (st_nodes _ _ _ Hd). }
  apply (StronglySorted_unique_strong number_before); [|apply Hs..|].
  - intros [n1 r1] [n2 r2] H1%Hin H2. unfold number_before. cbn. intros.
    assert (n1 = n2) as -> by lia. apply live_nodes_elem in H1 as [H1 _], H2 as [H2 _]. congruence.
  - apply NoDup_Permutation; [eapply NoDup_fmap_1, live_nodes_NoDup..|done].
Qed.

(** ** Isolated statements *)

(** The new database and the value, of two runs, seen by the tenant. *)
Definition same_outcome {A} (g : string) (r1 r2 : result dbError (DB * A)) : Prop :=
  match r1, r2 with
  | Ok (d1, a1), Ok (d2, a2) => a1 = a2 /\ same_tenant g d1 d2
  | Err e1, Err e2 => e1 = e2
  | _, _ => False
  end.
Record isolated_stmt {A} (g : string) (s : stmt A) : Prop := {
  is_within d d' a : s d = Ok (d', a) -> same_others g d d';
  is_local d1 d2 : same_tenant g d1 d2 -> same_outcome g (s d1) (s d2)
}.

Lemma isolated_row {A} g (f : DB -> option A) :
  Proper (same_tenant g ==> eq) f -> isolated_stmt g (query_row f).
Proof.
  intros Hf. split; unfold query_row.
  - intros d d' a. destruct (f d); [|done]. by intros [= <- _].
  - intros d1 d2 Hd. rewrite (Hf _ _ Hd). destruct (f d2); [by split|done].
Qed.
Lemma isolated_sel_group g : isolated_stmt g (sel_group g).
Proof. apply isolated_row, _. Qed.
Lemma isolated_sel_node g n : isolated_stmt g (sel_node g n).
Proof. apply isolated_row. intros d1 d2 Hd. by rewrite Hd. Qed.
Lemma isolated_sel_nodes g : isolated_stmt g (sel_nodes g).
Proof.
  split; unfold sel_nodes.
  - intros d d' a. destruct (forallb _ _); [|done]. by intros [= <- _].
  - intros d1 d2 Hd. rewrite (live_nodes_proper g _ _ Hd). destruct (forallb _ _); [by split|done].
Qed.

(** Writing the tenant's own rows. *)
Lemma others_with_group g row d : same_others g d (with_groups (<[g := row]> (groups d)) d).
Proof. split; [|done..]. intros g' Hne. split; try done. cbn. by rewrite lookup_insert_ne. Qed.
Lemma others_with_node g n f d : same_others g d (with_nodes (alter f (g, n) (nodes d)) d).
Proof.
  split; [|done..]. intros g' Hne. split; try done. intros n'. cbn.
  rewrite lookup_alter_ne; [done|]. by intros [= ->].
Qed.
Lemma isolated_upd_roster g roster newV expV : isolated_stmt g (upd_roster g roster newV expV).
Proof.
  split; unfold upd_roster.
  - intros d d' a. destruct (live_group g d) as [row|]; [|by intros [= <- _]].
    destruct (_ =? _); intros [= <- _]; [apply others_with_group|done].
  - intros d1 d2 Hd. rewrite Hd. destruct (live_group g d2) as [row|]; [|done].
    destruct (_ =? _); (split; [done|]); [|done]. destruct Hd as [Hg Hn Ht Ha].
    split; try done. cbn. by rewrite !lookup_insert_eq.
Qed.
Lemma isolated_upd_node g n f : isolated_stmt g (upd_node g n f).
Proof.
  split; unfold upd_node.
  - intros d d' a [= <- _]. apply others_with_node.
  - intros d1 d2 [Hg Hn Ht Ha]. split; [done|]. split; try done. intros n'. cbn.
    destruct (decide (n' = n)) as [->|Hne].
    + by rewrite !lookup_alter_eq, Hn.
    + rewrite !lookup_alter_ne by congruence. done.
Qed.
Lemma isolated_ins_activity g row : al_group row = g -> isolated_stmt g (ins_activity row).
Proof.
  intros Hrow. split; unfold ins_activity.
  - intros d d' a [= <- _]. split; [|done..]. intros g' Hne. split; try done.
    unfold own_activity. cbn. rewrite filter_app, filter_cons_False, filter_nil, app_nil_r by congruence. done.
  - intros d1 d2 [Hg Hn Ht Ha]. split; [done|]. split; try done.
    unfold own_activity in *. cbn. by rewrite !filter_app, Ha.
Qed.
Create HintDb tenancy.
#[export] Hint Resolve isolated_sel_group isolated_sel_node isolated_sel_nodes isolated_upd_roster
  isolated_upd_node isolated_ins_activity : tenancy.

(** ** Isolated computations *)

Section worlds.
Context `{Platform}.
Implicit Types (w : World).

Definition same_world (g : string) (w1 w2 : World) : Prop :=
  tick w1 = tick w2 /\ same_tenant g (db w1) (db w2).
Record isolated {E A} (g : string) (m : ST World E A) : Prop := {
  iso_within w : same_others g (db w) (db (fst (m w)));
  iso_local w1 w2 : same_world g w1 w2 ->
    same_world g (fst (m w1)) (fst (m w2)) /\ snd (m w1) = snd (m w2)
}.

Lemma isolated_ret {E A} g (a : A) : isolated g (mret a : ST World E A).
Proof. by split. Qed.
Lemma isolated_throw {E A} g (e : E) : isolated g (throw e : ST World E A).
Proof. by split. Qed.
Lemma isolated_bind {E A B} g (m : ST World E A) (f : A -> ST World E B) :
  isolated g m -> (forall a, isolated g (f a)) -> isolated g (mbind f m).
Proof.
  intros [Wm Lm] Hf. unfold mbind, ST_bind. split.
  - intros w. specialize (Wm w). destruct (m w) as [w1 [a|e]]; cbn in *; [|done].
    etrans; [exact Wm|apply Hf].
  - intros w1 w2 Hw. destruct (Lm w1 w2 Hw) as [Hw' Hr].
    destruct (m w1) as [w1' r1], (m w2) as [w2' r2]. cbn in *. subst r2.
    destruct r1 as [a|e]; [|done]. by apply Hf.
Qed.
Lemma isolated_attempt {E E' A} g (m : ST World E A) :
  isolated g m -> isolated g (attempt m : ST World E' _).
Proof.
  intros [Wm Lm]. unfold attempt. split.
  - intros w. specialize (Wm w). by destruct (m w).
  - intros w1 w2 Hw. destruct (Lm w1 w2 Hw) as [Hw' Hr].
    destruct (m w1), (m w2). cbn in *. by subst.
Qed.
Lemma isolated_on_error {E E' A} g (f : E -> E') (m : ST World E A) :
  isolated g m -> isolated g (on_error f m).
Proof.
  intros [Wm Lm]. unfold on_error. split.
  - intros w. specialize (Wm w). by destruct (m w) as [? []].
  - intros w1 w2 Hw. destruct (Lm w1 w2 Hw) as [Hw' Hr].
    destruct (m w1) as [? []], (m w2) as [? []]; cbn in *; by simplify_eq.
Qed.
Lemma isolated_ask {E A} g (q : nat -> A) : isolated g (ask q : ST World E A).
Proof. split; [done|]. intros w1 w2 [Ht Hd]. unfold ask, same_world. cbn. by rewrite Ht. Qed.
Lemma isolated_exec {A} g (s : stmt A) : isolated_stmt g s -> isolated g (exec s).
Proof.
  intros [Ws Ls]. unfold exec, meanwhile, alone, tx_exec. split.
  - intros w. destruct (driver_fails _); [done|]. specialize (Ws (db w)).
    destruct (s (db w)) as [[d a]|e]; [|done]. by eapply Ws.
  - intros w1 w2 [Ht Hd]. rewrite Ht. destruct (driver_fails _); [done|].
    specialize (Ls _ _ Hd). unfold same_outcome in Ls.
    destruct (s (db w1)) as [[d1 a1]|e1], (s (db w2)) as [[d2 a2]|e2]; try done;
      unfold same_world; cbn; [|by subst].
    destruct Ls as [-> ?]. done.
Qed.
End worlds.

Ltac isolated_tac :=
  repeat match goal with
  | |- isolated _ (mbind _ _) => apply isolated_bind; [|intros ?]
  | |- isolated _ (mret _) => apply isolated_ret
  | |- isolated _ (throw _) => apply isolated_throw
  | |- isolated _ nowMillis => apply isolated_ask
  | |- isolated _ (ask _) => apply isolated_ask
  | |- isolated _ (on_error _ _) => apply isolated_on_error
  | |- isolated _ (row_or _ _) => apply isolated_on_error
  | |- isolated _ (attempt _) => apply isolated_attempt
  | |- isolated _ (exec _) => apply isolated_exec; auto with tenancy
  | |- isolated _ _ => case_match
  end.

(** ** The calls of the backend *)

Section backend.
Context `{Platform} `{Crypto} `{JwtLib}.
Implicit Types (w : World).

(** The group a call names, as the caller spells it; a registration names its
    group by its token. *)
Definition rpc_group (r : rpc) : option string :=
  match r with
  | RCompleteNodeRegistration _ => None
  | RAuthenticateNode req => Some (an_ConnectivityGroupId req)
  | RListNodes id | RGetRoster id | RGetGroupMetadata id | RGetTurnPolicy id
  | RUpdateNodeLastSeen id _ | RDeregisterNode id _ => Some id
  | RUpdateRoster req => Some (ur_ConnectivityGroupId req)
  | RLogActivity req => Some (la_ConnectivityGroupId req)
  end.

Lemma isolated_parse {A} raw g (f : string -> ST World status A) :
  uuid_Parse raw = Some g -> isolated g (f g) -> isolated g (mbind f (parseGroupID raw)).
Proof. intros Hg Hf. unfold parseGroupID. rewrite Hg. exact Hf. Qed.
Lemma isolated_log g n ty ok details : isolated g (insertActivityLog g n ty ok details).
Proof. unfold insertActivityLog. destruct (details ≫= _) as [[b|]|]; isolated_tac. Qed.

(** A call that names the group, in any spelling, is isolated. *)
Section calls.
Context (raw g : string) (Hg : uuid_Parse raw = Some g).
Lemma isolated_AuthenticateNode req :
  an_ConnectivityGroupId req = raw -> isolated g (AuthenticateNode req).
Proof. intros <-. unfold AuthenticateNode. apply (isolated_parse _ _ _ Hg). isolated_tac. Qed.
Lemma isolated_ListNodes : isolated g (ListNodes raw).
Proof. unfold ListNodes. apply (isolated_parse _ _ _ Hg). isolated_tac. Qed.
Lemma isolated_GetRoster : isolated g (GetRoster raw).
Proof. unfold GetRoster. apply (isolated_parse _ _ _ Hg). isolated_tac. Qed.
Lemma isolated_GetGroupMetadata b : isolated g (GetGroupMetadata b raw).
Proof. unfold GetGroupMetadata. apply (isolated_parse _ _ _ Hg). isolated_tac. Qed.
Lemma isolated_GetTurnPolicy b : isolated g (GetTurnPolicy b raw).
Proof. unfold GetTurnPolicy. apply (isolated_parse _ _ _ Hg). isolated_tac. Qed.
Lemma isolated_UpdateRoster req : ur_ConnectivityGroupId req = raw -> isolated g (UpdateRoster req).
Proof. intros <-. unfold UpdateRoster. apply (isolated_parse _ _ _ Hg). isolated_tac. Qed.
Lemma isolated_UpdateNodeLastSeen n : isolated g (UpdateNodeLastSeen raw n).
Proof. unfold UpdateNodeLastSeen. apply (isolated_parse _ _ _ Hg). isolated_tac. Qed.
Lemma isolated_DeregisterNode n : isolated g (DeregisterNode raw n).
Proof. unfold DeregisterNode. apply (isolated_parse _ _ _ Hg). isolated_tac. apply isolated_log. Qed.
Lemma isolated_LogActivity req : la_ConnectivityGroupId req = raw -> isolated g (LogActivity req).
Proof. intros <-. unfold LogActivity. apply (isolated_parse _ _ _ Hg). apply isolated_log. Qed.
End calls.
Hint Resolve isolated_AuthenticateNode isolated_ListNodes isolated_GetRoster isolated_GetGroupMetadata
  isolated_GetTurnPolicy isolated_UpdateRoster isolated_UpdateNodeLastSeen isolated_DeregisterNode
  isolated_LogActivity : tenancy.

Lemma serveReply_isolated b r raw g :
  rpc_group r = Some raw -> uuid_Parse raw = Some g -> isolated g (serveReply b r).
Proof.
  intros Hr Hg. destruct r; cbn in Hr; simplify_eq; cbn [serveReply];
    (apply isolated_bind; [eauto with tenancy|intros ?; apply isolated_ret]).
Qed.

(** A call that names no group at all does nothing. *)
Lemma serve_unparsed b r raw w : rpc_group r = Some raw -> uuid_Parse raw = None -> serve b r w = w.
Proof.
  intros Hr Hg. destruct r; cbn in Hr; simplify_eq; cbn [serve];
    unfold AuthenticateNode, ListNodes, GetRoster, GetGroupMetadata, GetTurnPolicy, UpdateRoster,
      UpdateNodeLastSeen, DeregisterNode, LogActivity, parseGroupID; by rewrite Hg.
Qed.

(** How many questions a call that names a group puts to the platform does not
    depend on the database: a statement that fails is the last. *)
Definition steady {E A} (m : ST World E A) : Prop :=
  forall w1 w2, tick w1 = tick w2 -> tick (fst (m w1)) = tick (fst (m w2)).
Definition silent {E A} (m : ST World E A) : Prop := forall w, tick (fst (m w)) = tick w.
Lemma steady_silent {E A} (m : ST World E A) : silent m -> steady m.
Proof. intros Hm w1 w2 Ht. by rewrite !Hm. Qed.
Lemma steady_then {E A B} (m : ST World E A) (f : A -> ST World E B) :
  steady m -> (forall a, silent (f a)) -> steady (mbind f m).
Proof.
  intros Hm Hf w1 w2 Ht. unfold mbind, ST_bind. specialize (Hm w1 w2 Ht).
  destruct (m w1) as [? [a1|e1]], (m w2) as [? [a2|e2]]; cbn in *; by rewrite ?Hf.
Qed.
Lemma steady_exec {E A} (f : dbError -> E) (s : stmt A) : steady (on_error f (exec s)).
Proof.
  assert (forall w, tick (fst (on_error f (exec s) w)) = S (tick w)) as He; [|intros w1 w2 Ht; by rewrite !He, Ht].
  intros w. unfold on_error, exec, meanwhile, alone, tx_exec. destruct (driver_fails _); [done|].
  by destruct (s (db w)) as [[d a]|e].
Qed.
Lemma steady_now {E A} (f : Z -> ST World E A) : (forall t, steady (f t)) -> steady (t ← nowMillis; f t).
Proof. intros Hf w1 w2 Ht. unfold nowMillis, ask, mbind, ST_bind. rewrite Ht. by apply Hf. Qed.
Lemma steady_log g n ty ok details : steady (insertActivityLog g n ty ok details).
Proof.
  unfold insertActivityLog. destruct (details ≫= _) as [[b|]|]; [|by apply steady_silent|]; apply steady_now;
    intros t w1 w2 Ht; unfold attempt, mbind, ST_bind, exec, meanwhile, alone, tx_exec, ins_activity;
    rewrite Ht; by destruct (driver_fails _).
Qed.
Lemma steady_upd_node {E A} (f : dbError -> E) g n h (k : ST World E A) :
  steady k -> steady (_ ← on_error f (exec (upd_node g n h)); k).
Proof.
  intros Hk w1 w2 Ht. unfold on_error, mbind, ST_bind, exec, meanwhile, alone, tx_exec, upd_node.
  rewrite Ht. destruct (driver_fails _); [done|]. by apply Hk.
Qed.
Lemma serve_tick b r w1 w2 :
  is_Some (rpc_group r) -> tick w1 = tick w2 -> tick (serve b r w1) = tick (serve b r w2).
Proof.
  intros [raw Hr] Ht. destruct (uuid_Parse raw) as [g|] eqn:Hg;
    [|by rewrite !(serve_unparsed b r raw) by done].
  destruct r; cbn in Hr; simplify_eq; cbn [serve];
    unfold AuthenticateNode, ListNodes, GetRoster, GetGroupMetadata, GetTurnPolicy, UpdateRoster,
      UpdateNodeLastSeen, DeregisterNode, LogActivity, parseGroupID; rewrite Hg; revert w1 w2 Ht;
    match goal with |- forall w1 w2, _ -> tick (fst (mbind ?f _ _)) = _ => change (steady (f g)) end.
  - apply steady_then; [apply steady_exec|]. intros row w. by case_match.
  - apply steady_then; [apply steady_exec|done].
  - apply steady_then; [apply steady_exec|done].
  - apply steady_then; [apply steady_exec|done].
  - apply steady_then; [apply steady_exec|done].
  - destruct (_ <=? _); [by apply steady_silent|]. apply steady_then; [apply steady_exec|]. intros n w. by case_match.
  - apply steady_now. intros t. apply steady_exec.
  - apply steady_now. intros t. apply steady_upd_node, steady_log.
  - apply steady_log.
Qed.
(** A tenant does not see the calls that name other groups. *)
Lemma serve_unseen b r g w1 w2 :
  is_Some (rpc_group r) -> same_world g w1 w2 -> same_world g (serve b r w1) (serve b r w2).
Proof.
  intros [raw Hr] [Ht Hd]. destruct (uuid_Parse raw) as [g'|] eqn:Hg';
    [|by rewrite !(serve_unparsed b r raw) by done].
  destruct (serveReply_isolated b r raw g' Hr Hg') as [Hw Hl].
  destruct (decide (g' = g)) as [->|Hne].
  - destruct (Hl w1 w2) as [Hs _]; [done|]. by rewrite !serveReply_serve in Hs.
  - split; [by apply serve_tick|].
    assert (forall w, same_tenant g (db w) (db (serve b r w))) as Hs.
    { intros w. rewrite <-serveReply_serve. by apply Hw. }
    by rewrite <-(Hs w1), <-(Hs w2).
Qed.

(** The rows a registration touches are those of its token's group. *)
Lemma others_with_nodes g n row d : same_others g d (with_nodes (<[(g, n) := row]> (nodes d)) d).
Proof.
  split; [|done..]. intros g' Hne. split; try done. intros n'. cbn.
  rewrite lookup_insert_ne; [done|]. by intros [= ->].
Qed.
Lemma others_token_used d k t :
  NoDup (tk_id <$> tokens d) -> k ∈ tokens d ->
  same_others (tk_group k) d
    (with_tokens ((fun k' => if decide (tk_id k' = tk_id k) then token_used t k' else k') <$> tokens d) d).
Proof.
  intros Hnd Hk. split; [|done..]. intros g' Hne. split; try done. unfold own_tokens. cbn.
  assert (forall k', k' ∈ tokens d -> tk_id k' = tk_id k -> k' = k) as Huniq.
  { intros k' [j Hj]%list_elem_of_lookup Hid. apply list_elem_of_lookup in Hk as [i Hi].
    assert (i = j) as ->; [|congruence].
    eapply (NoDup_lookup (tk_id <$> tokens d)); [done|..]; rewrite list_lookup_fmap_Some; eauto. }
  assert (forall l : list TokenRow, (forall k', k' ∈ l -> k' ∈ tokens d) -> filter (fun k' => tk_group k' = g') l =
    filter (fun k' => tk_group k' = g')
      ((fun k' => if decide (tk_id k' = tk_id k) then token_used t k' else k') <$> l)) as Hl; [|by apply Hl].
  induction l as [|x l IH]; intros Hin; [done|]. cbn [fmap list_fmap].
  rewrite !filter_cons, IH by (intros; apply Hin; by right).
  destruct (decide (tk_id x = tk_id k)) as [Hid|]; [|done].
  rewrite (Huniq x) by first [apply Hin; by left|done]. cbn. by rewrite !decide_False by congruence.
Qed.
Lemma registers_others d hash now authHash k n d' :
  NoDup (tk_id <$> tokens d) -> registers d hash now authHash k n d' -> same_others (tk_group k) d d'.
Proof.
  intros Hnd (t1 & t2 & d1 & d2 & Hk & Hn & Hins & Hused).
  apply sel_token_Ok in Hk as (_ & Hk & _). revert Hn Hins Hused.
  unfold upd_assign_number. destruct (groups d !! _) as [g|]; [|done].
  destruct (int32_ok _); [|done]. intros [= <- <-].
  unfold ins_node. do 2 (case_decide; [done|]). intros [= <-]. intros [= <-].
  etrans; [apply others_with_group|]. etrans; [apply others_with_nodes|].
  exact (others_token_used (with_nodes _ (with_groups _ d)) k t2 Hnd Hk).
Qed.
Lemma registration_others b token w :
  NoDup (tk_id <$> tokens (db w)) ->
  let d' := db (fst (CompleteNodeRegistration b token w)) in
  d' = db w \/ exists k, k ∈ tokens (db w) /\ same_others (tk_group k) (db w) d'.
Proof.
  intros Hnd. cbn. destruct (CompleteNodeRegistration b token w) as [w' r] eqn:HC. cbn.
  unfold CompleteNodeRegistration in HC.
  apply ST_bind_cases in HC as [(e & Ha & _)|(w1 & ok & [_ ->]%ask_Ok & HC)]; [by inversion Ha; left|].
  destruct (negb ok); [by inversion HC; left|].
  apply ST_bind_cases in HC as [(e & Hr & _)|(w2 & [[cg n] tok] & Hr & HC)].
  { left. by rewrite (registration_Err _ _ _ _ Hr). }
  right. destruct (registration_Ok _ _ _ _ _ _ Hr) as (? & ? & k & _ & _ & -> & Hreg).
  exists k. split; [by destruct Hreg as (? & ? & ? & ? & (_ & ? & _)%sel_token_Ok & _)|].
  etrans; [by eapply registers_others|].
  match type of HC with ?m w2 = _ => assert (isolated (tk_group k) m) as [Hw _] end.
  { apply isolated_bind; [apply isolated_log|intros _; isolated_tac]. }
  specialize (Hw w2). by rewrite HC in Hw.
Qed.

(** Whatever a call of the backend changes is in one group: the one it names,
    or the one of a token that was presented. What a call that names a group
    changes in the group and answers depends on the group's rows only. *)
Theorem backend_isolation b r w :
  wf_db canonical_id (db w) ->
  match rpc_group r with
  | Some raw =>
      match uuid_Parse raw with
      | Some g => same_others g (db w) (db (serve b r w)) /\
          forall w', same_world g w w' -> same_world g (serve b r w) (serve b r w') /\
            snd (serveReply b r w) = snd (serveReply b r w')
      | None => db (serve b r w) = db w
      end
  | None => db (serve b r w) = db w \/
      exists k, k ∈ tokens (db w) /\ same_others (tk_group k) (db w) (db (serve b r w))
  end.
Proof.
  intros Hwf. destruct (rpc_group r) as [raw|] eqn:Hr.
  - destruct (uuid_Parse raw) as [g|] eqn:Hg.
    + destruct (serveReply_isolated b r raw g Hr Hg) as [Hw Hl]. split.
      * rewrite <-serveReply_serve. apply Hw.
      * intros w' Hs. rewrite <-!serveReply_serve. by apply Hl.
    + by rewrite (serve_unparsed b r raw).
  - destruct r; try done. apply registration_others, Hwf.
Qed.
End backend.
