(* ===== verification/HubTenancy.v ===== *)
(** * Tenants of the standalone hub

    The calls of a group's nodes and the other groups. [agrees R m] says that
    two runs of [m] from related states give the same answer and related
    states. With the relation "the same state, untouched outside the tenant"
    this is integrity: a tenant's call changes nothing of the others. With the
    relation "the same for the tenant" it is confidentiality: what a tenant
    is told does not depend on the others. Both come from one walk through the
    handlers. *)
From S2P Require Import Prelude GoStrings GoEncoding GoTime TurnCreds Version Sharding Grpc BePb.
From S2P Require Import Attestation RosterPb Store StoreInv Platform Backend BackendSteps AdminApi.
From S2P Require Import AdminProps Replies Tenancy HubSrv HubProps.
From S2P Require Import Routing RoutingSteps HubRouter HubRouterProps.
Open Scope Z_scope.

(** ** Two runs that agree *)

Section agrees.
Context {T : Type} (RT : T -> T -> Prop).

Definition any {A} (_ : A) : Prop := True.
(** The value, if there is one, satisfies [Q]. *)
Definition agrees {E A} (Q : A -> Prop) (m : ST T E A) : Prop :=
  forall s1 s2, RT s1 s2 ->
    RT (fst (m s1)) (fst (m s2)) /\ snd (m s1) = snd (m s2) /\ forall a, snd (m s1) = Ok a -> Q a.

Lemma agrees_ret {E A} (Q : A -> Prop) (a : A) : Q a -> agrees Q (mret a : ST T E A).
Proof. intros Ha s1 s2 Hs. split_and!; [done..|]. by intros b [= <-]. Qed.
Lemma agrees_throw {E A} (Q : A -> Prop) (e : E) : agrees Q (throw e : ST T E A).
Proof. by intros s1 s2 Hs. Qed.
Lemma agrees_bind {E A B} (P : A -> Prop) (Q : B -> Prop) (m : ST T E A) (f : A -> ST T E B) :
  agrees P m -> (forall a, P a -> agrees Q (f a)) -> agrees Q (mbind f m).
Proof.
  intros Hm Hf s1 s2 Hs. unfold mbind, ST_bind. destruct (Hm s1 s2 Hs) as (Hs' & Hr & HP).
  destruct (m s1) as [s1' r1], (m s2) as [s2' r2]. cbn in *. subst r2.
  destruct r1 as [a|e]; [apply Hf; [by apply HP|done]|done].
Qed.
Lemma agrees_attempt {E E' A} (Q : A -> Prop) (m : ST T E' A) :
  agrees Q m -> agrees any (attempt m : ST T E _).
Proof.
  intros Hm s1 s2 Hs. unfold attempt. destruct (Hm s1 s2 Hs) as (Hs' & Hr & HP).
  destruct (m s1), (m s2). cbn in *. by subst.
Qed.
End agrees.

(** ** The handlers *)

Section contract.
Context `{Crypto} `{HP : HubPb} `{RateLib} {S : Type}.
Context `{!BackendClient S} `{!RouterClient S}.
(** The group as its nodes spell it, the connectors of its streams, the
    relation on what is behind the interfaces, and the one on the limiters. *)
Context (raw : string) (own : Conn -> Prop).
Context (R : S -> S -> Prop) (L : Limiter -> Limiter -> Prop).

(** What the backend and the router promise to the calls of one group. *)
Record tenant_ops : Prop := {
  t_authenticate req : an_ConnectivityGroupId req = raw -> agrees R any (be_AuthenticateNode req);
  t_list : agrees R any (be_ListNodes raw);
  t_roster : agrees R any (be_GetRoster raw);
  t_metadata : agrees R any (be_GetGroupMetadata raw);
  t_policy : agrees R any (be_GetTurnPolicy raw);
  t_update req : ur_ConnectivityGroupId req = raw -> agrees R any (be_UpdateRoster req);
  t_last_seen n : agrees R any (be_UpdateNodeLastSeen raw n);
  t_deregister n : agrees R any (be_DeregisterNode raw n);
  t_log req : la_ConnectivityGroupId req = raw -> agrees R any (be_LogActivity req);
  t_exchange req : agrees R any (exchange raw req);
  t_connected n s1 s2 : R s1 s2 -> isNodeConnected s1 raw n = isNodeConnected s2 raw n;
  t_connect n : agrees R own (router_connect raw n);
  t_disconnect c s1 s2 : own c -> R s1 s2 -> R (router_disconnect c s1) (router_disconnect c s2);
  t_send req : agrees R any (stream_send req);
  t_run c s1 s2 : own c -> R s1 s2 -> R (conn_run c s1) (conn_run c s2);
  t_evicted c s1 s2 : own c -> R s1 s2 -> conn_evicted c s1 = conn_evicted c s2;
  t_shed n c s1 s2 : own c -> R s1 s2 -> R (shed_start raw n c s1) (shed_start raw n c s2);
  t_stop c s1 s2 : own c -> R s1 s2 -> R (shed_stop c s1) (shed_stop c s2);
  t_load c s1 s2 : own c -> R s1 s2 -> shed_load c s1 = shed_load c s2;
  t_clock s1 s2 : R s1 s2 -> fst (clock s1) = fst (clock s2) /\ R (snd (clock s1)) (snd (clock s2));
  t_allow n t l1 l2 : L l1 l2 ->
    fst (Allow (limiterKey raw n) t l1) = fst (Allow (limiterKey raw n) t l2) /\
    L (snd (Allow (limiterKey raw n) t l1)) (snd (Allow (limiterKey raw n) t l2))
}.
Context (HT : tenant_ops).

Definition RH (h1 h2 : HubState (S := S)) : Prop :=
  L (limiter h1) (limiter h2) /\ R (rest h1) (rest h2).
(** The caller's metadata names the group. *)
Definition named (ctx : option metadata) : Prop :=
  forall md, ctx = Some md -> getMetadataValue md "x-connectivity-group-id" = raw.

Lemma agrees_lift {E A} (Q : A -> Prop) (m : ST S E A) : agrees R Q m -> agrees RH Q (lift m).
Proof.
  intros Hm h1 h2 [Hl Hr]. unfold lift, RH. specialize (Hm _ _ Hr).
  destruct (m (rest h1)), (m (rest h2)). cbn in *. tauto.
Qed.
Lemma agrees_lift_pure {E} (f : S -> S) :
  (forall s1 s2, R s1 s2 -> R (f s1) (f s2)) -> agrees RH any (lift_pure f : ST HubState E unit).
Proof. intros Hf h1 h2 [Hl Hr]. split; [by split; [|apply Hf]|done]. Qed.
Lemma agrees_read {E A} (f : S -> A) :
  (forall s1 s2, R s1 s2 -> f s1 = f s2) -> agrees RH any (read f : ST HubState E A).
Proof. intros Hf h1 h2 Hh. unfold read. cbn. rewrite (Hf _ _ (proj2 Hh)). done. Qed.
Lemma agrees_defer {E A} (f : S -> S) (m : ST HubState E A) :
  (forall s1 s2, R s1 s2 -> R (f s1) (f s2)) -> agrees RH any m -> agrees RH any (with_defer f m).
Proof.
  intros Hf Hm h1 h2 Hh. unfold with_defer, RH. destruct (Hm _ _ Hh) as ([? ?] & ? & ?).
  destruct (m h1), (m h2). cbn in *. split_and!; auto; done.
Qed.
Lemma agrees_time {E} : agrees RH any (time_Now : ST HubState E Time).
Proof.
  intros h1 h2 [Hl Hr]. unfold time_Now, RH. destruct (t_clock HT _ _ Hr) as [Ht Hc].
  destruct (clock (rest h1)), (clock (rest h2)). cbn in *. by subst.
Qed.
Lemma agrees_allow {E} n : agrees RH any (limiter_Allow (limiterKey raw n) : ST HubState E bool).
Proof.
  apply (agrees_bind _ any); [apply agrees_time|]. intros t _ h1 h2 [Hl Hr].
  unfold limiter_Allow_at, RH. destruct (t_allow HT n t _ _ Hl) as [Ha Hl'].
  destruct (Allow _ t (limiter h1)), (Allow _ t (limiter h2)). cbn in *. by subst.
Qed.
Lemma agrees_authenticate ctx :
  named ctx -> agrees RH (fun p => p.1 = raw) (authenticateAndRateLimit ctx).
Proof.
  intros Hctx. unfold authenticateAndRateLimit. destruct ctx as [md|]; [|apply agrees_throw].
  rewrite (Hctx md eq_refl).
  destruct (_ || _); [apply agrees_throw|]. destruct (Sscanf_int32 _); [|apply agrees_throw].
  apply (agrees_bind _ any); [apply agrees_allow|]. intros [|] _; [|apply agrees_throw].
  apply (agrees_bind _ any); [by apply agrees_lift, HT|]. intros [] _. by apply agrees_ret.
Qed.
Lemma agrees_log n ty ok details : agrees RH any (logActivity raw n ty ok details).
Proof.
  apply (agrees_bind _ any); [by eapply agrees_attempt, agrees_lift, HT|]. intros r _. by apply agrees_ret.
Qed.
End contract.

(** The answer of a call, next to the state it leaves. *)
Section answers.
Context `{Crypto} `{HP : HubPb} `{RateLib} {S : Type}.
Context `{!BackendClient S} `{!RouterClient S}.

Inductive hub_reply :=
| YRegistration (r : CompleteNodeRegistrationResponse)
| YPair (r : option PairNodesMessage)
| YRoster (r : Roster)
| YNodes (r : list HubNode)
| YMetadata (r : string * string * Z)
| YStunTurn (r : outcome StunTurnConfig)
| YConnection (r : option StartConnectionResponse)
| YDone.
Definition hub_answer (srv : HubServer) (minShed : version) (text : status -> string) (c : hub_call) :
    ST (HubState (S := S)) status hub_reply :=
  match c with
  | HRegister token => r ← HubSrv.CompleteNodeRegistration token; mret (YRegistration r)
  | HPair ctx req => r ← PairNodes ctx req; mret (YPair r)
  | HUpdateRoster ctx roster => r ← HubSrv.UpdateRoster text ctx roster; mret (YRoster r)
  | HListNodes ctx => r ← HubSrv.ListNodes ctx; mret (YNodes r)
  | HGetRoster ctx => r ← HubSrv.GetRoster ctx; mret (YRoster r)
  | HGetGroupMetadata ctx => r ← HubSrv.GetGroupMetadata ctx; mret (YMetadata r)
  | HGetStunTurnConfig ctx => r ← GetStunTurnConfig srv ctx; mret (YStunTurn r)
  | HStartConnection ctx req => r ← StartConnection text ctx req; mret (YConnection r)
  | HDeregister ctx => _ ← HubSrv.DeregisterNode ctx; mret YDone
  | HStartServing latency ctx => _ ← StartServing srv minShed latency ctx; mret YDone
  end.
Definition ending (r : result status hub_reply) : outcome (option status) :=
  match r with
  | Ok (YStunTurn (Panic msg)) => Panic msg
  | Ok _ => Return None
  | Err e => Return (Some e)
  end.
Lemma hub_answer_serve srv v text c h :
  (fst (hub_answer srv v text c h), ending (snd (hub_answer srv v text c h))) =
  hub_serve srv v text c h.
Proof.
  destruct c; cbn [hub_answer hub_serve]; unfold outcome_of, panicking, mbind, ST_bind;
    match goal with |- context [match ?m with _ => _ end] => destruct m as [? []]; try done end.
Qed.

(** A sequence of calls, and all their answers. *)
Fixpoint hub_answers (srv : HubServer) (minShed : version) (text : status -> string) (cs : list hub_call)
    (h : HubState (S := S)) : HubState * list (result status hub_reply) :=
  match cs with
  | [] => (h, [])
  | c :: cs =>
      let '(h, r) := hub_answer srv minShed text c h in
      let '(h, rs) := hub_answers srv minShed text cs h in (h, r :: rs)
  end.
(** The calls whose metadata names the group. *)
Definition tenant_call (raw : string) (c : hub_call) : Prop :=
  exists ctx, call_ctx c = Some ctx /\ named raw ctx.
End answers.

(** A handler, followed through its binds and branches: what the authentication
    returns is the tenant, what [connect] returns is the tenant's. *)
Ltac agrees_tac :=
  repeat match goal with
  | HT : tenant_ops _ _ _ _ |- agrees _ _ (mbind _ (authenticateAndRateLimit _)) =>
      eapply agrees_bind; [by apply (agrees_authenticate _ _ _ _ HT)|intros [? ?] Heq; cbn in Heq; subst; cbn beta iota]
  | HT : tenant_ops _ _ _ _ |- agrees _ _ (mbind _ (lift (router_connect _ _))) =>
      eapply agrees_bind; [apply agrees_lift, (t_connect _ _ _ _ HT)|intros ? ?]
  | |- agrees _ _ (mbind _ _) => apply (agrees_bind _ any); [|intros ? _]
  | |- agrees _ _ (mret _) => by apply agrees_ret
  | |- agrees _ _ (throw _) => apply agrees_throw
  | HT : tenant_ops _ _ _ _ |- agrees _ _ (logActivity _ _ _ _ _) => apply (agrees_log _ _ _ _ HT)
  | |- agrees _ _ (attempt _) => apply (agrees_attempt _ any)
  | HT : tenant_ops _ _ _ _ |- agrees _ _ (lift _) => by apply agrees_lift, HT
  | |- agrees _ _ (lift_pure _) => apply agrees_lift_pure
  | |- agrees _ _ (read _) => apply agrees_read
  | HT : tenant_ops _ _ _ _ |- agrees _ _ time_Now => apply (agrees_time _ _ _ _ HT)
  | |- agrees _ _ (with_defer _ _) => apply agrees_defer
  | |- agrees _ _ (getEndorserCosignature _ _ _ _ _) => unfold getEndorserCosignature
  | |- agrees _ _ _ => case_match
  end.

Section handlers.
Context `{Crypto} `{HP : HubPb} `{RateLib} {S : Type}.
Context `{!BackendClient S} `{!RouterClient S}.
Context (raw : string) (own : Conn -> Prop) (R : S -> S -> Prop) (L : Limiter -> Limiter -> Prop).
Context (HT : tenant_ops raw own R L).

Lemma handlers_agree srv v text c ctx :
  call_ctx c = Some ctx -> named raw ctx -> agrees (RH R L) any (hub_answer srv v text c).
Proof.
  intros Hc Hctx. destruct c; cbn in Hc; simplify_eq; cbn [hub_answer];
    (apply (agrees_bind _ any); [|intros ? _; by apply agrees_ret]).
  - unfold PairNodes. agrees_tac.
  - unfold UpdateRoster. agrees_tac.
  - unfold ListNodes. agrees_tac. intros s1 s2 Hs. apply list_fmap_ext. intros _ n _.
    by rewrite (t_connected _ _ _ _ HT _ _ _ Hs).
  - unfold GetRoster. agrees_tac.
  - unfold GetGroupMetadata. agrees_tac.
  - unfold GetStunTurnConfig. agrees_tac.
  - unfold StartConnection. agrees_tac.
  - unfold DeregisterNode. agrees_tac.
  - unfold StartServing. agrees_tac; intros; try (case_match; [|done]); by eapply HT.
Qed.
Lemma answers_agree srv v text cs h1 h2 :
  Forall (tenant_call raw) cs -> RH R L h1 h2 ->
  RH R L (fst (hub_answers srv v text cs h1)) (fst (hub_answers srv v text cs h2)) /\
  snd (hub_answers srv v text cs h1) = snd (hub_answers srv v text cs h2).
Proof.
  intros Hcs. revert h1 h2. induction Hcs as [|c cs (ctx & Hc & Hctx) _ IH]; intros h1 h2 Hh; [done|].
  cbn [hub_answers]. destruct (handlers_agree srv v text c ctx Hc Hctx h1 h2 Hh) as (Hh' & Hr & _).
  destruct (hub_answer srv v text c h1) as [h1' r1], (hub_answer srv v text c h2) as [h2' r2]. cbn in *.
  destruct (IH _ _ Hh') as [Hh'' Hrs].
  destruct (hub_answers _ _ _ cs h1'), (hub_answers _ _ _ cs h2'). cbn in *. split; [done|congruence].
Qed.
End handlers.

(** ** The router and the backend, for one tenant *)

Section hub.
Context `{Crypto} `{HP : HubPb} `{RateLib} `{Platform} `{JwtLib} {O : Others}.
(** The group's id, in canonical form and as the nodes at hand spell it. *)
Context (raw g : string) (Hg : uuid_Parse raw = Some g).

(** What a relation on hubs must respect to be one of the tenant's. *)
Record tenant_rel (R : Hub -> Hub -> Prop) : Prop := {
  tr_act a h1 h2 : R h1 h2 -> R (act raw a h1) (act raw a h2);
  tr_interfere h1 h2 : R h1 h2 -> R (interfere h1) (interfere h2);
  tr_flag n b h1 h2 : R h1 h2 ->
    R (with_flags (<[(raw, n) := b]> (shedFlags h1)) h1) (with_flags (<[(raw, n) := b]> (shedFlags h2)) h2);
  tr_unflag n h1 h2 : R h1 h2 ->
    R (with_flags (delete (raw, n) (shedFlags h1)) h1) (with_flags (delete (raw, n) (shedFlags h2)) h2);
  tr_world {E A} (m : ST World E A) h1 h2 : isolated g m -> R h1 h2 ->
    R (with_world (fst (m (world h1))) h1) (with_world (fst (m (world h2))) h2) /\
    snd (m (world h1)) = snd (m (world h2));
  tr_session h1 h2 : R h1 h2 -> sessions h1 !! raw = sessions h2 !! raw;
  tr_flags n h1 h2 : R h1 h2 -> shedFlags h1 !! (raw, n) = shedFlags h2 !! (raw, n);
  tr_waits h1 h2 : R h1 h2 -> waits h1 = waits h2
}.

Section rel.
Context (R : Hub -> Hub -> Prop) (HR : tenant_rel R) (b : Backend).
#[local] Instance tenant_client : BackendClient Hub := hub_client b.

Lemma rel_session h1 h2 : R h1 h2 -> session raw h1 = session raw h2.
Proof. intros Hh. unfold session. by rewrite (tr_session _ HR _ _ Hh). Qed.
Lemma rel_lock h1 h2 : R h1 h2 -> R (lock raw h1) (lock raw h2).
Proof. intros Hh. by apply HR, HR. Qed.
Lemma rel_RouteRequest req h1 h2 :
  R h1 h2 -> fst (RouteRequest raw req h1) = fst (RouteRequest raw req h2) /\
    R (snd (RouteRequest raw req h1)) (snd (RouteRequest raw req h2)).
Proof.
  intros Hh. unfold RouteRequest. cbn [fst snd]. split; [by rewrite (rel_session _ _ Hh)|].
  rewrite (rel_session _ _ Hh). set (t := length _).
  assert (R (act raw (ALookup t) (lock raw (act raw (ANumber {| wq_RequestId := 0; wq_request := req |}) h1)))
    (act raw (ALookup t) (lock raw (act raw (ANumber {| wq_RequestId := 0; wq_request := req |}) h2)))) as Hl
    by by apply HR, rel_lock, HR.
  apply HR, rel_lock. rewrite (rel_session _ _ Hl).
  destruct (callers _ !! t) as [[]|]; try done.
  apply (tr_interfere _ HR) in Hl. rewrite (tr_waits _ HR _ _ Hl). by do 5 apply (tr_act _ HR).
Qed.
Lemma rel_await t h1 h2 : R h1 h2 -> await raw t h1 = await raw t h2.
Proof.
  intros Hh. unfold await. by rewrite (rel_session _ _ Hh), (tr_waits _ HR _ _ Hh).
Qed.
Lemma rel_on_world {E A} (m : ST World E A) : isolated g m -> agrees R any (on_world m).
Proof.
  intros Hm h1 h2 Hh%(tr_interfere _ HR). unfold on_world.
  destruct (tr_world _ HR m _ _ Hm Hh) as [Hw Hr]. destruct (m (world (interfere h1))), (m (world (interfere h2))).
  cbn in *. by subst.
Qed.

Definition own_conn (c : Conn) : Prop := c.1 = raw.
(** The concrete hub keeps the promises of [tenant_ops]. *)
Lemma rel_tenant_ops (L : Limiter -> Limiter -> Prop) :
  (forall n t l1 l2, L l1 l2 ->
    fst (Allow (limiterKey raw n) t l1) = fst (Allow (limiterKey raw n) t l2) /\
    L (snd (Allow (limiterKey raw n) t l1)) (snd (Allow (limiterKey raw n) t l2))) ->
  tenant_ops raw own_conn R L.
Proof.
  intros HL. split; try exact HL; cbn [tenant_client hub_client be_AuthenticateNode be_ListNodes be_GetRoster
    be_GetGroupMetadata be_GetTurnPolicy be_UpdateRoster be_UpdateNodeLastSeen be_DeregisterNode be_LogActivity];
    try (intros; apply rel_on_world; eauto using isolated_AuthenticateNode, isolated_ListNodes,
      isolated_GetRoster, isolated_GetGroupMetadata, isolated_GetTurnPolicy, isolated_UpdateRoster,
      isolated_UpdateNodeLastSeen, isolated_DeregisterNode, isolated_LogActivity).
  - intros req h1 h2 Hh. destruct (rel_RouteRequest req h1 h2 Hh) as [Ht Hh']. cbn [exchange hub_router].
    destruct (RouteRequest raw req h1) as [t1 h1'], (RouteRequest raw req h2) as [t2 h2'].
    cbn [fst snd] in *. subst t2.
    apply (tr_interfere _ HR) in Hh'. split; [exact Hh'|]. split; [|done]. exact (rel_await t1 _ _ Hh').
  - intros n h1 h2 Hh. change (IsNodeConnected raw n (router h1) = IsNodeConnected raw n (router h2)).
    assert (forall h, router h !! raw = grp <$> sessions h !! raw) as Hr 
      by (intros h; exact (fin_maps.lookup_fmap grp (sessions h) raw)).
    unfold IsNodeConnected. by rewrite !Hr, (tr_session _ HR _ _ Hh).
  - intros n h1 h2 Hh%rel_lock. cbn. rewrite (rel_session _ _ Hh). split_and!; [|done|].
    + by apply HR, HR, HR.
    + by intros c [= <-].
  - intros [cg c] h1 h2 [= ->] Hh. cbn. by apply HR, rel_lock.
  - intros req h1 h2 Hh. cbn. rewrite (tr_waits _ HR _ _ Hh). split; [|done]. by apply HR.
  - intros [cg c] h1 h2 [= ->] Hh. cbn. by apply HR, HR, HR.
  - intros [cg c] h1 h2 [= ->] Hh. cbn. by rewrite (rel_session _ _ Hh).
  - intros n [cg c] h1 h2 [= ->] Hh. by apply HR.
  - intros [cg c] h1 h2 [= ->] Hh. by apply HR.
  - intros [cg c] h1 h2 [= ->] Hh. cbn. by rewrite (tr_flags _ HR _ _ _ Hh).
  - intros h1 h2 Hh. destruct (tr_world _ HR (ask now : ST World status Time) _ _ (isolated_ask _ _) Hh) as [Hw [= Ht]].
    by split.
Qed.
End rel.

(** ** Two relations of the tenant *)

(** Nothing outside the tenant has changed since [h0]. *)
Record outside (h0 h : Hub) : Prop := {
  out_sessions cg : cg <> raw -> sessions h !! cg = sessions h0 !! cg;
  out_flags c : c.1 <> raw -> shedFlags h !! c = shedFlags h0 !! c;
  out_rows : same_others g (db (world h0)) (db (world h))
}.
(** The tenant cannot tell the two apart. *)
Record same_view (h1 h2 : Hub) : Prop := {
  sv_session : sessions h1 !! raw = sessions h2 !! raw;
  sv_flags n : shedFlags h1 !! (raw, n) = shedFlags h2 !! (raw, n);
  sv_waits : waits h1 = waits h2;
  sv_world : same_world g (world h1) (world h2)
}.

(** The calls of others name the group; so do their actions on the router. *)
Definition own_call (c : call) : Prop :=
  match c with
  | Rpc _ r => exists raw', rpc_group r = Some raw' /\ uuid_Parse raw' = Some g
  | Admin _ _ _ => False
  end.
Definition own_backend : Prop := forall k, Forall own_call (other_calls k).
(** Or they name any group, but they are no registrations and no admin requests. *)
Definition group_call (c : call) : Prop :=
  match c with
  | Rpc _ r => is_Some (rpc_group r)
  | Admin _ _ _ => False
  end.
Definition group_calls : Prop := forall k, Forall group_call (other_calls k).
Definition confined : Prop :=
  own_backend /\ forall k, Forall (fun e => e.1 = raw) (other_actions k) /\
    Forall (fun c => c.1 = raw) (other_sheds k).

(** A run of others' actions respects what each action respects. *)
Lemma foldl_rel {A X} (RX : X -> X -> Prop) (P : A -> Prop) (f : X -> A -> X) (l : list A) x1 x2 :
  (forall a y1 y2, P a -> RX y1 y2 -> RX (f y1 a) (f y2 a)) -> Forall P l -> RX x1 x2 ->
  RX (foldl f x1 l) (foldl f x2 l).
Proof.
  intros Hf Hl. revert x1 x2. induction Hl as [|a l Ha _ IH]; intros x1 x2 Hx; [done|].
  by apply IH, Hf.
Qed.
Lemma foldl_keeps {A X} (PX : X -> Prop) (P : A -> Prop) (f : X -> A -> X) (l : list A) x :
  (forall a y, P a -> PX y -> PX (f y a)) -> Forall P l -> PX x -> PX (foldl f x l).
Proof.
  intros Hf Hl. revert x. induction Hl as [|a l Ha _ IH]; intros x Hx; [done|]. by apply IH, Hf.
Qed.
Lemma own_call_isolated c :
  own_call c -> exists m : ST World status reply, isolated g m /\ forall w, run_call w c = fst (m w).
Proof.
  destruct c as [b r|]; [|done]. intros (raw' & Hr & Hu). exists (serveReply b r).
  split; [by eapply serveReply_isolated|]. intros w. symmetry. apply serveReply_serve.
Qed.

(** *** Integrity *)

Lemma outside_act h0 a h : outside h0 h -> outside h0 (act raw a h).
Proof.
  intros [Hs Hf Hr]. unfold act. destruct (RoutingSteps.exec a (session raw h)) as [[s|]|]; [|by split..].
  split; [|done..]. intros cg Hne. cbn. rewrite lookup_insert_ne by congruence. auto.
Qed.
Lemma outside_flags h0 h m :
  (forall c, c.1 <> raw -> m !! c = shedFlags h !! c) -> outside h0 h -> outside h0 (with_flags m h).
Proof. intros Hm [Hs Hf Hr]. split; [done| |done]. intros c Hne. cbn. by rewrite Hm, Hf. Qed.
Lemma outside_world h0 h w : same_others g (db (world h)) (db w) -> outside h0 h -> outside h0 (with_world w h).
Proof. intros Hw [Hs Hf Hr]. split; [done..|]. by etrans. Qed.
Lemma outside_interfere h0 h : confined -> outside h0 h -> outside h0 (interfere h).
Proof.
  intros [Hcalls Hrouter] Hh. unfold interfere. destruct (Hrouter (waits h)) as [Hacts Hsheds].
  set (h2 := foldl _ (foldl _ h _) _). assert (outside h0 h2) as Hh2.
  { subst h2. eapply foldl_keeps; [|exact Hsheds|eapply foldl_keeps; [|exact Hacts|exact Hh]]; cbn.
    - intros [cg c] h' Hc Hh'. cbn in Hc. subst cg. unfold shed_fires. case_decide; [|done]. cbn. apply outside_act, outside_flags; [|done].
      intros c' Hne. apply lookup_insert_ne. by intros <-.
    - intros [cg a] h' Hc Hh'. cbn in Hc. subst cg. by apply outside_act. }
  destruct (outside_world h0 h2 (foldl run_call (world h2) (other_calls (waits h)))) as [Hs Hf Hr];
    [|done|split; [exact Hs|exact Hf|exact Hr]].
  eapply (foldl_keeps (fun w => same_others g (db (world h2)) (db w))); [|apply Hcalls|done].
  intros c w (m & Hm & Hrun)%own_call_isolated Hw. rewrite Hrun. etrans; [exact Hw|apply Hm].
Qed.
Lemma outside_rel h0 : confined -> tenant_rel (fun h1 h2 => h1 = h2 /\ outside h0 h1).
Proof.
  intros Hc. split; try (intros ? ? [-> _]; done); try (intros ? ? ? [-> _]; done).
  - intros a h1 h2 [-> Hh]. split; [done|by apply outside_act].
  - intros h1 h2 [-> Hh]. split; [done|by apply outside_interfere].
  - intros n b h1 h2 [-> Hh]. split; [done|]. apply outside_flags; [|done].
    intros c Hne. apply lookup_insert_ne. by intros <-.
  - intros n h1 h2 [-> Hh]. split; [done|]. apply outside_flags; [|done].
    intros c Hne. apply lookup_delete_ne. by intros <-.
  - intros E A m h1 h2 Hm [-> Hh]. split; [|done]. split; [done|]. apply outside_world; [apply Hm|done].
Qed.

(** *** Confidentiality *)

#[local] Instance same_world_equiv : Equivalence (same_world g).
Proof.
  split.
  - by intros w.
  - intros w1 w2 [? ?]. by split.
  - intros w1 w2 w3 [? ?] [? ?]. split; [congruence|by etrans].
Qed.
#[local] Instance same_view_equiv : Equivalence same_view.
Proof.
  split.
  - by intros h.
  - intros h1 h2 [? ? ? ?]. by split.
  - intros h1 h2 h3 [? ? ? ?] [? ? ? ?]. split; intros; try congruence. by etrans.
Qed.
(** The tenant does not see what happens to another group. *)
Lemma view_act_other cg a h : cg <> raw -> same_view h (act cg a h).
Proof.
  intros Hne. unfold act. destruct (RoutingSteps.exec _ _) as [[s|]|]; [|done..].
  split; [|done..]. cbn. by rewrite lookup_insert_ne.
Qed.
Lemma view_act cg a h1 h2 : same_view h1 h2 -> same_view (act cg a h1) (act cg a h2).
Proof.
  intros Hv. destruct (decide (cg = raw)) as [->|Hne].
  2:{ etrans; [symmetry; by apply view_act_other|]. etrans; [exact Hv|by apply view_act_other]. }
  pose proof Hv as [Hs Hf Hw Hd]. unfold act, session. rewrite Hs.
  destruct (RoutingSteps.exec _ _) as [[s|]|]; [|by split|done].
  split; [|done..]. cbn. by rewrite !lookup_insert_eq.
Qed.
Lemma view_flags h1 h2 m1 m2 :
  (forall n, m1 !! (raw, n) = m2 !! (raw, n)) -> same_view h1 h2 ->
  same_view (with_flags m1 h1) (with_flags m2 h2).
Proof. intros Hm [? ? ? ?]. by split. Qed.
Lemma view_shed_other c h : c.1 <> raw -> same_view h (shed_fires c h).
Proof.
  intros Hne. unfold shed_fires. case_decide; [|done]. etrans; [|by apply view_act_other].
  split; [done| |done..]. intros n. cbn. rewrite lookup_insert_ne; [done|]. by intros ->.
Qed.
Lemma view_shed c h1 h2 : same_view h1 h2 -> same_view (shed_fires c h1) (shed_fires c h2).
Proof.
  intros Hv. destruct c as [cg c]. destruct (decide (cg = raw)) as [->|Hne].
  2:{ etrans; [symmetry; by apply view_shed_other|]. etrans; [exact Hv|by apply view_shed_other]. }
  unfold shed_fires. rewrite (sv_flags _ _ Hv). case_decide; [|done].
  apply view_act, view_flags; [|done]. intros n. destruct (decide (n = c)) as [->|].
  - by rewrite !lookup_insert_eq.
  - rewrite !lookup_insert_ne by congruence. apply Hv.
Qed.
Lemma view_interfere h1 h2 : group_calls -> same_view h1 h2 -> same_view (interfere h1) (interfere h2).
Proof.
  intros Hcalls Hv. unfold interfere. rewrite (sv_waits _ _ Hv). specialize (Hcalls (waits h2)).
  assert (same_view
    (foldl (fun h c => shed_fires c h) (foldl (fun h e => act e.1 e.2 h) h1 (other_actions (waits h2))) (other_sheds (waits h2)))
    (foldl (fun h c => shed_fires c h) (foldl (fun h e => act e.1 e.2 h) h2 (other_actions (waits h2))) (other_sheds (waits h2))))
    as [Hs Hf Hw Hd].
  { eapply (foldl_rel _ any); [|by apply Forall_true|eapply (foldl_rel _ any); [|by apply Forall_true|exact Hv]].
    - intros c y1 y2 _. apply view_shed.
    - intros e y1 y2 _. apply view_act. }
  split; [exact Hs|exact Hf|exact (f_equal Datatypes.S Hw)|]. cbn.
  eapply (foldl_rel (same_world g)); [|exact Hcalls|exact Hd].
  intros [b r|] w1 w2 Hc Hw12; [|done]. by apply serve_unseen.
Qed.
Lemma view_rel : group_calls -> tenant_rel same_view.
Proof.
  intros Hc. split.
  - intros a h1 h2. apply view_act.
  - intros h1 h2. by apply view_interfere.
  - intros n b h1 h2 Hv. apply view_flags; [|done]. intros n'. destruct (decide (n' = n)) as [->|].
    + by rewrite !lookup_insert_eq.
    + rewrite !lookup_insert_ne by congruence. apply Hv.
  - intros n h1 h2 Hv. apply view_flags; [|done]. intros n'. destruct (decide (n' = n)) as [->|].
    + by rewrite !lookup_delete_eq.
    + rewrite !lookup_delete_ne by congruence. apply Hv.
  - intros E A m h1 h2 [_ Hm] [Hs Hf Hw Hd]. destruct (Hm _ _ Hd) as [Hd' Hr]. split; [|done]. by split.
  - by intros h1 h2 [].
  - by intros n h1 h2 [].
  - by intros h1 h2 [].
Qed.

(** *** The limiters of a tenant *)

Definition same_limiters (l1 l2 : Limiter) : Prop :=
  l_rate l1 = l_rate l2 /\ l_burst l1 = l_burst l2 /\
  forall n, limiters l1 !! limiterKey raw n = limiters l2 !! limiterKey raw n.
Definition outside_limiters (l0 l : Limiter) : Prop :=
  forall cg n, cg <> raw -> limiters l !! limiterKey cg n = limiters l0 !! limiterKey cg n.
Lemma same_limiters_Allow n t l1 l2 :
  same_limiters l1 l2 ->
  fst (Allow (limiterKey raw n) t l1) = fst (Allow (limiterKey raw n) t l2) /\
  same_limiters (snd (Allow (limiterKey raw n) t l1)) (snd (Allow (limiterKey raw n) t l2)).
Proof.
  intros (Hr & Hb & Hl). unfold Allow. rewrite Hr, Hb, Hl. destruct (bucket_Allow t _) as [ok b]. cbn.
  split; [done|]. split_and!; [done..|]. intros n'. cbn.
  destruct (decide (limiterKey raw n = limiterKey raw n')) as [->|];
    [by rewrite !lookup_insert_eq|by rewrite !lookup_insert_ne].
Qed.
Lemma outside_limiters_Allow l0 n t l :
  outside_limiters l0 l -> outside_limiters l0 (snd (Allow (limiterKey raw n) t l)).
Proof.
  intros Hl cg n' Hne. unfold Allow. destruct (bucket_Allow t _) as [ok b]. cbn.
  rewrite lookup_insert_ne; [by apply Hl|]. by intros [-> _]%limiterKey_parts.
Qed.

(** * Properties *)

Context (b : Backend).
#[local] Instance tenants_client : BackendClient Hub := hub_client b.

(** C26. Tenants are isolated, integrity: whatever calls the nodes of a group
    make, authenticated or not, and whatever the group's other goroutines do
    meanwhile on its sessions and, by calls of the backend in the group's name
    (registrations and admin requests, which can reach other groups' rows by
    their tokens and keys, are left out), on the database, nothing of any other
    group changes: not its row, its nodes, tokens or activity, not its
    connectors and pending requests, not the limiters of its nodes; and no API
    key changes. *)
Theorem hub_integrity srv v text cs h :
  confined -> Forall (tenant_call raw) cs ->
  let h' := fst (hub_answers srv v text cs h) in
  same_others g (db (world (rest h))) (db (world (rest h'))) /\
  (forall cg, cg <> raw -> sessions (rest h') !! cg = sessions (rest h) !! cg) /\
  (forall c, c.1 <> raw -> shedFlags (rest h') !! c = shedFlags (rest h) !! c) /\
  (forall cg n, cg <> raw ->
    limiters (limiter h') !! limiterKey cg n = limiters (limiter h) !! limiterKey cg n).
Proof.
  intros Hconf Hcs h'.
  pose proof (rel_tenant_ops _ (outside_rel (rest h) Hconf) b
    (fun l1 l2 => l1 = l2 /\ outside_limiters (limiter h) l1)) as Hops.
  destruct (answers_agree _ _ _ _ (Hops ltac:(intros n t l1 l2 [-> Hl]; split; [done|]; split; [done|];
    by apply outside_limiters_Allow)) srv v text cs h h Hcs) as [[[_ Hl] [_ [Hs Hf Hr]]] _]; [by repeat split|].
  by split_and!.
Qed.

(** C27. Tenants are isolated, confidentiality: everything the nodes of a group
    are ever told depends on their group alone. Two hubs that agree on the
    group (its rows, its connectors and pending requests, the limiters of its
    nodes) answer any sequence of calls of its nodes alike, and still agree
    afterwards, however they differ in other groups, in API keys and in what
    goes on in other groups' sessions, and whatever calls of the backend other
    groups' nodes make meanwhile. *)
Theorem hub_confidentiality srv v text cs h1 h2 :
  group_calls -> Forall (tenant_call raw) cs ->
  same_view (rest h1) (rest h2) -> same_limiters (limiter h1) (limiter h2) ->
  snd (hub_answers srv v text cs h1) = snd (hub_answers srv v text cs h2) /\
  same_view (rest (fst (hub_answers srv v text cs h1))) (rest (fst (hub_answers srv v text cs h2))) /\
  same_limiters (limiter (fst (hub_answers srv v text cs h1))) (limiter (fst (hub_answers srv v text cs h2))).
Proof.
  intros Hown Hcs Hv Hl.
  pose proof (rel_tenant_ops _ (view_rel Hown) b same_limiters same_limiters_Allow) as Hops.
  destruct (answers_agree _ _ _ _ Hops srv v text cs h1 h2 Hcs) as [[Hl' Hv'] Hr]; [by split|]. done.
Qed.
End hub.
