(* ===== verification/StandaloneHub.v ===== *)
(** * The standalone process as a whole

    Everything a standalone process serves, on one state: the calls of nodes
    (HubRouter.v) and the requests of the admin API (AdminRoutes.v), which reads
    the router's connections through [ConnectedNodes] of connect/hub/hubsrv.go,
    as [runStandalone] of hub.go wires them. *)
From S2P Require Import Prelude GoStrings GoEncoding GoTime TurnCreds Version Sharding Grpc BePb.
From S2P Require Import Attestation RosterPb Store StoreInv Platform Backend BackendSteps AdminApi.
From S2P Require Import IntegratorApi AdminProps AdminRoutes HubSrv HubProps.
From S2P Require Import Routing RoutingSteps RoutingProps HubRouter HubRouterProps.
Open Scope Z_scope.

Section standalone.
Context `{Crypto} `{HP : HubPb} `{RateLib} `{Platform} `{JwtLib} `{Gin} {Oth : Platform.Others} `{!Lawful Oth} {O : Others} (b : Backend).
#[local] Instance standalone_client : BackendClient Hub := hub_client b.
(** The public key set, which is read once. *)
Context (jwks : string).

Definition ConnectedNodes (h : Hub) (cgID : string) : list Z := Routing.ConnectedNodes cgID (router h).
(** A request of the admin API, among other goroutines. *)
Definition rest_serve (q : HTTPRequest) (h : Hub) : Hub * result httpError answer :=
  let h := interfere h in
  let '(w, a) := ServeHTTP jwks (ConnectedNodes h) q (world h) in (with_world w h, a).

Inductive traffic :=
| NodeCall (c : hub_call)
| RestCall (q : HTTPRequest).
Definition serve_one (srv : HubServer) (text : status -> string) (minShed : version)
    (h : HubState (S := Hub)) (t : traffic) : HubState :=
  match t with
  | NodeCall c => serve_node srv minShed text h c
  | RestCall q => {| limiter := limiter h; rest := fst (rest_serve q (rest h)) |}
  end.

(** ** Lemmas *)

Lemma serve_chain_steps header ms last : steps last -> steps (serve_chain header ms last).
Proof.
  intros Hl. induction ms as [|[] ms IH]; [done|done|]. cbn [serve_chain].
  apply steps_bind; [apply steps_checkAPIKey|done].
Qed.
Lemma ServeHTTP_steps online q : steps (ServeHTTP jwks online q).
Proof.
  unfold ServeHTTP. destruct (find_route _ _ _) as [[r params]|].
  2:{ intros w. unfold serve_unrouted. by destruct (redirect_slash _ _ _). }
  apply serve_chain_steps. unfold serve_endpoint. destruct (request_of _ _ _); [|apply steps_ret].
  apply steps_bind; [apply route_steps|intros ?; apply steps_ret].
Qed.
Lemma foldl_invariant {A B} (P : A -> Prop) (f : A -> B -> A) l a :
  (forall a b, P a -> P (f a b)) -> P a -> P (foldl f a l).
Proof. intros Hf. revert a. induction l; cbn; eauto. Qed.
(** A request of the admin API keeps what waiting and the database's steps keep. *)
Lemma rest_serve_keeps A (P : Hub -> Prop) q h :
  closed A P -> P (interfere h) -> P (fst (rest_serve q h)).
Proof.
  intros HP' Hi. unfold rest_serve. revert Hi. generalize (interfere h). intros hi Hi.
  pose proof (ServeHTTP_steps (ConnectedNodes hi) q (world hi)) as Hs.
  destruct (ServeHTTP _ _ _ _) as [w a]. cbn in *. apply HP'; [done|].
  eapply steps_good; [exact Hs|by eapply cl_db].
Qed.
Lemma only_offline h cg : only None h ->
  (forall n, isNodeConnected h cg n = false) /\ ConnectedNodes h cg = [].
Proof.
  intros Ho. assert (router h !! cg = grp <$> sessions h !! cg) as Hr
    by apply (lookup_fmap (M := gmap string) grp (sessions h)).
  specialize (Ho cg). unfold session in Ho.
  unfold ConnectedNodes, Routing.ConnectedNodes. cbn [isNodeConnected hub_router]. unfold IsNodeConnected.
  rewrite Hr. destruct (sessions h !! cg) as [s|]; cbn in *; [|done].
  assert (connectors (grp s) = ∅) as ->; [|done].
  apply map_eq. intros n. rewrite lookup_empty. destruct (connectors (grp s) !! n) as [c|] eqn:Hn; [|done].
  by specialize (Ho n c (or_introl Hn)).
Qed.
Lemma served_returns srv v text h c :
  has_byte ":" (instanceID b) = false -> serve_node srv v text h c = fst (hub_serve srv v text c h).
Proof.
  intros Hid. unfold serve_node. destruct (hub_serve_returns b srv v text c h Hid) as [e He].
  destruct (hub_serve srv v text c h) as [h' r]. cbn in *. by rewrite He.
Qed.
Lemma serve_one_ok srv text v t h :
  has_byte ":" (instanceID b) = false -> hub_ok (rest h) -> hub_ok (rest (serve_one srv text v h t)).
Proof.
  intros Hid Hok. destruct (closed_any _ hub_ok_closed) as (Hi & _ & Hops & Hc).
  destruct t as [c|q]; cbn [serve_one rest].
  - rewrite served_returns by done. apply handlers_keep; [apply Hops|by destruct c|done].
  - eapply rest_serve_keeps; [exact hub_ok_closed|by apply Hi].
Qed.
Lemma serve_one_alone srv text v t h :
  has_byte ":" (instanceID b) = false -> (forall k cg n, (cg, AConnect n) ∉ other_actions k) ->
  hub_ok (rest h) /\ only None (rest h) -> only None (rest (serve_one srv text v h t)).
Proof.
  intros Hid Halone Hh. destruct t as [c|q]; cbn [serve_one rest].
  - rewrite served_returns by done. by apply served_alone.
  - eapply (rest_serve_keeps _ (fun h => hub_ok h /\ only None h)); [exact (only_closed None)|].
    eapply interfere_closed; [|done|exact (only_closed None)|done].
    intros k [cg []] He; cbn; try done. by eapply Halone.
Qed.

(** * Properties *)

(** C21. Nothing a standalone process serves brings it down or stays connected:
    after any sequence of node calls and admin requests, each interleaved with
    arbitrary actions of other goroutines on the router and with arbitrary calls
    and requests, also between any two statements on the database, no goroutine
    has panicked, neither in the router nor in a handler (minting a TURN
    credential panics when the id of the instance holds a colon, which a UUID
    does not); and as every serving stream has ended by then, nobody is shown
    as connected, to nodes or to the admin API, unless the others connect
    somebody. *)
Theorem standalone_sound srv text v ts w :
  wf_db canonical_id (db w) -> has_byte ":" (instanceID b) = false ->
  let h := rest (foldl (serve_one srv text v) (newHubState (newHub w)) ts) in
  panicked h = false /\
  ((forall k cg n, (cg, AConnect n) ∉ other_actions k) ->
   forall cg, (forall n, isNodeConnected h cg n = false) /\ ConnectedNodes h cg = []).
Proof.
  intros Hw Hid h. pose proof (newHub_ok w Hw) as Hok. split.
  - apply (foldl_invariant (fun h => hub_ok (rest h)) (serve_one srv text v)); [|done].
    intros h1 t. by apply serve_one_ok.
  - intros Halone cg. apply only_offline.
    apply (foldl_invariant (fun h => hub_ok (rest h) /\ only None (rest h)) (serve_one srv text v)).
    + intros h1 t Hh. split; [by apply serve_one_ok, Hh|by apply serve_one_alone].
    + split; [done|]. intros cg' n c [Hc|[p Hp]].
      * revert Hc. unfold session. cbn. by rewrite !lookup_empty.
      * revert Hp. unfold session. cbn. by rewrite lookup_empty.
Qed.

End standalone.

(** ** Who is online *)
Section online.
Context `{Crypto} `{HP : HubPb} `{RateLib} `{Platform} `{JwtLib} `{Gin} {Oth : Platform.Others} {O : Others} (b : Backend) (jwks : string).
#[local] Instance online_client : BackendClient Hub := hub_client b.

End online.
