(* ===== verification/GoPath.v ===== *)
(** * Slash-separated paths, as package path/filepath treats them on Unix *)
From S2P Require Import Prelude GoStrings.

(** One element of a path, on the reversed cleaned elements before it. *)
Definition clean_elem (rooted : bool) (out : list string) (e : string) : list string :=
  if decide (e = "") then out
  else if decide (e = ".") then out
  else if decide (e = "..") then
    match out with
    | top :: out' => if decide (top = "..") then e :: out else out'
    | [] => if rooted then [] else [e]
    end
  else e :: out.
(** [filepath.Clean]. *)
Definition Clean (path : string) : string :=
  let rooted := HasPrefix path "/" in
  let out := reverse (foldl (clean_elem rooted) [] (Split path "/"%char)) in
  if rooted then "/" +:+ join "/"%char out
  else match out with [] => "." | _ => join "/"%char out end.
(** [filepath.Join]: the empty elements in front are dropped. *)
Fixpoint Join (elems : list string) : string :=
  match elems with
  | [] => ""
  | e :: rest => if decide (e = "") then Join rest else Clean (join "/"%char elems)
  end.
Fixpoint upto_last_slash (s : string) : string :=
  match s with
  | "" => ""
  | String c s' => if has_byte "/" s' || Ascii.eqb c "/" then String c (upto_last_slash s') else ""
  end.
(** [filepath.Dir]. *)
Definition Dir (path : string) : string := Clean (upto_last_slash path).
(** [filepath.IsAbs]. *)
Definition IsAbs (path : string) : bool := HasPrefix path "/".

Example Join_clean : Join ["/var/lib/x/"; "../hub"; "./hub.db"] = "/var/lib/hub/hub.db".
Proof. reflexivity. Qed.
Example Dir_file : Dir "/srv/state/hub.db" = "/srv/state".
Proof. reflexivity. Qed.
