(* ===== verification/Metrics.v ===== *)
(** * RPC metrics: connect/hub/metrics.go

    The counters of the interceptors. A call increments [started] when it
    enters and [handled], by status code, when its handler has returned; calls
    run concurrently, so a state also holds the calls that are inside. *)
From S2P Require Import Prelude GoStrings Grpc.
Open Scope Z_scope.

(** Labels: type, service and method. *)
Definition labels : Type := string * string * string.

Record Counters := {
  grpcStarted : gmap labels nat;
  grpcHandled : gmap (labels * string) nat;
  grpcMsgReceived : gmap labels nat;
  grpcMsgSent : gmap labels nat;
  (** the number of observed durations; the histogram's buckets are not modelled *)
  grpcHandling : gmap labels nat
}.
Definition noCounters : Counters :=
  {| grpcStarted := ∅; grpcHandled := ∅; grpcMsgReceived := ∅; grpcMsgSent := ∅; grpcHandling := ∅ |}.

(** [c.WithLabelValues(l).Inc()]; a counter that was never used reads 0. *)
Definition count `{Countable K} (m : gmap K nat) (k : K) : nat := default O (m !! k).
Definition Inc `{Countable K} (k : K) (m : gmap K nat) : gmap K nat := <[k := S (count m k)]> m.

Definition inc_started (l : labels) (c : Counters) : Counters :=
  {| grpcStarted := Inc l (grpcStarted c); grpcHandled := grpcHandled c;
     grpcMsgReceived := grpcMsgReceived c; grpcMsgSent := grpcMsgSent c;
     grpcHandling := grpcHandling c |}.
Definition inc_handled (l : labels) (code : string) (c : Counters) : Counters :=
  {| grpcStarted := grpcStarted c; grpcHandled := Inc (l, code) (grpcHandled c);
     grpcMsgReceived := grpcMsgReceived c; grpcMsgSent := grpcMsgSent c;
     grpcHandling := Inc l (grpcHandling c) |}.

(** [splitMethodName]. *)
Definition splitMethodName (fullMethod : string) : string * string :=
  let full := TrimPrefix fullMethod "/" in
  let '(service, method, ok) := Cut full "/"%char in
  if ok : bool then (service, method) else ("unknown", full).

(** The label of a stream. *)
Definition streamType (isClientStream isServerStream : bool) : string :=
  match isClientStream, isServerStream with
  | true, false => "client_stream"
  | false, true => "server_stream"
  | _, _ => "bidi_stream"
  end.

(** [status.Code(err).String()]. *)
Definition codeString (c : code) : string :=
  match c with
  | OK => "OK" | Canceled => "Canceled" | Unknown => "Unknown"
  | InvalidArgument => "InvalidArgument" | DeadlineExceeded => "DeadlineExceeded"
  | NotFound => "NotFound" | AlreadyExists => "AlreadyExists"
  | PermissionDenied => "PermissionDenied" | ResourceExhausted => "ResourceExhausted"
  | FailedPrecondition => "FailedPrecondition" | Aborted => "Aborted"
  | OutOfRange => "OutOfRange" | Unimplemented => "Unimplemented" | Internal => "Internal"
  | Unavailable => "Unavailable" | DataLoss => "DataLoss" | Unauthenticated => "Unauthenticated"
  end.
Definition result_code {A} (r : result status A) : code :=
  match r with Ok _ => OK | Err e => status_code e end.

(** The two interceptors around a handler on a state that holds the counters;
    the handler itself may count messages. *)
Definition record {S A} (get : S -> Counters) (set : Counters -> S -> S) (l : labels)
    (handler : S -> S * result status A) (s : S) : S * result status A :=
  let s := set (inc_started l (get s)) s in
  let '(s, r) := handler s in
  (set (inc_handled l (codeString (result_code r)) (get s)) s, r).
Definition recordUnaryMetrics {S A} (get : S -> Counters) (set : Counters -> S -> S)
    (fullMethod : string) (handler : S -> S * result status A) : S -> S * result status A :=
  let '(service, method) := splitMethodName fullMethod in
  record get set ("unary", service, method) handler.
Definition recordStreamMetrics {S A} (get : S -> Counters) (set : Counters -> S -> S)
    (isClientStream isServerStream : bool) (fullMethod : string)
    (handler : S -> S * result status A) : S -> S * result status A :=
  let '(service, method) := splitMethodName fullMethod in
  record get set (streamType isClientStream isServerStream, service, method) handler.

(** [countingStream]: only messages that crossed are counted. *)
Definition RecvMsg {A} (l : labels) (received : result string A) (c : Counters) :
    Counters * result string A :=
  (if is_ok received
   then {| grpcStarted := grpcStarted c; grpcHandled := grpcHandled c;
           grpcMsgReceived := Inc l (grpcMsgReceived c); grpcMsgSent := grpcMsgSent c;
           grpcHandling := grpcHandling c |}
   else c, received).
Definition SendMsg {A} (l : labels) (sent : result string A) (c : Counters) :
    Counters * result string A :=
  (if is_ok sent
   then {| grpcStarted := grpcStarted c; grpcHandled := grpcHandled c;
           grpcMsgReceived := grpcMsgReceived c; grpcMsgSent := Inc l (grpcMsgSent c);
           grpcHandling := grpcHandling c |}
   else c, sent).

(** ** Concurrent calls *)

Record MSys := { counters : Counters; inside : list labels }.
Inductive mstep : MSys -> MSys -> Prop :=
| call_enters l s :
    mstep s {| counters := inc_started l (counters s); inside := l :: inside s |}
| call_returns l code before after s :
    inside s = before ++ l :: after ->
    mstep s {| counters := inc_handled l (codeString code) (counters s); inside := before ++ after |}
| message_received l (m : result string unit) s :
    mstep s {| counters := fst (RecvMsg l m (counters s)); inside := inside s |}
| message_sent l (m : result string unit) s :
    mstep s {| counters := fst (SendMsg l m (counters s)); inside := inside s |}.
Definition idle : MSys := {| counters := noCounters; inside := [] |}.

(** The calls of a label that were handled, over all codes. *)
Definition add_handled (l : labels) (k : labels * string) (n acc : nat) : nat :=
  (if decide (k.1 = l) then n else O) + acc.
Definition handledTotal (l : labels) (c : Counters) : nat :=
  map_fold (add_handled l) O (grpcHandled c).
Definition openCalls (l : labels) (s : MSys) : nat := length (filter (fun l' => l' = l) (inside s)).

(** * Lemmas *)

Lemma count_Inc `{Countable K} (m : gmap K nat) k k' :
  count (Inc k m) k' = if decide (k = k') then S (count m k') else count m k'.
Proof.
  unfold count, Inc. case_decide as Hk; [subst; by rewrite lookup_insert_eq|by rewrite lookup_insert_ne].
Qed.
Lemma handledTotal_Inc l l' code c :
  handledTotal l (inc_handled l' code c) =
  ((if decide (l' = l) then 1 else 0) + handledTotal l c)%nat.
Proof.
  unfold handledTotal, inc_handled. cbn [grpcHandled].
  assert (forall (k1 k2 : labels * string) n1 n2 y,
    add_handled l k1 n1 (add_handled l k2 n2 y) = add_handled l k2 n2 (add_handled l k1 n1 y)) as Hcomm
    by (unfold add_handled; lia).
  unfold Inc, count. destruct (grpcHandled c !! (l', code)) as [n|] eqn:Hk; cbn [default].
  - rewrite <-(insert_delete_id (grpcHandled c) (l', code) n Hk) at 2.
    rewrite <-insert_delete_eq.
    rewrite !map_fold_insert_L by (try apply lookup_delete_eq; intros; apply Hcomm).
    unfold add_handled at 1 3. cbn [fst]. case_decide; simpl; lia.
  - rewrite map_fold_insert_L by (try done; intros; apply Hcomm).
    unfold add_handled at 1. cbn [fst]. case_decide; simpl; lia.
Qed.

(** * Properties *)

(** At any time, for every method, the calls started are the calls handled,
    summed over the status codes, plus the calls still inside: the header
    comment's formula for open streams is right. *)
Theorem open_is_started_minus_handled l s :
  rtc mstep idle s ->
  count (grpcStarted (counters s)) l = (handledTotal l (counters s) + openCalls l s)%nat.
Proof.
  revert s. apply rtc_ind_r; [reflexivity|].
  intros s1 s2 _ Hstep IH. destruct Hstep as [l' s|l' code before after s Hin|l' m s|l' m s];
    unfold openCalls in *; cbn [counters inside].
  - unfold inc_started at 1. cbn [grpcStarted]. rewrite count_Inc, filter_cons.
    change (handledTotal l (inc_started l' (counters s))) with (handledTotal l (counters s)).
    case_decide; cbn; lia.
  - rewrite handledTotal_Inc. cbn [inc_handled grpcStarted]. rewrite IH, Hin, !filter_app, filter_cons,
      !length_app. case_decide; cbn; lia.
  - destruct m; cbn; exact IH.
  - destruct m; cbn; exact IH.
Qed.

(** A recorded call is counted once as started and once as handled, under
    the code of its result, and passes its result through; a handler that
    touches no counter leaves all the others as they were. *)
Theorem record_counts {S A} (get : S -> Counters) (set : Counters -> S -> S) l
    (handler : S -> S * result status A) (s : S) :
  (forall c s, get (set c s) = c) -> (forall s, get (fst (handler s)) = get s) ->
  let '(s', r) := record get set l handler s in
  r = snd (handler (set (inc_started l (get s)) s)) /\
  get s' = inc_handled l (codeString (result_code r)) (inc_started l (get s)).
Proof.
  intros Hgs Hh. unfold record. pose proof (Hh (set (inc_started l (get s)) s)) as Hget.
  destruct (handler _) as [s1 r]. cbn in *. split; [done|]. by rewrite !Hgs, Hget, Hgs.
Qed.

(** The service and the method of "/service/method" are recovered, and only
    the first slash separates them. *)
Theorem splitMethodName_spec service method :
  has_byte "/" service = false ->
  splitMethodName ("/" +:+ service +:+ "/" +:+ method) = (service, method).
Proof.
  intros Hs. unfold splitMethodName.
  replace (TrimPrefix ("/" +:+ service +:+ "/" +:+ method) "/") with (service +:+ String "/" method)
    by reflexivity.
  by rewrite Cut_app.
Qed.

(** * Witnesses *)

Lemma open_is_started_minus_handled_witness :
  let l := ("unary", "s", "m") in
  let s := {| counters := inc_handled l "OK" (inc_started l (inc_started l noCounters)); inside := [l] |} in
  count (grpcStarted (counters s)) l = (handledTotal l (counters s) + openCalls l s)%nat.
Proof.
  intros l s. apply (open_is_started_minus_handled l s).
  eapply rtc_l; [apply (call_enters l)|]. eapply rtc_l; [apply (call_enters l)|].
  eapply rtc_l; [apply (call_returns l OK [] [l]); reflexivity|]. apply rtc_refl.
Defined.

Lemma record_counts_witness :
  let '(s', r) := record id (fun c _ => c) ("unary", "s", "m")
    (fun c => (c, (Ok 5 : result status Z))) noCounters in
  r = Ok 5 /\
  s' = inc_handled ("unary", "s", "m") "OK" (inc_started ("unary", "s", "m") noCounters).
Proof.
  exact (record_counts (A := Z) id (fun c _ => c) ("unary", "s", "m") (fun c => (c, Ok 5)) noCounters
    (fun c s => eq_refl) (fun s => eq_refl)).
Defined.

Lemma splitMethodName_spec_witness :
  splitMethodName "/wispers.connect.hub.Hub/GetRoster" = ("wispers.connect.hub.Hub", "GetRoster").
Proof. exact (splitMethodName_spec "wispers.connect.hub.Hub" "GetRoster" eq_refl). Defined.
