(* ===== verification/Standalone.v ===== *)
(** * Start-up of the standalone hub: connect/hub/standalone.go

    Opening the state: the instance id, the attestation key and the first API
    key are made once and kept. Key generation and the file system are
    libraries, listed in the class [KeyLib]. *)
From S2P Require Import Prelude GoStrings GoEncoding GoTime GoPath ApiKeys Attestation Store.
From S2P Require Import StoreInv Platform.
Open Scope Z_scope.

Class KeyLib `{JwtLib} := {
  (** [ed25519.GenerateKey], [x509.MarshalPKCS8PrivateKey] and
      [pem.EncodeToMemory] of a fresh key *)
  GenerateKeyPEM : nat -> result string string;
  (** what was encoded decodes to an Ed25519 key *)
  GenerateKeyPEM_key : forall t pem, GenerateKeyPEM t = Ok pem -> exists key, keyOfPEM pem = Ok key;
  (** [key.Public()], as its bytes *)
  Public : PrivateKey -> string;
  (** [os.WriteFile(path, data, 0o600)]; [None]: it succeeds *)
  WriteFile_fails : nat -> string -> string -> option string
}.

Section standalone.
Context `{Platform} `{Crypto} `{KeyLib}.

Definition apiKeyEnv : string := "standalone".
Definition attestationKid : string := "standalone-1".

Inductive openError :=
| errApplySchema (e : dbError)
| errReadMeta (key : string) (e : dbError)
| errGenerateMeta (key : string) (e : string)
| errStoreMeta (key : string) (e : dbError)
| errAttestationKey (e : signerError)
| errCountKeys (e : dbError)
| errGenerateKey (e : keyError)
| errPanic (msg : string)
| errStoreKey (e : dbError)
| errWriteFile (path msg : string).

Record State := {
  InstanceID : string;
  st_Signer : Signer;
  JWKS : string;
  BootstrapAPIKey : string;
  BootstrapAPIKeyFile : string
}.

(** [ensureMeta]; [generate] may fail. *)
Definition ensureMeta (key : string) (generate : nat -> result string string) :
    ST World openError string :=
  found ← attempt (exec (sel_meta key));
  match found with
  | Ok value => mret value
  | Err e =>
      if decide (e = ErrNoRows) then
        generated ← ask generate;
        match generated with
        | Err msg => throw (errGenerateMeta key msg)
        | Ok value =>
            _ ← on_error (errStoreMeta key) (exec (ins_meta key value));
            mret value
        end
      else throw (errReadMeta key e)
  end.

Definition ensureAttestationKey : ST World openError PrivateKey :=
  pemStr ← ensureMeta "attestation_key_pem" GenerateKeyPEM;
  match keyOfPEM pemStr with
  | Err e => throw (errAttestationKey e)
  | Ok key => mret key
  end.

(** [base64.RawURLEncoding]: other characters for 62 and 63, and no padding. *)
Fixpoint raw_url (s : string) : string :=
  match s with
  | "" => ""
  | String c s =>
      if Ascii.eqb c "=" then raw_url s
      else String (if Ascii.eqb c "+" then "-" else if Ascii.eqb c "/" then "_" else c) (raw_url s)
  end.
Definition RawURLEncoding (s : string) : string := raw_url (base64_Std s).

(** A JSON string without characters to escape; members in the order of
    [json.Marshal]. *)
Definition json_string (s : string) : string := String (byte_of 34) (s +:+ String (byte_of 34) "").
Definition json_member (m : string * string) : string := json_string m.1 +:+ ":" +:+ json_string m.2.
Definition buildJWKS (pub : string) : string :=
  "{" +:+ json_string "keys" +:+ ":[{" +:+
  join ","%char (json_member <$>
    [("alg", "EdDSA"); ("crv", "Ed25519"); ("kid", attestationKid); ("kty", "OKP"); ("use", "sig");
     ("x", RawURLEncoding pub)]) +:+ "}]}".

(** [apikeys.Generate] reads its random bytes from the system's source: at
    most the 44 it needs. *)
Definition generateAPIKey (t : nat) : outcome (result keyError APIKey) :=
  generateWithReader apiKeyEnv (or_zero (rand_Read t (idBytesLen + secretBytesLen))).

Definition ensureAPIKey : ST World openError string :=
  n ← on_error errCountKeys (exec count_api_keys);
  if 0 <? n then mret ""
  else
    generated ← ask generateAPIKey;
    match generated with
    | Panic msg => throw (errPanic msg)
    | Return (Err e) => throw (errGenerateKey e)
    | Return (Ok key) =>
        createdAt ← nowMillis;
        _ ← on_error errStoreKey (exec (ins_api_key (ID key)
              {| ak_secret_hash := hex_EncodeToString (SecretHash key); ak_name := Some "bootstrap";
                 ak_created_at_millis := createdAt; ak_revoked_at_millis := None |}));
        mret (Encoded key)
    end.

(** [Open(path)]. The schema is applied idempotently: it changes no row. *)
Definition Open (path : string) : ST World openError State :=
  _ ← on_error errApplySchema (exec (fun d => Ok (d, tt)));
  instanceID ← ensureMeta "instance_id" (fun t => Ok (uuid_NewString t));
  key ← ensureAttestationKey;
  let signer := NewSigner key attestationKid ("wispers-hub/" +:+ instanceID) in
  let jwks := buildJWKS (Public key) in
  bootstrap ← ensureAPIKey;
  if decide (bootstrap = "") then
    mret {| InstanceID := instanceID; st_Signer := signer; JWKS := jwks;
            BootstrapAPIKey := ""; BootstrapAPIKeyFile := "" |}
  else
    let file := Join [Dir path; "initial-api-key"] in
    written ← ask (fun t => WriteFile_fails t file (bootstrap +:+ String (byte_of 10) ""));
    match written with
    | Some msg => throw (errWriteFile file msg)
    | None =>
        mret {| InstanceID := instanceID; st_Signer := signer; JWKS := jwks;
                BootstrapAPIKey := bootstrap; BootstrapAPIKeyFile := file |}
    end.
End standalone.
