(* ===== verification/StandaloneProps.v ===== *)
(** * Start-up is safe to repeat

    The first API key works, and opening the same state again finds the same
    instance id, the same signing key and a usable API key. *)
From S2P Require Import Prelude GoStrings GoEncoding GoTime GoPath ApiKeys Attestation RosterPb.
From S2P Require Import Store StoreInv Platform BackendSteps AdminApi AdminProps Standalone.
Open Scope Z_scope.

Section standalone_lemmas.
Context `{Platform} `{Crypto} `{JwtLib} `{!KeyLib} `{RosterPb}.
Implicit Types (w : World).

(** ** Start-up changes the database by atomic steps *)

Lemma steps_ensureMeta key generate : steps (ensureMeta key generate).
Proof.
  unfold ensureMeta. apply steps_bind; [apply steps_attempt, steps_query_row|]. intros [v|e].
  - apply steps_ret.
  - case_decide; [|apply steps_throw]. apply steps_bind; [apply steps_ask|]. intros [v|msg].
    + apply steps_bind; [|intros; apply steps_ret]. apply steps_on_error, steps_step.
      intros d d' []. apply step_meta.
    + apply steps_throw.
Qed.
Lemma steps_ensureAPIKey : steps ensureAPIKey.
Proof.
  unfold ensureAPIKey. apply steps_bind; [apply steps_on_error, steps_query|]. intros n.
  destruct (0 <? n); [apply steps_ret|]. apply steps_bind; [apply steps_ask|].
  intros [[key|e]|msg]; [|apply steps_throw|apply steps_throw].
  apply steps_bind; [apply steps_ask|]. intros t. apply steps_bind; [|intros; apply steps_ret].
  apply steps_on_error, steps_step. intros d d' []. apply step_api_key.
Qed.
Lemma steps_Open path : steps (Open path).
Proof.
  unfold Open, ensureAttestationKey. apply steps_bind.
  { apply steps_on_error, steps_exec. intros d d' a [= <- _]. apply rtc_refl. }
  intros _. apply steps_bind; [apply steps_ensureMeta|]. intros id.
  apply steps_bind.
  { apply steps_bind; [apply steps_ensureMeta|]. intros pem.
    destruct (keyOfPEM pem); [apply steps_ret|apply steps_throw]. }
  intros key. apply steps_bind; [apply steps_ensureAPIKey|]. intros b.
  case_decide; [apply steps_ret|]. apply steps_bind; [apply steps_ask|].
  intros [msg|]; [apply steps_throw|apply steps_ret].
Qed.

(** ** Inversion *)

Lemma exec_query_row_db {A} (f : DB -> option A) w : db (fst (exec (query_row f) w)) = db w.
Proof. unfold exec, meanwhile, alone, tx_exec, query_row. destruct (driver_fails _); [done|]. by destruct (f (db w)). Qed.
Lemma ensureMeta_Ok key generate w w' v :
  ensureMeta key generate w = (w', Ok v) ->
  meta (db w') !! key = Some v /\ (meta (db w) !! key = Some v \/ meta (db w) !! key = None) /\
  api_keys (db w') = api_keys (db w).
Proof.
  unfold ensureMeta. intros (w1 & found & Hf & Hb)%ST_bind_Ok.
  assert (db w1 = db w) as Hdb.
  { pose proof (exec_query_row_db (fun d => meta d !! key) w) as Hx. revert Hf. unfold attempt, sel_meta.
    destruct (exec _ w). by intros [= <- _]. }
  revert Hf. unfold attempt. destruct (exec (sel_meta key) w) as [w2 r] eqn:He. intros [= -> ->].
  destruct found as [value|e].
  - injection Hb as <- <-. apply exec_Ok in He as (_ & He & _). unfold sel_meta, query_row in He.
    destruct (meta (db w) !! key) as [x|] eqn:Hm; [|done]. injection He as Hd ->.
    rewrite Hdb, Hm. auto.
  - case_decide as Hnr; [|done]. subst e.
    assert (meta (db w) !! key = None) as Hnone.
    { revert He. unfold exec, meanwhile, alone, tx_exec, sel_meta, query_row. destruct (driver_fails _); [intros [=]|].
      by destruct (meta (db w) !! key). }
    apply ST_bind_Ok in Hb as (w3 & [value|msg] & [_ ->]%ask_Ok & Hb); [|done].
    apply ST_bind_Ok in Hb as (w4 & [] & (_ & Hins & _)%on_error_Ok%exec_Ok & [= <- <-]).
    unfold ins_meta in Hins. cbn [db] in Hins. case_decide; [done|]. injection Hins as <-. cbn.
    rewrite Hdb. split_and!; [apply lookup_insert_eq|by right|done].
Qed.

Definition active (d : DB) (id : string) (row : ApiKeyRow) : Prop :=
  api_keys d !! id = Some row /\ ak_revoked_at_millis row = None.
Lemma count_api_keys_pos d : 0 < Z.of_nat (size (filter (fun e : string * ApiKeyRow =>
  ak_revoked_at_millis e.2 = None) (api_keys d))) <-> exists id row, active d id row.
Proof.
  split.
  - intros Hs. destruct (map_choose (filter (fun e : string * ApiKeyRow =>
      ak_revoked_at_millis e.2 = None) (api_keys d))) as (id & row & Hrow).
    { intros Heq. rewrite Heq, map_size_empty in Hs. lia. }
    apply map_lookup_filter_Some in Hrow. by exists id, row.
  - intros (id & row & Hrow). apply (map_lookup_filter_Some (fun e : string * ApiKeyRow =>
      ak_revoked_at_millis e.2 = None) (api_keys d) id row) in Hrow.
    destruct (size _) eqn:Hs; [|lia]. apply map_size_empty_inv in Hs. rewrite Hs in Hrow.
    by rewrite lookup_empty in Hrow.
Qed.
(** Either an active key exists, or a new one is made and stored. *)
Lemma ensureAPIKey_Ok w w' b :
  ensureAPIKey w = (w', Ok b) ->
  meta (db w') = meta (db w) /\
  ((b = "" /\ (exists id row, active (db w) id row) /\ api_keys (db w') = api_keys (db w)) \/
   ((forall id row, ~ active (db w) id row) /\ exists i s row, String.length s = secretBytesLen /\
      b = Encoded (keyOf apiKeyEnv i s) /\ active (db w') (ID (keyOf apiKeyEnv i s)) row /\
      ak_secret_hash row = hex_EncodeToString (SecretHash (keyOf apiKeyEnv i s)))).
Proof.
  unfold ensureAPIKey. intros (w1 & n & (_ & Hn & _)%on_error_Ok%exec_Ok & Hb)%ST_bind_Ok.
  unfold count_api_keys, query in Hn. injection Hn as Hdb Hn.
  destruct (Z.ltb_spec 0 n) as [Hpos|Hzero].
  - injection Hb as <- <-. rewrite <-Hdb. split; [done|]. left. split_and!; [done| |done].
    apply count_api_keys_pos. by rewrite Hn.
  - apply ST_bind_Ok in Hb as (w2 & [[key|e]|msg] & [Hgen ->]%ask_Ok & Hb); [|done|done].
    apply ST_bind_Ok in Hb as (w3 & t & [_ ->]%ask_Ok & Hb).
    apply ST_bind_Ok in Hb as (w4 & [] & (_ & Hins & _)%on_error_Ok%exec_Ok & [= <- <-]).
    unfold ins_api_key in Hins. cbn [db] in Hins. case_decide; [done|]. injection Hins as <-. cbn.
    rewrite <-Hdb. split; [done|]. right. split.
    { intros id row Hact. assert (0 < n); [|lia]. rewrite <-Hn. apply count_api_keys_pos. eauto. }
    unfold generateAPIKey in Hgen. symmetry in Hgen.
    destruct (generate_keyOf _ _ _ Hgen) as (_ & i & s & _ & Hs & ->).
    exists i, s. eexists. split_and!; [done|done| |]; [split; [apply lookup_insert_eq|done]|done].
Qed.

(** What a successful start-up leaves. *)
Lemma Open_Ok path w w' st :
  Open path w = (w', Ok st) -> wf_db canonical_id (db w) ->
  wf_db canonical_id (db w') /\ evolves (db w) (db w') /\
  meta (db w') !! "instance_id" = Some (InstanceID st) /\
  (exists pem key, meta (db w') !! "attestation_key_pem" = Some pem /\ keyOfPEM pem = Ok key /\
     st_Signer st = NewSigner key attestationKid ("wispers-hub/" +:+ InstanceID st) /\
     JWKS st = buildJWKS (Public key)) /\
  (exists id row, active (db w') id row) /\
  ((BootstrapAPIKey st = "" /\ exists id row, active (db w) id row) \/
   ((forall id row, ~ active (db w) id row) /\ exists i s row, String.length s = secretBytesLen /\
     BootstrapAPIKey st = Encoded (keyOf apiKeyEnv i s) /\
     active (db w') (ID (keyOf apiKeyEnv i s)) row /\
     ak_secret_hash row = hex_EncodeToString (SecretHash (keyOf apiKeyEnv i s)))).
Proof.
  intros HO Hwf.
  assert (wf_db canonical_id (db w') /\ evolves (db w) (db w')) as [Hwf' Hev].
  { eapply (steps_good _ (db w)); [|done]. pose proof (steps_Open path w) as Hs. by rewrite HO in Hs. }
  split; [done|]. split; [done|]. revert HO. unfold Open.
  intros (w1 & [] & (_ & [= Hdb1] & _)%on_error_Ok%exec_Ok & Hb)%ST_bind_Ok.
  apply ST_bind_Ok in Hb as (w2 & iid & Hiid & Hb).
  pose proof (steps_ensureMeta "instance_id" (fun t => Ok (uuid_NewString t)) w1) as S2.
  rewrite Hiid in S2. apply ensureMeta_Ok in Hiid as (Hiid & _ & Hk2).
  apply ST_bind_Ok in Hb as (w3 & key & Hkey & Hb). unfold ensureAttestationKey in Hkey.
  apply ST_bind_Ok in Hkey as (w4 & pem & Hpem & Hkey).
  pose proof (steps_ensureMeta "attestation_key_pem" GenerateKeyPEM w2) as S3.
  rewrite Hpem in S3. apply ensureMeta_Ok in Hpem as (Hpem & _ & Hk3).
  destruct (keyOfPEM pem) as [key'|] eqn:Hparse; [|done]. injection Hkey as -> ->.
  apply ST_bind_Ok in Hb as (w5 & b & Hbk & Hb). apply ensureAPIKey_Ok in Hbk as (Hmeta & Hbk).
  assert (meta (db w3) !! "instance_id" = Some iid) as Hiid3.
  { cbn in S2, S3. rewrite <-Hdb1 in S2. destruct (steps_good _ _ _ S2 Hwf) as [Hwf2 _].
    destruct (steps_good _ _ _ S3 Hwf2) as [_ Hev3]. by apply (ev_meta _ _ Hev3). }
  assert (w5 = w' \/ db w5 = db w') as Hw.
  { revert Hb. case_decide; [intros [= -> _]; by left|].
    intros (w6 & wr & [_ ->]%ask_Ok & Hb)%ST_bind_Ok. destruct wr; [done|]. injection Hb as <- _. by right. }
  assert (db w5 = db w') as Hd by (destruct Hw; congruence). clear Hw. rewrite <-Hd.
  assert (InstanceID st = iid /\ BootstrapAPIKey st = b /\
    st_Signer st = NewSigner key attestationKid ("wispers-hub/" +:+ iid) /\
    JWKS st = buildJWKS (Public key)) as (-> & -> & -> & ->).
  { revert Hb. case_decide as Hbe; [intros [= _ <-]; cbn; by subst|].
    intros (w6 & wr & [_ ->]%ask_Ok & Hb)%ST_bind_Ok. destruct wr; [done|]. by injection Hb as _ <-. }
  assert (api_keys (db w3) = api_keys (db w)) as Hk by congruence.
  split; [by rewrite Hmeta|]. split; [exists pem, key; by rewrite Hmeta|].
  unfold active in *. rewrite Hk in Hbk.
  destruct Hbk as [(-> & Hact & Hsame)|(Hno & i & s & row & Hs & -> & Hact & Hh)].
  - split; [by rewrite Hsame|]. by left.
  - split; [eauto|]. right. split; [done|]. by exists i, s, row.
Qed.

(** ** A key's file that cannot be written

    Writing it is the last thing start-up does: by then the key is stored. *)
Definition not_write_file (e : openError) : Prop :=
  match e with errWriteFile _ _ => False | _ => True end.
Lemma errs_ensureMeta key generate : errs not_write_file (ensureMeta key generate).
Proof.
  unfold ensureMeta. apply errs_bind; [apply errs_attempt|]. intros [v|e]; [apply errs_ret|].
  case_decide; [|by apply errs_throw]. apply errs_bind; [apply errs_ask|].
  intros [v|msg]; [|by apply errs_throw]. apply errs_bind; [by apply errs_on_error|].
  intros _. apply errs_ret.
Qed.
Lemma errs_ensureAPIKey : errs not_write_file ensureAPIKey.
Proof.
  unfold ensureAPIKey. apply errs_bind; [by apply errs_on_error|]. intros n.
  destruct (0 <? n); [apply errs_ret|]. apply errs_bind; [apply errs_ask|].
  intros [[key|e]|msg]; [|by apply errs_throw|by apply errs_throw].
  apply errs_bind; [apply errs_ask|]. intros t. apply errs_bind; [by apply errs_on_error|].
  intros _. apply errs_ret.
Qed.
Lemma Open_unwritten path w w' file msg :
  Open path w = (w', Err (errWriteFile file msg)) ->
  exists w1 w2 b, ensureAPIKey w1 = (w2, Ok b) /\ b <> "" /\
    api_keys (db w1) = api_keys (db w) /\ db w' = db w2.
Proof.
  unfold Open. intros [He|(w1 & [] & (_ & [= Hdb1] & _)%on_error_Ok%exec_Ok & Hb)]%ST_bind_Err.
  { exfalso. revert He. by apply (errs_on_error not_write_file). }
  apply ST_bind_Err in Hb as [[]%errs_ensureMeta|(w2 & iid & (_ & _ & Hk2)%ensureMeta_Ok & Hb)].
  apply ST_bind_Err in Hb as [Hkey|(w3 & key & Hkey & Hb)].
  { exfalso. revert Hkey. apply (errs_bind not_write_file); [apply errs_ensureMeta|].
    intros pem. destruct (keyOfPEM pem); [apply errs_ret|by apply errs_throw]. }
  apply ST_bind_Ok in Hkey as (w4 & pem & (_ & _ & Hk3)%ensureMeta_Ok & Hkey).
  destruct (keyOfPEM pem); [|done]. injection Hkey as -> _.
  apply ST_bind_Err in Hb as [[]%errs_ensureAPIKey|(w5 & b & Hbk & Hb)].
  exists w3, w5, b. case_decide as Hne; [done|]. split_and!; [done|done|congruence|].
  apply ST_bind_Err in Hb as [[]%(errs_ask not_write_file)|(w6 & [m|] & [_ ->]%ask_Ok & Hb)]; [|done].
  by injection Hb as <- _.
Qed.
End standalone_lemmas.

(** * Properties *)
Section properties.
Context `{Platform} `{Crypto} `{JwtLib} `{!KeyLib} `{RosterPb}.

(** C32. The API key printed at the first start is accepted by the admin API,
    from then on and whatever the hub does. *)
Theorem bootstrap_key_works path w w' st d t :
  Open path w = (w', Ok st) -> wf_db canonical_id (db w) -> BootstrapAPIKey st <> "" ->
  rtc (db_step canonical_id) (db w') d -> driver_fails t = false ->
  is_ok (snd (checkAPIKey ("Bearer " +:+ BootstrapAPIKey st) {| db := d; tick := t |})) = true.
Proof.
  intros HO Hwf Hne Hs Hd.
  destruct (Open_Ok _ _ _ _ HO Hwf) as (Hwf' & _ & _ & _ & _ & [[He _]|(_ & i & s & row & Hlen & Hb & [Hrow Hrev] & Hh)]);
    [done|].
  destruct (steps_good _ _ _ Hs Hwf') as [_ Hev]. apply (ev_api_keys _ _ Hev) in Hrow.
  unfold checkAPIKey. rewrite Hb, bearer_keyOf by done.
  unfold attempt, exec, meanwhile, alone, tx_exec, sel_api_key, query_row, throw, ConstantTimeCompare, mbind, ST_bind, mret, ST_ret.
  cbn [tick db]. rewrite Hd, Hrow, Hrev, bool_decide_false by (by intros [? ?]).
  by rewrite decide_True.
Qed.

(** Restarting is idempotent: opening the state again, after any activity,
    gives the same instance id, the same attestation key and key set, and no
    second bootstrap key. *)
Theorem reopen_same path path' w w' st d t w2 st2 :
  Open path w = (w', Ok st) -> wf_db canonical_id (db w) ->
  rtc (db_step canonical_id) (db w') d ->
  Open path' {| db := d; tick := t |} = (w2, Ok st2) ->
  InstanceID st2 = InstanceID st /\ st_Signer st2 = st_Signer st /\ JWKS st2 = JWKS st /\
  BootstrapAPIKey st2 = "".
Proof.
  intros HO Hwf Hs HO2.
  destruct (Open_Ok _ _ _ _ HO Hwf) as (Hwf' & _ & Hid & (pem & key & Hpem & Hkey & Hsig & Hjwks) & (k & row & Hact & Hrev) & _).
  destruct (steps_good _ _ _ Hs Hwf') as [Hwfd Hev].
  destruct (Open_Ok _ _ _ _ HO2 Hwfd) as (_ & Hev2 & Hid2 & (pem2 & key2 & Hpem2 & Hkey2 & Hsig2 & Hjwks2) & _ & Hb2).
  apply (ev_meta _ _ Hev), (ev_meta _ _ Hev2) in Hid. apply (ev_meta _ _ Hev), (ev_meta _ _ Hev2) in Hpem.
  cbn [db] in *. assert (InstanceID st2 = InstanceID st) as Hi by congruence.
  assert (key2 = key) as -> by congruence. rewrite Hsig, Hsig2, Hjwks, Hjwks2, Hi. split_and!; try done.
  destruct Hb2 as [[? _]|[Hno _]]; [done|]. exfalso. apply (Hno k row).
  split; [by apply (ev_api_keys _ _ Hev)|done].
Qed.
(** A start that cannot write the key's file loses the key: it is stored and
    active, its error does not carry it, and no later start makes or shows
    another one, whatever happens in between. *)
Theorem bootstrap_key_lost path path' w w' file msg d t w2 st2 :
  Open path w = (w', Err (errWriteFile file msg)) -> wf_db canonical_id (db w) ->
  rtc (db_step canonical_id) (db w') d ->
  Open path' {| db := d; tick := t |} = (w2, Ok st2) ->
  (forall id row, ~ active (db w) id row) /\ (exists id row, active (db w') id row) /\
  BootstrapAPIKey st2 = "".
Proof.
  intros HO Hwf Hs HO2.
  assert (wf_db canonical_id (db w')) as Hwf'.
  { eapply (steps_good _ (db w)); [|done]. pose proof (steps_Open path w) as HOs. by rewrite HO in HOs. }
  destruct (steps_good _ _ _ Hs Hwf') as [Hwfd Hev].
  apply Open_unwritten in HO as (w1 & w3 & b & Hk & Hne & Hsame & Hdb).
  apply ensureAPIKey_Ok in Hk as (_ & [[? _]|(Hno & i & s & row & _ & _ & Hact & _)]); [done|].
  unfold active in Hno |- *. rewrite Hsame in Hno. rewrite Hdb. split; [done|].
  split; [eauto|]. rewrite <-Hdb in Hact.
  destruct (Open_Ok _ _ _ _ HO2 Hwfd) as (_ & _ & _ & _ & _ & [[? _]|[Hno2 _]]); [done|].
  destruct Hact as [Hrow Hrev]. exfalso. eapply Hno2. split; [by apply (ev_api_keys _ _ Hev)|done].
Qed.
End properties.
