(* ===== verification/Lifetime.v ===== *)
(** * The life of a state file

    A state starts as an empty database. It is opened, serves calls and admin
    requests, is closed and opened again, any number of times. What holds from
    the first opening on: the database's invariant and the registry behind the
    answers. *)
From S2P Require Import Prelude Past GoStrings GoEncoding GoTime GoPath ApiKeys IntegratorApi Grpc BePb Attestation.
From S2P Require Import RosterPb Store StoreInv Platform Backend BackendSteps BackendProps AdminApi AdminProps.
From S2P Require Import Replies Registry RegistryRefine Standalone StandaloneProps.
Open Scope Z_scope.

Section lives.
Context `{Platform} {Oth : Others} `{Crypto} `{JwtLib} `{!KeyLib} `{RosterPb}.
Implicit Types (w : World).

(** A session: the state's path, and the calls it serves. A state that does
    not open serves none; nobody else runs while it opens. *)
Definition session : Type := string * list call.
Definition serve_session (w : World) (s : session) : World * list (call * answered) :=
  let '(w1, opened) := Open s.1 w in
  match opened with
  | Ok _ => dialogue w1 s.2
  | Err _ => (w1, [])
  end.
Fixpoint life (w : World) (ss : list session) : World * list (call * answered) :=
  match ss with
  | [] => (w, [])
  | s :: ss =>
      let '(w1, tr1) := serve_session w s in
      let '(w2, tr2) := life w1 ss in (w2, tr1 ++ tr2)
  end.
Definition new_state (t : nat) : World := {| db := emptyDB; tick := t |}.

(** * Lemmas *)

(** What opening a state and every call preserve holds all along. *)
Lemma life_keeps (P : World -> Prop) (Q : call -> Prop) ss w :
  (forall path w, P w -> P (fst (Open path w))) ->
  (forall c w, Q c -> P w -> P (fst (answer_call w c))) ->
  Forall (fun s => Forall Q s.2) ss -> P w -> P (fst (life w ss)).
Proof.
  intros Hopen Hcall Hss. revert w. induction Hss as [|[path cs] ss Hcs _ IH]; intros w Hw; [done|]. cbn.
  unfold serve_session. cbn. pose proof (Hopen path w Hw) as Hw1.
  destruct (Open path w) as [w1 [st|e]]; cbn in *.
  - assert (P (fst (dialogue w1 cs))) as Hw2.
    { clear IH. revert w1 Hw1. induction Hcs as [|c cs Hc _ IH]; intros w1 Hw1; [done|]. cbn.
      pose proof (Hcall c w1 Hc Hw1) as Hw2. destruct (answer_call w1 c) as [w2 a]. cbn in Hw2.
      specialize (IH w2 Hw2). by destruct (dialogue w2 cs). }
    destruct (dialogue w1 cs) as [w2 tr]. cbn in Hw2. specialize (IH w2 Hw2). by destruct (life w2 ss).
  - specialize (IH w1 Hw1). by destruct (life w1 ss).
Qed.
Lemma life_wf `{!Lawful Oth} ss w : wf_db canonical_id (db w) -> wf_db canonical_id (db (fst (life w ss))).
Proof.
  intros Hw. apply (life_keeps (fun w => wf_db canonical_id (db w)) (fun _ => True)).
  - intros path w1 Hw1. eapply steps_good; [apply steps_Open|done].
  - intros c w1 _. apply answer_call_wf.
  - by apply Forall_true; intros s; apply Forall_true.
  - done.
Qed.

End lives.

Section lifetime.
Context `{Platform} `{Crypto} `{JwtLib} `{!KeyLib} `{RosterPb}.
Implicit Types (w : World).

(** Opening a state leaves groups and nodes alone. *)
Definition same_rows (w0 w : World) : Prop := groups (db w) = groups (db w0) /\ nodes (db w) = nodes (db w0).
Lemma keeps_exec {A} (P : World -> Prop) (s : stmt A) :
  (forall w d' a, P w -> s (db w) = Ok (d', a) -> forall t, P {| db := d'; tick := t |}) ->
  (forall w t, P w -> P {| db := db w; tick := t |}) -> keeps P (exec s).
Proof.
  intros Hs Ht w Hw. unfold exec, meanwhile, alone, tx_exec. destruct (driver_fails _); [by apply Ht|].
  destruct (s (db w)) as [[d a]|e] eqn:Hsd; [by eapply Hs|by apply Ht].
Qed.
Lemma keeps_on_error {S E E' A} (P : S -> Prop) (f : E -> E') (m : ST S E A) : keeps P m -> keeps P (on_error f m).
Proof. intros Hm s Hs. specialize (Hm s Hs). unfold on_error. by destruct (m s) as [? []]. Qed.
Lemma keeps_ask_rows {E A} w0 (q : nat -> A) : keeps (same_rows w0) (ask q : ST World E A).
Proof. by intros w Hw. Qed.
Lemma keeps_rows {A} w0 (s : stmt A) :
  (forall d d' a, s d = Ok (d', a) -> groups d' = groups d /\ nodes d' = nodes d) ->
  keeps (same_rows w0) (exec s).
Proof.
  intros Hs. apply keeps_exec; [|done]. intros w d' a [Hg Hn] (Hg' & Hn')%Hs t. split; cbn; congruence.
Qed.
Ltac rows_tac :=
  repeat match goal with
  | |- keeps _ (mbind _ _) => apply keeps_bind; [|intros ?]
  | |- keeps _ (mret _) => apply keeps_ret
  | |- keeps _ (throw _) => apply keeps_throw
  | |- keeps _ (ask _) => apply keeps_ask_rows
  | |- keeps _ nowMillis => apply keeps_ask_rows
  | |- keeps _ (on_error _ _) => apply keeps_on_error
  | |- keeps _ (attempt _) => apply keeps_attempt
  | |- keeps _ (exec _) => apply keeps_rows; intros ? ? ?;
      unfold sel_meta, ins_meta, count_api_keys, ins_api_key, query, query_row; repeat case_match;
      (done || by intros [= <- _])
  | |- keeps _ _ => case_match
  end.
Lemma Open_rows path w : same_rows w (fst (Open path w)).
Proof.
  assert (keeps (same_rows w) (Open path)) as Hk; [|by apply Hk].
  unfold Open, ensureAttestationKey, ensureMeta, ensureAPIKey. rows_tac.
Qed.

(** The registry explains all answers of a life. *)
Lemma life_explained ss w : wf_db canonical_id (db w) ->
  let '(w', tr) := life w ss in explains (abs (db w)) tr (abs (db w')).
Proof.
  revert w. induction ss as [|[path cs] ss IH]; intros w Hwf; [by constructor|]. cbn.
  assert (wf_db canonical_id (db (fst (Open path w)))) as Hwf1 by (eapply steps_good; [apply steps_Open|done]).
  destruct (Open_rows path w) as [Hg Hn]. unfold serve_session. cbn.
  destruct (Open path w) as [w1 [st|e]]; cbn in Hwf1, Hg, Hn; rewrite <-(abs_frame _ _ Hg Hn).
  - pose proof (dialogue_explained cs w1 Hwf1) as Hex. pose proof (dialogue_wf cs w1 Hwf1) as Hwf2.
    destruct (dialogue w1 cs) as [w2 tr1]. cbn in Hwf2. specialize (IH w2 Hwf2).
    destruct (life w2 ss) as [w3 tr2]. by eapply (told_app _ answers_proper).
  - specialize (IH w1 Hwf1). by destruct (life w1 ss).
Qed.
End lifetime.

(** * Properties *)
Section properties.
Context `{Platform} `{Crypto} `{JwtLib} `{!KeyLib} `{RosterPb}.

(** C9. The database is well formed all its life: from the empty state on,
    through any openings, backend calls and admin requests, with every clock
    and every failure of the driver, and whatever others do to the database by
    atomic changes between the statements of a call. Each group's counter lies above its node
    numbers and within an int32, tokens and nodes belong to existing groups,
    token ids are unique, and no two live groups share an association key. *)
Theorem database_invariant {Oth : Others} `{!Lawful Oth} ss t : wf_db canonical_id (db (fst (life (new_state t) ss))).
Proof. apply life_wf, wf_emptyDB. Qed.
End properties.
