(* ===== verification/History.v ===== *)
(** * What the backend's answers say about its past

    Consequences of the registry alone: in the life of a state, over all its
    openings, an answer is determined by the answers before it. Nothing here
    looks at tables or statements. *)
From S2P Require Import Prelude Past GoStrings GoEncoding GoTime IntegratorApi Grpc BePb Attestation RosterPb Store.
From S2P Require Import StoreInv Platform Backend BackendSteps AdminApi AdminProps Replies Registry RegistryRefine Standalone Lifetime.
From stdpp Require Import functions.
Open Scope Z_scope.

Section events.
Context `{Platform} `{Crypto} `{JwtLib} `{!KeyLib} `{RosterPb}.
Notation event := (call * answered)%type.
Implicit Types (tr : list event) (e : event) (R : Registry).

(** ** Events *)

(** A registration that was answered with this number and a secret of this hash. *)
Definition registers_as (cg : string) (n : Z) (hash : string) (e : event) : Prop :=
  match e with
  | (Rpc _ (RCompleteNodeRegistration _), ToNode (Ok (PCompleteNodeRegistration x))) =>
      cr_ConnectivityGroupId x = cg /\ cr_NodeNumber x = n /\ hashToken (cr_AuthToken x) = hash
  | _ => False
  end.
Definition registration_in (cg : string) (e : event) : bool :=
  match e with
  | (Rpc _ (RCompleteNodeRegistration _), ToNode (Ok (PCompleteNodeRegistration x))) =>
      bool_decide (cr_ConnectivityGroupId x = cg)
  | _ => false
  end.
(** A call that was told to have removed the node: it deregistered, or it was
    deleted, alone or with its group, or the group was reset. *)
Definition removes (cg : string) (n : Z) (e : event) : Prop :=
  match e with
  | (Rpc _ (RDeregisterNode raw m), ToNode (Ok _)) => uuid_Parse raw = Some cg /\ m = n
  | (Admin _ _ (DeleteNode id m), ToAdmin (Ok _)) => uuid_Parse id = Some cg /\ ParseInt m 32 = Some n
  | (Admin _ _ (DeleteConnectivityGroup id), ToAdmin (Ok _))
  | (Admin _ _ (ResetConnectivityGroup id), ToAdmin (Ok _)) => uuid_Parse id = Some cg
  | _ => False
  end.
Definition may_remove (cg : string) (n : Z) (e : event) : Prop :=
  removes cg n e \/ swept e.1 e.2 = Some cg.
(** The roster a call was told to have stored. *)
Definition roster_write (cg : string) (e : event) : option (string * Z) :=
  match e with
  | (Rpc _ (RUpdateRoster req), ToNode (Ok _)) =>
      if decide (uuid_Parse (ur_ConnectivityGroupId req) = Some cg)
      then Some (ur_Roster req, ur_NewVersion req) else None
  | (Admin _ _ (ResetConnectivityGroup id), ToAdmin (Ok _)) =>
      if decide (uuid_Parse id = Some cg) then Some ("", 0) else None
  | _ => None
  end.

(** What a past says. *)
Definition enrolled (removal : event -> Prop) (tr : list event) (cg : string) (n : Z) (hash : string) : Prop :=
  since (registers_as cg n hash) removal tr.
Definition registrations (cg : string) (tr : list event) : nat := count (registration_in cg) tr.
Definition last_roster (cg : string) (tr : list event) : string * Z := latest ("", 0) (roster_write cg) tr.

(** ** What an answer does to one member, one number, one roster *)

Lemma expel_member cg n R cg' n' :
  r_member (expel cg n R) cg' n' = if decide (cg' = cg /\ n' = n) then None else r_member R cg' n'.
Proof.
  cbn. unfold insert, fn_insert. repeat case_decide; naive_solver.
Qed.
Lemma expel_all_member cg R cg' n' :
  r_member (expel_all cg R) cg' n' = if decide (cg' = cg) then None else r_member R cg' n'.
Proof. cbn. unfold insert, fn_insert. repeat case_decide; naive_solver. Qed.
Lemma enroll_member cg n h R cg' n' :
  r_member (enroll cg n h R) cg' n' = if decide (cg' = cg /\ n' = n) then Some h else r_member R cg' n'.
Proof. cbn. unfold insert, fn_insert. repeat case_decide; naive_solver. Qed.

(** Who is a member after an answer: who was, unless removed, and who registered. *)
Lemma effect_member c a R cg n h :
  r_member (effect c a R) cg n = Some h <->
  registers_as cg n h (c, a) \/
  (r_member R cg n = Some h /\ ~ removes cg n (c, a) /\ forall h', ~ registers_as cg n h' (c, a)).
Proof.
  destruct c as [b r|online header r], a as [[p|e]|[p|e]]; cbn;
    [|destruct r; naive_solver..| |destruct r; naive_solver].
  - destruct r; cbn; try naive_solver.
    + destruct p; cbn; try naive_solver. setoid_rewrite enroll_member. case_decide; naive_solver.
    + unfold in_group. destruct (uuid_Parse _); naive_solver.
    + unfold in_group. destruct (uuid_Parse _); [|naive_solver].
      setoid_rewrite expel_member. case_decide; naive_solver.
  - destruct r; cbn; try naive_solver.
    + destruct p; naive_solver.
    + unfold in_group. destruct (uuid_Parse _); [|naive_solver]. cbn [close_group r_member].
      setoid_rewrite expel_all_member. case_decide; naive_solver.
    + unfold in_group. destruct (uuid_Parse _); [|naive_solver]. cbn [set_roster r_member].
      setoid_rewrite expel_all_member. case_decide; naive_solver.
    + destruct (ParseInt _ _); [|naive_solver]. unfold in_group. destruct (uuid_Parse _); [|naive_solver].
      setoid_rewrite expel_member. case_decide; naive_solver.
Qed.
Lemma swept_not_registers c a cg n h : is_Some (swept c a) -> ~ registers_as cg n h (c, a).
Proof. intros [x Hx] Hr. destruct c; [done|exact Hr]. Qed.
Lemma effect_swept c a R : is_Some (swept c a) -> effect c a R = R.
Proof. intros [x Hx]. by destruct c as [b r|? ? []], a as [[|]|[|]]. Qed.
(** A member was one before, and not removed, or has just registered; and a
    member stays one, unless a removal is announced or possible. *)
Lemma observes_member c a R R1 cg n h :
  observes c a R R1 -> r_member R1 cg n = Some h ->
  registers_as cg n h (c, a) \/ (r_member R cg n = Some h /\ ~ removes cg n (c, a)).
Proof.
  intros [(_ & _ & _ & ->)|(cg' & Hs & (_ & _ & _ & ->))].
  - rewrite effect_member. naive_solver.
  - rewrite expel_all_member. case_decide; [done|]. intros Hm.
    assert (r_member (effect c a R) cg n = Some h) as Hm' by (by rewrite effect_swept).
    apply effect_member in Hm'. naive_solver.
Qed.
Lemma observes_member_kept c a R R1 cg n h :
  explained R c a -> observes c a R R1 -> r_member R cg n = Some h -> ~ may_remove cg n (c, a) ->
  r_member R1 cg n = Some h.
Proof.
  intros Ha Ho Hm Hno. destruct Ho as [(_ & _ & _ & ->)|(cg' & Hs & (_ & _ & _ & ->))].
  - apply effect_member. right. split_and!; [done|by intros Hr; apply Hno; left|].
    intros h' Hr. destruct c as [b []|], a as [[[]|]|]; try done.
    destruct Hr as (<- & <- & _), Ha as (_ & _ & Hfree). congruence.
  - rewrite expel_all_member. case_decide; [|done]. subst. destruct Hno. by right.
Qed.
Lemma observes_registers c a R R1 cg n h :
  observes c a R R1 -> registers_as cg n h (c, a) -> r_member R1 cg n = Some h.
Proof.
  intros [(_ & _ & _ & ->)|(cg' & Hs & _)] Hr; [apply effect_member; by left|].
  by eapply swept_not_registers in Hr.
Qed.

(** The next number counts the registrations. *)
Lemma observes_next c a R R1 cg :
  explained R c a -> observes c a R R1 ->
  r_next R1 cg = r_next R cg + (if registration_in cg (c, a) then 1 else 0).
Proof.
  assert (forall raw f, (forall cg' R, r_next (f cg' R) = r_next R) -> r_next (in_group raw f R) = r_next R) as Hin.
  { intros raw f Hf. unfold in_group. by destruct (uuid_Parse raw). }
  intros Ha Ho.
  assert (r_next R1 cg = r_next (effect c a R) cg) as ->.
  { destruct Ho as [(_ & _ & -> & _)|(cg' & Hs & (_ & _ & -> & _))]; [done|]. by rewrite effect_swept. }
  destruct c as [b r|online header r], a as [[p|e]|[p|e]]; cbn;
    [|destruct r; cbn; lia..| |destruct r; cbn; lia].
  - destruct r; cbn; rewrite ?Z.add_0_r, ?Hin; try done. destruct p; cbn; rewrite ?Z.add_0_r; try done.
    destruct Ha as (_ & Hn & _). unfold insert, fn_insert.
    case_decide; [rewrite bool_decide_true by done|rewrite bool_decide_false by done]; [|lia]. subst. lia.
  - destruct r; cbn; rewrite ?Z.add_0_r, ?Hin; try done; [by destruct p|].
    destruct (ParseInt _ _); [|done]. by rewrite Hin.
Qed.
(** The roster is the last one written. *)
Lemma observes_roster c a R R1 cg :
  explained R c a -> observes c a R R1 ->
  r_roster R1 cg = default (r_roster R cg) (roster_write cg (c, a)).
Proof.
  assert (forall raw f, (forall cg' R, r_roster (f cg' R) = r_roster R) -> r_roster (in_group raw f R) = r_roster R) as Hin.
  { intros raw f Hf. unfold in_group. by destruct (uuid_Parse raw). }
  assert (forall raw f x, (forall cg' R, r_roster (f cg' R) = <[cg' := x]> (r_roster R)) ->
    r_roster (in_group raw f R) cg =
    default (r_roster R cg) (if decide (uuid_Parse raw = Some cg) then Some x else None)) as Hset.
  { intros raw f x Hf. unfold in_group. destruct (uuid_Parse raw) as [cg'|]; cbn; [|by case_decide].
    rewrite Hf. unfold insert, fn_insert. repeat case_decide; cbn; congruence. }
  intros Ha Ho.
  assert (r_roster R1 cg = r_roster (effect c a R) cg) as ->.
  { destruct Ho as [(_ & -> & _ & _)|(cg' & Hs & (_ & -> & _ & _))]; [done|]. by rewrite effect_swept. }
  destruct c as [b r|online header r], a as [[p|e]|[p|e]]; cbn;
    [|by destruct r..| |by destruct r].
  - destruct r; cbn; try done; [by destruct p|by apply Hset|by rewrite Hin].
  - destruct r; cbn; try done; [by destruct p|by rewrite Hin|by apply Hset|].
    destruct (ParseInt _ _); [|done]. by rewrite Hin.
Qed.

#[export] Instance member_proper cg n h : Proper ((≡) ==> iff) (fun R => r_member R cg n = Some h).
Proof. intros R1 R2 (_ & _ & _ & Hm). by rewrite Hm. Qed.
#[export] Instance next_proper cg : Proper ((≡) ==> (=)) (fun R => r_next R cg).
Proof. by intros R1 R2 (_ & _ & Hn & _). Qed.
#[export] Instance roster_proper cg : Proper ((≡) ==> (=)) (fun R => r_roster R cg).
Proof. by intros R1 R2 (_ & Hr & _). Qed.

(** ** Whole conversations *)

Section past.
Context (R0 : Registry) (Hempty : R0 ≡ emptyRegistry).

(** The registry at a point of the conversation. *)
Lemma past_member tr R cg n h :
  explains R0 tr R -> r_member R cg n = Some h -> enrolled (removes cg n) tr cg n h.
Proof.
  intros Hex. eapply (told_since _ (fun R => r_member R cg n = Some h)); [apply _| |  |exact Hex].
  - destruct Hempty as (_ & _ & _ & Heq). by rewrite Heq.
  - intros [c a] R1 R2 [_ Ho]. by apply observes_member.
Qed.
Lemma past_enrolled tr R cg n h :
  explains R0 tr R -> enrolled (may_remove cg n) tr cg n h -> r_member R cg n = Some h.
Proof.
  intros Hex. eapply (told_holds _ (fun R => r_member R cg n = Some h)); [apply _| | |exact Hex].
  - intros [c a] R1 R2 [_ Ho]. by eapply observes_registers.
  - intros [c a] R1 R2 [Ha Ho]. by eapply observes_member_kept.
Qed.
Lemma past_next tr R cg : explains R0 tr R -> r_next R cg = 1 + Z.of_nat (registrations cg tr).
Proof.
  destruct Hempty as (_ & _ & Heq & _). change 1 with (r_next emptyRegistry cg). rewrite <-Heq.
  apply (told_count answers (fun R => r_next R cg)); [apply _|]. intros [c a] R1 R2 [Ha Ho]. by apply observes_next.
Qed.
Lemma past_roster tr R cg : explains R0 tr R -> r_roster R cg = last_roster cg tr.
Proof.
  destruct Hempty as (_ & Heq & _). unfold last_roster. change ("", 0) with (r_roster emptyRegistry cg). rewrite <-Heq.
  apply (told_latest answers (fun R => r_roster R cg)); [apply _|]. intros [c a] R1 R2 [Ha Ho]. by apply observes_roster.
Qed.
Lemma past_number tr1 e tr2 R cg n h :
  explains R0 (tr1 ++ e :: tr2) R -> registers_as cg n h e -> n = 1 + Z.of_nat (registrations cg tr1).
Proof.
  intros (R1 & R2 & Hex & [Ha _])%told_at Hr. rewrite <-(past_next _ _ cg Hex).
  destruct e as [[b []|] [[[]|]|]]; try done. destruct Hr as (<- & <- & _). by destruct Ha as (_ & ? & _).
Qed.
Lemma registers_counted cg n h e : registers_as cg n h e -> registration_in cg e = true.
Proof. destruct e as [[b []|] [[[]|]|]]; try done. intros (? & _). by apply bool_decide_eq_true. Qed.
End past.

(** ** The answers of a state's whole life *)

Definition history (tr : list event) : Prop := exists ss t, snd (life (new_state t) ss) = tr.
Lemma history_explains tr : history tr -> exists R, explains (abs emptyDB) tr R.
Proof.
  intros (ss & t & <-). pose proof (life_explained ss (new_state t) (wf_emptyDB _)) as Hex.
  destruct (life _ ss) as [w' tr]. eauto.
Qed.
(** The registry before an answer. *)
Lemma history_at tr1 c a tr2 : history (tr1 ++ (c, a) :: tr2) ->
  exists R, explains (abs emptyDB) tr1 R /\ explained R c a.
Proof. intros (R' & (R & R1 & Hex & [Ha _])%told_at)%history_explains. eauto. Qed.
Lemma history_number tr1 e tr2 cg n h :
  history (tr1 ++ e :: tr2) -> registers_as cg n h e -> n = 1 + Z.of_nat (registrations cg tr1).
Proof. intros [R Hex]%history_explains. by eapply past_number; [apply abs_emptyDB|]. Qed.
Lemma history_authenticated tr1 b req p tr2 :
  history (tr1 ++ (Rpc b (RAuthenticateNode req), ToNode (Ok p)) :: tr2) ->
  exists cg, uuid_Parse (an_ConnectivityGroupId req) = Some cg /\
  let n := an_NodeNumber req in
  enrolled (removes cg n) tr1 cg n (hashToken (an_AuthToken req)).
Proof.
  intros (R & Hex & cg & Hu & Hm)%history_at. exists cg. split; [done|].
  by eapply past_member; [apply abs_emptyDB|..].
Qed.
(** A number is registered once. *)
Lemma history_number_once tr1 e tr2 e' tr3 cg n h h' :
  history (tr1 ++ e :: tr2 ++ e' :: tr3) -> registers_as cg n h e -> ~ registers_as cg n h' e'.
Proof.
  intros Hh Hr Hr'. pose proof (history_number _ _ _ _ _ _ Hh Hr) as Hn.
  rewrite app_comm_cons, (assoc_L (++)) in Hh. pose proof (history_number _ _ _ _ _ _ Hh Hr') as Hn'.
  unfold registrations in *. rewrite count_app in Hn'.
  pose proof (count_elem (registration_in cg) (e :: tr2) e ltac:(left) (registers_counted _ _ _ _ Hr)). lia.
Qed.
Lemma registers_not_removes cg n h e : registers_as cg n h e -> ~ removes cg n e.
Proof. destruct e as [[b []|] [[[]|]|]]; cbn; tauto. Qed.
End events.

(** * Properties *)
Section properties.
Context `{Platform} `{Crypto} `{JwtLib} `{!KeyLib} `{RosterPb}.
Notation event := (call * answered)%type.
Implicit Types (tr : list event) (e : event).

(** C7. Authentication is decided by what calls were answered before. If it
    succeeds, then an earlier registration was answered with this group, this
    number and a secret of the same hash, and no later answer said that the
    node was removed. If there is such a registration, and no later call
    removed the node or may have, then authentication succeeds, or the database
    fails. *)
Theorem authentication_history tr1 b req a tr2 :
  history (tr1 ++ (Rpc b (RAuthenticateNode req), ToNode a) :: tr2) ->
  let n := an_NodeNumber req in
  let hash := hashToken (an_AuthToken req) in
  (is_ok a = true -> exists cg, uuid_Parse (an_ConnectivityGroupId req) = Some cg /\
     enrolled (removes cg n) tr1 cg n hash) /\
  (forall cg, uuid_Parse (an_ConnectivityGroupId req) = Some cg ->
     enrolled (may_remove cg n) tr1 cg n hash -> is_ok a = true \/ a = Err internalError).
Proof.
  intros Hh n hash. split.
  - destruct a as [p|e]; [intros _|done]. by eapply history_authenticated.
  - intros cg Hu Hen. destruct a as [p|e]; [by left|right].
    destruct (history_at _ _ _ _ Hh) as (R & Hex & [[_ Hno]|[->|(cg' & Hu' & _ & Hno)]]); [congruence|done|].
    assert (cg' = cg) as -> by congruence. destruct Hno. by eapply past_enrolled.
Qed.

(** C8. A removal is final. Once a node is registered and a later answer says
    that it was removed (it deregistered, was deleted, or its group was deleted
    or reset), authentication under its number never succeeds again, with any
    secret and whatever is called in between. *)
Theorem removal_final tr1 e1 tr2 b req a tr3 cg h e0 :
  history (tr1 ++ e1 :: tr2 ++ (Rpc b (RAuthenticateNode req), ToNode a) :: tr3) ->
  e0 ∈ tr1 -> registers_as cg (an_NodeNumber req) h e0 -> removes cg (an_NodeNumber req) e1 ->
  uuid_Parse (an_ConnectivityGroupId req) = Some cg -> is_ok a = false.
Proof.
  set (n := an_NodeNumber req). intros Hh Hin Hreg Hrem Hu. destruct a as [p|err]; [exfalso|done].
  rewrite app_comm_cons, (assoc_L (++)) in Hh.
  destruct (history_authenticated _ _ _ _ _ Hh) as (cg' & Hu' & Hen).
  assert (cg' = cg) as -> by congruence. revert Hen. eapply since_over; [|by apply registers_not_removes|done..].
  intros pre z mid z' post Heq Hz. rewrite Heq, <-!(assoc_L (++)) in Hh. cbn in Hh.
  rewrite <-(assoc_L (++)) in Hh. by eapply history_number_once.
Qed.

(** C6. Numbers are given out without gaps: the number that a registration is
    answered with is one more than the number of registrations in its group
    that were answered before, whatever nodes were removed and whatever calls
    failed. *)
Theorem numbers_dense tr1 e tr2 cg n h :
  history (tr1 ++ e :: tr2) -> registers_as cg n h e -> n = 1 + Z.of_nat (registrations cg tr1).
Proof. apply history_number. Qed.

(** C23. A group's roster is the one that was stored last. GetRoster answers
    with the roster and version of the last update of the group that was
    answered with success, or with the empty roster at version 0 if there was
    none since the group was made or reset; and an update is answered with
    success only if the version it expects is the one of that roster. *)
Theorem roster_history tr1 b r p tr2 :
  history (tr1 ++ (Rpc b r, ToNode (Ok p)) :: tr2) ->
  (forall raw x, r = RGetRoster raw -> p = PRoster x ->
     exists cg, uuid_Parse raw = Some cg /\ last_roster cg tr1 = (gr_Roster x, gr_Version x)) /\
  (forall req, r = RUpdateRoster req ->
     exists cg, uuid_Parse (ur_ConnectivityGroupId req) = Some cg /\
     snd (last_roster cg tr1) = ur_ExpectedVersion req /\ ur_ExpectedVersion req < ur_NewVersion req).
Proof.
  intros (R & Hex & Ha)%history_at.
  assert (forall cg, last_roster cg tr1 = r_roster R cg) as Hlast
    by (intros cg; symmetry; eapply past_roster, Hex; apply abs_emptyDB).
  split.
  - intros raw x -> ->. destruct Ha as (cg & Hu & _ & Hr). exists cg. by rewrite Hlast.
  - intros req ->. destruct Ha as (cg & Hu & _ & Hv & Hlt). exists cg. by rewrite Hlast.
Qed.
End properties.
