(* ===== verification/Concurrent.v ===== *)
(** * Interleaved calls and the past

    The life of a state whose calls run among others, between whose statements
    again others run. There is one order of the moments at which all these calls
    happen, those served and those of the others, in which every answer tells
    the truth about the answers before it: the theorems of History.v without the
    assumption that calls come one after the other. *)
From S2P Require Import Prelude Past GoStrings GoEncoding GoTime IntegratorApi Grpc BePb Attestation RosterPb Store.
From S2P Require Import StoreInv Platform Backend BackendSteps AdminApi AdminProps Replies Registry RegistryRefine Standalone StandaloneProps Lifetime History.
From stdpp Require Import functions.
Open Scope Z_scope.

Notation event := (call * answered)%type.

(** ** Moments *)
Section moments.
Context `{Platform} `{Crypto} `{JwtLib} `{!KeyLib} `{RosterPb}.
Implicit Types (R : Registry).

(** A phase of an answered call. *)
Definition moment : Type := event * nat.
Definition at_moment (m : moment) (R R' : Registry) : Prop :=
  match phases m.1.1 m.1.2 !! m.2 with Some P => P R R' | None => False end.
Definition happens : Registry -> list moment -> Registry -> Prop := told at_moment.
Definition moments_from (e : event) (k n : nat) : list moment := (fun k => (e, k)) <$> seq k n.
Definition moments_of (e : event) : list moment := moments_from e 0 (length (phases e.1 e.2)).

Lemma reads_proper (P : Registry -> Prop) :
  Proper ((≡) ==> iff) P -> Proper ((≡) ==> (≡) ==> iff) (reads P).
Proof. intros HP R1 R2 HR S1 S2 HS. unfold reads. by rewrite (HP _ _ HR), HR, HS. Qed.
Lemma moves_proper (f : Registry -> Registry) :
  Proper ((≡) ==> (≡)) f -> Proper ((≡) ==> (≡) ==> iff) (fun R R' => R' ≡ f R).
Proof. intros Hf R1 R2 HR S1 S2 HS. by rewrite HR, HS. Qed.
Lemma phases_proper c a : Forall (Proper ((≡) ==> (≡) ==> iff)) (phases c a).
Proof.
  assert (Forall (Proper ((≡) ==> (≡) ==> iff)) [fun R R' => explained R c a /\ observes c a R R']) as Hone.
  { apply Forall_singleton. intros R1 R2 HR S1 S2 HS. by rewrite HR, HS. }
  destruct c as [b r|online header r], a as [a|[p|e]]; try exact Hone; try (by destruct r; exact Hone).
  destruct r; try exact Hone; [destruct p; try exact Hone|..]; clear Hone; cbn [phases];
    repeat apply Forall_cons_2; try apply Forall_nil_2.
  - apply reads_proper. intros R1 R2 (Hl & _). by rewrite Hl.
  - apply reads_proper. intros R1 R2 HR. split; by apply lists_members_equiv.
  - apply moves_proper. apply _.
  - apply moves_proper. apply _.
  - apply reads_proper. intros R1 R2 (Hl & _). by setoid_rewrite Hl.
  - apply moves_proper. apply _.
  - apply moves_proper, in_group_proper. intros cg R1 R2 HR. destruct HR as (Hl & Hrest).
    rewrite Hl. destruct (r_live R2 cg); by rewrite (conj Hl Hrest : R1 ≡ R2).
  - apply reads_proper. intros R1 R2 (Hl & Hr & _). setoid_rewrite Hl. by setoid_rewrite Hr.
  - intros R1 R2 HR S1 S2 HS. pose proof HR as (_ & _ & _ & Hm). setoid_rewrite Hm. setoid_rewrite HR. by setoid_rewrite HS.
Qed.
#[export] Instance at_moment_proper m : Proper ((≡) ==> (≡) ==> iff) (at_moment m).
Proof.
  unfold at_moment. pose proof (phases_proper m.1.1 m.1.2) as Hp.
  destruct (phases m.1.1 m.1.2 !! m.2) as [P|] eqn:HP; [|by intros ??????].
  exact (proj1 (Forall_lookup _ _) Hp _ _ HP).
Qed.

(** ** Others who make calls *)

(** What the others do to the registry happens at moments of calls that satisfy
    [made]. *)
Definition between (made : event -> Prop) (R R' : Registry) : Prop :=
  exists ts, happens R ts R' /\ Forall (fun m => made m.1) ts.
Class Makes (O : Others) (made : event -> Prop) := meanwhile_between :
  forall w, wf_db canonical_id (db w) -> between made (abs (db w)) (abs (db (meanwhile w))).
#[export] Instance alone_makes : Makes alone (fun _ => False).
Proof. intros w _. exists []. split; [by apply told_nil|done]. Qed.
#[export] Instance between_preorder made : PreOrder (between made).
Proof.
  split.
  - intros R. exists []. split; [by apply told_nil|done].
  - intros R1 R2 R3 (ts1 & H1' & Hm1) (ts2 & H2' & Hm2). exists (ts1 ++ ts2).
    split; [by eapply (told_app _ at_moment_proper)|by apply Forall_app].
Qed.

(** The phases of a call among others are its moments among theirs. *)
Lemma phased_happens made c a k ps R R' :
  drop k (phases c a) = ps -> phased (between made) ps R R' ->
  exists ts ms, merges (moments_from (c, a) k (length ps)) ts ms /\ happens R ms R' /\
    Forall (fun m => made m.1) ts.
Proof.
  intros Hps Hp. revert k Hps. induction Hp as [R R' (ts & Hts & Hm)|P ps R R1 R2 R' (ts & Hts & Hm) HP _ IH]; intros k Hps.
  - exists ts, ts. split_and!; [apply merges_rights|done..].
  - assert (phases c a !! k = Some P /\ drop (S k) (phases c a) = ps) as [Hk Hdrop].
    { split.
      - pose proof (lookup_drop (phases c a) k 0) as Hd. rewrite Hps, Nat.add_0_r in Hd. by rewrite <-Hd.
      - by rewrite <-Nat.add_1_r, <-drop_drop, Hps. }
    destruct (IH (S k) Hdrop) as (ts' & ms & Hmerge & Hh & Hm').
    exists (ts ++ ts'), (ts ++ ((c, a), k) :: ms). split_and!.
    + cbn [length]. change (moments_from (c, a) k (S (length ps))) with ([] ++ ((c, a), k) :: moments_from (c, a) (S k) (length ps)).
      apply merges_app; [apply merges_rights|by constructor].
    + eapply (told_app _ at_moment_proper); [exact Hts|]. eapply told_cons; [|exact Hh].
      unfold at_moment, phase in *. cbn [fst snd]. by rewrite Hk.
    + by apply Forall_app.
Qed.

Section among.
Context {Oth : Others} `{!Lawful Oth} (made : event -> Prop) `{!Makes Oth made}.

Lemma answer_happens c w : wf_db canonical_id (db w) ->
  let '(w', a) := answer_call w c in
  exists ts ms, merges (moments_of (c, a)) ts ms /\ happens (abs (db w)) ms (abs (db w')) /\
    Forall (fun m => made m.1) ts.
Proof.
  intros Hwf. assert (runs (between made) c) as Hruns.
  { apply call_runs; [apply _|]. intros w0 Hw0. by apply meanwhile_between. }
  specialize (Hruns w Hwf). destruct (answer_call w c) as [w' a].
  by apply (phased_happens made c a 0 (phases c a)).
Qed.
Lemma dialogue_happens cs w : wf_db canonical_id (db w) ->
  let '(w', tr) := dialogue w cs in
  exists ts ms, merges (tr ≫= moments_of) ts ms /\ happens (abs (db w)) ms (abs (db w')) /\
    Forall (fun m => made m.1) ts.
Proof.
  revert w. induction cs as [|c cs IH]; intros w Hwf.
  { exists [], []. split_and!; [constructor|by apply told_nil|done]. }
  cbn [dialogue]. pose proof (answer_call_wf w c Hwf) as Hwf1.
  pose proof (answer_happens c w Hwf) as Hc. destruct (answer_call w c) as [w1 a].
  destruct Hc as (ts1 & ms1 & Hm1 & Hh1 & Hd1). specialize (IH w1 Hwf1).
  destruct (dialogue w1 cs) as [w' tr]. destruct IH as (ts2 & ms2 & Hm2 & Hh2 & Hd2).
  exists (ts1 ++ ts2), (ms1 ++ ms2). split_and!; [by apply merges_app| |by apply Forall_app].
  by eapply (told_app _ at_moment_proper).
Qed.
End among.

(** Others who make whole calls, among others who do. *)
Definition crowd_made (calls : nat -> list call) (e : event) : Prop :=
  exists n t w, e.1 ∈ calls t /\ e.2 = snd (@answer_call _ (crowd n calls) _ _ _ w e.1).
Lemma dialogue_answers {Oth : Others} cs w :
  Forall (fun e => exists w, e.1 ∈ cs /\ e.2 = snd (answer_call w e.1)) (snd (dialogue w cs)).
Proof.
  revert w. induction cs as [|c cs IH]; intros w; [done|]. cbn [dialogue].
  destruct (answer_call w c) as [w1 a] eqn:Ha. specialize (IH w1). destruct (dialogue w1 cs) as [w' tr]. cbn in *.
  constructor; [exists w; cbn [fst snd]; rewrite Ha; split; [by left|done]|].
  eapply list.Forall_impl; [exact IH|]. intros e (w2 & Hin & He). exists w2. split; [by right|done].
Qed.
#[export] Instance crowd_makes n calls : Makes (crowd n calls) (crowd_made calls).
Proof.
  induction n as [|n IH]; intros w Hwf; [reflexivity|].
  pose proof (@dialogue_happens (crowd n calls) _ (crowd_made calls) IH (calls (tick w)) w Hwf) as Hd.
  pose proof (@dialogue_answers (crowd n calls) (calls (tick w)) w) as Ha.
  pose proof (@dialogue_run _ _ _ _ (crowd n calls) (calls (tick w)) w) as Hrun.
  unfold meanwhile. cbn [crowd]. rewrite <-Hrun.
  destruct (@dialogue _ (crowd n calls) _ _ _ w (calls (tick w))) as [w' tr]. cbn [fst snd] in *.
  destruct Hd as (ts & ms & Hmerge & Hh & Hm). exists ms. split; [done|]. apply list.Forall_forall.
  intros m [Hin|Hin]%(merges_elem _ _ _ _ Hmerge); [|exact (proj1 (list.Forall_forall _ _) Hm m Hin)].
  apply list_elem_of_bind in Hin as (e & Hmem & He). eapply list.Forall_forall in Ha as (w0 & Hc & Hans); [|exact He].
  apply list_elem_of_fmap in Hmem as (k & -> & _). by exists n, (tick w), w0.
Qed.

(** ** The life of a state among others *)
Lemma life_happens {Oth : Others} `{!Lawful Oth} made `{!Makes Oth made} ss w : wf_db canonical_id (db w) ->
  let '(w', tr) := life w ss in
  exists ts ms, merges (tr ≫= moments_of) ts ms /\ happens (abs (db w)) ms (abs (db w')) /\
    Forall (fun m => made m.1) ts.
Proof.
  revert w. induction ss as [|[path cs] ss IH]; intros w Hwf.
  { exists [], []. split_and!; [constructor|by apply told_nil|done]. }
  cbn. assert (wf_db canonical_id (db (fst (Open path w)))) as Hwf1 by (eapply steps_good; [apply steps_Open|done]).
  destruct (Open_rows path w) as [Hg Hn]. unfold serve_session. cbn.
  destruct (Open path w) as [w1 [st|e]]; cbn in Hwf1, Hg, Hn; rewrite <-(abs_frame _ _ Hg Hn).
  - pose proof (dialogue_happens made cs w1 Hwf1) as Hd.
    pose proof (dialogue_wf cs w1 Hwf1) as Hwf2.
    destruct (dialogue w1 cs) as [w2 tr1]. destruct Hd as (ts1 & ms1 & Hm1 & Hh1 & Hd1). cbn in Hwf2.
    specialize (IH w2 Hwf2). destruct (life w2 ss) as [w3 tr2]. destruct IH as (ts2 & ms2 & Hm2 & Hh2 & Hd2).
    exists (ts1 ++ ts2), (ms1 ++ ms2). rewrite bind_app. split_and!; [by apply merges_app| |by apply Forall_app].
    by eapply (told_app _ at_moment_proper).
  - specialize (IH w1 Hwf1). by destruct (life w1 ss).
Qed.
End moments.

(** ** What moments announce *)
Section announced.
Context `{Platform} `{Crypto} `{JwtLib} `{!KeyLib} `{RosterPb}.
Implicit Types (R : Registry) (m : moment) (e : event).

(** The phase in which a call removes nodes, and that in which it writes the roster. *)
Definition removal_phase (e : event) : nat :=
  match e.1 with
  | Admin _ _ (ResetConnectivityGroup _) | Admin _ _ (DeleteNode _ _) => 1
  | _ => 0
  end.
Definition write_phase (e : event) : nat :=
  match e.1 with Admin _ _ (ResetConnectivityGroup _) => 2 | _ => 0 end.
Definition removes_at (cg : string) (n : Z) (m : moment) : Prop :=
  removes cg n m.1 /\ m.2 = removal_phase m.1.
Definition may_remove_at (cg : string) (n : Z) (m : moment) : Prop :=
  removes_at cg n m \/ swept m.1.1 m.1.2 = Some cg.
Definition write_at (cg : string) (m : moment) : option (string * Z) :=
  if decide (m.2 = write_phase m.1) then roster_write cg m.1 else None.
Definition registers_at (cg : string) (n : Z) (hash : string) (m : moment) : Prop := registers_as cg n hash m.1.
Definition registration_at (cg : string) (m : moment) : bool := registration_in cg m.1.

(** A moment of a call that has only one, one at which a call reads, or one at
    which it does a part of what it announces. *)
Definition whole (m : moment) R R1 : Prop :=
  m.2 = 0%nat /\ answers m.1 R R1 /\
  (forall cg n, removes cg n m.1 -> removal_phase m.1 = 0%nat) /\
  (forall cg x, roster_write cg m.1 = Some x -> write_phase m.1 = 0%nat).
Definition partial (e : event) : Prop :=
  (forall cg n h, ~ registers_as cg n h e) /\ (forall cg, registration_in cg e = false) /\ swept e.1 e.2 = None.
Definition part (m : moment) R R1 : Prop :=
  (R1 ≡ R /\ (forall cg n, ~ removes_at cg n m) /\ (forall cg, write_at cg m = None)) \/
  (exists cg, R1 ≡ expel_all cg R /\ (forall cg' n, removes_at cg' n m <-> cg' = cg) /\
     (forall cg, write_at cg m = None)) \/
  (exists cg n, R1 ≡ expel cg n R /\ (forall cg' n', removes_at cg' n' m <-> cg' = cg /\ n' = n) /\
     (forall cg, write_at cg m = None)) \/
  (exists cg, R1 ≡ close_group cg R /\ (forall cg n, ~ removes_at cg n m) /\ (forall cg, write_at cg m = None)) \/
  (exists cg, R1 ≡ (if r_live R cg then set_roster cg "" 0 R else R) /\ (forall cg n, ~ removes_at cg n m) /\
     forall cg', write_at cg' m = if decide (cg' = cg) then Some ("", 0) else None).

Lemma in_group_cases raw (f : string -> Registry -> Registry) R1 R : R1 ≡ in_group raw f R ->
  (exists cg, uuid_Parse raw = Some cg /\ R1 ≡ f cg R) \/ (uuid_Parse raw = None /\ R1 ≡ R).
Proof. unfold in_group. destruct (uuid_Parse raw) as [cg|]; [left; by exists cg|by right]. Qed.
Lemma at_moment_cases m R R1 : at_moment m R R1 -> whole m R R1 \/ (partial m.1 /\ part m R R1).
Proof.
  destruct m as [[c a] k]. unfold at_moment. cbn [fst snd].
  assert (phases c a = [fun R R' => explained R c a /\ observes c a R R'] ->
    (forall cg n, removes cg n (c, a) -> removal_phase (c, a) = 0%nat) ->
    (forall cg x, roster_write cg (c, a) = Some x -> write_phase (c, a) = 0%nat) ->
    match phases c a !! k with Some P => P R R1 | None => False end ->
    whole ((c, a), k) R R1) as Hone.
  { intros -> Hr Hw. destruct k as [|k]; cbn; [|by destruct k]. by split. }
  destruct c as [b r|online header r]; [|destruct r]; destruct a as [[p|err]|[p|err]];
    try (intros Hm; left; apply Hone; [done| | |exact Hm]; by destruct r || done).
  - destruct p; try (intros Hm; left; apply Hone; done). intros Hm. right. split; [split_and!; [by intros ??? []|done..]|]. left.
    assert (R1 ≡ R) as HR by (destruct k as [|[|k]]; [by destruct Hm..|done]).
    split_and!; [done|by intros ?? [??]|]. intros cg. unfold write_at. by case_decide.
  - intros Hm. right. split; [split_and!; [by intros ??? []|done..]|].
    assert (forall cg, write_at cg (Admin online header (DeleteConnectivityGroup id), ToAdmin (Ok p), k) = None) as Hw
      by (intros cg; unfold write_at; by case_decide).
    destruct k as [|[|k]]; [| |done]; apply in_group_cases in Hm as [(cg & Hid & HR)|[Hid HR]].
    + right. left. exists cg. split_and!; [done| |done]. intros cg' n. unfold removes_at. cbn. naive_solver.
    + left. split_and!; [done| |done]. intros cg n [Hr _]. cbn in Hr. congruence.
    + do 3 right. left. exists cg. split_and!; [done| |done]. by intros ?? [_ ?].
    + left. split_and!; [done| |done]. by intros ?? [_ ?].
  - intros Hm. right. split; [split_and!; [by intros ??? []|done..]|]. destruct k as [|[|[|k]]]; [destruct Hm as [_ HR]| | |done].
    + left. split_and!; [done|by intros ?? [_ ?]|done].
    + apply in_group_cases in Hm as [(cg & Hid & HR)|[Hid HR]].
      * right. left. exists cg. split_and!; [done| |done]. intros cg' n. unfold removes_at. cbn. naive_solver.
      * left. split_and!; [done| |done]. intros cg n [Hr _]. cbn in Hr. congruence.
    + apply in_group_cases in Hm as [(cg & Hid & HR)|[Hid HR]].
      * do 4 right. exists cg. split_and!; [done|by intros ?? [_ ?]|].
        intros cg'. unfold write_at. cbn. rewrite Hid. repeat case_decide; congruence.
      * left. split_and!; [done|by intros ?? [_ ?]|]. intros cg. unfold write_at. cbn. by rewrite Hid.
  - intros Hm. right. split; [split_and!; [by intros ??? []|done..]|].
    assert (forall cg, write_at cg (Admin online header (DeleteNode id nodeNumber), ToAdmin (Ok p), k) = None) as Hw
      by (intros cg; unfold write_at; by case_decide).
    destruct k as [|[|k]]; [| |done].
    + left. destruct Hm as [_ HR]. split_and!; [done|by intros ?? [_ ?]|done].
    + destruct Hm as (cg & nn & Hid & Hn & _ & HR). do 2 right. left. exists cg, nn.
      split_and!; [done| |done]. intros cg' n'. unfold removes_at. cbn. naive_solver.
Qed.
End announced.

(** ** What moments do to one member, one number, one roster *)
Section moments_do.
Context `{Platform} `{Crypto} `{JwtLib} `{!KeyLib} `{RosterPb}.
Implicit Types (R : Registry) (m : moment).

Lemma whole_removes m R R1 cg n : whole m R R1 -> removes cg n m.1 <-> removes_at cg n m.
Proof. intros (Hk & _ & Hr & _). unfold removes_at. rewrite Hk. split; [|tauto]. intros Hm. by rewrite (Hr cg n Hm). Qed.
Lemma whole_writes m R R1 cg : whole m R R1 -> write_at cg m = roster_write cg m.1.
Proof.
  intros (Hk & _ & _ & Hw). unfold write_at. rewrite Hk.
  destruct (roster_write cg m.1) as [x|] eqn:Hx; [by rewrite (Hw cg x Hx)|by case_decide].
Qed.
(** The six ways in which a part of a call moves the registry. *)
Ltac part_cases H := destruct H as [(HR & Hrem & Hwr)|[(cg0 & HR & Hrem & Hwr)|
  [(cg0 & n0 & HR & Hrem & Hwr)|[(cg0 & HR & Hrem & Hwr)|(cg0 & HR & Hrem & Hwr)]]]].

Lemma part_member m R R1 cg n : part m R R1 ->
  (removes_at cg n m /\ r_member R1 cg n = None) \/ (~ removes_at cg n m /\ r_member R1 cg n = r_member R cg n).
Proof.
  intros Hp. part_cases Hp; destruct HR as (_ & _ & _ & ->); rewrite ?Hrem.
  - by right.
  - rewrite expel_all_member. case_decide; [by left|by right].
  - rewrite expel_member. case_decide; [by left|by right].
  - by right.
  - right. split; [done|]. by destruct (r_live R cg0).
Qed.
Lemma moment_member m R R1 cg n h :
  at_moment m R R1 -> r_member R1 cg n = Some h ->
  registers_at cg n h m \/ (r_member R cg n = Some h /\ ~ removes_at cg n m).
Proof.
  intros [Hw|[_ Hp]]%at_moment_cases Hm.
  - rewrite <-(whole_removes _ _ _ _ _ Hw). destruct Hw as (_ & [_ Ho] & _).
    destruct m as [[c a] k]. by apply (observes_member c a R R1).
  - right. destruct (part_member _ _ _ cg n Hp) as [[_ ?]|[? Heq]]; [congruence|]. by rewrite <-Heq.
Qed.
Lemma moment_kept m R R1 cg n h :
  at_moment m R R1 -> r_member R cg n = Some h -> ~ may_remove_at cg n m -> r_member R1 cg n = Some h.
Proof.
  intros [Hw|[_ Hp]]%at_moment_cases Hm Hno.
  - assert (~ may_remove cg n m.1) as Hno'.
    { intros [Hr|Hs]; apply Hno; [left; by apply (whole_removes _ _ _ _ _ Hw)|by right]. }
    destruct Hw as (_ & [Ha Ho] & _). destruct m as [[c a] k]. by apply (observes_member_kept c a R R1).
  - destruct (part_member _ _ _ cg n Hp) as [[? _]|[_ ->]]; [|done]. destruct Hno. by left.
Qed.
Lemma moment_registers m R R1 cg n h :
  at_moment m R R1 -> registers_at cg n h m -> r_member R1 cg n = Some h.
Proof.
  intros [(_ & [_ Ho] & _)|[[Hno _] _]]%at_moment_cases Hr; [|by edestruct Hno].
  destruct m as [[c a] k]. by apply (observes_registers c a R R1).
Qed.
Lemma moment_next m R R1 cg :
  at_moment m R R1 -> r_next R1 cg = r_next R cg + (if registration_at cg m then 1 else 0).
Proof.
  intros [(_ & [Ha Ho] & _)|[(_ & Hno & _) Hp]]%at_moment_cases.
  - destruct m as [[c a] k]. by apply (observes_next c a R R1).
  - unfold registration_at. rewrite Hno, Z.add_0_r.
    part_cases Hp; destruct HR as (_ & _ & -> & _); try done. by destruct (r_live R cg0).
Qed.

(** A roster is the one written last, save that a reset that finds its group
    deleted writes none; a deleted group that has a roster stays deleted. *)
Lemma answers_reopen e R R1 cg :
  answers e R R1 -> r_live R cg = false -> r_live R1 cg = true -> r_roster R cg = ("", 0).
Proof.
  destruct e as [c a]. intros [Ha Ho] Hdead Hlive. cbn in Ha, Ho.
  assert (forall raw f, (forall cg' R, r_live (f cg' R) cg = true -> r_live R cg = true) ->
    r_live (in_group raw f R) cg = true -> r_live R cg = true) as Hin.
  { intros raw f Hf. unfold in_group. destruct (uuid_Parse raw); [apply Hf|done]. }
  assert (r_live (effect c a R) cg = true) as Heff.
  { destruct Ho as [(Hl & _)|(cg' & Hs & (Hl & _))]; [by rewrite <-Hl|].
    rewrite effect_swept by done. by rewrite Hl in Hlive. }
  destruct c as [b r|online header r], a as [[p|e]|[p|e]]; cbn in Heff; try congruence.
  - destruct r; cbn in Heff; try congruence; [by destruct p; cbn in Heff; congruence|..];
      apply Hin in Heff; try congruence; by intros.
  - destruct r; cbn in Heff; try congruence.
    + destruct p; cbn in Heff; try congruence. revert Heff. unfold insert, fn_insert.
      case_decide; [intros _|congruence]. subst. by destruct Ha as (_ & ? & _).
    + apply Hin in Heff; [congruence|]. intros cg' R2. cbn. unfold insert, fn_insert. by case_decide.
    + apply Hin in Heff; [congruence|]. by intros.
    + destruct (ParseInt _ _); [|congruence]. apply Hin in Heff; [congruence|]. by intros.
Qed.
Lemma answers_writes_live e R R1 cg x :
  answers e R R1 -> roster_write cg e = Some x -> r_live R cg = true.
Proof.
  destruct e as [[b []|online header []] [[p|e]|[p|e]]]; intros [Ha _] Hw; try done; cbn in Hw, Ha;
    case_decide; try done; destruct Ha as (cg' & Hu & Ha); assert (cg' = cg) as -> by congruence; tauto.
Qed.
Definition roster_known (cg : string) (ms : list moment) R : Prop :=
  r_roster R cg = latest ("", 0) (write_at cg) ms \/ (r_live R cg = false /\ r_roster R cg <> ("", 0)).
Lemma roster_known_snoc cg ms m R R1 :
  at_moment m R R1 -> roster_known cg ms R -> roster_known cg (ms ++ [m]) R1.
Proof.
  intros [Hw|[_ Hp]]%at_moment_cases Hk; unfold roster_known; rewrite latest_snoc.
  - rewrite (whole_writes _ _ _ cg Hw). destruct Hw as (_ & Hans & _).
    assert (r_roster R1 cg = default (r_roster R cg) (roster_write cg m.1)) as ->.
    { destruct m as [[c a] k], Hans. by apply observes_roster. }
    destruct Hk as [->|[Hdead Hne]]; [by left|].
    destruct (roster_write cg m.1) as [x|] eqn:Hx.
    { pose proof (answers_writes_live _ _ _ _ _ Hans Hx). congruence. }
    right. split; [|done]. destruct (r_live R1 cg) eqn:Hl; [|done].
    by pose proof (answers_reopen _ _ _ _ Hans Hdead Hl).
  - part_cases Hp; destruct HR as (Hl & Hr & _); rewrite Hr, Hl, Hwr; try done.
    + cbn. unfold insert, fn_insert. case_decide; [|done]. destruct Hk as [?|[_ ?]]; [by left|by right].
    + destruct (r_live R cg0) eqn:Hl0; cbn; unfold insert, fn_insert; repeat case_decide; try done; [by left|].
      subst. destruct (decide (r_roster R cg0 = ("", 0))) as [->|]; [by left|by right].
Qed.
End moments_do.

(** ** What the answers of interleaved calls say *)
Section truthful.
Context `{Platform} `{Crypto} `{JwtLib} `{!KeyLib} `{RosterPb}.
Implicit Types (ms : list moment) (m : moment).

(** Every answer, at its moment, agrees with the moments before it. *)
Record truthful (ms : list moment) : Prop := {
  (** who authenticates has registered, and was not removed since *)
  t_accepted pre b req p k post :
    ms = pre ++ ((Rpc b (RAuthenticateNode req), ToNode (Ok p)), k) :: post ->
    exists cg, uuid_Parse (an_ConnectivityGroupId req) = Some cg /\
      since (registers_at cg (an_NodeNumber req) (hashToken (an_AuthToken req)))
        (removes_at cg (an_NodeNumber req)) pre;
  (** who has registered, and cannot have been removed since, authenticates *)
  t_rejected pre b req e k post cg :
    ms = pre ++ ((Rpc b (RAuthenticateNode req), ToNode (Err e)), k) :: post ->
    uuid_Parse (an_ConnectivityGroupId req) = Some cg ->
    since (registers_at cg (an_NodeNumber req) (hashToken (an_AuthToken req)))
      (may_remove_at cg (an_NodeNumber req)) pre -> e = internalError;
  (** a removal is final *)
  t_final pre m mid b req a k post cg h m0 :
    ms = pre ++ m :: mid ++ ((Rpc b (RAuthenticateNode req), ToNode a), k) :: post ->
    m0 ∈ pre -> registers_at cg (an_NodeNumber req) h m0 -> removes_at cg (an_NodeNumber req) m ->
    uuid_Parse (an_ConnectivityGroupId req) = Some cg -> is_ok a = false;
  (** numbers are given out without gaps *)
  t_dense pre m post cg n h :
    ms = pre ++ m :: post -> registers_at cg n h m -> n = 1 + Z.of_nat (count (registration_at cg) pre);
  (** rosters are the ones stored last *)
  t_roster pre b raw x k post :
    ms = pre ++ ((Rpc b (RGetRoster raw), ToNode (Ok (PRoster x))), k) :: post ->
    exists cg, uuid_Parse raw = Some cg /\ latest ("", 0) (write_at cg) pre = (gr_Roster x, gr_Version x);
  (** and are updated under optimistic locking *)
  t_update pre b req p k post :
    ms = pre ++ ((Rpc b (RUpdateRoster req), ToNode (Ok p)), k) :: post ->
    exists cg, uuid_Parse (ur_ConnectivityGroupId req) = Some cg /\
      snd (latest ("", 0) (write_at cg) pre) = ur_ExpectedVersion req /\
      ur_ExpectedVersion req < ur_NewVersion req
}.

Lemma at_moment_rpc b r a k R R1 : at_moment ((Rpc b r, a), k) R R1 -> explained R (Rpc b r) a.
Proof. unfold at_moment. destruct a as [a|a]; cbn; (destruct k as [|[|k]]; [by intros [? _]|done..]). Qed.
Lemma registers_at_counted cg n h m : registers_at cg n h m -> registration_at cg m = true.
Proof. apply registers_counted. Qed.
Lemma registers_at_not_removes cg n h m : registers_at cg n h m -> ~ removes_at cg n m.
Proof. intros Hr [Hm _]. by eapply registers_not_removes. Qed.

Section past.
Context (R0 : Registry) (Hempty : R0 ≡ emptyRegistry) (ms : list moment) (R' : Registry) (Hms : happens R0 ms R').

(** The registry before a moment. *)
Lemma before pre m post : ms = pre ++ m :: post -> exists R R1, happens R0 pre R /\ at_moment m R R1.
Proof. intros ->. by eapply told_at. Qed.
Lemma before_rpc pre b r a k post :
  ms = pre ++ ((Rpc b r, a), k) :: post -> exists R, happens R0 pre R /\ explained R (Rpc b r) a.
Proof. intros (R & R1 & Hpre & Hm%at_moment_rpc)%before. eauto. Qed.
Lemma members pre R cg n h :
  happens R0 pre R -> r_member R cg n = Some h -> since (registers_at cg n h) (removes_at cg n) pre.
Proof.
  intros Hex. eapply (told_since _ (fun R => r_member R cg n = Some h)); [apply _| | |exact Hex].
  - destruct Hempty as (_ & _ & _ & Heq). by rewrite Heq.
  - intros m R1 R2. apply moment_member.
Qed.
Lemma numbers pre m post cg n h :
  ms = pre ++ m :: post -> registers_at cg n h m -> n = 1 + Z.of_nat (count (registration_at cg) pre).
Proof.
  intros (R & R1 & Hpre & Hm)%before Hr.
  assert (r_next R cg = r_next R0 cg + Z.of_nat (count (registration_at cg) pre)) as Hnext.
  { revert Hpre. apply (told_count at_moment (fun R => r_next R cg)); [apply _|].
    intros m' R2 R3. apply moment_next. }
  destruct Hempty as (_ & _ & Hone & _). rewrite Hone in Hnext. cbn in Hnext. rewrite <-Hnext.
  destruct m as [[[b []|] [[[]|]|]] k]; try done. destruct Hr as (<- & <- & _).
  apply at_moment_rpc in Hm. by destruct Hm as (_ & ? & _).
Qed.
Lemma number_once pre m mid m' post cg n h h' :
  ms = pre ++ m :: mid ++ m' :: post -> registers_at cg n h m -> ~ registers_at cg n h' m'.
Proof.
  intros Hm Hr Hr'. pose proof (numbers _ _ _ _ _ _ Hm Hr) as Hn.
  rewrite app_comm_cons, (assoc_L (++)) in Hm. pose proof (numbers _ _ _ _ _ _ Hm Hr') as Hn'.
  rewrite count_app in Hn'.
  pose proof (count_elem (registration_at cg) (m :: mid) m ltac:(left) (registers_at_counted _ _ _ _ Hr)). lia.
Qed.
Lemma rosters pre R cg : happens R0 pre R -> roster_known cg pre R.
Proof.
  intros Hex. revert pre R Hex. apply (told_ind_snoc _ (roster_known cg)).
  - intros pre R1 R2 (Hl & Hr & _). unfold roster_known. by rewrite Hl, Hr.
  - left. by destruct Hempty as (_ & -> & _).
  - intros pre R1 m R2 Hk Hm. by eapply roster_known_snoc.
Qed.
Lemma live_roster pre R cg :
  happens R0 pre R -> r_live R cg = true -> latest ("", 0) (write_at cg) pre = r_roster R cg.
Proof. intros Hex Hl. destruct (rosters _ _ cg Hex) as [?|[? _]]; congruence. Qed.

Lemma happens_truthful : truthful ms.
Proof.
  assert (forall pre b req p k post,
    ms = pre ++ ((Rpc b (RAuthenticateNode req), ToNode (Ok p)), k) :: post ->
    exists cg, uuid_Parse (an_ConnectivityGroupId req) = Some cg /\
      since (registers_at cg (an_NodeNumber req) (hashToken (an_AuthToken req)))
        (removes_at cg (an_NodeNumber req)) pre) as Hacc.
  { intros pre b req p k post (R & Hpre & cg & Hu & Hm)%before_rpc. exists cg. split; [done|]. by eapply members. }
  split.
  - exact Hacc.
  - intros pre b req e k post cg (R & Hpre & Hex)%before_rpc Hu Hen.
    destruct Hex as [[_ Hno]|[?|(cg' & Hu' & _ & Hno)]]; [congruence|done|]. assert (cg' = cg) as -> by congruence. destruct Hno.
    revert Hpre Hen. apply (told_holds at_moment (fun R => r_member R cg _ = Some _)); [apply _|..].
    + intros m R1 R2. apply moment_registers.
    + intros m R1 R2. apply moment_kept.
  - intros pre m mid b req a k post cg h m0 Heq Hin Hreg Hrem Hu. destruct a as [p|err]; [exfalso|done].
    pose proof Heq as Hat. rewrite app_comm_cons, (assoc_L (++)) in Hat.
    destruct (Hacc _ _ _ _ _ _ Hat) as (cg' & Hu' & Hen). assert (cg' = cg) as -> by congruence.
    revert Hen. eapply since_over; [|by apply registers_at_not_removes|done..].
    intros pre' z mid' z' post' Heq' Hz. eapply number_once; [|exact Hz].
    etrans; [exact Hat|]. unfold moment in *. rewrite Heq'. rewrite <-(assoc_L (++)). cbn. by rewrite <-(assoc_L (++)).
  - intros pre m post cg n h. apply numbers.
  - intros pre b raw x k post (R & Hpre & cg & Hu & Hl & Hr)%before_rpc. exists cg.
    by rewrite (live_roster _ _ cg Hpre Hl).
  - intros pre b req p k post (R & Hpre & cg & Hu & Hl & Hv & Hlt)%before_rpc. exists cg.
    by rewrite (live_roster _ _ cg Hpre Hl).
Qed.
End past.
End truthful.

(** * Properties *)
Section properties.
Context `{Platform} `{Crypto} `{JwtLib} `{!KeyLib} `{RosterPb}.

(** C12. The answers of interleaved calls are those of calls one after the other.
    In the life of a state, from the empty file on, over all openings, while
    others make calls between any two statements: there is one order of all
    moments, those of the calls served, which stay in the order they were made,
    and those of the others' calls, in which every answer is true of the moments
    before it. Who authenticates has registered and was not removed since, who
    registered and was not removed is let in unless the database fails, a
    removal is final, numbers are given out without gaps, a roster is the one
    stored last, and an update succeeds only against its version. *)
Theorem concurrent_history {Oth : Others} `{!Lawful Oth} made `{!Makes Oth made} ss t :
  exists ts ms, merges (snd (life (new_state t) ss) ≫= moments_of) ts ms /\
    Forall (fun m => made m.1) ts /\ truthful ms.
Proof.
  pose proof (life_happens made ss (new_state t) (wf_emptyDB _)) as Hlife.
  destruct (life (new_state t) ss) as [w tr]. destruct Hlife as (ts & ms & Hmerge & Hh & Hm).
  exists ts, ms. split_and!; [done..|]. by eapply happens_truthful; [apply abs_emptyDB|].
Qed.
End properties.
