(* ===== verification/HubMain.v ===== *)
(** * The hub program: connect/hub/hub.go, hub_flagdefs.go and servertime.go

    The run mode, the choice of the state's path and of the STUN server, the
    TURN secret, and the interceptors a unary call passes through. The servers'
    options are put together in ServerOptions.v, the servers and the life of
    the process in Program.v. *)
From S2P Require Import Prelude GoStrings GoTime GoPath Grpc Version Metrics.
Open Scope Z_scope.

(** ** Run mode *)

Inductive RunMode := StandaloneMode | Managed.
Definition RunMode_String (m : RunMode) : string :=
  match m with StandaloneMode => "standalone" | Managed => "managed" end.
Definition runModeError : string := "must be one of: standalone, managed".
Definition RunMode_Set (value : string) : result string RunMode :=
  if decide (value = "standalone") then Ok StandaloneMode
  else if decide (value = "managed") then Ok Managed
  else Err runModeError.

(** ** Flags and environment *)

Definition managedDefaultStunServer : string := "stun.wispers.dev:3478".

(** The STUN server the hub reports: managed mode has a default, standalone
    mode insists on the flag. *)
Definition stunServerFor (mode : RunMode) (stunAddr : string) : result string string :=
  match mode with
  | Managed => Ok (if decide (stunAddr = "") then managedDefaultStunServer else stunAddr)
  | StandaloneMode => if decide (stunAddr = "") then Err "Missing --stun-server" else Ok stunAddr
  end.

(** [readTurnSecretOrDie]; [None]: [log.Fatal]. *)
Definition readTurnSecret (turnAddr secret : string) : option string :=
  if decide (turnAddr <> "" /\ secret = "") then None else Some secret.

(** What [resolveDBPath] reads: an unset variable reads as the empty string. *)
Record environment := {
  STATE_DIRECTORY : string;
  XDG_STATE_HOME : string;
  UserHomeDir : result string string;
  (** [os.MkdirAll(dir, 0o700)]; [None]: it succeeds *)
  MkdirAll_fails : string -> option string
}.
Inductive pathError := errUserHomeDir (msg : string) | errCreateStateDirectory (msg : string).

Definition resolveDBPath (dbPath : string) (env : environment) : result pathError string :=
  if decide (dbPath <> "") then Ok dbPath
  else if decide (STATE_DIRECTORY env <> "") then
    let '(dir, _, _) := Cut (STATE_DIRECTORY env) ":"%char in
    Ok (Join [dir; "hub.db"])
  else
    stateHome ←
      (if bool_decide (XDG_STATE_HOME env = "") || negb (IsAbs (XDG_STATE_HOME env)) then
         match UserHomeDir env with
         | Err msg => Err (errUserHomeDir msg)
         | Ok home => Ok (Join [home; ".local"; "state"])
         end
       else Ok (XDG_STATE_HOME env));
    let dir := Join [stateHome; "wispers-connect"; "hub"] in
    match MkdirAll_fails env dir with
    | Some msg => Err (errCreateStateDirectory msg)
    | None => Ok (Join [dir; "hub.db"])
    end.

(** ** Interceptors *)

Definition serverTimeKey : string := "wispers-server-time-usec".

(** What a unary call leaves behind: the response's headers and trailers, and
    the server's counters. [flushed]: an inner handler has sent the headers. *)
Record CallState := {
  headers : list (string * string);
  trailers : list (string * string);
  flushed : bool;
  call_counters : Counters
}.
Definition set_counters (c : Counters) (s : CallState) : CallState :=
  {| headers := headers s; trailers := trailers s; flushed := flushed s; call_counters := c |}.
(** [grpc.SetHeader]: it fails once the headers are out. *)
Definition SetHeader (md : list (string * string)) (s : CallState) : CallState * bool :=
  if flushed s then (s, false)
  else ({| headers := headers s ++ md; trailers := trailers s; flushed := flushed s;
           call_counters := call_counters s |}, true).
Definition SetTrailer (md : list (string * string)) (s : CallState) : CallState :=
  {| headers := headers s; trailers := trailers s ++ md; flushed := flushed s;
     call_counters := call_counters s |}.

(** [measureAndStamp]; [elapsed] is the time since the call came in, in
    microseconds. *)
Definition measureAndStamp {R} (elapsed : Z) (handler : CallState -> CallState * R) (s : CallState) :
    CallState * R :=
  let '(s, r) := handler s in
  let md := [(serverTimeKey, FormatInt elapsed)] in
  let '(s, set) := SetHeader md s in
  ((if set then s else SetTrailer md s), r).

(** The version gate on a call's state: its header goes out first. *)
Definition rejectionStatus (statusOf : rejection -> status) {R} (r : result rejection (result status R)) :
    result status R :=
  match r with Ok r => r | Err e => Err (statusOf e) end.
Definition versionGate (statusOf : rejection -> status) {R} (floor : version) (ctx : option metadata)
    (handler : CallState -> CallState * result status R) (s : CallState) : CallState * result status R :=
  let s1 := fst (SetHeader [(hubVersionKey, Version)] s) in
  let '(_, s2, r) := versionInterceptor floor ctx handler s1 in
  (s2, rejectionStatus statusOf r).

(** [newHubGRPCServer]: server time outermost, then the metrics, then the gate. *)
Definition unaryChain (statusOf : rejection -> status) {R} (floor : version) (elapsed : Z)
    (fullMethod : string) (ctx : option metadata)
    (handler : CallState -> CallState * result status R) : CallState -> CallState * result status R :=
  measureAndStamp elapsed
    (recordUnaryMetrics call_counters set_counters fullMethod (versionGate statusOf floor ctx handler)).

(** * Properties *)

(** Run modes print and parse back; nothing else parses. *)
Theorem run_mode_roundtrip value :
  match RunMode_Set value with
  | Ok m => RunMode_String m = value
  | Err e => e = runModeError /\ forall m, RunMode_String m <> value
  end.
Proof.
  unfold RunMode_Set. destruct (decide (value = "standalone")) as [->|H1]; [done|].
  destruct (decide (value = "managed")) as [->|H2]; [done|].
  split; [done|]. intros []; cbn; congruence.
Qed.

(** The state database is where the documented priorities say: the flag
    as it is; else hub.db in the first directory of STATE_DIRECTORY; else under
    an absolute XDG_STATE_HOME; else under the home directory, whose failure is
    reported, as is that of creating the directory. *)
Theorem resolve_db_path_priorities dbPath env :
  (dbPath <> "" -> resolveDBPath dbPath env = Ok dbPath) /\
  (dbPath = "" -> forall dir rest, has_byte ":" dir = false ->
     STATE_DIRECTORY env <> "" -> (STATE_DIRECTORY env = dir \/ STATE_DIRECTORY env = dir +:+ String ":" rest) ->
     resolveDBPath dbPath env = Ok (Join [dir; "hub.db"])) /\
  (dbPath = "" -> STATE_DIRECTORY env = "" ->
     resolveDBPath dbPath env =
     match (if IsAbs (XDG_STATE_HOME env) then Ok (XDG_STATE_HOME env)
            else match UserHomeDir env with
                 | Ok home => Ok (Join [home; ".local"; "state"])
                 | Err msg => Err (errUserHomeDir msg)
                 end) with
     | Err e => Err e
     | Ok base =>
         match MkdirAll_fails env (Join [base; "wispers-connect"; "hub"]) with
         | Some msg => Err (errCreateStateDirectory msg)
         | None => Ok (Join [Join [base; "wispers-connect"; "hub"]; "hub.db"])
         end
     end).
Proof.
  unfold resolveDBPath. split_and!.
  - intros Hne. by rewrite decide_True.
  - intros -> dir rest Hdir Hsd Hor. rewrite decide_False by tauto. rewrite decide_True by done.
    destruct Hor as [Heq|Heq]; rewrite Heq; [by rewrite Cut_none|by rewrite Cut_app].
  - intros -> Hsd. rewrite decide_False by tauto. rewrite Hsd, decide_False by tauto.
    destruct (bool_decide_reflect (XDG_STATE_HOME env = "")) as [Hx|Hx].
    + rewrite Hx. cbn. by destruct (UserHomeDir env).
    + cbn [orb]. destruct (IsAbs (XDG_STATE_HOME env)); cbn; [done|]. by destruct (UserHomeDir env).
Qed.

(** C39. Every unary call, also one the version gate rejects, is counted as
    started and as handled under the code of its result, is stamped once with
    the server's time, in the headers unless they are already out and then in
    the trailers, and its result passes unchanged. *)
Theorem unary_chain_spec statusOf {R} floor elapsed method ctx
    (handler : CallState -> CallState * result status R) s :
  (forall s, call_counters (fst (handler s)) = call_counters s) ->
  let l := ("unary", fst (splitMethodName method), snd (splitMethodName method)) in
  let '(s', r) := unaryChain statusOf floor elapsed method ctx handler s in
  let '(s1, r1) := versionGate statusOf floor ctx handler
    (set_counters (inc_started l (call_counters s)) s) in
  r = r1 /\
  call_counters s' = inc_handled l (codeString (result_code r)) (inc_started l (call_counters s)) /\
  (if flushed s1
   then headers s' = headers s1 /\ trailers s' = trailers s1 ++ [(serverTimeKey, FormatInt elapsed)]
   else headers s' = headers s1 ++ [(serverTimeKey, FormatInt elapsed)] /\ trailers s' = trailers s1) /\
  (forall e, checkClientVersion floor ctx = Err e -> r = Err (statusOf e)).
Proof.
  intros Hh. unfold unaryChain, measureAndStamp, recordUnaryMetrics.
  destruct (splitMethodName method) as [service m]. cbn [fst snd]. unfold record.
  set (s0 := set_counters _ s).
  assert (call_counters (fst (versionGate statusOf floor ctx handler s0)) = call_counters s0) as Hc.
  { unfold versionGate, versionInterceptor. destruct (checkClientVersion floor ctx).
    - cbn -[SetHeader]. destruct (handler (fst (SetHeader _ s0))) as [s2 r2] eqn:Hr. cbn.
      pose proof (Hh (fst (SetHeader [(hubVersionKey, Version)] s0))) as Hx. rewrite Hr in Hx.
      cbn [fst] in Hx. rewrite Hx. unfold SetHeader. by destruct (flushed s0).
    - cbn. unfold SetHeader. by destruct (flushed s0). }
  assert (forall e, checkClientVersion floor ctx = Err e ->
    snd (versionGate statusOf floor ctx handler s0) = Err (statusOf e)) as Hrej.
  { intros e He. unfold versionGate, versionInterceptor. by rewrite He. }
  destruct (versionGate statusOf floor ctx handler s0) as [s1 r1]. cbn [fst snd] in Hc, Hrej.
  unfold SetHeader. cbn [set_counters flushed headers trailers call_counters].
  destruct (flushed s1); cbn; rewrite Hc; split_and!; try done.
Qed.

(** * Witnesses *)

Definition toy_call : CallState :=
  {| headers := []; trailers := []; flushed := false; call_counters := noCounters |}.
Definition too_old : status := Errorf FailedPrecondition versionRejectionPrefix.
(** A client of version 0.0.1 against a floor of 1.0.0. *)
Definition old_client : option metadata := Some {[ clientVersionKey := ["0.0.1"] ]}.
Definition toy_handler (s : CallState) : CallState * result status unit := (s, Ok tt).
Lemma unary_chain_spec_witness :
  snd (unaryChain (fun _ => too_old) (1, 0, 0) 250 "/s/m" old_client toy_handler toy_call) = Err too_old.
Proof.
  pose proof (unary_chain_spec (fun _ => too_old) (1, 0, 0) 250 "/s/m" old_client toy_handler toy_call
    (fun s => eq_refl)) as Hspec.
  cbn zeta in Hspec. destruct (unaryChain _ _ _ _ _ _ _) as [s' r].
  destruct (versionGate (fun _ => too_old) _ _ _ _) as [s1 r1].
  destruct Hspec as (_ & _ & _ & Hrej).
  apply (Hrej (incompatibleVersion (0, 0, 1) (1, 0, 0))). vm_compute. reflexivity.
Defined.
