(* ===== verification/ServerOptions.v ===== *)
(** * The interceptors of the hub's gRPC server

    [servertime.Interceptors], [hubsrv.MetricsInterceptors] and
    [hubsrv.VersionInterceptors] as the lists of server options they return,
    the chains that gRPC builds from the options of [newHubGRPCServer] (options
    of one kind are chained in order, the first outermost), and what a unary
    call and a stream meet in them. A stream's handler is a program that
    receives and sends messages over the stream it is given, which the metrics
    wrap in a [countingStream]. *)
From S2P Require Import Prelude GoStrings Grpc Version Metrics HubMain.
Open Scope Z_scope.

Section options.
Context {Reply W Msg : Type} (statusOf : rejection -> status).

(** ** Calls *)

Definition UnaryHandler : Type := CallState -> CallState * result status Reply.

(** A stream's state is the call's and the transport's, [W]. *)
Definition StreamState : Type := CallState * W.
Record ServerStream := {
  ss_RecvMsg : StreamState -> StreamState * result string Msg;
  ss_SendMsg : Msg -> StreamState -> StreamState * result string unit
}.
Record StreamServerInfo := { FullMethod : string; IsClientStream : bool; IsServerStream : bool }.
Definition StreamHandler : Type := ServerStream -> StreamState -> StreamState * result status unit.

(** [grpc.ServerOption], as far as the hub uses it. *)
Inductive ServerOption :=
| ChainUnaryInterceptor (i : string -> option metadata -> UnaryHandler -> UnaryHandler)
| ChainStreamInterceptor (i : StreamServerInfo -> option metadata -> StreamHandler -> StreamHandler).

(** ** The options of the three packages *)

Definition servertime_Interceptors (elapsed : Z) : list ServerOption :=
  [ChainUnaryInterceptor (fun _ _ => measureAndStamp elapsed)].

Definition stream_counters (s : StreamState) : Counters := call_counters s.1.
Definition set_stream_counters (c : Counters) (s : StreamState) : StreamState := (set_counters c s.1, s.2).

(** [countingStream{ss, received, sent}] *)
Definition countingStream (l : labels) (ss : ServerStream) : ServerStream :=
  {| ss_RecvMsg := fun s =>
       let '(s, r) := ss_RecvMsg ss s in
       (set_stream_counters (fst (RecvMsg l r (stream_counters s))) s, r);
     ss_SendMsg := fun m s =>
       let '(s, r) := ss_SendMsg ss m s in
       (set_stream_counters (fst (SendMsg l r (stream_counters s))) s, r) |}.
Definition stream_labels (info : StreamServerInfo) : labels :=
  (streamType (IsClientStream info) (IsServerStream info),
   fst (splitMethodName (FullMethod info)), snd (splitMethodName (FullMethod info))).
Definition MetricsInterceptors : list ServerOption :=
  [ChainUnaryInterceptor (fun fullMethod _ => recordUnaryMetrics call_counters set_counters fullMethod);
   ChainStreamInterceptor (fun info _ handler ss =>
     recordStreamMetrics stream_counters set_stream_counters (IsClientStream info) (IsServerStream info)
       (FullMethod info) (handler (countingStream (stream_labels info) ss)))].

(** The stream gate: [ss.SetHeader], then the check, then the handler. *)
Definition streamVersionGate (floor : version) (ctx : option metadata) (handler : StreamHandler) :
    StreamHandler := fun ss s =>
  let s1 := (fst (SetHeader [(hubVersionKey, Version)] s.1), s.2) in
  let '(_, s2, r) := versionInterceptor floor ctx (handler ss) s1 in
  (s2, rejectionStatus statusOf r).
Definition VersionInterceptors (floor : version) : list ServerOption :=
  [ChainUnaryInterceptor (fun _ ctx => versionGate statusOf floor ctx);
   ChainStreamInterceptor (fun _ ctx => streamVersionGate floor ctx)].

(** The options of [newHubGRPCServer]. *)
Definition hubServerOptions (floor : version) (elapsed : Z) : list ServerOption :=
  servertime_Interceptors elapsed ++ MetricsInterceptors ++ VersionInterceptors floor.

(** ** The chains of [grpc.NewServer]

    As gRPC documents them: the interceptors of a kind are chained in the
    order of the options, the first one outermost around the handler. *)

Definition unary_chain (opts : list ServerOption) (fullMethod : string) (ctx : option metadata)
    (handler : UnaryHandler) : UnaryHandler :=
  foldr (fun o h => match o with
                    | ChainUnaryInterceptor i => i fullMethod ctx h
                    | ChainStreamInterceptor _ => h
                    end) handler opts.
Definition stream_chain (opts : list ServerOption) (info : StreamServerInfo) (ctx : option metadata)
    (handler : StreamHandler) : StreamHandler :=
  foldr (fun o h => match o with
                    | ChainUnaryInterceptor _ => h
                    | ChainStreamInterceptor i => i info ctx h
                    end) handler opts.
(** A gRPC server. *)
Record GrpcServer := {
  serveUnary : list ServerOption -> string -> option metadata -> UnaryHandler -> UnaryHandler;
  serveStream : list ServerOption -> StreamServerInfo -> option metadata -> StreamHandler -> StreamHandler;
  serveUnary_chained : forall opts fullMethod ctx handler,
    serveUnary opts fullMethod ctx handler = unary_chain opts fullMethod ctx handler;
  serveStream_chained : forall opts info ctx handler,
    serveStream opts info ctx handler = stream_chain opts info ctx handler
}.

(** ** Stream handlers *)

(** What a handler does with its stream. *)
Inductive StreamProg :=
| Finish (r : result status unit)
| Receive (k : result string Msg -> StreamProg)
| Send (m : Msg) (k : result string unit -> StreamProg).
Fixpoint interpret (p : StreamProg) (ss : ServerStream) (s : StreamState) :
    StreamState * result status unit :=
  match p with
  | Finish r => (s, r)
  | Receive k => let '(s, r) := ss_RecvMsg ss s in interpret (k r) ss s
  | Send m k => let '(s, r) := ss_SendMsg ss m s in interpret (k r) ss s
  end.

(** A transport: it moves messages; the response's headers go out with the
    first message sent. *)
Record Transport := {
  recv : W -> W * result string Msg;
  send : Msg -> W -> W * result string unit
}.
Definition flush (c : CallState) : CallState :=
  {| headers := headers c; trailers := trailers c; flushed := true; call_counters := call_counters c |}.
Definition transportStream (t : Transport) : ServerStream :=
  {| ss_RecvMsg := fun s => let '(w, r) := recv t s.2 in ((s.1, w), r);
     ss_SendMsg := fun m s => let '(w, r) := send t m s.2 in ((flush s.1, w), r) |}.

(** The same handler on the bare transport, with the messages that crossed. *)
Record Traffic := { received : nat; sent : nat; attempted : bool }.
Definition no_traffic : Traffic := {| received := 0; sent := 0; attempted := false |}.
Fixpoint converse (t : Transport) (p : StreamProg) (w : W) (n : Traffic) :
    W * Traffic * result status unit :=
  match p with
  | Finish r => (w, n, r)
  | Receive k =>
      let '(w, r) := recv t w in
      converse t (k r) w {| received := (if is_ok r then 1 else 0) + received n; sent := sent n;
                            attempted := attempted n |}
  | Send m k =>
      let '(w, r) := send t m w in
      converse t (k r) w {| received := received n; sent := (if is_ok r then 1 else 0) + sent n;
                            attempted := true |}
  end.
(** The counters after [n] received and [m] sent messages. *)
Definition add_traffic (l : labels) (n : Traffic) (c : Counters) : Counters :=
  {| grpcStarted := grpcStarted c; grpcHandled := grpcHandled c;
     grpcMsgReceived := Nat.iter (received n) (Inc l) (grpcMsgReceived c);
     grpcMsgSent := Nat.iter (sent n) (Inc l) (grpcMsgSent c); grpcHandling := grpcHandling c |}.
Definition crossed (l : labels) (n : Traffic) (c : CallState) : CallState :=
  let c := if attempted n then flush c else c in set_counters (add_traffic l n (call_counters c)) c.

(** * Lemmas *)

Lemma interpret_counts t l p c w n0 :
  interpret p (countingStream l (transportStream t)) (crossed l n0 c, w) =
  let '(w', n, r) := converse t p w n0 in ((crossed l n c, w'), r).
Proof.
  revert w n0. induction p as [r|k IH|m k IH]; intros w n0; cbn [interpret converse].
  - done.
  - cbn [countingStream transportStream ss_RecvMsg fst snd]. destruct (recv t w) as [w1 r].
    rewrite <-IH. f_equal. unfold set_stream_counters, stream_counters, crossed, RecvMsg. cbn [fst snd].
    by destruct r, (attempted n0).
  - cbn [countingStream transportStream ss_SendMsg fst snd]. destruct (send t m w) as [w1 r].
    rewrite <-IH. f_equal. unfold set_stream_counters, stream_counters, crossed, SendMsg. cbn [fst snd].
    by destruct r, (attempted n0).
Qed.
Lemma recordStreamMetrics_labels info (h : StreamState -> StreamState * result status unit) s :
  recordStreamMetrics stream_counters set_stream_counters (IsClientStream info) (IsServerStream info)
    (FullMethod info) h s =
  record stream_counters set_stream_counters (stream_labels info) h s.
Proof. unfold recordStreamMetrics, stream_labels. by destruct (splitMethodName (FullMethod info)). Qed.
Lemma crossed_none l c : crossed l no_traffic c = c.
Proof. by destruct c as [? ? ? []]. Qed.

(** * Properties *)

(** The unary chain is the composition of HubMain.v. *)
Theorem unary_chain_built (server : GrpcServer) floor elapsed fullMethod ctx (handler : UnaryHandler) :
  serveUnary server (hubServerOptions floor elapsed) fullMethod ctx handler =
  unaryChain statusOf floor elapsed fullMethod ctx handler.
Proof. by rewrite serveUnary_chained. Qed.

(** C40. What a stream meets in the server's chain: it is counted as started
    and as handled under the code of its result, whether or not the version
    gate lets it in; the hub's version goes into its headers; a rejected stream
    moves no message; an accepted one runs its handler on the transport as if
    alone, and every message that crossed, and no other, is counted. *)
Theorem stream_chain_spec (server : GrpcServer) t floor elapsed info ctx p c w :
  let l := stream_labels info in
  let c0 := set_counters (inc_started l (call_counters c))
              (fst (SetHeader [(hubVersionKey, Version)] c)) in
  let handled (r : result status unit) (c : CallState) :=
    set_counters (inc_handled l (codeString (result_code r)) (call_counters c)) c in
  serveStream server (hubServerOptions floor elapsed) info ctx (interpret p) (transportStream t) (c, w) =
  match checkClientVersion floor ctx with
  | Err e => let r := Err (statusOf e) in ((handled r c0, w), r)
  | Ok _ =>
      let '(w', n, r) := converse t p w no_traffic in ((handled r (crossed l n c0), w'), r)
  end.
Proof.
  rewrite serveStream_chained. unfold stream_chain, hubServerOptions, servertime_Interceptors, MetricsInterceptors, VersionInterceptors.
  cbn [app foldr]. rewrite recordStreamMetrics_labels. fold (stream_labels info).
  set (l := stream_labels info).
  set (c0 := set_counters (inc_started l (call_counters c)) (fst (SetHeader [(hubVersionKey, Version)] c))).
  unfold record, streamVersionGate, versionInterceptor, set_stream_counters, stream_counters. cbn [fst snd].
  assert (fst (SetHeader [(hubVersionKey, Version)] (set_counters (inc_started l (call_counters c)) c)) = c0)
    as Hc0 by (unfold c0, SetHeader; by destruct c as [? ? [] ?]).
  rewrite Hc0.
  destruct (checkClientVersion floor ctx); [|done].
  rewrite <-(crossed_none l c0) at 1. rewrite interpret_counts.
  by destruct (converse t p w no_traffic) as [[w' n] r].
Qed.
End options.

(** * A run *)

(** A server as documented, a transport that gives the numbers left in it and
    takes every other message, and a handler that echoes until it hears 0. *)
Definition toy_server {Reply W Msg} : @GrpcServer Reply W Msg :=
  {| serveUnary := unary_chain; serveStream := stream_chain;
     serveUnary_chained := fun _ _ _ _ => eq_refl; serveStream_chained := fun _ _ _ _ => eq_refl |}.
Definition toy_transport : @Transport (list Z) Z :=
  {| recv := fun w => match w with [] => ([], Err "EOF") | m :: w => (w, Ok m) end;
     send := fun m w => (w, if Z.even m then Ok tt else Err "broken pipe") |}.
Fixpoint toy_echo (n : nat) : @StreamProg Z :=
  match n with
  | O => Finish (Ok tt)
  | S n => Receive (fun r => match r with
                             | Ok m => if m =? 0 then Finish (Ok tt) else Send m (fun _ => toy_echo n)
                             | Err _ => Finish (Err too_old)
                             end)
  end.
Definition toy_info : StreamServerInfo :=
  {| FullMethod := "/s/StartServing"; IsClientStream := true; IsServerStream := true |}.

Lemma stream_chain_spec_witness :
  let l := ("bidi_stream", "s", "StartServing") in
  let '(s', r) := serveStream (toy_server (Reply := unit)) (hubServerOptions (fun _ => too_old) (0, 0, 0) 9)
    toy_info None (interpret (toy_echo 5)) (transportStream toy_transport) (toy_call, [2; 3; 4; 0; 6]) in
  r = Ok tt /\ s'.2 = [6] /\ count (grpcMsgReceived (call_counters s'.1)) l = 4%nat /\
  count (grpcMsgSent (call_counters s'.1)) l = 2%nat.
Proof.
  intros l. rewrite (stream_chain_spec (fun _ => too_old) toy_server toy_transport (0, 0, 0) 9 toy_info None
    (toy_echo 5) toy_call [2; 3; 4; 0; 6]). vm_compute. by split_and!.
Defined.
