(* ===== verification/Program.v ===== *)
(** * The life of the hub process: main of connect/hub/hub.go

    [main], [runManaged], [runStandalone], [serveHub], [newHubGRPCServer] and
    the parts of standalone.go they call ([Open] with its clean-up, [Serve],
    [Close]) as computations that leave a trace of what they open, serve and
    close. The outcome of every library call (listening, dialling, serving) is
    an argument. A deferred call runs when its function returns, with or
    without an error, and does not run when the process dies in [log.Fatal] or
    while it waits for its servers. *)
From S2P Require Import Prelude GoStrings GoEncoding GoPath ApiKeys Attestation Store StoreInv.
From S2P Require Import Platform HubSrv HubMain Standalone.
Open Scope Z_scope.

(** ** Flags *)
Record Flags := {
  runMode : RunMode;
  grpcPort : Z;
  assignedShardFlag : Z;
  restPort : Z;
  metricsPort : Z;
  beAddr : string;
  dbPath : string;
  stunAddr : string;
  turnAddr : string
}.
Definition defaultFlags : Flags :=
  {| runMode := StandaloneMode; grpcPort := 50051; assignedShardFlag := 0; restPort := 2357;
     metricsPort := 0; beAddr := "be:50051"; dbPath := ""; stunAddr := ""; turnAddr := "" |}.

(** ** What the process does to its surroundings *)

Inductive resource :=
| MetricsListener (addr : string)
| HubListener (addr : string)
| BackendConn (addr : string)
| StateDB (path : string)
| BackendServer
| BackendClientConn
| RestServer (addr : string).
#[export] Instance resource_eq_dec : EqDecision resource.
Proof. solve_decision. Defined.
Inductive event :=
| Opened (r : resource)
| Closed (r : resource)
(** an HTTP or gRPC server starts on its listener *)
| ServingMetrics
| ServingBackend
| ServingREST (addr : string)
| ServingHub (hub : HubServer) (services : list string)
(** the log lines with the new API key and its file *)
| Announced (key file : string).

Inductive runError :=
| errMetricsListener (msg : string)
| errNewClient (msg : string)
| errListen (msg : string)
| errServe (msg : string)
| errREST (msg : string)
| errMissingStun
| errPath (e : pathError)
| errOpenDB (path msg : string)
| errOpen (e : openError).
(** The two [log.Fatal]s below [main]; the second is gRPC's. *)
Inductive death :=
| noTurnSecret
| duplicateService (name : string).
(** Why a computation stops early. *)
Inductive stop :=
| Failed (e : runError)
| Died (d : death)
| Waits.

Record Proc := { trace : list event; world : World }.
Notation Main := (ST Proc stop).

Definition emit (e : event) : Main unit := fun p =>
  ({| trace := trace p ++ [e]; world := world p |}, Ok tt).
Definition emits (es : list event) (p : Proc) : Proc := {| trace := trace p ++ es; world := world p |}.
(** A library call that gives an error or nil. *)
Definition check (call : option string) (wrap : string -> runError) : Main unit :=
  match call with
  | Some msg => throw (Failed (wrap msg))
  | None => mret ()
  end.
(** [defer] of the calls that close [rs], in this order. *)
Definition deferring {A} (rs : list resource) (m : Main A) : Main A := fun p =>
  let '(p', r) := m p in
  match r with
  | Ok _ | Err (Failed _) => (emits (Closed <$> rs) p', r)
  | Err (Died _) | Err Waits => (p', r)
  end.

(** The outcomes of the library calls. [None] of a call is nil; of a server,
    that it runs for good. *)
Record Outside := {
  paths : environment;
  WISPERS_TURN_SECRET : string;
  net_Listen : string -> option string;
  grpc_NewClient : string -> option string;
  sql_Open : string -> option string;
  (** [grpcServer.Serve(lis)] returns nil or an error, or does not return *)
  grpc_Serve : option (option string);
  (** [restSrv.ListenAndServe()]: it always returns an error *)
  http_ListenAndServe : option string
}.
Definition ErrServerClosed : string := "http: Server closed".

(** [RegisterService] of a gRPC server that serves the given names; on a name
    that is taken it may end the process. *)
Class Registrar := {
  RegisterService : string -> list string -> result death (list string);
  RegisterService_fresh : forall name services,
    name ∉ services -> RegisterService name services = Ok (services ++ [name]);
  RegisterService_adds : forall name services services',
    RegisterService name services = Ok services' -> services' = services ++ [name]
}.

Section program.
Context `{Platform} `{Crypto} `{KeyLib} `{Registrar}.
(** [hubpb.Hub_ServiceDesc.ServiceName] of the client's proto, and the names
    that the health and reflection packages register. *)
Context (hubServiceName healthServiceName : string) (reflectionServiceNames : list string).
Context (env : Outside) (flags : Flags).

(** ** Servers *)

Definition portAddr (port : Z) : string := ":" +:+ FormatInt port.

Fixpoint RegisterServices (names services : list string) : result death (list string) :=
  match names with
  | [] => Ok services
  | name :: names => services ← RegisterService name services; RegisterServices names services
  end.
Definition legacyName : string := "connect.hub.Hub".
Definition newHubGRPCServer : result death (list string) :=
  services ← RegisterService hubServiceName [];
  services ← RegisterService healthServiceName services;
  services ← (if negb (bool_decide (hubServiceName = legacyName))
              then RegisterService legacyName services else Ok services);
  RegisterServices reflectionServiceNames services.

Definition NewHubServer (stunServer turnServer turnSecret : string) (assignedShard : Z) : HubServer :=
  {| HubSrv.stunServer := stunServer; HubSrv.turnServer := turnServer;
     HubSrv.turnSecret := turnSecret; HubSrv.assignedShard := assignedShard |}.

Definition serveHub (hub : HubServer) : Main unit :=
  let addr := portAddr (grpcPort flags) in
  _ ← check (net_Listen env addr) errListen;
  _ ← emit (Opened (HubListener addr));
  deferring [HubListener addr] (
    match newHubGRPCServer with
    | Err d => throw (Died d)
    | Ok services =>
        _ ← emit (ServingHub hub services);
        match grpc_Serve env with
        | None => throw Waits
        | Some (Some msg) => throw (Failed (errServe msg))
        | Some None => mret ()
        end
    end).

Definition readTurnSecretOrDie : Main string :=
  match readTurnSecret (turnAddr flags) (WISPERS_TURN_SECRET env) with
  | None => throw (Died noTurnSecret)
  | Some secret => mret secret
  end.

Definition startMetricsServer : Main unit :=
  if metricsPort flags =? 0 then mret ()
  else
    let addr := portAddr (metricsPort flags) in
    _ ← check (net_Listen env addr) errMetricsListener;
    _ ← emit (Opened (MetricsListener addr));
    emit ServingMetrics.

(** ** Managed mode *)

Definition runManaged : Main unit :=
  _ ← check (grpc_NewClient env (beAddr flags)) errNewClient;
  _ ← emit (Opened (BackendConn (beAddr flags)));
  deferring [BackendConn (beAddr flags)] (
    let stunServer :=
      if decide (stunAddr flags = "") then managedDefaultStunServer else stunAddr flags in
    secret ← readTurnSecretOrDie;
    serveHub (NewHubServer stunServer (turnAddr flags) secret (assignedShardFlag flags))).

(** ** Standalone mode *)

(** [standalone.Open]: the handle is closed again when a later step fails. *)
Definition openState (path : string) : Main State := fun p =>
  match sql_Open env path with
  | Some msg => (p, Err (Failed (errOpenDB path msg)))
  | None =>
      let '(w, r) := Open path (world p) in
      let p := {| trace := trace p ++ [Opened (StateDB path)]; world := w |} in
      match r with
      | Err e => (emits [Closed (StateDB path)] p, Err (Failed (errOpen e)))
      | Ok st => (p, Ok st)
      end
  end.

(** [standalone.Serve]; its [stop] closes the client, then the server. *)
Definition Serve : Main (list resource) :=
  _ ← emit (Opened BackendServer);
  _ ← emit ServingBackend;
  match grpc_NewClient env "passthrough:///standalone" with
  | Some msg => _ ← emit (Closed BackendServer); throw (Failed (errNewClient msg))
  | None => _ ← emit (Opened BackendClientConn); mret [BackendClientConn; BackendServer]
  end.

(** The two goroutines and [<-errCh]. The schedule is [None] when the hub's
    goroutine sends first, or tells how many events that goroutine has got
    through when the error of the REST server is received. *)
Definition restError (addr : string) : option runError :=
  match http_ListenAndServe env with
  | Some msg => if decide (msg = ErrServerClosed) then None else Some (errREST msg)
  | None => None
  end.
Definition serveBoth (schedule : option nat) (restAddr : string) (hub : HubServer) : Main unit := fun p =>
  let p := emits [ServingREST restAddr] p in
  let '(hubRun, hubResult) := serveHub hub {| trace := []; world := world p |} in
  match schedule, restError restAddr, hubResult with
  | Some n, Some e, _ => (emits (take n (trace hubRun)) p, Err (Failed e))
  | None, Some e, Err Waits => (emits (trace hubRun) p, Err (Failed e))
  | _, _, r => (emits (trace hubRun) p, r)
  end.

Definition runStandalone (schedule : option nat) : Main unit :=
  if decide (stunAddr flags = "") then throw (Failed errMissingStun)
  else
    path ← (match resolveDBPath (dbPath flags) (paths env) with
            | Err e => throw (Failed (errPath e))
            | Ok path => mret path
            end);
    st ← openState path;
    deferring [StateDB path] (
      _ ← (if decide (BootstrapAPIKey st = "") then mret ()
           else emit (Announced (BootstrapAPIKey st) (BootstrapAPIKeyFile st)));
      stopServe ← Serve;
      deferring stopServe (
        secret ← readTurnSecretOrDie;
        let hub := NewHubServer (stunAddr flags) (turnAddr flags) secret 0 in
        let restAddr := portAddr (restPort flags) in
        _ ← emit (Opened (RestServer restAddr));
        deferring [RestServer restAddr] (serveBoth schedule restAddr hub))).

(** ** main *)

(** [main] has nothing to defer: an error that is returned to it ends the
    process, with status 1, after the deferred calls of the others. *)
Inductive exit :=
| Exited (e : option runError)
| Killed (d : death)
| Running.
Definition exit_of {A} (r : result stop A) : exit :=
  match r with
  | Ok _ => Exited None
  | Err (Failed e) => Exited (Some e)
  | Err (Died d) => Killed d
  | Err Waits => Running
  end.
Definition main (schedule : option nat) (w : World) : list event * exit :=
  let '(p, r) :=
    (_ ← startMetricsServer;
     match runMode flags with
     | Managed => runManaged
     | StandaloneMode => runStandalone schedule
     end) {| trace := []; world := w |} in
  (trace p, exit_of r).
End program.

(** * Lemmas *)

(** ** What is open

    The resources that are open after a trace, last opened first. [own] tells
    which resources are looked at. [None]: a resource is closed that is not the
    last one opened. *)
Section open_resources.
Context (own : resource -> bool).

Fixpoint open_after (es : list event) (held : list resource) : option (list resource) :=
  match es with
  | [] => Some held
  | Opened r :: es => open_after es (if own r then r :: held else held)
  | Closed r :: es =>
      if own r then
        match held with
        | r' :: held => if decide (r = r') then open_after es held else None
        | [] => None
        end
      else open_after es held
  | _ :: es => open_after es held
  end.

Lemma open_after_app es1 es2 held :
  open_after (es1 ++ es2) held = (h ← open_after es1 held; open_after es2 h).
Proof.
  revert held. induction es1 as [|e es1 IH]; intros held; cbn; [done|].
  destruct e; rewrite ?IH; try done. case_match; [|done].
  destruct held as [|r' held]; [done|]. case_decide; [|done]. apply IH.
Qed.

(** [m] leaves [rs a] open if it gives [a] and nothing if it fails; if the
    process dies or waits in it, it has closed nothing that was open before. *)
Definition leaves {A} (rs : A -> list resource) (m : Main A) : Prop :=
  forall p p' r, m p = (p', r) -> exists es, trace p' = trace p ++ es /\
  match r with
  | Ok a => forall held, open_after es held = Some (rs a ++ held)
  | Err (Failed _) => forall held, open_after es held = Some held
  | Err _ => exists more, forall held, open_after es held = Some (more ++ held)
  end.
Notation neat m := (leaves (fun _ => []) m).

Lemma leaves_ret {A} (a : A) : neat (mret a : Main A).
Proof. intros p p' r [= <- <-]. exists []. by rewrite app_nil_r. Qed.
Lemma leaves_throw {A} rs (s : stop) : leaves rs (throw s : Main A).
Proof.
  intros p p' r [= <- <-]. exists []. rewrite app_nil_r. split; [done|].
  destruct s; try done; by exists [].
Qed.
Lemma leaves_bind {A B} rs (m : Main A) (f : A -> Main B) :
  neat m -> (forall a, leaves rs (f a)) -> leaves rs (a ← m; f a).
Proof.
  intros Hm Hf p p' r Hr. destruct (ST_bind_cases _ _ _ _ _ Hr) as [(e & He & ->)|(p1 & a & Ha & Hfa)].
  - destruct (Hm _ _ _ He) as (es & Hes & Hh). by exists es.
  - destruct (Hm _ _ _ Ha) as (es1 & Hes1 & Hh1). destruct (Hf a _ _ _ Hfa) as (es2 & Hes2 & Hh2).
    exists (es1 ++ es2). rewrite Hes2, Hes1. split; [by rewrite app_assoc|].
    destruct r as [b|[e|d|]]; [| |destruct Hh2 as [more Hh2]; exists more..]; intros held;
      rewrite open_after_app, Hh1; apply Hh2.
Qed.
Lemma leaves_emit (e : event) : match e with Opened _ | Closed _ => False | _ => True end -> neat (emit e).
Proof. intros He p p' r [= <- <-]. exists [e]. split; [done|]. by destruct e. Qed.
Lemma leaves_open (r : resource) : leaves (fun _ => if own r then [r] else []) (emit (Opened r)).
Proof. intros p p' r' [= <- <-]. exists [Opened r]. split; [done|]. cbn. by destruct (own r). Qed.
Lemma leaves_check call wrap : neat (check call wrap).
Proof. destruct call; [apply leaves_throw|apply leaves_ret]. Qed.

(** What was opened is closed by the deferred calls. *)
Lemma leaves_deferring {A B} (rs closing : A -> list resource) (m : Main A) (f : A -> Main B) :
  leaves rs m ->
  (forall p p' a held, m p = (p', Ok a) -> open_after (Closed <$> closing a) (rs a ++ held) = Some held) ->
  (forall a, neat (f a)) -> neat (a ← m; deferring (closing a) (f a)).
Proof.
  intros Hm Hclose Hf p p' r Hr.
  destruct (ST_bind_cases _ _ _ _ _ Hr) as [(e & He & ->)|(p1 & a & Ha & Hfa)].
  - destruct (Hm _ _ _ He) as (es & Hes & Hh). by exists es.
  - destruct (Hm _ _ _ Ha) as (es1 & Hes1 & Hh1). unfold deferring in Hfa.
    destruct (f a p1) as [p2 r2] eqn:Hf2. destruct (Hf a _ _ _ Hf2) as (es2 & Hes2 & Hh2).
    destruct r2 as [b|[e|d|]].
    1-2: injection Hfa as <- <-; exists (es1 ++ es2 ++ (Closed <$> closing a)); cbn [emits trace];
      rewrite Hes2, Hes1, <-!app_assoc; (split; [done|]); intros held;
      rewrite open_after_app, Hh1; cbn [mbind option_bind]; rewrite open_after_app, Hh2;
      cbn [mbind option_bind app]; by eapply Hclose.
    all: injection Hfa as <- <-; exists (es1 ++ es2); rewrite Hes2, Hes1, <-app_assoc; (split; [done|]);
      destruct Hh2 as [more Hh2]; exists (more ++ rs a); intros held;
      rewrite open_after_app, Hh1; cbn; by rewrite Hh2, app_assoc.
Qed.
(** The usual case: one resource, opened and then held. *)
Lemma leaves_holding {B} (r : resource) (f : Main B) :
  neat f -> neat (_ ← emit (Opened r); deferring [r] f).
Proof.
  intros Hf. eapply (leaves_deferring _ (fun _ => [r])); [apply leaves_open| |done].
  intros ? ? ? held _. cbn. destruct (own r); [|done]. cbn. by rewrite decide_True.
Qed.
End open_resources.
#[export] Hint Resolve leaves_ret leaves_throw leaves_bind leaves_check leaves_emit : hub.

Section tidy.
Context `{Platform} `{Crypto} `{KeyLib} `{Registrar}.
Context (hubServiceName healthServiceName : string) (reflectionServiceNames : list string).
Context (env : Outside) (flags : Flags) (own : resource -> bool).
Notation neat m := (leaves own (fun _ => []) m).

Lemma neat_serveHub hub :
  neat (serveHub hubServiceName healthServiceName reflectionServiceNames env flags hub).
Proof.
  unfold serveHub. apply leaves_bind; [apply leaves_check|intros _]. apply leaves_holding.
  destruct (newHubGRPCServer _ _ _) as [services|d]; [|apply leaves_throw].
  apply leaves_bind; [by apply leaves_emit|intros _].
  destruct (grpc_Serve env) as [[msg|]|]; [apply leaves_throw|apply leaves_ret|apply leaves_throw].
Qed.
Lemma neat_secret : neat (readTurnSecretOrDie env flags).
Proof. unfold readTurnSecretOrDie. case_match; [apply leaves_ret|apply leaves_throw]. Qed.
(** The metrics listener, if there is one, stays open. *)
Definition metrics_listener : list resource :=
  if metricsPort flags =? 0 then [] else [MetricsListener (portAddr (metricsPort flags))].
Lemma leaves_metrics :
  Forall (fun r => own r = true) metrics_listener ->
  leaves own (fun _ => metrics_listener) (startMetricsServer env flags).
Proof.
  unfold metrics_listener, startMetricsServer. intros Hown.
  destruct (metricsPort flags =? 0); [apply leaves_ret|].
  apply leaves_bind; [apply leaves_check|intros _]. intros p p' r [= <- <-].
  exists [Opened (MetricsListener (portAddr (metricsPort flags))); ServingMetrics]. cbn [trace].
  rewrite <-app_assoc. split; [done|]. intros held. cbn [open_after]. by rewrite (Forall_inv Hown).
Qed.
Lemma neat_runManaged :
  neat (runManaged hubServiceName healthServiceName reflectionServiceNames env flags).
Proof.
  unfold runManaged. apply leaves_bind; [apply leaves_check|intros _]. apply leaves_holding.
  apply leaves_bind; [apply neat_secret|intros secret]. apply neat_serveHub.
Qed.

Section standalone.
Hypothesis own_hub : forall addr, own (HubListener addr) = false.
Hypothesis own_state : forall path, own (StateDB path) = true.
Hypothesis own_backend : own BackendServer = true /\ own BackendClientConn = true.

Lemma leaves_openState path : leaves own (fun _ => [StateDB path]) (openState env path).
Proof.
  intros p p' r. unfold openState. destruct (sql_Open env path) as [msg|].
  - intros [= <- <-]. exists []. by rewrite app_nil_r.
  - destruct (Open path (world p)) as [w [st|e]]; intros [= <- <-].
    + exists [Opened (StateDB path)]. split; [done|]. intros held. cbn. by rewrite own_state.
    + exists [Opened (StateDB path); Closed (StateDB path)]. cbn. rewrite <-app_assoc. split; [done|].
      intros held. rewrite own_state. by rewrite decide_True.
Qed.
Lemma leaves_Serve : leaves own (fun rs => rs) (Serve env).
Proof.
  destruct own_backend as [Ho1 Ho2].
  intros p p' r. unfold Serve. cbn. destruct (grpc_NewClient env _) as [msg|]; cbn; intros [= <- <-]; cbn.
  - exists [Opened BackendServer; ServingBackend; Closed BackendServer]. rewrite <-!app_assoc. split; [done|].
    intros held. cbn. by rewrite Ho1.
  - exists [Opened BackendServer; ServingBackend; Opened BackendClientConn]. rewrite <-!app_assoc. split; [done|].
    intros held. cbn. by rewrite Ho1, Ho2.
Qed.
(** The hub's goroutine opens and closes nothing that main's looks at. *)
Lemma hub_opens_other hub p p' r n held :
  serveHub hubServiceName healthServiceName reflectionServiceNames env flags hub {| trace := []; world := p |} = (p', r) ->
  open_after own (take n (trace p')) held = Some held.
Proof.
  intros Hr. assert (Forall (fun e => match e with Opened r | Closed r => own r = false | _ => True end) (trace p')) as Hall.
  { revert Hr. unfold serveHub, check, emit, deferring, mbind, ST_bind, mret, ST_ret, throw.
    repeat (case_match; cbn in *; simplify_eq); intros; simplify_eq; cbn; repeat constructor; rewrite ?own_hub; done. }
  apply (Forall_take _ n) in Hall. revert held. induction Hall as [|e es He _ IH]; intros held; cbn; [done|].
  destruct e; try apply IH; rewrite He; apply IH.
Qed.
Lemma neat_serveBoth schedule addr hub :
  neat (serveBoth hubServiceName healthServiceName reflectionServiceNames env flags schedule addr hub).
Proof.
  intros p p' r. unfold serveBoth.
  destruct (serveHub _ _ _ _ _ _ _) as [hubRun hubResult] eqn:Hhub.
  assert (forall n held, open_after own (take n (trace hubRun)) held = Some held) as Hother
    by (intros; by eapply hub_opens_other).
  assert (forall es, (exists n, es = take n (trace hubRun)) ->
    forall held, open_after own (ServingREST addr :: es) held = Some held) as Hes.
  { intros es [n ->] held. cbn. apply Hother. }
  assert (exists n, trace hubRun = take n (trace hubRun)) as Hall
    by (exists (length (trace hubRun)); by rewrite firstn_all).
  intros Hr.
  assert (exists es, (exists n, es = take n (trace hubRun)) /\ p' = emits (ServingREST addr :: es) p)
    as (es & Htake & ->).
  { unfold emits in *. cbn in *.
    destruct schedule, (restError env addr), hubResult as [|[]]; injection Hr as <- <-; rewrite <-app_assoc; eauto. }
  exists (ServingREST addr :: es). split; [done|]. pose proof (Hes es Htake) as Hes'.
  destruct r as [|[]]; [done|done|by exists []..].
Qed.
Lemma neat_runStandalone schedule :
  neat (runStandalone hubServiceName healthServiceName reflectionServiceNames env flags schedule).
Proof.
  unfold runStandalone. case_decide; [apply leaves_throw|].
  apply leaves_bind; [case_match; [apply leaves_ret|apply leaves_throw]|intros path].
  eapply (leaves_deferring own _ (fun _ => [StateDB path])); [apply leaves_openState| |intros st].
  { intros ? ? ? held _. cbn. by rewrite own_state, decide_True. }
  apply leaves_bind; [case_match; [apply leaves_ret|by apply leaves_emit]|intros _].
  eapply (leaves_deferring own _ (fun rs => rs)); [apply leaves_Serve| |intros rs].
  { intros p p' rs held. unfold Serve. cbn. destruct (grpc_NewClient env _); cbn; intros [= _ <-]. cbn.
    destruct own_backend as [-> ->]. by rewrite !decide_True. }
  apply leaves_bind; [apply neat_secret|intros secret]. apply leaves_holding. apply neat_serveBoth.
Qed.
End standalone.
End tidy.

(** ** The names that are served *)
Section services.
Context `{Registrar}.
Context (hubServiceName healthServiceName : string) (reflectionServiceNames : list string).

Lemma RegisterServices_adds names services services' :
  RegisterServices names services = Ok services' -> services' = services ++ names.
Proof.
  revert services. induction names as [|name names IH]; intros services; cbn [RegisterServices].
  - intros [= <-]. by rewrite app_nil_r.
  - intros (s1 & ->%RegisterService_adds & ->%IH)%result_bind_Ok. by rewrite <-app_assoc.
Qed.
Lemma RegisterServices_fresh names services :
  NoDup (services ++ names) -> RegisterServices names services = Ok (services ++ names).
Proof.
  revert services. induction names as [|name names IH]; intros services Hnd; cbn [RegisterServices].
  - by rewrite app_nil_r.
  - rewrite RegisterService_fresh.
    + cbn [mbind result_bind]. rewrite IH; by rewrite <-app_assoc.
    + apply NoDup_app in Hnd as (_ & Hn & _). intros Hin. apply (Hn name Hin). by left.
Qed.

(** The names in the order in which they are registered. *)
Definition serviceNames : list string :=
  hubServiceName :: healthServiceName ::
  (if bool_decide (hubServiceName = legacyName) then [] else [legacyName]) ++ reflectionServiceNames.
Lemma newHubGRPCServer_names :
  newHubGRPCServer hubServiceName healthServiceName reflectionServiceNames =
  RegisterServices serviceNames [].
Proof.
  unfold newHubGRPCServer, serviceNames. cbn [RegisterServices].
  destruct (RegisterService hubServiceName []) as [s1|]; [|done]. cbn [mbind result_bind].
  destruct (RegisterService healthServiceName s1) as [s2|]; [|done]. cbn [mbind result_bind].
  by destruct (bool_decide (hubServiceName = legacyName)).
Qed.
Lemma newHubGRPCServer_adds services :
  newHubGRPCServer hubServiceName healthServiceName reflectionServiceNames = Ok services ->
  services = serviceNames.
Proof. rewrite newHubGRPCServer_names. by intros ->%RegisterServices_adds. Qed.
Lemma newHubGRPCServer_fresh :
  NoDup serviceNames ->
  newHubGRPCServer hubServiceName healthServiceName reflectionServiceNames = Ok serviceNames.
Proof. rewrite newHubGRPCServer_names. apply (RegisterServices_fresh serviceNames []). Qed.
End services.

(** * Properties *)
Section properties.
Context `{Platform} `{Crypto} `{KeyLib} `{Registrar}.
Context (hubServiceName healthServiceName : string) (reflectionServiceNames : list string).
Context (env : Outside) (flags : Flags).
Notation hub_main := (main hubServiceName healthServiceName reflectionServiceNames env flags).

(** What the main goroutine opens: all but the listener of the hub's own
    goroutine in standalone mode. *)
Definition main_opens (mode : RunMode) (r : resource) : bool :=
  match r, mode with
  | HubListener _, StandaloneMode => false
  | _, _ => true
  end.

(** C33. However the process ends, the main goroutine closes only what it has
    open, the last opened first. When the process ends because the metrics
    listener could not be opened, nothing has been opened. When it ends because
    a run function returned, whatever library call failed and whichever server
    sent its error first, of all that the main goroutine opened (metrics
    listener, backend connection, database, in-memory backend and its client,
    REST server, and the hub's listener in managed mode) exactly the metrics
    listener, if there is a port for it, is still open: nobody closes that one.
    A process that dies or waits has kept it open, too. *)
Theorem main_releases schedule w :
  let '(es, e) := hub_main schedule w in
  let left es := open_after (main_opens (runMode flags)) es [] in
  let metrics := metrics_listener flags in
  match (if metricsPort flags =? 0 then None else net_Listen env (portAddr (metricsPort flags))) with
  | Some msg => es = [] /\ e = Exited (Some (errMetricsListener msg))
  | None =>
      match e with
      | Exited _ => left es = Some metrics
      | Killed _ | Running => exists held, left es = Some (held ++ metrics)
      end
  end.
Proof.
  unfold main. set (own := main_opens (runMode flags)).
  set (f := match runMode flags with Managed => _ | StandaloneMode => _ end).
  assert (leaves own (fun _ => []) f) as Hf.
  { subst own f. destruct (runMode flags); [by apply neat_runStandalone|apply neat_runManaged]. }
  assert (leaves own (fun _ => metrics_listener flags) (startMetricsServer env flags)) as Hm.
  { apply leaves_metrics. unfold metrics_listener. subst own.
    case_match; [done|]. apply Forall_singleton. by destruct (runMode flags). }
  destruct ((_ ← startMetricsServer env flags; f) _) as [p r] eqn:Hr.
  apply ST_bind_cases in Hr as [(e & He & ->)|(p1 & [] & Ha & Hb)].
  - revert He. unfold startMetricsServer. destruct (metricsPort flags =? 0); [done|]. unfold check.
    destruct (net_Listen env _) as [msg|]; [|done]. by intros [= <- <-].
  - assert ((if metricsPort flags =? 0 then None else net_Listen env (portAddr (metricsPort flags))) = None) as ->.
    { revert Ha. unfold startMetricsServer. destruct (metricsPort flags =? 0); [done|]. unfold check.
      by destruct (net_Listen env _). }
    destruct (Hm _ _ _ Ha) as (es1 & Hes1 & Hh1). destruct (Hf _ _ _ Hb) as (es2 & Hes2 & Hh2).
    cbn in Hes1. rewrite Hes2, Hes1.
    assert (open_after own (es1 ++ es2) [] = open_after own es2 (metrics_listener flags)) as Happ
      by (rewrite open_after_app, Hh1; cbn; by rewrite app_nil_r).
    destruct r as [[]|[e|d|]]; cbn [exit_of]; rewrite ?Happ;
      [apply Hh2|apply Hh2|destruct Hh2 as [more Hh2]; exists more; apply Hh2..].
Qed.

(** The hub's server registers its names without a clash, and serves the
    hub both under the name of the proto it is built with and under the name
    that older clients call, whether or not these two are the same. *)
Theorem both_names_served :
  NoDup (legacyName :: healthServiceName :: reflectionServiceNames) ->
  hubServiceName ∉ healthServiceName :: reflectionServiceNames ->
  exists services,
    newHubGRPCServer hubServiceName healthServiceName reflectionServiceNames = Ok services /\
    NoDup services /\
    forall name, name ∈ services <->
      name ∈ [hubServiceName; legacyName; healthServiceName] \/ name ∈ reflectionServiceNames.
Proof.
  intros [Hl [Hh Hr]%NoDup_cons]%NoDup_cons Hn.
  assert (NoDup (serviceNames hubServiceName healthServiceName reflectionServiceNames)) as Hnd.
  { unfold serviceNames. destruct (bool_decide_reflect (hubServiceName = legacyName)); cbn;
      rewrite !NoDup_cons; set_solver. }
  eexists. split; [by apply newHubGRPCServer_fresh|]. split; [done|]. intros name. unfold serviceNames.
  destruct (bool_decide_reflect (hubServiceName = legacyName)); set_solver.
Qed.

(** What a hub that is served was configured with: each field is a function of
    the flags and the environment. *)
Definition configured (hub : HubServer) : Prop :=
  match runMode flags with
  | Managed => assignedShard hub = assignedShardFlag flags /\
      stunServer hub = (if decide (stunAddr flags = "") then "stun.wispers.dev:3478" else stunAddr flags)
  | StandaloneMode => assignedShard hub = 0 /\ stunServer hub = stunAddr flags /\ stunAddr flags <> ""
  end /\
  turnServer hub = turnAddr flags /\ turnSecret hub = WISPERS_TURN_SECRET env /\
  (turnServer hub <> "" -> turnSecret hub <> "").
Definition configured_event (e : event) : Prop :=
  match e with
  | ServingHub hub services => configured hub /\
      newHubGRPCServer hubServiceName healthServiceName reflectionServiceNames = Ok services
  | _ => True
  end.
Notation all_configured := (fun p => Forall configured_event (trace p)).

Lemma configured_emit e : configured_event e -> keeps all_configured (emit e).
Proof. intros He p Hp. cbn. apply Forall_app. by repeat constructor. Qed.
Lemma configured_check call wrap : keeps all_configured (check call wrap).
Proof. destruct call; [apply keeps_throw|apply keeps_ret]. Qed.
Lemma configured_deferring {A} rs (m : Main A) :
  keeps all_configured m -> keeps all_configured (deferring rs m).
Proof.
  intros Hm p Hp. specialize (Hm p Hp). unfold deferring. destruct (m p) as [p' r].
  assert (Forall configured_event (Closed <$> rs)) as Hclosed by (apply Forall_fmap, Forall_true; done).
  destruct r as [|[]]; cbn in *; try done; by apply Forall_app.
Qed.
Lemma configured_serveHub hub :
  configured hub ->
  keeps all_configured (serveHub hubServiceName healthServiceName reflectionServiceNames env flags hub).
Proof.
  intros Hhub. unfold serveHub. apply keeps_bind; [apply configured_check|intros _].
  apply keeps_bind; [by apply configured_emit|intros _]. apply configured_deferring.
  destruct (newHubGRPCServer _ _ _) as [services|] eqn:Hs; [|apply keeps_throw].
  apply keeps_bind; [by apply configured_emit|intros _].
  destruct (grpc_Serve env) as [[]|]; [apply keeps_throw|apply keeps_ret|apply keeps_throw].
Qed.
(** The hub is made from the secret that was read. *)
Lemma configured_secret {A} (f : string -> Main A) :
  (forall secret, secret = WISPERS_TURN_SECRET env -> (turnAddr flags <> "" -> secret <> "") ->
     keeps all_configured (f secret)) ->
  keeps all_configured (secret ← readTurnSecretOrDie env flags; f secret).
Proof.
  intros Hf. unfold readTurnSecretOrDie, readTurnSecret. case_decide as Hd.
  - by intros p Hp.
  - intros p Hp. apply (Hf (WISPERS_TURN_SECRET env)); [done| |done]. tauto.
Qed.
Lemma configured_openState path : keeps all_configured (openState env path).
Proof.
  intros p Hp. unfold openState. destruct (sql_Open env path); [done|].
  destruct (Open path (world p)) as [w [st|e]]; cbn; rewrite ?Forall_app; repeat constructor; done.
Qed.
Lemma configured_Serve : keeps all_configured (Serve env).
Proof.
  unfold Serve. do 2 (apply keeps_bind; [by apply configured_emit|intros _]).
  destruct (grpc_NewClient env _);
    (apply keeps_bind; [by apply configured_emit|intros _; apply keeps_throw || apply keeps_ret]).
Qed.
Lemma configured_serveBoth schedule addr hub :
  configured hub ->
  keeps all_configured
    (serveBoth hubServiceName healthServiceName reflectionServiceNames env flags schedule addr hub).
Proof.
  intros Hhub p Hp. unfold serveBoth.
  pose proof (configured_serveHub hub Hhub {| trace := []; world := world p |} (Forall_nil_2 _)) as Hrun.
  destruct (serveHub _ _ _ _ _ _ _) as [hubRun hubResult]. cbn in Hrun.
  assert (forall es, Forall configured_event es ->
    Forall configured_event (trace (emits es (emits [ServingREST addr] p)))) as Hes.
  { intros es He. cbn. rewrite !Forall_app. by repeat constructor. }
  destruct schedule, (restError env addr), hubResult as [|[]]; cbn [fst]; apply Hes; try done;
    by apply Forall_take.
Qed.

(** C35. A hub is served only as the flags and the environment say: managed
    mode uses the hosted STUN server stun.wispers.dev:3478 when none is given
    and the given one otherwise, standalone mode serves the given one and never
    without one; a TURN server is announced only with the secret for
    its credentials; and a standalone hub has no shard, so it never sheds a
    stream. *)
Theorem hub_configuration schedule w :
  Forall (fun e =>
    match e with
    | ServingHub hub services =>
        configured hub /\ hubServiceName ∈ services /\ legacyName ∈ services /\
        (runMode flags = StandaloneMode -> forall minShed ctx cgID, sheds hub minShed ctx cgID = false)
    | _ => True
    end) (hub_main schedule w).1.
Proof.
  assert (Forall configured_event (hub_main schedule w).1) as Hall.
  { unfold main. set (m := (_ ← startMetricsServer env flags; _) : Main unit).
    assert (keeps all_configured m) as Hm; [|specialize (Hm {| trace := []; world := w |} (Forall_nil_2 _));
      by destruct (m _)].
    apply keeps_bind.
    { unfold startMetricsServer. case_match; [apply keeps_ret|].
      apply keeps_bind; [apply configured_check|intros _].
      apply keeps_bind; [by apply configured_emit|intros _; by apply configured_emit]. }
    intros _. destruct (runMode flags) eqn:Hmode.
    - unfold runStandalone. case_decide as Hstun; [apply keeps_throw|].
      apply keeps_bind; [case_match; [apply keeps_ret|apply keeps_throw]|intros path].
      apply keeps_bind; [apply configured_openState|intros st]. apply configured_deferring.
      apply keeps_bind; [case_match; [apply keeps_ret|by apply configured_emit]|intros _].
      apply keeps_bind; [apply configured_Serve|intros rs]. apply configured_deferring.
      apply configured_secret. intros secret -> Hsecret.
      apply keeps_bind; [by apply configured_emit|intros _]. apply configured_deferring, configured_serveBoth.
      unfold configured. rewrite Hmode. by cbn.
    - unfold runManaged. apply keeps_bind; [apply configured_check|intros _].
      apply keeps_bind; [by apply configured_emit|intros _]. apply configured_deferring.
      apply configured_secret. intros secret -> Hsecret. apply configured_serveHub.
      unfold configured. rewrite Hmode. cbn. by split_and!. }
  eapply Forall_impl; [exact Hall|]. intros [] He; try done.
  destruct He as [Hc ->%newHubGRPCServer_adds]. split; [done|]. unfold serviceNames.
  destruct Hc as (Hc & _). split; [set_solver|]. split.
  - destruct (bool_decide_reflect (hubServiceName = legacyName)); set_solver.
  - intros Hmode minShed ctx cgID. rewrite Hmode in Hc. destruct Hc as [Hc _].
    unfold sheds. by rewrite Hc.
Qed.

(** C34. A standalone hub that starts up serves the backend, the REST API and
    then the nodes, and waits; when a server fails, the process ends with that
    server's error, the first that is sent, after closing the REST server, the
    backend's client, the backend and the database, in this order. When it is
    the REST server that fails, nothing closes the hub's own listener: the
    deferred calls take the backend away from a hub that still serves. *)
Theorem standalone_run schedule w path w' st secret services :
  stunAddr flags <> "" -> resolveDBPath (dbPath flags) (paths env) = Ok path ->
  sql_Open env path = None -> Open path w = (w', Ok st) ->
  grpc_NewClient env "passthrough:///standalone" = None ->
  readTurnSecret (turnAddr flags) (WISPERS_TURN_SECRET env) = Some secret ->
  net_Listen env (portAddr (grpcPort flags)) = None ->
  newHubGRPCServer hubServiceName healthServiceName reflectionServiceNames = Ok services ->
  let hub := NewHubServer (stunAddr flags) (turnAddr flags) secret 0 in
  let rest := portAddr (restPort flags) in
  let listener := HubListener (portAddr (grpcPort flags)) in
  let starting :=
    Opened (StateDB path) ::
    (if decide (BootstrapAPIKey st = "") then []
     else [Announced (BootstrapAPIKey st) (BootstrapAPIKeyFile st)]) ++
    [Opened BackendServer; ServingBackend; Opened BackendClientConn; Opened (RestServer rest); ServingREST rest] in
  let serving := [Opened listener; ServingHub hub services] in
  let closing :=
    Closed <$> [RestServer rest; BackendClientConn; BackendServer; StateDB path] in
  let run := runStandalone hubServiceName healthServiceName reflectionServiceNames env flags schedule
    {| trace := []; world := w |} in
  (trace run.1, run.2) =
  match schedule, restError env rest, grpc_Serve env with
  | _, None, None => (starting ++ serving, Err Waits)
  | Some n, Some e, returned =>
      (starting ++ take n (serving ++ (match returned with Some _ => [Closed listener] | None => [] end))
        ++ closing, Err (Failed e))
  | None, Some e, None => (starting ++ serving ++ closing, Err (Failed e))
  | _, _, Some returned =>
      (starting ++ serving ++ [Closed listener] ++ closing,
       match returned with Some msg => Err (Failed (errServe msg)) | None => Ok tt end)
  end.
Proof.
  intros Hstun Hpath Hsql Hopen Hclient Hsecret Hlisten Hservices hub rest listener starting serving closing run.
  assert (forall p, serveHub hubServiceName healthServiceName reflectionServiceNames env flags hub p =
    match grpc_Serve env with
    | None => (emits serving p, Err Waits)
    | Some returned => (emits (serving ++ [Closed listener]) p,
        match returned with Some msg => Err (Failed (errServe msg)) | None => Ok tt end)
    end) as Hhub.
  { intros p. unfold serveHub, check, serving. rewrite Hlisten, Hservices.
    unfold deferring, emit, emits, throw, mbind, mret, ST_bind, ST_ret.
    destruct (grpc_Serve env) as [[msg|]|]; cbn; by rewrite <-?app_assoc. }
  unfold run, runStandalone. rewrite decide_False, Hpath by done.
  unfold openState, Serve, readTurnSecretOrDie, deferring, emit, emits, serveBoth.
  rewrite Hsecret, Hclient. unfold mbind, mret, ST_bind, ST_ret, throw. cbn. rewrite Hsql, Hopen. cbn.
  fold hub rest. subst starting serving closing.
  destruct (decide (BootstrapAPIKey st = "")); cbn; rewrite Hhub; destruct (restError env rest) as [re|];
    destruct schedule as [k|]; destruct (grpc_Serve env) as [[msg|]|]; cbn; by rewrite <-?app_assoc.
Qed.
End properties.
