(* ===== verification/Demo.v ===== *)
(** * A concrete hub for the witnesses

    A platform whose clock advances by a second per question, whose random
    bytes repeat the question's number and whose driver never fails, and a
    hub on it with one group and two registration tokens. *)
From S2P Require Import Prelude GoStrings GoEncoding GoTime ApiKeys IntegratorApi Grpc BePb.
From S2P Require Import Attestation RosterPb Store StoreInv Platform Backend BackendSteps.
From S2P Require Import BackendProps AdminApi AdminProps Standalone StandaloneProps.
Open Scope Z_scope.

Fixpoint fill (n : nat) (c : ascii) : string :=
  match n with
  | O => ""
  | S n => String c (fill n c)
  end.
Lemma length_fill n c : String.length (fill n c) = n.
Proof. induction n; cbn; congruence. Qed.
Definition toy_uuid (s : string) : option string :=
  if decide (s = "") then None else if decide (s = "G0") then Some "g0" else Some s.
Lemma toy_uuid_canonical s id : toy_uuid s = Some id -> toy_uuid id = Some id.
Proof.
  unfold toy_uuid. destruct (decide (s = "")); [done|].
  destruct (decide (s = "G0")); [by intros [= <-]|]. intros [= <-]. by rewrite !decide_False.
Qed.

#[export] Instance toy_platform : Platform := {
  now := fun t => time_Unix (1770000000 + Z.of_nat t);
  rand_Read := fun t n => Some (fill n (byte_of (Z.of_nat t)));
  rand_Read_length := fun t n s H =>
    match H with eq_refl => length_fill n (byte_of (Z.of_nat t)) end;
  uuid_Parse := toy_uuid;
  uuid_Parse_canonical := toy_uuid_canonical;
  uuid_NewString := fun t => "g" +:+ FormatInt (Z.of_nat t);
  uuid_NewString_canonical := fun t => eq_refl;
  driver_fails := fun _ => false;
  dbErrorText := fun _ => "database error";
  randErrorText := "no randomness";
  regLimiter_Allow := fun _ => true;
  Marshal_EventDetails := fun d => Some (error_message d)
}.
#[export] Instance toy_crypto_instance : Crypto := toy_crypto.
#[export] Instance toy_jwt : JwtLib := {
  PrivateKey := string;
  pem_Decode := fun s => Some s;
  ParsePKCS8PrivateKey := fun s => Ok (inl s);
  SignedString := fun key kid c => Ok (kid +:+ "." +:+ sub c +:+ "." +:+ FormatInt (node_number c))
}.
(** A roster is the list of its nodes; byte n of its encoding is a revoked
    node n, and node 1 revokes. *)
Fixpoint toy_roster (s : string) : list (Z * bool) :=
  match s with
  | "" => []
  | String c s => (byte_val c, true) :: toy_roster s
  end.
#[export] Instance toy_rosters : RosterPb := {
  Roster := string;
  emptyRoster := "";
  Marshal_Roster := Some;
  Unmarshal_Roster := Some;
  Unmarshal_Marshal := fun r s H => f_equal Some (match H with eq_refl => eq_refl end);
  GetNodes := toy_roster;
  GetVersion := fun s => slen s;
  GetAddenda := fun s => if decide (s = "") then []
    else [Revocation {| rp_Version := slen s; rp_RevokerNodeNumber := 1 |}];
  set_EndorserSignature := fun sig r => r
}.

(** A hub with a group and two tokens for it. *)
Definition toy_dto (codehalf : option string) : CreateRegistrationTokenRequest :=
  {| rt_NodeName := Some "node"; rt_NodeMetadata := None; rt_Codehalf := codehalf;
     rt_TTLProfile := None |}.
Definition toy_cg : string := "g0".
Definition toy_requests : list request :=
  [PostConnectivityGroup (Ok {| cg_Name := Some "home"; cg_AssociationKey := Some "key" |});
   PostRegistrationToken toy_cg (Ok (toy_dto None));
   PostRegistrationToken toy_cg (Ok (toy_dto (Some "0123456789abcdef")))].
Definition toy_serve (w : World) (r : request) : World := fst (route (fun _ => [1]) r w).
Definition toy_empty : World := {| db := emptyDB; tick := 0 |}.
Definition toy_hub : World := Eval vm_compute in foldl toy_serve toy_empty toy_requests.
(** The secrets of the two tokens. *)
Definition toy_secret1 : string := "04040404".
Definition toy_secret2 : string := "0123456789abcdef" +:+ "09090909".

Lemma toy_steps rs w : rtc (db_step canonical_id) (db w) (db (foldl toy_serve w rs)).
Proof.
  revert w. induction rs as [|r rs IH]; intros w; [apply rtc_refl|]. cbn. etrans; [|apply IH].
  apply route_steps.
Qed.
Lemma toy_wf : wf_db canonical_id (db toy_hub).
Proof.
  assert (toy_hub = foldl toy_serve toy_empty toy_requests) as -> by (vm_compute; reflexivity).
  eapply (steps_good _ emptyDB); [apply (toy_steps toy_requests toy_empty)|apply wf_emptyDB].
Qed.

Definition toy_backend : Backend := {| instanceID := "hub"; signer := Some (NewSigner "k" "kid" "iss") |}.
(** The hub after the first token was used, and the response. *)
Definition toy_registered : World := Eval vm_compute in fst (CompleteNodeRegistration toy_backend toy_secret1 toy_hub).
Definition toy_resp : CompleteNodeRegistrationResponse := Eval vm_compute in
  match snd (CompleteNodeRegistration toy_backend toy_secret1 toy_hub) with
  | Ok r => r
  | Err _ => {| cr_ConnectivityGroupId := ""; cr_NodeNumber := 0; cr_AuthToken := "";
                cr_AttestationJwt := "" |}
  end.
Lemma toy_registration :
  CompleteNodeRegistration toy_backend toy_secret1 toy_hub = (toy_registered, Ok toy_resp).
Proof. vm_compute. reflexivity. Qed.
Lemma toy_wf_registered : wf_db canonical_id (db toy_registered).
Proof. apply (registration_wf _ _ _ _ _ toy_registration toy_wf). Qed.
Definition toy_second : World * result status CompleteNodeRegistrationResponse := Eval vm_compute in
  CompleteNodeRegistration toy_backend toy_secret2 toy_registered.
Definition toy_resp2 : CompleteNodeRegistrationResponse := Eval vm_compute in
  match snd toy_second with Ok r => r | Err _ => toy_resp end.

(** * Witnesses: the backend *)

Lemma registration_creates_node_witness :
  exists row, nodes (db toy_registered) = <[(toy_cg, 1) := row]> (nodes (db toy_hub)) /\
    nd_name row = Some "node".
Proof.
  destruct (registration_creates_node _ _ _ _ _ toy_registration toy_wf)
    as (k & g & row & Hk & Hh & _ & _ & Hg & _ & _ & _ & _ & Hn & _ & Hname & _).
  exists row. split; [exact Hn|]. rewrite Hname.
  vm_compute in Hk. apply list_elem_of_In in Hk as [<-|[<-|[]]]; reflexivity.
Defined.

Lemma registration_failure_atomic_witness :
  db (fst (CompleteNodeRegistration toy_backend "wrong" toy_hub)) = db toy_hub.
Proof.
  apply (registration_failure_atomic toy_backend "wrong" toy_hub _
    (Errorf NotFound "invalid or expired token")).
  vm_compute. reflexivity.
Defined.

Lemma registered_node_authenticates_witness :
  snd (AuthenticateNode {| an_ConnectivityGroupId := toy_cg; an_NodeNumber := 1;
                           an_AuthToken := cr_AuthToken toy_resp |} toy_registered) = Ok ().
Proof.
  exact (registered_node_authenticates _ _ _ _ _ (db toy_registered) (tick toy_registered)
    (cr_AuthToken toy_resp) toy_registration toy_wf (rtc_refl _ _) eq_refl
    ltac:(eexists; vm_compute; reflexivity)).
Defined.

Lemma registration_single_use_witness :
  snd (CompleteNodeRegistration toy_backend toy_secret1 toy_registered) =
    Err (Errorf NotFound "invalid or expired token").
Proof.
  apply (registration_single_use _ toy_backend _ _ _ _ (db toy_registered) (tick toy_registered)
    toy_registration toy_wf (rtc_refl _ _)); [|reflexivity|reflexivity].
  intros k k' Hk Hk'. vm_compute in Hk, Hk'. apply list_elem_of_In in Hk, Hk'.
  destruct Hk as [<-|[<-|[]]], Hk' as [<-|[<-|[]]]; vm_compute; congruence.
Defined.

Lemma node_numbers_increase_witness :
  snd toy_second = Ok toy_resp2 /\ cr_NodeNumber toy_resp < cr_NodeNumber toy_resp2.
Proof.
  split; [vm_compute; reflexivity|].
  apply (node_numbers_increase toy_backend toy_backend toy_secret1 toy_secret2 toy_hub toy_registered
    toy_registered (fst toy_second) toy_resp toy_resp2 toy_registration toy_wf (rtc_refl _ _));
    vm_compute; reflexivity.
Defined.

Definition toy_deregistered : World := Eval vm_compute in fst (DeregisterNode toy_cg 1 toy_registered).
Lemma deregister_revokes_witness :
  snd (AuthenticateNode {| an_ConnectivityGroupId := toy_cg; an_NodeNumber := 1;
                           an_AuthToken := cr_AuthToken toy_resp |} toy_deregistered) <> Ok ().
Proof.
  apply (deregister_revokes toy_cg toy_cg 1 toy_registered
    toy_deregistered (db toy_deregistered) (tick toy_deregistered) toy_cg (cr_AuthToken toy_resp));
    [vm_compute; reflexivity|apply toy_wf_registered|reflexivity|eexists; vm_compute; reflexivity
    |apply rtc_refl|reflexivity].
Defined.

Definition toy_roster_request (roster : string) (newV : Z) : UpdateRosterRequest :=
  {| ur_ConnectivityGroupId := toy_cg; ur_Roster := roster; ur_NewVersion := newV;
     ur_ExpectedVersion := 0 |}.
Definition toy_rostered : World := Eval vm_compute in fst (UpdateRoster (toy_roster_request "r" 1) toy_registered).
Lemma update_roster_locking_witness :
  snd (UpdateRoster (toy_roster_request "r" 1) toy_registered) = Ok () /\
  UpdateRoster (toy_roster_request "r" 0) toy_registered =
    (toy_registered, Err (Errorf InvalidArgument "new_version must be greater than expected_version")).
Proof.
  split; [vm_compute; reflexivity|].
  apply (update_roster_locking (toy_roster_request "r" 0) toy_cg toy_registered); vm_compute; reflexivity.
Defined.
Lemma update_roster_one_winner_witness :
  snd (UpdateRoster (toy_roster_request "s" 2) toy_rostered) <> Ok ().
Proof.
  apply (update_roster_one_winner (toy_roster_request "r" 1) (toy_roster_request "s" 2) toy_cg
    toy_registered toy_rostered toy_rostered);
    [vm_compute; reflexivity..|intros g1 Hg1; exists g1; split; [exact Hg1|reflexivity]].
Defined.

Lemma list_nodes_spec_witness :
  exists l, snd (ListNodes toy_cg toy_registered) = Ok l /\ length l = 1%nat.
Proof.
  destruct (list_nodes_spec toy_cg toy_cg toy_registered) as (l & Hl & _);
    [vm_compute; reflexivity|reflexivity|apply toy_wf_registered|].
  exists l. split; [exact Hl|]. vm_compute in Hl. injection Hl as <-. reflexivity.
Defined.

(** * Witnesses: the admin API *)

Lemma database_monotone_witness :
  evolves (db toy_hub) (db (foldl run_call toy_hub [Rpc toy_backend (RCompleteNodeRegistration toy_secret1)])).
Proof.
  exact (database_monotone [Rpc toy_backend (RCompleteNodeRegistration toy_secret1)] toy_hub toy_wf).
Defined.

Lemma association_key_conflict_witness :
  snd (postConnectivityGroup (Ok {| cg_Name := None; cg_AssociationKey := Some "key" |}) toy_empty)
    = Ok {| gc_ID := "g0"; gc_CreatedAt := "2026-02-02T02:40:01Z"; gc_Name := None |} /\
  groups (db toy_empty) !! "g0" = None.
Proof.
  pose proof (association_key_conflict {| cg_Name := None; cg_AssociationKey := Some "key" |} toy_empty
    (fun _ => eq_refl) (fun _ => lookup_empty _)) as Hc.
  split; [vm_compute; reflexivity|]. vm_compute in Hc. destruct Hc as (_ & Hfree & _). reflexivity.
Defined.

Lemma minted_token_registers_witness :
  exists w' resp, CompleteNodeRegistration toy_backend
    (submission (toy_dto (Some "0123456789abcdef")) "09090909") toy_hub = (w', Ok resp) /\
  cr_ConnectivityGroupId resp = toy_cg /\ cr_NodeNumber resp = 1.
Proof.
  pose (w := foldl toy_serve toy_empty (take 2 toy_requests)).
  pose (g := default (Build_GroupRow None None 0 "" 0 0 None) (live_group toy_cg (db toy_hub))).
  apply (minted_token_registers toy_cg (toy_dto (Some "0123456789abcdef")) w toy_hub
    {| rc_Token := "09090909"; rc_ExpiresAt := "2026-02-02T02:45:09Z" |} (db toy_hub) (tick toy_hub)
    toy_backend toy_cg g);
    [vm_compute; reflexivity| |apply rtc_refl|reflexivity|vm_compute; reflexivity|vm_compute; reflexivity
    | |reflexivity|reflexivity|intros t'; eexists; reflexivity].
  - eapply (steps_good _ emptyDB); [apply (toy_steps (take 2 toy_requests) toy_empty)|apply wf_emptyDB].
  - intros k Hk. vm_compute in Hk. apply list_elem_of_In in Hk.
    destruct Hk as [<-|[<-|[]]]; [vm_compute; discriminate|]. intros _. vm_compute. auto.
Defined.

Lemma delete_group_spec_witness :
  live_group toy_cg (db (fst (deleteConnectivityGroup toy_cg toy_registered))) = None.
Proof.
  destruct (delete_group_spec toy_cg toy_registered (fst (deleteConnectivityGroup toy_cg toy_registered)))
    as (cg & Hcg & Hl & _); [vm_compute; reflexivity|]. vm_compute in Hcg. injection Hcg as <-. exact Hl.
Defined.
Lemma reset_group_spec_witness :
  live_node toy_cg 1 (db (fst (resetConnectivityGroup toy_cg toy_registered))) = None.
Proof.
  destruct (reset_group_spec toy_cg toy_registered (fst (resetConnectivityGroup toy_cg toy_registered)))
    as (cg & g & Hcg & _ & _ & Hl & _); [vm_compute; reflexivity|]. vm_compute in Hcg. injection Hcg as <-.
  apply Hl.
Defined.
Lemma group_detail_spec_witness :
  exists r, snd (getConnectivityGroup (fun _ => [1]) toy_cg toy_registered) = Ok r /\
    db (fst (getConnectivityGroup (fun _ => [1]) toy_cg toy_registered)) = db toy_registered /\
    length (gd_Nodes r) = 1%nat /\ nq_Current (gd_NodeQuota r) = 2.
Proof.
  destruct (getConnectivityGroup (fun _ => [1]) toy_cg toy_registered) as [w' [r|e]] eqn:Hr;
    [|vm_compute in Hr; discriminate].
  destruct (group_detail_spec _ _ _ _ _ Hr) as (cg & g & p & _ & _ & _ & _ & Hdb & _).
  exists r. split; [reflexivity|]. split; [exact Hdb|]. vm_compute in Hr. injection Hr as _ <-.
  split; reflexivity.
Defined.

Definition race_w1 : World := Eval vm_compute in fst (deleteGroup_nodes toy_cg 7 toy_hub).
Definition race_run : World * result status CompleteNodeRegistrationResponse := Eval vm_compute in
  CompleteNodeRegistration toy_backend toy_secret1 race_w1.
Definition race_resp : CompleteNodeRegistrationResponse := Eval vm_compute in
  match snd race_run with Ok r => r | Err _ => toy_resp end.
Definition race_w3 : World := Eval vm_compute in fst (deleteGroup_group toy_cg 7 (fst race_run)).
Lemma delete_group_race_witness :
  live_group toy_cg (db race_w3) = None /\
  snd (AuthenticateNode {| an_ConnectivityGroupId := toy_cg; an_NodeNumber := cr_NodeNumber race_resp;
                           an_AuthToken := cr_AuthToken race_resp |}
         {| db := db race_w3; tick := 0 |}) = Ok ().
Proof.
  apply (delete_group_race toy_cg 7 toy_hub race_w1 (fst race_run) race_w3 toy_backend toy_secret1
    race_resp 0 toy_wf); vm_compute; reflexivity.
Defined.

(** * Start-up *)
#[export] Instance toy_keys : KeyLib := {
  GenerateKeyPEM := fun _ => Ok "pem";
  GenerateKeyPEM_key := fun _ pem _ => ex_intro _ pem eq_refl;
  Public := fun key => key;
  WriteFile_fails := fun _ path _ =>
    if decide (path = "/full/initial-api-key") then Some "no space left on device" else None
}.
Definition toy_opened : World * result openError State := Eval vm_compute in
  Open "/srv/hub.db" toy_empty.
Definition toy_state : State := Eval vm_compute in
  match snd toy_opened with
  | Ok st => st
  | Err _ => {| InstanceID := ""; st_Signer := NewSigner "" "" ""; JWKS := "";
                BootstrapAPIKey := ""; BootstrapAPIKeyFile := "" |}
  end.
Definition toy_reopened : World * result openError State := Eval vm_compute in
  Open "/srv/hub.db" (fst toy_opened).
Definition toy_state2 : State := Eval vm_compute in
  match snd toy_reopened with Ok st => st | Err _ => toy_state end.

Lemma bootstrap_key_works_witness :
  BootstrapAPIKeyFile toy_state = "/srv/initial-api-key" /\
  is_ok (snd (checkAPIKey ("Bearer " +:+ BootstrapAPIKey toy_state) (fst toy_opened))) = true.
Proof.
  split; [reflexivity|].
  apply (bootstrap_key_works "/srv/hub.db" toy_empty (fst toy_opened) toy_state
    (db (fst toy_opened)) (tick (fst toy_opened)));
    [vm_compute; reflexivity|apply wf_emptyDB|vm_compute; discriminate|apply rtc_refl|reflexivity].
Defined.
Lemma reopen_same_witness :
  InstanceID toy_state2 = InstanceID toy_state /\ BootstrapAPIKey toy_state2 = "".
Proof.
  destruct (reopen_same "/srv/hub.db" "/srv/hub.db" toy_empty (fst toy_opened) toy_state
    (db (fst toy_opened)) (tick (fst toy_opened)) (fst toy_reopened) toy_state2) as (Hid & _ & _ & Hb);
    [vm_compute; reflexivity|apply wf_emptyDB|apply rtc_refl|vm_compute; reflexivity|].
  split; [exact Hid|exact Hb].
Defined.
Definition toy_unwritten : World * result openError State := Eval vm_compute in
  Open "/full/hub.db" toy_empty.
Lemma bootstrap_key_lost_witness :
  snd toy_unwritten = Err (errWriteFile "/full/initial-api-key" "no space left on device") /\
  match snd (Open "/srv/hub.db" (fst toy_unwritten)) with
  | Ok st => BootstrapAPIKey st = ""
  | Err _ => False
  end.
Proof.
  split; [vm_compute; reflexivity|].
  destruct (Open "/srv/hub.db" (fst toy_unwritten)) as [w2 [st2|e]] eqn:HO.
  - apply (bootstrap_key_lost "/full/hub.db" "/srv/hub.db" toy_empty (fst toy_unwritten)
      "/full/initial-api-key" "no space left on device" (db (fst toy_unwritten))
      (tick (fst toy_unwritten)) w2 st2);
      [vm_compute; reflexivity|apply wf_emptyDB|apply rtc_refl|exact HO].
  - exfalso. vm_compute in HO. discriminate HO.
Defined.
