(* ===== verification/ProgramDemo.v ===== *)
(** * A standalone process, run

    The process of Program.v on the toy platform of Demo.v: the hub serves
    until the REST server finds its port taken. Witnesses of the theorems of
    Program.v, and runs of main on other surroundings. *)
From S2P Require Import Prelude GoStrings Store Platform HubSrv HubMain Standalone Program Demo.
Open Scope Z_scope.

Definition toy_paths : environment :=
  {| STATE_DIRECTORY := "/srv:/var"; XDG_STATE_HOME := ""; UserHomeDir := Err "no home";
     MkdirAll_fails := fun _ => None |}.
Definition toy_outside : Outside :=
  {| paths := toy_paths; WISPERS_TURN_SECRET := ""; net_Listen := fun _ => None;
     grpc_NewClient := fun _ => None; sql_Open := fun _ => None; grpc_Serve := None;
     http_ListenAndServe := Some "bind: address already in use" |}.
Definition toy_flags : Flags :=
  {| runMode := StandaloneMode; grpcPort := 50051; assignedShardFlag := 2; restPort := 2357;
     metricsPort := 9090; beAddr := "be:50051"; dbPath := ""; stunAddr := "stun.example:3478"; turnAddr := "" |}.
Definition newName : string := "wispers.connect.hub.Hub".
Definition toy_health : string := "grpc.health.v1.Health".
Definition toy_reflection : list string :=
  ["grpc.reflection.v1.ServerReflection"; "grpc.reflection.v1alpha.ServerReflection"].
(** A server that dies of a duplicate name. *)
Definition toy_RegisterService (name : string) (services : list string) : result death (list string) :=
  if decide (name ∈ services) then Err (duplicateService name) else Ok (services ++ [name]).
Lemma toy_fresh name services :
  name ∉ services -> toy_RegisterService name services = Ok (services ++ [name]).
Proof. intros Hn. unfold toy_RegisterService. by rewrite decide_False. Qed.
Lemma toy_adds name services services' :
  toy_RegisterService name services = Ok services' -> services' = services ++ [name].
Proof. unfold toy_RegisterService. case_decide; [done|]. by intros [= <-]. Qed.
#[export] Instance toy_registrar : Registrar :=
  {| RegisterService := toy_RegisterService; RegisterService_fresh := toy_fresh;
     RegisterService_adds := toy_adds |}.
Definition toy_main (env : Outside) (flags : Flags) : list event * exit :=
  main newName toy_health toy_reflection env flags None toy_empty.

(** The REST server cannot listen: its error wins, and the hub's listener is
    the only resource that is left open. *)
Example rest_port_taken :
  (toy_main toy_outside toy_flags).2 = Exited (Some (errREST "bind: address already in use")) /\
  open_after (fun r => match r with MetricsListener _ => false | HubListener _ => false | _ => true end)
    (toy_main toy_outside toy_flags).1 [] = Some [] /\
  Opened (HubListener ":50051") ∈ (toy_main toy_outside toy_flags).1 /\
  Closed (HubListener ":50051") ∉ (toy_main toy_outside toy_flags).1.
Proof. vm_compute. split_and!; [done|done|set_solver|set_solver]. Qed.

(** A TURN server without its secret: the process dies with its database
    open, after it has shown the first API key. *)
Example turn_without_secret :
  let flags := {| runMode := StandaloneMode; grpcPort := 50051; assignedShardFlag := 0; restPort := 2357;
    metricsPort := 0; beAddr := ""; dbPath := "/srv/hub.db"; stunAddr := "s:1"; turnAddr := "t:1" |} in
  (toy_main toy_outside flags).2 = Killed noTurnSecret /\
  exists key, (toy_main toy_outside flags).1 =
    [Opened (StateDB "/srv/hub.db"); Announced key "/srv/initial-api-key";
     Opened BackendServer; ServingBackend; Opened BackendClientConn].
Proof. split; [vm_compute; reflexivity|]. eexists. vm_compute. reflexivity. Qed.

Lemma both_names_served_witness :
  exists services, newHubGRPCServer legacyName toy_health toy_reflection = Ok services /\
  legacyName ∈ services /\ length services = 4%nat.
Proof.
  destruct (both_names_served legacyName toy_health toy_reflection) as (services & Hs & _ & Hnames).
  - by apply (bool_decide_unpack _); vm_compute.
  - by apply (bool_decide_unpack _); vm_compute.
  - exists services. split; [exact Hs|]. split; [apply Hnames; left; set_solver|].
    vm_compute in Hs. by injection Hs as <-.
Defined.

Lemma standalone_run_witness :
  let run := runStandalone newName toy_health toy_reflection toy_outside toy_flags None
    {| trace := []; world := toy_empty |} in
  run.2 = Err (Failed (errREST "bind: address already in use")) /\
  exists before, trace run.1 = before ++
    [Closed (RestServer ":2357"); Closed BackendClientConn; Closed BackendServer; Closed (StateDB "/srv/hub.db")].
Proof.
  intros run.
  pose proof (standalone_run newName toy_health toy_reflection toy_outside toy_flags None toy_empty
    "/srv/hub.db" (fst toy_opened) toy_state "" (newName :: toy_health :: legacyName :: toy_reflection)
    ltac:(vm_compute; discriminate) ltac:(vm_compute; reflexivity) eq_refl ltac:(vm_compute; reflexivity)
    eq_refl ltac:(vm_compute; reflexivity) eq_refl ltac:(vm_compute; reflexivity)) as Hrun.
  split; [exact (f_equal snd Hrun)|].
  eexists [Opened (StateDB "/srv/hub.db"); Announced _ _; Opened BackendServer; ServingBackend;
    Opened BackendClientConn; Opened (RestServer ":2357"); ServingREST ":2357";
    Opened (HubListener ":50051"); ServingHub _ _].
  exact (f_equal fst Hrun).
Defined.
