(* ===== verification/AdminDemo.v ===== *)
(** * The admin API over HTTP, run

    A small path matcher in the place of gin, the small hub of Demo.v behind
    it, and the witness of [AdminRoutes.rest_dispatch]. *)
From S2P Require Import Prelude GoStrings GoEncoding ApiKeys IntegratorApi RosterPb Store.
From S2P Require Import StoreInv Platform AdminApi AdminProps AdminRoutes Replies Standalone Demo.
From S2P Require Import Backend BackendSteps BePb.
Open Scope Z_scope.

(** A pattern's segment ":x" takes any segment that is not empty. *)
Fixpoint match_segments (pattern path : list string) : option (list (string * string)) :=
  match pattern, path with
  | [], [] => Some []
  | p :: pattern, s :: path =>
      rest ← match_segments pattern path;
      match p with
      | String ":" name => if decide (s = "") then None else Some ((name, s) :: rest)
      | _ => if decide (p = s) then Some rest else None
      end
  | _, _ => None
  end.
Definition param_of (params : list (string * string)) (name : string) : string :=
  match list_find (fun p => p.1 = name) params with Some (_, p) => p.2 | None => "" end.
Fixpoint toy_find (table : list Route) (m : method) (path : string) : option (Route * (string -> string)) :=
  match table with
  | [] => None
  | r :: table =>
      match match_segments (Split (r_pattern r) "/") (Split path "/") with
      | Some params => if decide (r_method r = m) then Some (r, param_of params) else toy_find table m path
      | None => toy_find table m path
      end
  end.
Lemma toy_find_registered table m path r params :
  toy_find table m path = Some (r, params) -> r ∈ table /\ r_method r = m.
Proof.
  induction table as [|r0 table IH]; cbn; [done|].
  destruct (match_segments _ _); [case_decide|].
  - intros [= <- _]. split; [by left|done].
  - intros [? ?]%IH. split; [by right|done].
  - intros [? ?]%IH. split; [by right|done].
Qed.
(** A path without its trailing slash. *)
Fixpoint toy_chop (path : string) : option string :=
  match path with
  | "" => None
  | String "/" "" => Some ""
  | String c path => String c <$> toy_chop path
  end.
#[export] Instance toy_gin : Gin := {
  RouterGroup := string * list middleware;
  basePath := fst;
  uses := snd;
  New := ("", []);
  New_empty := conj eq_refl eq_refl;
  Group := fun path g => (g.1 +:+ path, g.2);
  Group_extends := fun path g => conj eq_refl eq_refl;
  Use := fun m g => (g.1, g.2 ++ [m]);
  Use_adds := fun m g => conj eq_refl eq_refl;
  find_route := toy_find;
  find_route_registered := toy_find_registered;
  redirect_slash := fun table m path => path' ← toy_chop path; _ ← toy_find table m path'; Some path';
  bind_group := fun _ => Err "EOF";
  bind_token := fun _ => Err "EOF";
  bind_patch := fun body => Ok {| pn_Name := Some body |}
}.

Definition toy_delete (authorization : string) : HTTPRequest :=
  {| hr_method := DELETE; hr_path := "/api/v1/connectivity-groups/g0"; hr_authorization := authorization;
     hr_associationKey := ""; hr_body := "" |}.
Definition toy_key : string := "Bearer " +:+ BootstrapAPIKey toy_state.
Definition toy_online : string -> list Z := fun _ => [].

(** With the first key of an opened state the request reaches its handler;
    the key set needs none. *)
Example delete_with_key :
  snd (ServeHTTP "{}" toy_online (toy_delete toy_key) (fst toy_opened)) = Ok (Answer GroupDeleted).
Proof. vm_compute. reflexivity. Qed.
Example key_set_is_public :
  snd (ServeHTTP "{}" toy_online {| hr_method := GET; hr_path := "/.well-known/jwks.json";
    hr_authorization := ""; hr_associationKey := ""; hr_body := "" |} (fst toy_opened)) = Ok (KeySet "{}").
Proof. vm_compute. reflexivity. Qed.

(** A trailing slash is redirected before a key is looked at. *)
Example slash_redirected :
  snd (ServeHTTP "{}" toy_online {| hr_method := GET; hr_path := "/api/v1/stats/";
    hr_authorization := ""; hr_associationKey := ""; hr_body := "" |} (fst toy_opened)) =
  Ok (Redirect 301 "/api/v1/stats").
Proof. vm_compute. reflexivity. Qed.

Lemma rest_dispatch_witness :
  let '(w', a) := ServeHTTP "{}" toy_online (toy_delete "Bearer nobody") toy_hub in
  db w' = db toy_hub /\ is_ok a = false.
Proof.
  pose proof (rest_dispatch "{}" toy_online (toy_delete "Bearer nobody") toy_hub) as Hd.
  destruct (ServeHTTP _ _ _ _) as [w' a].
  destruct (find_route NewRESTHandler (hr_method (toy_delete "Bearer nobody")) (hr_path (toy_delete "Bearer nobody")))
    as [[r params]|] eqn:Hfind; [|vm_compute in Hfind; discriminate].
  vm_compute in Hfind. injection Hfind as <- <-. destruct Hd as (_ & _ & Hd).
  cbn [request_of r_endpoint] in Hd. destruct (handle _ _ _ _) as [w1 response]. destruct Hd as (_ & _ & Hkey).
  apply Hkey. vm_compute. reflexivity.
Defined.

