(* ===== verification/RegistryDemo.v ===== *)
(** * The life of a small state, run

    A state on the platform of Demo.v is opened twice: a group is made, two
    nodes register, the first updates the roster, authenticates, deregisters and
    is turned away. Witnesses of the theorems of RegistryRefine.v, Lifetime.v
    and History.v. *)
From S2P Require Import Prelude GoStrings GoEncoding ApiKeys IntegratorApi Grpc RosterPb Store.
From S2P Require Import StoreInv Platform Backend BackendSteps BePb AdminApi AdminProps AdminRoutes Replies.
From S2P Require Import Standalone StandaloneProps Registry RegistryRefine Lifetime History.
From S2P Require Import Past Concurrent Demo AdminDemo.
Open Scope Z_scope.

Definition home : string := "g13".
Definition secret1 : string := hex_EncodeToString (fill 32 (byte_of 26)).
Definition auth1 : AuthenticateNodeRequest :=
  {| an_ConnectivityGroupId := home; an_NodeNumber := 1; an_AuthToken := secret1 |}.
Definition roster1 : UpdateRosterRequest :=
  {| ur_ConnectivityGroupId := home; ur_Roster := String (byte_of 1) ""; ur_NewVersion := 1;
     ur_ExpectedVersion := 0 |}.
Definition first_calls : list call :=
  [Admin toy_online toy_key (PostConnectivityGroup (Ok {| cg_Name := Some "home"; cg_AssociationKey := None |}));
   Admin toy_online toy_key (PostRegistrationToken home (Ok (toy_dto None)));
   Rpc toy_backend (RCompleteNodeRegistration "12121212");
   Admin toy_online toy_key (PostRegistrationToken home (Ok (toy_dto None)));
   Rpc toy_backend (RUpdateRoster roster1);
   Rpc toy_backend (RGetRoster home);
   Rpc toy_backend (RAuthenticateNode auth1)].
Definition second_calls : list call :=
  [Rpc toy_backend (RCompleteNodeRegistration "26262626");
   Rpc toy_backend (RDeregisterNode home 1);
   Rpc toy_backend (RAuthenticateNode auth1)].
Definition toy_life : list session := [("/srv/hub.db", first_calls); ("/srv/hub.db", second_calls)].
Definition toy_trace : list (call * answered) := Eval vm_compute in snd (life toy_empty toy_life).
Lemma toy_history : history toy_trace.
Proof. exists toy_life, 0%nat. vm_compute. reflexivity. Qed.

Lemma toy_opened_wf : wf_db canonical_id (db (fst toy_opened)).
Proof.
  eapply (steps_good _ emptyDB); [|apply wf_emptyDB].
  pose proof (steps_Open "/srv/hub.db" toy_empty) as Hs.
  assert (Open "/srv/hub.db" toy_empty = toy_opened) as HO by (vm_compute; reflexivity).
  rewrite HO in Hs. exact Hs.
Qed.
Lemma registry_refinement_witness :
  let '(w', tr) := dialogue (fst toy_opened) first_calls in
  length tr = 7%nat /\ explains (abs (db (fst toy_opened))) tr (abs (db w')).
Proof.
  pose proof (registry_refinement first_calls (fst toy_opened) toy_opened_wf) as Href.
  destruct (dialogue (fst toy_opened) first_calls) as [w' tr]. destruct Href as (_ & Hcs & Hex).
  split; [|exact Hex]. rewrite <-(length_fmap fst), Hcs. reflexivity.
Defined.
Lemma authentication_history_witness :
  toy_trace !! 6%nat = Some (Rpc toy_backend (RAuthenticateNode auth1), ToNode (Ok PEmpty)) /\
  enrolled (removes home 1) (take 6 toy_trace) home 1 (hashToken secret1).
Proof.
  split; [reflexivity|].
  destruct (authentication_history (take 6 toy_trace) toy_backend auth1 (Ok PEmpty) (drop 7 toy_trace))
    as [Hsound _]; [exact toy_history|].
  destruct (Hsound eq_refl) as (cg & Hcg & Hen). injection Hcg as <-. exact Hen.
Defined.
Lemma removal_final_witness :
  exists a, toy_trace !! 9%nat = Some (Rpc toy_backend (RAuthenticateNode auth1), ToNode a) /\ is_ok a = false.
Proof.
  eexists. split; [reflexivity|].
  eapply (removal_final (take 8 toy_trace) (Rpc toy_backend (RDeregisterNode home 1), ToNode (Ok PEmpty)) []
    toy_backend auth1 _ (drop 10 toy_trace) home (hashToken secret1));
    [exact toy_history|apply list_elem_of_lookup; exists 2%nat; reflexivity| | |reflexivity].
  - split_and!; vm_compute; reflexivity.
  - split; reflexivity.
Defined.
Lemma numbers_dense_witness :
  match toy_trace !! 7%nat with
  | Some (_, ToNode (Ok (PCompleteNodeRegistration x))) =>
      cr_NodeNumber x = 1 + Z.of_nat (registrations home (take 7 toy_trace)) /\ cr_NodeNumber x = 2
  | _ => False
  end.
Proof.
  cbn -[registrations]. split; [|reflexivity].
  eapply (numbers_dense (take 7 toy_trace) _ (drop 8 toy_trace) home); [exact toy_history|].
  split_and!; reflexivity.
Defined.
Lemma roster_history_witness :
  last_roster home (take 5 toy_trace) = (String (byte_of 1) "", 1).
Proof.
  destruct (roster_history (take 5 toy_trace) toy_backend (RGetRoster home)
    (PRoster {| gr_Roster := String (byte_of 1) ""; gr_Version := 1 |}) (drop 6 toy_trace)) as [Hget _];
    [exact toy_history|].
  destruct (Hget home _ eq_refl eq_refl) as (cg & Hcg & Hl). injection Hcg as <-. exact Hl.
Defined.

(** Another goroutine registers a node while a reset of the group waits for its
    last statement. *)
Definition at_home : World := Eval vm_compute in foldl run_call (fst toy_opened) (take 4 first_calls).
Lemma at_home_wf : wf_db canonical_id (db at_home).
Proof.
  assert (at_home = foldl run_call (fst toy_opened) (take 4 first_calls)) as -> by (vm_compute; reflexivity).
  eapply steps_good; [apply run_calls_steps|apply toy_opened_wf].
Qed.
Definition late_calls (t t' : nat) : list call :=
  if decide (t' = t) then [Rpc toy_backend (RCompleteNodeRegistration "26262626")] else [].
Definition late_registration (t : nat) : Others := crowd 1 (late_calls t).
#[local] Notation racing_reset t :=
  (answer_call (H0 := late_registration t) at_home
    (Admin toy_online toy_key (ResetConnectivityGroup home))).
Definition live_numbers (d : DB) : list Z := fst <$> live_nodes home d.

(** The reset succeeds, and the group has a node. *)
Lemma racing_reset_outcome :
  (snd (racing_reset 46), live_numbers (db (fst (racing_reset 46)))) = (ToAdmin (Ok GroupReset), [2]).
Proof. vm_compute. reflexivity. Qed.
Lemma calls_linearizable_witness : exists w',
  racing_reset 46 = (w', ToAdmin (Ok GroupReset)) /\ live_numbers (db w') = [2] /\
  phased (rtc registry_step)
    (phases (Admin toy_online toy_key (ResetConnectivityGroup home)) (ToAdmin (Ok GroupReset)))
    (abs (db at_home)) (abs (db w')).
Proof.
  pose proof (@calls_linearizable _ _ _ _ (late_registration 46) _
    (Admin toy_online toy_key (ResetConnectivityGroup home)) at_home at_home_wf) as Hlin.
  pose proof racing_reset_outcome as Hout. destruct (racing_reset 46) as [w' a]. injection Hout as -> Hlive.
  exists w'. split; [reflexivity|]. split; [exact Hlive|apply Hlin].
Defined.

(** The life of the state with a registration during the first session's calls
    by another goroutine. *)
Lemma database_invariant_witness :
  wf_db canonical_id (db (fst (@life _ (late_registration 44) _ _ _ _ (new_state 0) toy_life))).
Proof. exact (@database_invariant _ _ _ _ _ (late_registration 44) _ toy_life 0). Defined.
(** What the others did is in it: the second session's registration comes too late. *)
Example late_answers :
  is_ok <$> (omap (fun e => match e with (Rpc _ (RCompleteNodeRegistration _), ToNode a) => Some a | _ => None end)
    (snd (@life _ (late_registration 44) _ _ _ _ (new_state 0) toy_life))) = [true; false].
Proof. vm_compute. reflexivity. Qed.
Lemma concurrent_history_witness : exists ts ms,
  merges (snd (@life _ (late_registration 44) _ _ _ _ (new_state 0) toy_life) ≫= moments_of) ts ms /\
  Forall (fun m => crowd_made (late_calls 44) m.1) ts /\ truthful ms.
Proof.
  exact (@concurrent_history _ _ _ _ _ (late_registration 44) _ (crowd_made (late_calls 44)) _ toy_life 0).
Defined.
