(* ===== verification/HubDemo.v ===== *)
(** * A concrete node-facing service for the witnesses

    Buckets that count calls, a router on which every peer agrees, and the
    standalone backend of Demo.v behind them. *)
From S2P Require RoutingProps.
From S2P Require Import Prelude GoStrings GoEncoding GoTime TurnCreds Version Grpc BePb.
From S2P Require Import Attestation RosterPb Store StoreInv Platform Backend HubSrv HubProps Demo.
Open Scope Z_scope.

#[export] Instance toy_rate : RateLib := {
  bucket := nat;
  NewBucket := fun _ burst => Z.to_nat burst;
  bucket_Allow := fun _ b => match b with O => (false, O) | S b => (true, b) end
}.
#[export] Instance toy_hubpb : HubPb := {
  PairNodesMessage := Z;
  GetReceiverNodeNumber := fun n => n;
  StartConnectionRequest := Z;
  signed_payload := fun n => Ok (n, "QUIC");
  StartConnectionResponse := Z
}.
#[export] Instance toy_client : BackendClient World := standalone_client toy_backend.
Definition toy_answer : HubSrv.ServingResponse :=
  {| sp_Error := ""; sp_PairNodesMessage := Some 2; sp_EndorserSignature := Some "sig";
     sp_StartConnectionResponse := Some 2 |}.
#[export] Instance toy_router : RouterClient World := {
  exchange := fun _ _ s => (s, Ok toy_answer);
  isNodeConnected := fun _ _ n => n =? 1;
  Conn := Z;
  router_connect := fun _ n s => (s, Ok n);
  router_disconnect := fun _ s => s;
  stream_send := fun _ s => (s, Ok tt);
  conn_run := fun _ s => s;
  conn_evicted := fun _ _ => true;
  shed_start := fun _ _ _ s => s;
  shed_stop := fun _ s => s;
  shed_load := fun _ _ => false;
  clock := fun s => (now (tick s), {| db := db s; tick := S (tick s) |})
}.

Definition toy_ctx (token : string) : option metadata :=
  Some {[ "x-connectivity-group-id" := [toy_cg]; "x-node-number" := ["1"]; "x-auth-token" := [token] ]}.
Definition good_ctx : option metadata := Eval vm_compute in toy_ctx (cr_AuthToken toy_resp).
Definition bad_ctx : option metadata := Eval vm_compute in toy_ctx "guess".
Definition toy_state : HubState (S := World) := newHubState toy_registered.
Definition toy_srv : HubServer :=
  {| stunServer := "stun:3478"; turnServer := "turn:3478"; turnSecret := "s"; assignedShard := 0 |}.

Definition denied_state : HubState (S := World) := Eval vm_compute in
  fst (authenticateAndRateLimit bad_ctx toy_state).
Lemma authentication_first_witness :
  DeregisterNode bad_ctx toy_state = (denied_state, Err (Errorf Unauthenticated "invalid credentials")).
Proof.
  apply (authentication_first bad_ctx toy_state denied_state
    (Errorf Unauthenticated "invalid credentials")).
  vm_compute. reflexivity.
Defined.

Definition admitted_state : HubState (S := World) := Eval vm_compute in
  fst (authenticateAndRateLimit good_ctx toy_state).
Lemma authentication_sound_witness :
  exists md, good_ctx = Some md /\ getMetadataValue md "x-connectivity-group-id" = toy_cg.
Proof.
  destruct (authentication_sound good_ctx toy_state admitted_state toy_cg 1)
    as (md & _ & _ & Hctx & Hcg & _); [vm_compute; reflexivity|].
  exists md. split; [exact Hctx|exact Hcg].
Defined.

Lemma limiter_isolation_witness :
  fst (Allow (limiterKey "g0" 2) (now 0) (snd (Allow (limiterKey "g0" 1) (now 0) (NewLimiter 2 1)))) =
  fst (Allow (limiterKey "g0" 2) (now 0) (NewLimiter 2 1)).
Proof.
  apply (limiter_isolation "g0" 1 "g0" 2 (now 0) (now 0) (NewLimiter 2 1));
    [reflexivity|reflexivity|congruence].
Defined.

Definition toy_new_roster : Roster := "r".
Definition updated_state : HubState (S := World) := Eval vm_compute in
  fst (UpdateRoster status_msg good_ctx toy_new_roster toy_state).
Lemma toy_admitted : authenticateAndRateLimit good_ctx toy_state = (admitted_state, Ok (toy_cg, 1)).
Proof. vm_compute. reflexivity. Qed.
(** The roster is stored, and only the activity log is written after it. *)
Definition stored_world : World := Eval vm_compute in
  fst (be_UpdateRoster {| ur_ConnectivityGroupId := toy_cg; ur_Roster := "r"; ur_NewVersion := GetVersion toy_new_roster;
    ur_ExpectedVersion := GetVersion toy_new_roster - 1 |} (rest admitted_state)).
Lemma update_roster_sound_witness :
  exists kind, logActivity toy_cg 1 "roster_update" true (event (RosterUpdate_ kind))
    {| limiter := limiter admitted_state; rest := stored_world |} = (updated_state, Ok tt).
Proof.
  destruct (update_roster_sound status_msg good_ctx toy_new_roster toy_state updated_state (Ok toy_new_roster))
    as [(e & He & _)|(h1 & cg & caller & Hauth & Hup)]; [vm_compute; reflexivity|discriminate He|].
  rewrite toy_admitted in Hauth. injection Hauth as <- <- <-. vm_compute in Hup.
  destruct Hup as [_ [kind Hup]]. exists kind. vm_compute. exact Hup.
Defined.

Definition turn_state : HubState (S := World) := Eval vm_compute in
  fst (GetStunTurnConfig toy_srv good_ctx toy_state).
Definition turn_cfg : StunTurnConfig := Eval vm_compute in
  match snd (GetStunTurnConfig toy_srv good_ctx toy_state) with
  | Ok (Return cfg) => cfg
  | _ => stunOnly toy_srv
  end.
Definition turn_world : World := Eval vm_compute in fst (be_GetTurnPolicy toy_cg (rest admitted_state)).
Definition turn_expiry : Time := Eval vm_compute in
  Truncate_Second (time_Add (fst (clock turn_world)) (10 * Minute)).
Lemma turn_config_verifies_witness :
  GetStunTurnConfig toy_srv good_ctx toy_state = (turn_state, Ok (Return turn_cfg)) /\
  Verify "s" (cfg_TurnUsername turn_cfg) (cfg_TurnPassword turn_cfg) = credentialSpec "org-hub" 0 0 turn_expiry.
Proof.
  assert (GetStunTurnConfig toy_srv good_ctx toy_state = (turn_state, Ok (Return turn_cfg))) as Hg
    by (vm_compute; reflexivity).
  split; [exact Hg|].
  destruct (turn_config_verifies toy_srv good_ctx toy_state turn_state (Ok (Return turn_cfg)))
    as [(e & He & _)|(h1 & cg & n & Hauth & Hout)]; [|exact Hg|discriminate He|].
  - intros cg s s' p Hp. cbn in Hp. unfold GetTurnPolicy in Hp.
    apply ST_bind_Ok in Hp as (s1 & c & _ & Hp). apply ST_bind_Ok in Hp as (s2 & g & _ & [= _ <-]).
    split; reflexivity.
  - rewrite toy_admitted in Hauth. injection Hauth as <- <- <-.
    assert (be_GetTurnPolicy toy_cg (rest admitted_state) = (turn_world,
      Ok {| tp_Enabled := true; tp_FloorBps := 0; tp_CeilBps := 0; tp_OrganisationId := "hub" |})) as Hp
      by (vm_compute; reflexivity).
    assert (Truncate_Second (time_Add (fst (clock turn_world)) (10 * Minute)) = turn_expiry) as Ht
      by (vm_compute; reflexivity).
    rewrite Hp in Hout. change (bool_decide (turnServer toy_srv = "")) with false in Hout. cbv iota in Hout.
    cbn [negb tp_Enabled tp_OrganisationId tp_FloorBps tp_CeilBps] in Hout.
    destruct (clock turn_world) as [t s3]. cbn [fst] in Ht. rewrite Ht in Hout.
    destruct Hout as [_ (out & Hr & Hv)]. injection Hr as <-. apply Hv.
Defined.

Definition served : HubState (S := World) * result status unit := Eval vm_compute in
  StartServing toy_srv (0, 14, 0) 5 good_ctx toy_state.
Lemma serving_disconnects_witness :
  snd served = Err supersededStatus /\
  ((exists e, snd served = Err e /\ (authenticateAndRateLimit good_ctx toy_state = (fst served, Err e) \/
     exists cg n h1, router_connect cg n (rest h1) = (rest (fst served), Err e))) \/
   exists s4 (c : Conn), rest (fst served) = router_disconnect c s4).
Proof.
  split; [reflexivity|].
  destruct (serving_disconnects toy_srv (0, 14, 0) 5 good_ctx toy_state (fst served) (snd served))
    as [He|(h1 & cg & n & s2 & s3 & c & s4 & _ & _ & Hr & _)]; [vm_compute; reflexivity|left; exact He|].
  right. exists s4, c. exact Hr.
Defined.

Lemma identity_not_canonical_witness :
  limiterKey "G0" 1 <> limiterKey "g0" 1 /\
  Backend.AuthenticateNode {| an_ConnectivityGroupId := "G0"; an_NodeNumber := 1;
    an_AuthToken := cr_AuthToken toy_resp |} toy_registered =
  Backend.AuthenticateNode {| an_ConnectivityGroupId := "g0"; an_NodeNumber := 1;
    an_AuthToken := cr_AuthToken toy_resp |} toy_registered.
Proof.
  destruct (identity_not_canonical (H2 := RoutingProps.toy_pb) "G0" "g0" "g0" 1 (cr_AuthToken toy_resp) toy_registered)
    as (Hauth & Hkey & _); [vm_compute; reflexivity|vm_compute; reflexivity|discriminate|reflexivity|].
  split; [exact Hkey|exact Hauth].
Defined.
