(* ===== verification/RouterDemo.v ===== *)
(** * The whole hub on concrete inputs

    The hub of Demo.v with node 2 connected, a schedule on which node 2 answers
    a request while its caller waits, and one on which nobody else acts. *)
From S2P Require Import Prelude GoStrings GoEncoding GoTime TurnCreds Version Grpc BePb.
From S2P Require Import Attestation RosterPb Store StoreInv Platform Backend HubSrv HubProps.
From S2P Require Import Routing RoutingSteps HubRouter HubRouterProps Demo HubDemo.
Open Scope Z_scope.

Definition node2_answer : WireResponse :=
  {| wp_RequestId := 1; wp_CheckIn := false; wp_response := toy_answer |}.
Definition schedule (answers : nat -> list (string * action)) : Others := {|
  other_actions := answers;
  other_calls := fun _ => [];
  send_pick := fun _ => contextDone;
  send_returns := fun _ => true;
  ctx_err := fun _ => None;
  ctx_end := fun _ => Errorf DeadlineExceeded "context deadline exceeded";
  prefer_ctx := fun _ => true;
  welcome_err := fun _ => None;
  other_sheds := fun _ => []
|}.
(** Node 2 answers during the fourth wait. *)
#[local] Instance answering : Others :=
  schedule (fun k => if Nat.eqb k 3 then [(toy_cg, AResponse node2_answer)] else []).
Definition nobody : Others := schedule (fun _ => []).

Definition node2_hub : Hub := Eval vm_compute in
  act toy_cg (ARun 0) (act toy_cg AConnected (act toy_cg (AConnect 2) (newHub toy_registered))).
Lemma node2_ok : hub_ok node2_hub.
Proof.
  assert (node2_hub = act toy_cg (ARun 0) (act toy_cg AConnected (act toy_cg (AConnect 2)
    (newHub toy_registered)))) as -> by (vm_compute; reflexivity).
  apply act_ok, act_ok, act_ok, newHub_ok, toy_wf_registered.
Qed.
Definition to_node2 : HubSrv.ServingRequest :=
  {| sr_DestNodeNumber := 2; sr_SourceNodeNumber := 1; sr_Kind := KPairNodesMessage 2 |}.

Definition answered_hub : Hub := Eval vm_compute in fst (exchange toy_cg to_node2 node2_hub).
Lemma exchange_answer_witness :
  exchange toy_cg to_node2 node2_hub = (answered_hub, Ok toy_answer) /\
  exists t rq f, callers (session toy_cg answered_hub) !! t = Some (Returned rq f) /\
    wq_request rq = to_node2.
Proof.
  assert (exchange toy_cg to_node2 node2_hub = (answered_hub, Ok toy_answer)) as Hex
    by (vm_compute; reflexivity).
  split; [exact Hex|].
  destruct (exchange_answer toy_cg to_node2 node2_hub answered_hub (Ok toy_answer) node2_ok Hex)
    as (_ & t & rq & f & fr & Ht & Hreq & _).
  exists t, rq, f. split; [exact Ht|exact Hreq].
Defined.

Lemma exchange_delivers_witness :
  connectors (grp (session toy_cg node2_hub)) !! 2 = Some 0%nat /\
  snd (exchange toy_cg to_node2 node2_hub) = Ok toy_answer.
Proof.
  assert (connectors (grp (session toy_cg node2_hub)) !! 2 = Some 0%nat) as Hn by reflexivity.
  split; [exact Hn|].
  assert (connecting (session toy_cg node2_hub) = None) as Hlock by reflexivity.
  assert (forall i, (waits node2_hub <= i < 3 + waits node2_hub)%nat -> quiet i) as Hquiet.
  { intros i [_ Hi]. assert (waits node2_hub = 0%nat) as Hw by reflexivity. rewrite Hw in Hi.
    destruct i as [|[|[|i]]]; [split_and!; reflexivity..|exfalso; lia]. }
  assert (other_actions (3 + waits node2_hub) = [(toy_cg, AResponse node2_answer)]) as Ha
    by reflexivity.
  assert (wp_RequestId node2_answer = wrap64 (msgCounter (grp (session toy_cg node2_hub)) + 1)) as Hid
    by reflexivity.
  pose proof (exchange_delivers toy_cg to_node2 node2_hub node2_answer Hlock Hquiet (fun _ => eq_refl)
    Ha eq_refl Hid eq_refl) as Hx.
  change (sr_DestNodeNumber to_node2) with 2 in Hx. rewrite Hn in Hx. apply Hx.
  intros c [= <-]. eexists. split; [reflexivity|]. split; reflexivity.
Defined.

#[local] Instance toy_hub_client : BackendClient Hub := the_client toy_backend.
Definition toy_served : HubState (S := Hub) * result status unit :=
  StartServing toy_srv (0, 14, 0) 5 good_ctx (newHubState node2_hub).
Lemma serving_ends_offline_witness :
  snd toy_served = Ok () /\
  exists cg n c, made_for cg c n (rest (fst toy_served)) /\
    forall n', connectors (grp (session cg (rest (fst toy_served)))) !! n' <> Some c.
Proof.
  assert (snd toy_served = Ok ()) as Hr by (vm_compute; reflexivity).
  split; [exact Hr|].
  destruct (serving_ends_offline toy_backend toy_srv (0, 14, 0) 5 good_ctx (newHubState node2_hub)
    (fst toy_served) (snd toy_served)) as
    [(e & He & _)|(h1 & cg & n & h2 & h3 & _ & _ & _ & _ & Hmade & Hoff)];
    [exact node2_ok|apply surjective_pairing|rewrite Hr in He; discriminate He|].
  eexists cg, n, _. split; [exact Hmade|exact Hoff].
Defined.

(** Nobody else acts, and the caller does not know node 1's secret. *)
Lemma bad_ctx_not_authentic : ~ authentic bad_ctx (db toy_registered).
Proof.
  intros (md & cg & n & row & [= <-] & Hcg & Hn & Hrow & Hhash).
  vm_compute in Hcg. injection Hcg as <-. vm_compute in Hn. injection Hn as <-.
  vm_compute in Hrow. injection Hrow as <-. vm_compute in Hhash. discriminate Hhash.
Qed.
Lemma unauthenticated_no_effect_witness :
  exists e, snd (hub_serve (BackendClient0 := the_client (O := nobody) toy_backend)
      (RouterClient0 := hub_router (O := nobody)) toy_srv (0, 14, 0) status_msg (HDeregister bad_ctx)
      (newHubState (newHub toy_registered))) = Return (Some e).
Proof.
  destruct (unauthenticated_no_effect (O := nobody) toy_backend toy_srv (0, 14, 0) status_msg
    (HDeregister bad_ctx) bad_ctx (newHubState (newHub toy_registered))) as (e & He & _);
    [intros k; split_and!; reflexivity|reflexivity|exact bad_ctx_not_authentic|].
  exists e. exact He.
Defined.
