(* ===== verification/TenancyDemo.v ===== *)
(** * Two tenants on one hub

    The hub of RouterDemo.v with a second connectivity group, and calls of the
    first group's node: witnesses of the isolation theorems. *)
From S2P Require Import Prelude GoStrings GoEncoding GoTime TurnCreds Version Grpc BePb.
From S2P Require Import Attestation RosterPb Store StoreInv Platform Backend BackendSteps AdminProps Tenancy HubSrv HubProps.
From S2P Require Import Routing RoutingSteps HubRouter HubRouterProps HubTenancy Demo HubDemo RouterDemo.
Open Scope Z_scope.

#[local] Existing Instance answering.
#[local] Instance tenancy_client : BackendClient Hub := hub_client toy_backend.

(** Another group with one node. *)
Definition other_group : GroupRow :=
  {| g_name := Some "office"; g_association_key := None; g_next_node_number := 2; g_roster := "";
     g_roster_version := 0; g_created_at_millis := 5; g_deleted_at_millis := None |}.
Definition other_node : NodeRow :=
  {| nd_name := Some "spy"; nd_auth_token_hash := "h"; nd_metadata := None;
     nd_last_seen_at_millis := None; nd_created_at_millis := 6; nd_deleted_at_millis := None |}.
Definition crowded (d : DB) : DB :=
  let d := with_groups (<["g77" := other_group]> (groups d)) d in
  with_nodes (<[("g77", 1) := other_node]> (nodes d)) d.
Definition crowded_hub : Hub :=
  with_world {| db := crowded (db (world node2_hub)); tick := tick (world node2_hub) |} node2_hub.
Definition tenant_calls : list hub_call :=
  [HStartServing 5 good_ctx; HListNodes good_ctx; HListNodes bad_ctx; HPair good_ctx 2; HDeregister good_ctx].
Lemma toy_cg_parsed : uuid_Parse toy_cg = Some toy_cg.
Proof. vm_compute. reflexivity. Qed.
Lemma tenant_calls_own : Forall (tenant_call toy_cg) tenant_calls.
Proof.
  repeat constructor; eexists; (split; [reflexivity|]); intros md [= <-]; reflexivity.
Qed.
Lemma crowded_view : same_view toy_cg toy_cg node2_hub crowded_hub.
Proof.
  split; [reflexivity|reflexivity|reflexivity|]. split; [reflexivity|].
  etrans; [|by apply (so_tenants _ _ _ (others_with_nodes "g77" 1 other_node _))].
  by apply (so_tenants _ _ _ (others_with_group "g77" other_group _)).
Qed.

Lemma hub_integrity_witness :
  groups (db (world (rest (fst (hub_answers toy_srv (0, 14, 0) status_msg tenant_calls
    (newHubState crowded_hub)))))) !! "g77" = Some other_group.
Proof.
  assert (confined toy_cg toy_cg) as Hconf.
  { split; [intros k; constructor|]. intros k. split; [|constructor].
    cbn. destruct (Nat.eqb k 3); repeat constructor. }
  destruct (hub_integrity toy_cg toy_cg toy_cg_parsed toy_backend toy_srv (0, 14, 0) status_msg
    tenant_calls (newHubState crowded_hub) Hconf tenant_calls_own) as (Hrows & _).
  pose proof (st_group _ _ _ (so_tenants _ _ _ Hrows "g77" ltac:(discriminate))) as Hg.
  refine (eq_trans (eq_sym Hg) _). vm_compute. reflexivity.
Defined.

(** The office's nodes call the backend at every wait. *)
Definition neighbours : Others :=
  {| other_actions := other_actions;
     other_calls := fun _ => [Rpc toy_backend (RListNodes "g77"); Rpc toy_backend (RDeregisterNode "g77" 1)];
     send_pick := send_pick; send_returns := send_returns; ctx_err := ctx_err; ctx_end := ctx_end;
     prefer_ctx := prefer_ctx; welcome_err := welcome_err; other_sheds := other_sheds |}.
#[local] Existing Instance neighbours.
#[local] Instance neighbours_client : BackendClient Hub := hub_client toy_backend.
Lemma hub_confidentiality_witness :
  snd (hub_answers toy_srv (0, 14, 0) status_msg tenant_calls (newHubState node2_hub)) =
  snd (hub_answers toy_srv (0, 14, 0) status_msg tenant_calls (newHubState crowded_hub)).
Proof.
  assert (group_calls) as Hcalls by (intros k; repeat constructor; by eexists).
  apply (hub_confidentiality toy_cg toy_cg toy_cg_parsed toy_backend toy_srv (0, 14, 0) status_msg
    tenant_calls (newHubState node2_hub) (newHubState crowded_hub)
    Hcalls tenant_calls_own crowded_view).
  split; [reflexivity|]. split; reflexivity.
Defined.
