(* ===== verification/StandaloneDemo.v ===== *)
(** * A standalone hub with both its interfaces, run

    The hub of RouterDemo.v with node 1 connected and the API key of Demo.v:
    witnesses of the theorems of StandaloneHub.v. *)
From S2P Require Import Prelude GoStrings GoEncoding GoTime TurnCreds Version Grpc BePb IntegratorApi.
From S2P Require Import Attestation RosterPb Store StoreInv Platform Backend AdminApi AdminProps AdminRoutes.
From S2P Require Import Routing RoutingSteps HubSrv HubRouter HubRouterProps StandaloneHub.
From S2P Require Import Demo HubDemo RouterDemo AdminDemo.
Open Scope Z_scope.

#[local] Existing Instance answering.
Definition toy_get : HTTPRequest :=
  {| hr_method := GET; hr_path := "/api/v1/connectivity-groups/g0"; hr_authorization := toy_key;
     hr_associationKey := ""; hr_body := "" |}.
Definition toy_traffic : list traffic :=
  [NodeCall (HListNodes good_ctx); RestCall toy_get; NodeCall (HStartServing 5 good_ctx);
   RestCall (toy_delete "Bearer nobody"); NodeCall (HRegister toy_secret2)].
Notation toy_after := (rest (foldl (serve_one toy_backend "{}" toy_srv status_msg (0, 14, 0))
  (newHubState (newHub toy_registered)) toy_traffic)) (only parsing).
Lemma standalone_sound_witness :
  panicked toy_after = false /\ forall cg, ConnectedNodes toy_after cg = [].
Proof.
  assert (forall k cg n, (cg, AConnect n) ∉ other_actions k) as Halone.
  { intros k cg n. cbn. destruct (Nat.eqb k 3); [|apply not_elem_of_nil].
    intros [[=]|[]%not_elem_of_nil]%elem_of_cons. }
  destruct (standalone_sound toy_backend "{}" toy_srv status_msg (0, 14, 0) toy_traffic toy_registered
    toy_wf_registered eq_refl) as [Hp Hc].
  split; [exact Hp|]. intros cg. exact (proj2 (Hc Halone cg)).
Defined.

(** Node 1 is connected, and the admin API's key is stored. *)
Definition keyed_world : World := Eval vm_compute in
  {| db := with_api_keys (api_keys (db (fst toy_opened))) (db toy_registered); tick := tick toy_registered |}.
Definition node1_hub : Hub := Eval vm_compute in
  act toy_cg AConnected (act toy_cg (AConnect 1) (newHub keyed_world)).
Definition toy_detail : Hub * result httpError answer := Eval vm_compute in rest_serve "{}" toy_get node1_hub.
Definition detail_of (a : result httpError answer) : option GroupDetail :=
  match a with Ok (AdminRoutes.Answer (Detail d)) => Some d | _ => None end.
(** Node 1 is shown as online. *)
Example node1_online :
  (n_IsOnline <$> default [] (gd_Nodes <$> detail_of (snd toy_detail))) = [Some true].
Proof. vm_compute. reflexivity. Qed.
